(* ===== verification/_CoqProject ===== *)
-Q . S2P
Prelude.v
Heap.v
Checksum.v
Sha1.v
PacketQueue.v
HashTable.v
MysockTypes.v
TcpSum.v
TcpIo.v
Mysock.v
Demux.v
Backlog.v
Lifecycle.v
StcpApi.v
MysockApi.v
CString.v
Layout.v
Inet.v
TcpHeader.v
ArpCache.v
SrIf.v
SrRt.v
SrDumper.v
SrInstance.v
Protocol.v
Router.v
SrPrint.v
ProxyHeaders.v
ProxyParse.v
Proxy.v
ProxyMain.v
VnsComm.v
VnsMessages.v
SrMain.v
FileTransfer.v
AppLibrary.v
CommandLine.v
Talk.v
