(* ===== verification/Prelude.v ===== *)
(** * Computer-networks assignments: a verification library

    The repository holds a small network stack in C, one assignment per
    directory.  This library models it and proves what its parts do.  Paths
    below are relative to [src/].

    ** The program

    - Assignment 3, a reliable transport interface ("mysocket") over a real
      TCP or UDP network.  Applications call [mysock_api.c]; a descriptor
      stands for a context ([mysock.c]) with packet queues in both directions
      and an event mask; a transport thread per context ([transport.c]) talks
      to both sides through [stcp_api.c]; [connection_demux.c] keeps a queue
      of pending and completed connections per listening context, in a hash
      table (the macros of [mysock_hash.h]); packets go out and come in through
      [network_io*.c], checksummed by [tcp_sum.c].
    - Assignment 2, a router: [sr_vns_comm.c] exchanges frames with a server,
      [sr_router.c] handles them using an ARP cache ([sr_arpcache.c]), an
      interface list ([sr_if.c]) and a routing table ([sr_rt.c]); it
      authenticates with [sha1.c]; [sr_main.c] starts it and runs its loop.
    - Assignment 1, an HTTP proxy ([proxy.c]) and the parser of its requests
      ([proxy_parse.c]).
    - Assignment 0, a client that sends its input and a server that prints what
      it is sent.

    ** Files

    - [Prelude.v] (this file): outcomes of C code, integers, byte strings,
      arrays and counted loops.  [Heap.v]: C objects, linked lists.
      [CString.v]: NUL-terminated strings and numbers in them.  [Layout.v]:
      layouts of C structures, as encoders and decoders with the laws of the
      class [LayoutLaws].  [Inet.v]: hexadecimal and dotted-decimal text.
    - [PacketQueue.v]: the packet queues of [mysock.c].
      [HashTable.v]: [mysock_hash.h], as an instance of the class
      [KeyedTable] that [Demux.v] uses.
    - [MysockTypes.v]: the contexts, the network layer's records and the state
      monad.  [TcpIo.v]: [network_io.c], [network_io_socket.c] and
      [network_io_tcp.c].  [TcpSum.v]: [tcp_sum.c].
    - [Mysock.v]: descriptors and contexts ([mysock.c], [network.c]).
      [Demux.v]: [connection_demux.c] and the receive thread; [Backlog.v]: what
      its [_mysock_set_backlog] establishes; [Lifecycle.v]: its specification,
      an abstract [listener], and the refinement.
      [StcpApi.v]: [stcp_api.c] and [transport.c].  [TcpHeader.v]:
      [transport.h].
      [MysockApi.v]: [mysock_api.c].
    - [Sha1.v]: [sha1.c].  [Checksum.v]: [cksum] of [sr_utils.c].
      [ArpCache.v], [SrIf.v], [SrRt.v]: the router's tables.
      [SrInstance.v]: the router's state, and sending.  [Router.v]:
      [sr_handlepacket].  [VnsComm.v]: the session with the server
      ([sr_vns_comm.c]).  [SrMain.v]: start-up and the main loop.
      [Protocol.v]: [sr_protocol.h], and the fields the router reads in a
      frame.  [VnsMessages.v]: [vnscommand.h].
      [SrPrint.v]: what [sr_utils.c], [sr_router.c], [sr_if.c], [sr_rt.c] and
      [sr_arpcache.c] print.  [SrDumper.v]: the packet log ([sr_dumper.c],
      [sr_log_packet]), which [SrInstance.v], [VnsComm.v] and [SrMain.v] call.
    - [ProxyHeaders.v]: the request object, its header table and printing;
      [ProxyParse.v]: parsing ([proxy_parse.c]).  [Proxy.v]: [client_helper] of
      [proxy.c]; [ProxyMain.v]: its listening process.
    - [FileTransfer.v]: the applications of Assignment 3, [client.c] and
      [server.c]; [AppLibrary.v]: the same over the mysocket layer of
      [MysockApi.v].  [Talk.v]: the programs of Assignment 0.
    - [CommandLine.v]: [getopt] and the command lines of the router and of the
      applications of Assignment 3.

    Definitions keep the names of the C functions; a part of a function that
    has its own definition (a loop, a branch) has a name that says what it
    does and a comment that quotes the code.

    ** Conventions

    A C function is a function to [run A]: [Ok] with its result, or [Crash]
    with the reason its defined behaviour ends there.  A failed assertion is
    [Abort]: the Makefiles do not define [NDEBUG].  A wait on a condition
    variable whose condition is false is [Blocks], in the state it leaves;
    the thread continues when another one has made the condition true.
    Concurrency is a sequence of steps, and theorems that speak of
    interleavings quantify over these sequences.  A step is the body of a
    critical section and, where code goes on after unlocking, that code:
    [_mysock_dequeue_buffer] is [dequeue_locked] and [dequeue_copy], with
    enqueues in between.  The functions of [connection_demux.c] are single
    steps, although a read lock, which they share, does not keep them apart:
    [listener_refines] is about executions in which they follow one another,
    and [accept_overlap_aborts] shows what an overlap can do.  [myclose] and
    [myconnect] are cut where they wait; [myclose] is also defined whole, with
    the transport threads that never return, and [connect_now] of
    [AppLibrary.v] in the schedule in which the new thread runs first.

    Objects live in [heap]s with an explicit allocator, one heap per type of
    object; a freed address is never reused, so that a dangling access is
    seen.  Fields that may be read before they are set are options, and a
    write through a pointer that was never set is [Uninit].  Machine integers
    are [Z] with the wrap-around of the operations written out ([u8], [u16],
    [u32], [i32]); the machine is little-endian, as x86-64 and arm64 are.
    [malloc] succeeds unless a definition takes its outcome as an argument.
    Calls that only print text of their own have no counterpart where they
    occur.  Where what they print can fail, the call is modelled for its
    failures: the assertion in [_debug_print_connection], texts read to a
    terminator that may be missing ([str_of]), the interfaces and the routing
    table ([SrPrint.v], which gives the texts).  Printing a frame with
    [print_hdrs] has no counterpart in [sr_handlepacket]: [print_hdrs_safe]
    shows that it always ends within the frame.  [printf] prints "(null)" for
    a NULL string, as the C library of Linux does, although C leaves it
    undefined ([ParsedRequest_parse]).  Memory that an object owns and that is
    allocated and freed with it is part of the object (the buffers of a
    [sr_packet], the data of a queue node).  Operating-system
    calls ([send], [recv], [socket], ...) are the operations of type classes, one
    per program: [OS] and [StreamOS] under the mysocket library, [Server],
    [VnsOS], [SrOS] and [LogOS] under the router, [ProxyOS] and [ProxyMainOS]
    under the proxy, [TalkOS] under Assignment 0; the name of the host and its
    addresses are a [resolver], and files and standard input of the
    file-transfer programs are [FileOS]; theorems
    about a stream use an instance or a law that states what POSIX says
    ([stream_reads], [session_server], [arrives], [talk_client], [file_world],
    ...), and each law has an instance in its file.  The file-transfer programs
    see the mysocket calls through the class [AppOS].  Its instance [library]
    is the layer of this repository; [library_world] proves the laws
    [app_world] of it, for a stream that is passed up in messages of one or two
    bytes; a longer message, read byte by byte as [get_nvt_line] does, runs into
    the overlapping copy that [queue_refines] states.  Thread creation and the
    scheduler are not modelled.  That a [send] on a broken connection ends the
    program by a signal is modelled in [Talk.v] only; elsewhere it returns.

    ** Fuel

    Loops over linked objects take the number of objects of the heap plus one
    ([walk_last], [walk_find], [find_entry], [last_completed]); the theorems
    prove that this is enough whenever the list is well formed, so [Fuel] is
    never the outcome.  [_tcp_io] takes the number of bytes asked for, of which
    each turn moves at least one.  [fgets] and [load_lines] take the length of
    the file.  [SHA1Input] is recursive on its input.  [headers_loop] takes the
    length of the text and [get_from] the number of headers; [parse_ends] shows
    that no input exhausts them.  [read_all], [get_nvt_line], [send_file],
    [receive_file], [recv_request] and [relay] move at least one byte, one
    piece or one interruption per turn, and their theorems ask for fuel in
    proportion, as do those of [send_loop] and [copy_loop]; [main_loop],
    [do_connection] and [loop_until_end] take one turn per command or request.
    [accept_loop] and [proxy_loop] never end: their first argument is the number
    of turns after which the state is looked at, and the theorems hold for all.  Where a loop of these waits for a peer that has
    closed its end, the theorem states that no fuel is enough.  [control_loop] never
    ends, which [control_loop_never_returns] states for every fuel;
    [requests_loop] of [Router.v] does not advance its pointer; it is never
    reached, since [find_rt_dest] returns no route, and its fuel is an argument
    of [handle_ip] about which the theorems suppose nothing.

    ** Theorems

    - Containers refine their abstract counterparts: [queue_refines] and
      [queue_byte_stream] (a list of messages, a byte stream),
      [hash_table_refines] (a finite map), [arp_requests_refine] (pending
      requests with their packets), [interfaces_refine],
      [headers_refine] (an association list).  Each shows
      that every operation keeps the representation, frees what it must and
      never faults.
    - Connections: [new_mysocket_correct] (descriptors);
      [enqueue_connection_correct] and [accept_queue_fifo] (one SYN; any
      accepts), [first_backlog_correct] and [backlog_growth] (the queue they
      work on); [listener_refines] and [listening_socket_correct] put them
      together: from its first backlog on, a listening socket is the abstract
      [listener] in any execution of turns of the receive thread, handshakes
      and accepts, up to the connection after a dropped segment, at which the
      thread aborts.
    - Data: [myread_stream_then_eof] and [app_data_stream] (bytes arrive in
      order, once; the latter while no read takes less than half of a message), [tcp_framing_roundtrip] (packets over a stream),
      [network_send_verifies] and [tcp_checksum_correct] (a sent segment
      passes the peer's check), [segment_header_sent] (with the header fields it
      was given), [wait_for_event_correct].
    - Algorithms against their definition: [SHA1Hash_correct] (FIPS 180),
      [cksum_correct], [load_rt_roundtrip], [unparse_correct].
    - Representations: [headers_typed] and [messages_are_structs] (the bytes the
      router reads and writes are the structures of its header files),
      [tcp_images] (so is the transport header),
      [dump_readable] (the log is a savefile), [addresses_agree] and
      [routing_table_printed] (what is printed can be read back).
    - HTTP requests: [parse_unparse] (parsing inverts printing and leaks
      nothing), [parse_ends] (every input), [parse_errors], [header_line].
    - Whole programs: [transfer_over_library] (a file arrives as it is, over
      the mysocket layer), [server_correct] and [client_correct] (over any
      layer that keeps [app_world]), [talk_correct] (so does a message), [command_lines_read], [proxy_forwards] and [proxy_loop_correct],
      [connect_correct], [read_from_server_correct] and [hwinfo_correct] (the
      router's session), [main_loop_correct] and [main_correct] (all the router
      does in its life).
    - Errors and limits: [api_errors], [recv_packet_errors],
      [get_context_total], [SHA1_misuse], [send_packet_correct],
      [verify_routing_table_correct], [auth_request_correct],
      [nvt_line_correct], [parse_address_correct], [main_statuses],
      [proxy_refuses].
    - Behaviour the program did not mean to have, stated as it is:
      [handlepacket_byte_order], [arp_handling], [ip_packets_classified] (which
      branch every IP packet takes, and that none sends),
      [packets_from_server], [find_rt_dest_never_finds], [arp_timeout_turn],
      [accept_overlap_aborts], [control_loop_never_returns].

    ** Not modelled

    Calls that print and cannot fail (see above);
    [our_dprintf] and [debug], which only print; the start of threads; IP
    paths of [sr_router.c] beyond their first write through an uninitialised
    pointer, where C gives the program no meaning; the Python and POX scripts
    around the router. *)

From stdpp Require Export prelude gmap strings list.
#[global] Open Scope Z_scope.

(** ** Outcomes of C code

    A modelled C function either returns a value or stops the program's
    defined behaviour.  [Abort] is a failed [assert] (or an explicit
    [abort]); [Blocks] marks a wait on a condition variable whose condition
    is false, with the state unchanged; the others are undefined behaviour
    of the C abstract machine, named by their cause. *)

Inductive fault : Set :=
| Abort        (* assert(0), abort() *)
| NullPtr      (* dereference of NULL *)
| Dangling     (* access to freed or unallocated memory *)
| Uninit       (* use of an uninitialised object *)
| OutOfRange   (* array access outside the object *)
| Overlap      (* memcpy between overlapping regions *)
| IntOverflow  (* signed integer overflow *)
| Blocks       (* not an error: the thread waits for another thread *)
| Fuel.        (* the fuel of a modelled loop ran out; proved unreachable *)

Inductive run (A : Type) : Type :=
| Ok (a : A)
| Crash (f : fault).
Arguments Ok {A} _.
Arguments Crash {A} _.

#[global] Instance fault_eq_dec : EqDecision fault.
Proof. solve_decision. Defined.
#[global] Instance run_eq_dec `{EqDecision A} : EqDecision (run A).
Proof. solve_decision. Defined.

#[global] Instance run_ret : MRet run := @Ok.
#[global] Instance run_bind : MBind run := fun _ _ k m =>
  match m with Ok a => k a | Crash f => Crash f end.
#[global] Instance run_fmap : FMap run := fun _ _ g m =>
  match m with Ok a => Ok (g a) | Crash f => Crash f end.

(** [assert(b)] *)
Definition c_assert (b : bool) : run unit := if b then Ok tt else Crash Abort.

(** Reading a value that must exist: the failing side is the fault [f]. *)
Definition need {A} (f : fault) (o : option A) : run A :=
  match o with Some a => Ok a | None => Crash f end.

Definition returns {A} (m : run A) : Prop := exists a, m = Ok a.

Lemma bind_ok {A B} (m : run A) (k : A -> run B) b :
  (m ≫= k) = Ok b <-> exists a, m = Ok a /\ k a = Ok b.
Proof. destruct m; cbn; naive_solver. Qed.

Lemma bind_crash {A B} (m : run A) (k : A -> run B) f :
  (m ≫= k) = Crash f <->
  m = Crash f \/ exists a, m = Ok a /\ k a = Crash f.
Proof. destruct m; cbn; naive_solver. Qed.

Lemma c_assert_true b : b = true -> c_assert b = Ok tt.
Proof. by intros ->. Qed.

Abbreviation zlen l := (Z.of_nat (length l)).

(** ** Bytes and byte order

    A byte is a [Z] in [0, 256).  The modelled host is little-endian (the
    Linux builds of both Makefiles define the little-endian layouts);
    network order is big-endian. *)

Definition is_byte (b : Z) : Prop := 0 <= b < 256.
#[global] Instance is_byte_dec b : Decision (is_byte b).
Proof. unfold is_byte. apply _. Defined.

Definition u8  (z : Z) : Z := z mod 2 ^ 8.
Definition u16 (z : Z) : Z := z mod 2 ^ 16.
Definition u32 (z : Z) : Z := z mod 2 ^ 32.
Definition u64 (z : Z) : Z := z mod 2 ^ 64.

Fixpoint le_val (l : list Z) : Z :=
  match l with [] => 0 | b :: l => b + 256 * le_val l end.
Fixpoint le_bytes (n : nat) (z : Z) : list Z :=
  match n with O => [] | S n => z mod 256 :: le_bytes n (z / 256) end.
Definition be_val (l : list Z) : Z := le_val (rev l).
Definition be_bytes (n : nat) (z : Z) : list Z := rev (le_bytes n z).

(** [htons]/[ntohs] and [htonl]/[ntohl] on a little-endian host: the value
    whose memory image is the big-endian image of the argument. *)
Definition htons (z : Z) : Z := le_val (be_bytes 2 z).
Definition htonl (z : Z) : Z := le_val (be_bytes 4 z).
Definition ntohs (z : Z) : Z := htons z.
Definition ntohl (z : Z) : Z := htonl z.

(** Signed [int32_t] arithmetic: overflow is undefined. *)
Definition i32 (z : Z) : run Z :=
  if decide (- 2 ^ 31 <= z < 2 ^ 31) then Ok z else Crash IntOverflow.

(** Conversion of an unsigned value to [int]. *)
Definition to_int (z : Z) : Z := (z + 2 ^ 31) mod 2 ^ 32 - 2 ^ 31.

Lemma to_int_small z : 0 <= z < 2 ^ 31 -> to_int z = z.
Proof. intros Hz. unfold to_int. rewrite Z.mod_small by lia. lia. Qed.

Lemma u32_to_int z : 0 <= z < 2 ^ 32 -> u32 (to_int z) = z.
Proof.
  intros Hz. unfold u32, to_int. rewrite Zminus_mod_idemp_l. rewrite Z.mod_small by lia. lia.
Qed.

(** The bytes of a string literal. *)
Fixpoint bytes_of (s : string) : list Z :=
  match s with
  | EmptyString => []
  | String a s => Z.of_N (Ascii.N_of_ascii a) :: bytes_of s
  end.

Lemma u32_range z : 0 <= u32 z < 2 ^ 32.
Proof. unfold u32. apply Z.mod_pos_bound. lia. Qed.
Lemma u16_range z : 0 <= u16 z < 2 ^ 16.
Proof. unfold u16. apply Z.mod_pos_bound. lia. Qed.
Lemma u32_small z : 0 <= z < 2 ^ 32 -> u32 z = z.
Proof. apply Z.mod_small. Qed.
Lemma u16_small z : 0 <= z < 2 ^ 16 -> u16 z = z.
Proof. apply Z.mod_small. Qed.

Lemma length_le_bytes n z : length (le_bytes n z) = n.
Proof. revert z. induction n; intros; cbn; auto. Qed.
Lemma length_be_bytes n z : length (be_bytes n z) = n.
Proof. unfold be_bytes. by rewrite length_rev, length_le_bytes. Qed.

Lemma le_bytes_is_byte n z : Forall is_byte (le_bytes n z).
Proof.
  revert z. induction n; intros; cbn; constructor; auto.
  unfold is_byte. apply Z.mod_pos_bound. lia.
Qed.
Lemma be_bytes_is_byte n z : Forall is_byte (be_bytes n z).
Proof. unfold be_bytes. apply Forall_rev, le_bytes_is_byte. Qed.

Lemma le_val_range l : Forall is_byte l -> 0 <= le_val l < 256 ^ zlen l.
Proof.
  induction 1 as [|b l Hb _ IH]; cbn [le_val length]; [lia|].
  unfold is_byte in Hb. rewrite Nat2Z.inj_succ, Z.pow_succ_r by lia. nia.
Qed.

Lemma le_val_bytes n z : le_val (le_bytes n z) = z mod 256 ^ Z.of_nat n.
Proof.
  revert z. induction n as [|n IH]; intros z; cbn [le_val le_bytes].
  { by rewrite Z.mod_1_r. }
  rewrite IH, Nat2Z.inj_succ, Z.pow_succ_r by lia.
  rewrite Z.rem_mul_r by lia. lia.
Qed.

Lemma le_bytes_val l : Forall is_byte l -> le_bytes (length l) (le_val l) = l.
Proof.
  induction 1 as [|b l Hb _ IH]; cbn [le_val le_bytes length]; [done|].
  unfold is_byte in Hb. rewrite (Z.mul_comm 256), Z.mod_add by lia.
  rewrite Z.div_add, Z.div_small, Z.mod_small by lia. by rewrite Z.add_0_l, IH.
Qed.

Lemma be_val_bytes n z : be_val (be_bytes n z) = z mod 256 ^ Z.of_nat n.
Proof. unfold be_val, be_bytes. by rewrite rev_involutive, le_val_bytes. Qed.

Lemma be_bytes_val l : Forall is_byte l -> be_bytes (length l) (be_val l) = l.
Proof.
  intros H. unfold be_val, be_bytes. rewrite <- length_rev, le_bytes_val.
  - apply rev_involutive.
  - by apply Forall_rev.
Qed.

Lemma be_val_range l : Forall is_byte l -> 0 <= be_val l < 256 ^ zlen l.
Proof.
  intros. unfold be_val. rewrite <- length_rev. by apply le_val_range, Forall_rev.
Qed.

Lemma htons_range z : 0 <= htons z < 2 ^ 16.
Proof.
  unfold htons. pose proof (le_val_range _ (be_bytes_is_byte 2 z)) as H.
  rewrite length_be_bytes in H. exact H.
Qed.

Lemma htons_involutive z : 0 <= z < 2 ^ 16 -> htons (htons z) = z.
Proof.
  intros Hz. unfold htons at 1, be_bytes.
  pose proof (le_bytes_val _ (be_bytes_is_byte 2 z)) as Hb.
  rewrite length_be_bytes in Hb. unfold htons. rewrite Hb.
  unfold be_bytes. rewrite rev_involutive, le_val_bytes. by apply Z.mod_small.
Qed.

Lemma htonl_involutive z : 0 <= z < 2 ^ 32 -> htonl (htonl z) = z.
Proof.
  intros Hz. unfold htonl at 1, be_bytes.
  pose proof (le_bytes_val _ (be_bytes_is_byte 4 z)) as Hb.
  rewrite length_be_bytes in Hb. unfold htonl. rewrite Hb.
  unfold be_bytes. rewrite rev_involutive, le_val_bytes. by apply Z.mod_small.
Qed.

Lemma bytes_of_is_byte s : Forall is_byte (bytes_of s).
Proof.
  induction s as [|a s IH]; cbn [bytes_of]; constructor; auto.
  unfold is_byte. pose proof (Ascii.N_ascii_bounded a). lia.
Qed.

(** ** Arrays indexed by C integers *)

(** [a[i]] and [a[i] = x] with the bounds check the language leaves
    undefined. *)
Definition arr_get {A} (a : list A) (i : Z) : run A :=
  if decide (0 <= i) then need OutOfRange (a !! Z.to_nat i) else Crash OutOfRange.
Definition arr_set {A} (a : list A) (i : Z) (x : A) : run (list A) :=
  if decide (0 <= i < zlen a) then Ok (<[Z.to_nat i := x]> a)
  else Crash OutOfRange.

Lemma arr_get_ok {A} (a : list A) i x :
  0 <= i -> a !! Z.to_nat i = Some x -> arr_get a i = Ok x.
Proof. intros Hi Hx. unfold arr_get. by rewrite decide_True, Hx by done. Qed.

Lemma arr_set_ok {A} (a : list A) i x :
  0 <= i < zlen a -> arr_set a i x = Ok (<[Z.to_nat i := x]> a).
Proof. intros. unfold arr_set. by rewrite decide_True by done. Qed.

(** Overwriting two bytes with the little-endian image of [v]. *)
Definition put2 (off : nat) (v : Z) (p : list Z) : list Z :=
  take off p ++ le_bytes 2 v ++ drop (S (S off)) p.

Lemma length_put2 off v p : (off + 2 <= length p)%nat -> length (put2 off v p) = length p.
Proof.
  intros. unfold put2. rewrite !length_app, length_take_le, length_drop, length_le_bytes by lia. lia.
Qed.

(** Lengths of nested [put2]s. *)
Ltac len_put2 := first [lia | rewrite length_put2 by len_put2; len_put2].

Lemma put2_bytes off v p : Forall is_byte p -> Forall is_byte (put2 off v p).
Proof.
  intros. unfold put2. repeat apply Forall_app_2;
    [by apply Forall_take|apply le_bytes_is_byte|by apply Forall_drop].
Qed.

Lemma store2_ok p off v : (off + 2 <= length p)%nat -> 0 <= v < 65536 ->
  (match arr_set p (Z.of_nat off) (v mod 256) with
   | Ok q => arr_set q (Z.of_nat off + 1) (v / 256)
   | Crash f => Crash f
   end) = Ok (put2 off v p).
Proof.
  intros Hp Hv. rewrite arr_set_ok by lia. rewrite arr_set_ok by (rewrite length_insert; lia).
  f_equal. rewrite Nat2Z.id. replace (Z.to_nat (Z.of_nat off + 1)) with (S off) by lia.
  unfold put2. cbn [le_bytes]. rewrite (Z.mod_small (v / 256)) by (Z.div_mod_to_equations; lia).
  apply list_eq. intros i. destruct (decide (i = off)) as [->|Hi];
    [|destruct (decide (i = S off)) as [->|Hi']].
  - rewrite list_lookup_insert_ne, list_lookup_insert_eq by lia.
    rewrite lookup_app_r by (rewrite length_take; lia).
    rewrite length_take_le by lia. by rewrite Nat.sub_diag.
  - rewrite list_lookup_insert_eq by (rewrite length_insert; lia).
    rewrite lookup_app_r by (rewrite length_take; lia). rewrite length_take_le by lia.
    by replace (S off - off)%nat with 1%nat by lia.
  - rewrite !list_lookup_insert_ne by lia. destruct (decide (i < off)%nat).
    + rewrite lookup_app_l by (rewrite length_take; lia). by rewrite lookup_take_lt by lia.
    + rewrite lookup_app_r by (rewrite length_take; lia). rewrite length_take_le by lia.
      rewrite lookup_app_r by (cbn; lia). rewrite lookup_drop. f_equal. cbn [length]. lia.
Qed.

(** Arrays with automatic storage start uninitialised: [None] is a slot
    never written. *)
Definition arr_read {A} (a : list (option A)) (i : Z) : run A :=
  o ← arr_get a i; need Uninit o.

(** An array of [n] slots whose first [length p] slots hold [p]. *)
Definition written {A} (p : list A) (n : nat) : list (option A) :=
  (Some <$> p) ++ replicate (n - length p) None.

Lemma written_read {A} (p : list A) n i x :
  p !! Z.to_nat i = Some x -> 0 <= i -> arr_read (written p n) i = Ok x.
Proof.
  intros Hx Hi. unfold arr_read, written.
  rewrite (arr_get_ok _ _ (Some x)); [done|done|].
  rewrite lookup_app_l by (rewrite length_fmap; by eapply lookup_lt_Some).
  by rewrite list_lookup_fmap, Hx.
Qed.

Lemma written_set {A} (p : list A) n i x :
  i = zlen p -> (length p < n)%nat -> arr_set (written p n) i (Some x) = Ok (written (p ++ [x]) n).
Proof.
  intros -> Hn. unfold written. rewrite arr_set_ok by (rewrite length_app, length_fmap, length_replicate; lia).
  f_equal. rewrite Nat2Z.id, insert_app_r_alt by (by rewrite length_fmap).
  rewrite length_fmap, Nat.sub_diag, fmap_app, <- app_assoc. f_equal.
  rewrite length_app. cbn [length].
  by replace (n - length p)%nat with (S (n - (length p + 1))) by lia.
Qed.

(** [for (i = lo; i < lo + n; i++) body] *)
Fixpoint for_from {S} (n : nat) (i : Z) (body : Z -> S -> run S) (s : S) : run S :=
  match n with
  | O => Ok s
  | Datatypes.S n => s' ← body i s; for_from n (i + 1) body s'
  end.

Lemma for_from_inv {S} (I : Z -> S -> Prop) (body : Z -> S -> run S) n lo s :
  (forall i s, lo <= i < lo + Z.of_nat n -> I i s -> exists s', body i s = Ok s' /\ I (i + 1) s') ->
  I lo s -> exists s', for_from n lo body s = Ok s' /\ I (lo + Z.of_nat n) s'.
Proof.
  revert lo s. induction n as [|n IH]; intros lo s Hb HI; cbn [for_from].
  - exists s. by rewrite Z.add_0_r.
  - destruct (Hb lo s) as (s' & -> & HI'); [lia|done|]. cbn.
    destruct (IH (lo + 1) s') as (s'' & -> & HI''); [|done|].
    + intros i t Hi. apply Hb. lia.
    + exists s''. by replace (lo + Z.of_nat (Datatypes.S n)) with (lo + 1 + Z.of_nat n) by lia.
Qed.

(** ** Bits *)

Lemma lor_shiftl_add hi lo n :
  0 <= n -> 0 <= lo < 2 ^ n -> Z.lor (Z.shiftl hi n) lo = hi * 2 ^ n + lo.
Proof.
  intros Hn Hlo.
  pose proof (Z.add_lor_land (Z.shiftl hi n) lo) as Hl.
  assert (Z.land (Z.shiftl hi n) lo = 0) as Hz.
  { apply Z.bits_inj'. intros k Hk. rewrite Z.land_spec, Z.bits_0, Z.shiftl_spec by done.
    destruct (decide (k < n)).
    - by rewrite Z.testbit_neg_r by lia.
    - destruct (decide (lo = 0)) as [->|]; [by rewrite Z.bits_0, andb_false_r|].
      rewrite (Z.bits_above_log2 lo), andb_false_r; [done|lia|].
      apply Z.log2_lt_pow2; [lia|]. pose proof (Z.pow_le_mono_r 2 n k). lia. }
  rewrite Hz in Hl. rewrite Z.shiftl_mul_pow2 in * by lia. lia.
Qed.

Lemma land_ffffffff z : Z.land z 0xFFFFFFFF = u32 z.
Proof. change 0xFFFFFFFF with (Z.ones 32). by rewrite Z.land_ones by lia. Qed.
Lemma land_ff z : Z.land z 0xFF = u8 z.
Proof. change 0xFF with (Z.ones 8). by rewrite Z.land_ones by lia. Qed.

(** ** Generic list lemmas *)

Lemma take_insert_S {A} (l : list A) i x :
  (i < length l)%nat -> take (S i) (<[i:=x]> l) = take i l ++ [x].
Proof.
  intros Hi. rewrite (take_S_r _ _ x) by (by apply list_lookup_insert_eq).
  by rewrite take_insert_ge.
Qed.

Lemma Forall_insert_any {A} (P : A -> Prop) (l : list A) i x :
  Forall P l -> P x -> Forall P (<[i:=x]> l).
Proof. intros. by apply Forall_insert. Qed.

Lemma le_bytes_mod n z : le_bytes n (z mod 256 ^ Z.of_nat n) = le_bytes n z.
Proof.
  rewrite <- le_val_bytes. rewrite <- (length_le_bytes n z) at 1.
  apply le_bytes_val, le_bytes_is_byte.
Qed.

Lemma le_bytes_app n k z :
  le_bytes (n + k) z = le_bytes n z ++ le_bytes k (z / 256 ^ Z.of_nat n).
Proof.
  revert z. induction n as [|n IH]; intros z; cbn [le_bytes Nat.add app].
  - by rewrite Z.div_1_r.
  - rewrite IH, Z.div_div by lia. do 4 f_equal.
    rewrite Nat2Z.inj_succ, Z.pow_succ_r by lia. done.
Qed.

Lemma le_bytes_4_shifts z :
  le_bytes 4 z = [Z.land z 0xFF; Z.land (Z.shiftr z 8) 0xFF;
                  Z.land (Z.shiftr z 16) 0xFF; Z.land (Z.shiftr z 24) 0xFF].
Proof.
  rewrite !land_ff, !Z.shiftr_div_pow2 by lia. cbn [le_bytes].
  rewrite !Z.div_div by lia. done.
Qed.

Lemma elem_of_concat {A} (x : A) l ls : l ∈ ls -> x ∈ l -> x ∈ concat ls.
Proof.
  induction 1 as [l ls|l m ls _ IH]; cbn [concat]; rewrite elem_of_app; auto.
Qed.

Lemma concat_length_le {A} (l : list A) ls : l ∈ ls -> (length l <= length (concat ls))%nat.
Proof.
  induction 1 as [l ls|l m ls _ IH]; cbn [concat]; rewrite length_app; lia.
Qed.

(** ** Automation *)

Create HintDb net.
#[export] Hint Resolve u32_range u16_range le_bytes_is_byte be_bytes_is_byte
  bytes_of_is_byte : net.

(** Runs the program up to its next call. *)
Ltac run_step := cbn [mbind run_bind need fst snd].

(** Case analysis on the outcome of a bind in a hypothesis. *)
Ltac run_inv :=
  repeat match goal with
  | H : (_ ≫= _) = Ok _ |- _ =>
      let a := fresh "r" in let E := fresh "E" in
      apply bind_ok in H; destruct H as (a & E & H)
  | H : Ok _ = Ok _ |- _ => injection H as H; subst
  | H : Ok _ = Crash _ |- _ => discriminate
  | H : Crash _ = Ok _ |- _ => discriminate
  | H : c_assert ?b = Ok _ |- _ => destruct b eqn:?; [clear H | discriminate]
  end.
