(* ===== verification/Heap.v ===== *)
(** * A heap of objects and singly linked chains

    [malloc], [free] and pointer access for one type of object, with the
    errors C leaves undefined made explicit, and the vocabulary the linked
    structures of the code share: [linked] chains, and [owning] a part of
    the heap next to a frame. *)

From S2P Require Import Prelude.

Abbreviation ptr := (option positive).
Abbreviation NULL := (@None positive).

Record heap (A : Type) : Type := Heap { cells : gmap positive A; brk : positive }.
Arguments Heap {A} _ _.
Arguments cells {A} _.
Arguments brk {A} _.

Definition empty_heap {A} : heap A := Heap ∅ 1.

(** Addresses are never reused, so an access after [free] is always seen. *)
Definition halloc {A} (h : heap A) (x : A) : positive * heap A :=
  (brk h, Heap (<[brk h := x]> (cells h)) (Pos.succ (brk h))).

Definition hload {A} (h : heap A) (p : ptr) : run A :=
  match p with
  | None => Crash NullPtr
  | Some a => need Dangling (cells h !! a)
  end.

Definition hstore {A} (h : heap A) (p : ptr) (x : A) : run (heap A) :=
  match p with
  | None => Crash NullPtr
  | Some a =>
      match cells h !! a with
      | Some _ => Ok (Heap (<[a := x]> (cells h)) (brk h))
      | None => Crash Dangling
      end
  end.

(** [free(NULL)] does nothing; freeing twice is an error. *)
Definition hfree {A} (h : heap A) (p : ptr) : run (heap A) :=
  match p with
  | None => Ok h
  | Some a =>
      match cells h !! a with
      | Some _ => Ok (Heap (delete a (cells h)) (brk h))
      | None => Crash Dangling
      end
  end.

(** Every live object was allocated. *)
Definition heap_wf {A} (h : heap A) : Prop :=
  forall a, is_Some (cells h !! a) -> (a < brk h)%positive.

Lemma heap_wf_empty {A} : heap_wf (@empty_heap A).
Proof. intros a [x Hx]. cbn in Hx. by rewrite lookup_empty in Hx. Qed.

Lemma heap_wf_fresh {A} (h : heap A) : heap_wf h -> cells h !! brk h = None.
Proof.
  intros Hwf. destruct (cells h !! brk h) as [x|] eqn:Hx; [|done].
  specialize (Hwf (brk h) ltac:(by eexists)). lia.
Qed.

Lemma heap_wf_alloc {A} (h : heap A) x : heap_wf h -> heap_wf (halloc h x).2.
Proof.
  intros Hwf a [y Hy]. cbn in *. destruct (decide (a = brk h)) as [->|Hne]; [lia|].
  rewrite lookup_insert_ne in Hy by done. specialize (Hwf a ltac:(by eexists)). lia.
Qed.

Lemma heap_wf_store {A} (h h' : heap A) p x : heap_wf h -> hstore h p x = Ok h' -> heap_wf h'.
Proof.
  intros Hwf Hst. destruct p as [b|]; [|done]. cbn in Hst.
  destruct (cells h !! b) eqn:Hb; [|done]. injection Hst as <-.
  intros c [y Hy]. cbn in *. apply Hwf. destruct (decide (c = b)) as [->|Hne]; [by eexists|].
  rewrite lookup_insert_ne in Hy by done. by eexists.
Qed.

Lemma heap_wf_free {A} (h h' : heap A) p : heap_wf h -> hfree h p = Ok h' -> heap_wf h'.
Proof.
  intros Hwf Hf. destruct p as [b|]; cbn in Hf; [|by simplify_eq].
  destruct (cells h !! b) eqn:Hb; [|done]. injection Hf as <-.
  intros c [y Hy]. cbn in *. apply lookup_delete_Some in Hy as [_ Hy]. apply Hwf. by eexists.
Qed.

(** ** Chains *)
Section chains.
Context {A : Type} (next : A -> ptr).

(** Starting at [p], following [next] visits exactly the objects [l] and
    ends at [q]. *)
Fixpoint linked (p : ptr) (l : list (positive * A)) (q : ptr) : Prop :=
  match l with
  | [] => p = q
  | (a, x) :: l => p = Some a /\ linked (next x) l q
  end.

Lemma linked_app p l k q :
  linked p (l ++ k) q <-> exists r, linked p l r /\ linked r k q.
Proof.
  revert p. induction l as [|[a x] l IH]; intros p; cbn.
  - naive_solver.
  - rewrite IH. naive_solver.
Qed.

(** Rewriting an object of the chain, but not its link. *)
Lemma linked_insert p l i a x y q :
  linked p l q -> l !! i = Some (a, x) -> next y = next x -> linked p (<[i := (a, y)]> l) q.
Proof.
  revert p i. induction l as [|[b z] l IH]; intros p i Hlk Hi Hn; [done|]. destruct i as [|i].
  - cbn in Hi. injection Hi as -> ->. cbn in *. by rewrite Hn.
  - cbn in Hi, Hlk |- *. destruct Hlk as [-> Hlk]. split; [done|]. by apply IH.
Qed.

Lemma linked_null_nil l q : linked NULL l q -> l = [] /\ q = NULL.
Proof. destruct l as [|[a x] l]; cbn; naive_solver. Qed.
End chains.

(** [while (w->next) w = w->next;] from a node [p] *)
Fixpoint walk_last {A} (next : A -> ptr) (fuel : nat) (h : heap A) (p : ptr) : run ptr :=
  x ← hload h p;
  match next x with
  | None => Ok p
  | Some b => match fuel with O => Crash Fuel | S fuel => walk_last next fuel h (Some b) end
  end.

Lemma walk_last_ok {A} (next : A -> ptr) fuel h p l :
  linked next p l NULL -> l <> [] -> (forall b y, (b, y) ∈ l -> hload h (Some b) = Ok y) ->
  (length l <= S fuel)%nat -> walk_last next fuel h p = Ok (fst <$> last l).
Proof.
  revert fuel p. induction l as [|[b y] l IH]; intros fuel p Hlk Hne Hld Hf; [done|].
  cbn in Hlk. destruct Hlk as [-> Hlk].
  assert (hload h (Some b) = Ok y) as Hb by (apply Hld; by left).
  destruct l as [|[b2 y2] l].
  - cbn in Hlk. destruct fuel; cbn [walk_last]; rewrite Hb; cbn; by rewrite Hlk.
  - assert (next y = Some b2) as Hn by (cbn in Hlk; tauto).
    destruct fuel as [|fuel]; [cbn in Hf; lia|].
    cbn [walk_last]. rewrite Hb. cbn [mbind run_bind]. rewrite Hn. rewrite <- Hn.
    rewrite (IH fuel (next y)); [by rewrite last_cons_cons|done|done| |cbn in Hf |- *; lia].
    intros b' y' Hin. apply Hld. by right.
Qed.

(** ** Ownership: the live objects are [own] plus a disjoint frame [rest] *)
Definition owning {A} (h : heap A) (l : list (positive * A)) (rest : gmap positive A) : Prop :=
  heap_wf h /\ NoDup l.*1 /\ (list_to_map l : gmap positive A) ##ₘ rest /\
  cells h = list_to_map l ∪ rest.

Section owning.
Context {A : Type}.
Implicit Types (h : heap A) (l k : list (positive * A)) (rest : gmap positive A).

Lemma owning_load h l rest a x :
  owning h l rest -> (a, x) ∈ l -> hload h (Some a) = Ok x.
Proof.
  intros (Hwf & Hnd & Hdisj & Hc) Hin. cbn. rewrite Hc.
  rewrite (lookup_union_Some_l _ _ _ x); [done|]. by apply elem_of_list_to_map_1.
Qed.

Lemma owning_fresh h l rest : owning h l rest ->
  (brk h ∉ l.*1) /\ rest !! brk h = None.
Proof.
  intros (Hwf & Hnd & Hdisj & Hc). pose proof (heap_wf_fresh h Hwf) as Hf.
  rewrite Hc, lookup_union_None in Hf. destruct Hf as [Hf1 Hf2]. split; [|done].
  by apply not_elem_of_list_to_map_2 in Hf1.
Qed.

Lemma owning_alloc h l rest x : owning h l rest ->
  owning (halloc h x).2 (l ++ [(brk h, x)]) rest.
Proof.
  intros Ho. destruct (owning_fresh _ _ _ Ho) as [Hni Hr].
  destruct Ho as (Hwf & Hnd & Hdisj & Hc).
  assert (NoDup (l ++ [(brk h, x)]).*1) as Hnd'.
  { rewrite fmap_app. apply NoDup_app. split_and!; [done| |apply NoDup_singleton].
    intros b Hb ->%list_elem_of_singleton. done. }
  assert (list_to_map (l ++ [(brk h, x)]) = <[brk h:=x]> (list_to_map l : gmap positive A)) as Hm.
  { rewrite (list_to_map_proper _ ((brk h, x) :: l)); [done|done|].
    by rewrite Permutation_app_comm. }
  split_and!; [by apply heap_wf_alloc|done| |].
  - rewrite Hm. by apply map_disjoint_insert_l_2.
  - rewrite Hm. cbn. by rewrite Hc, insert_union_l.
Qed.

Lemma owning_store h l k a x y rest : owning h (l ++ (a, x) :: k) rest ->
  exists h', hstore h (Some a) y = Ok h' /\ owning h' (l ++ (a, y) :: k) rest.
Proof.
  intros Ho. pose proof Ho as (Hwf & Hnd & Hdisj & Hc).
  assert (cells h !! a = Some x) as Hx.
  { assert (hload h (Some a) = Ok x) as Hl
      by (apply (owning_load _ _ _ _ _ Ho); apply elem_of_app; right; by left).
    cbn in Hl. destruct (cells h !! a); by simplify_eq/=. }
  assert (list_to_map (l ++ (a, y) :: k)
          = <[a := y]> (list_to_map (l ++ (a, x) :: k) : gmap positive A)) as Hm.
  { rewrite fmap_app in Hnd. cbn in Hnd.
    apply NoDup_app in Hnd as (Hl & Hlk & Hk). apply NoDup_cons in Hk as [Hak Hk].
    assert (a ∉ l.*1) as Hal by (intros Hin; apply (Hlk _ Hin); by left).
    apply not_elem_of_list_to_map_1 in Hal.
    rewrite !list_to_map_app. cbn.
    rewrite insert_union_r, insert_insert_eq by done. done. }
  exists (Heap (<[a := y]> (cells h)) (brk h)). cbn. rewrite Hx. split; [done|].
  split_and!.
  - apply (heap_wf_store h _ (Some a) y Hwf). cbn. by rewrite Hx.
  - rewrite fmap_app in *. done.
  - rewrite Hm. apply map_disjoint_insert_l_2; [|done].
    apply (map_disjoint_Some_l _ _ _ x Hdisj).
    apply elem_of_list_to_map_1; [done|]. apply elem_of_app. right. by left.
  - cbn. by rewrite Hm, Hc, insert_union_l.
Qed.

Lemma owning_free h l k a x rest : owning h (l ++ (a, x) :: k) rest ->
  exists h', hfree h (Some a) = Ok h' /\ owning h' (l ++ k) rest.
Proof.
  intros Ho. pose proof Ho as (Hwf & Hnd & Hdisj & Hc).
  assert (cells h !! a = Some x) as Hx.
  { assert (hload h (Some a) = Ok x) as Hl
      by (apply (owning_load _ _ _ _ _ Ho); apply elem_of_app; right; by left).
    cbn in Hl. destruct (cells h !! a); by simplify_eq/=. }
  rewrite fmap_app in Hnd. cbn in Hnd.
  apply NoDup_app in Hnd as (Hl & Hlk & Hk). apply NoDup_cons in Hk as [Hak Hk].
  assert (a ∉ l.*1) as Hal by (intros Hin; apply (Hlk _ Hin); by left).
  apply not_elem_of_list_to_map_1 in Hal as Hal'.
  apply not_elem_of_list_to_map_1 in Hak as Hak'.
  assert (list_to_map (l ++ k) = delete a (list_to_map (l ++ (a, x) :: k) : gmap positive A)) as Hm.
  { rewrite !list_to_map_app. cbn. rewrite delete_union, (delete_id _ _ Hal').
    by rewrite delete_insert_id. }
  exists (Heap (delete a (cells h)) (brk h)). cbn. rewrite Hx. split; [done|].
  assert (rest !! a = None) as Hra.
  { apply (map_disjoint_Some_l _ _ _ x Hdisj).
    apply elem_of_list_to_map_1; [|apply elem_of_app; right; by left].
    rewrite fmap_app. cbn. apply NoDup_app. split_and!; [done|done|by apply NoDup_cons]. }
  split_and!.
  - apply (heap_wf_free h _ (Some a) Hwf). cbn. by rewrite Hx.
  - rewrite fmap_app. apply NoDup_app. split_and!; [done| |done].
    intros b Hb Hbk. apply (Hlk _ Hb). by right.
  - rewrite Hm. by apply map_disjoint_delete_l.
  - cbn. rewrite Hm, Hc, delete_union, (delete_id rest) by done. done.
Qed.

Lemma owning_perm h l k rest : l ≡ₚ k -> owning h l rest -> owning h k rest.
Proof.
  intros Hp (Hwf & Hnd & Hdisj & Hc).
  assert (list_to_map l = (list_to_map k : gmap positive A)) as Hm
    by (by apply list_to_map_proper).
  split_and!; [done|by rewrite <- Hp| |]; by rewrite <- Hm.
Qed.

Lemma owning_empty h : heap_wf h -> owning h [] (cells h).
Proof.
  intros Hwf. split_and!; [done|apply NoDup_nil_2|apply map_disjoint_empty_l|].
  cbn [list_to_map foldr fmap list_fmap]. by rewrite map_empty_union.
Qed.

(** The number of live objects bounds the length of any chain. *)
Lemma owning_size h l rest : owning h l rest -> (length l <= size (cells h))%nat.
Proof.
  intros (Hwf & Hnd & Hdisj & Hc).
  rewrite Hc, map_size_disj_union by done.
  enough (size (list_to_map l : gmap positive A) = length l) by lia.
  rewrite <- (length_map_to_list (list_to_map l : gmap positive A)).
  by rewrite (map_to_list_to_map l).
Qed.

(** Storing back the same address anywhere in the list. *)
Lemma owning_insert h l i a x y rest : owning h l rest -> l !! i = Some (a, x) ->
  exists h', hstore h (Some a) y = Ok h' /\ owning h' (<[i := (a, y)]> l) rest.
Proof.
  intros Ho Hi. rewrite <- (take_drop_middle _ _ _ Hi) in Ho.
  destruct (owning_store _ _ _ _ _ y _ Ho) as (h' & Hs & Ho'). exists h'. split; [done|].
  rewrite insert_take_drop by (by eapply lookup_lt_Some). done.
Qed.
End owning.

(** Linking a new node behind the last one of a chain. *)
Lemma append_linked {A} (next : A -> ptr) h p l b y y' x rest :
  linked next p (l ++ [(b, y)]) NULL -> owning h (l ++ [(b, y)]) rest ->
  next x = NULL -> next y' = Some (brk h) ->
  exists h', hstore (halloc h x).2 (Some b) y' = Ok h' /\
    linked next p (l ++ [(b, y'); (brk h, x)]) NULL /\
    owning h' (l ++ [(b, y'); (brk h, x)]) rest.
Proof.
  intros Hlk Ho Hx Hy'. pose proof (owning_alloc _ _ _ x Ho) as Ho1. rewrite <- app_assoc in Ho1.
  destruct (owning_store _ _ _ _ _ y' _ Ho1) as (h' & Hst & Ho2). exists h'.
  split; [exact Hst|]. split; [|exact Ho2].
  apply linked_app in Hlk as (r & Hl & Hb). cbn in Hb. destruct Hb as [-> _].
  apply linked_app. exists (Some b). split; [done|]. cbn. by rewrite Hy', Hx.
Qed.

(** Finding the first object of a chain that passes a test. *)
Fixpoint walk_find {A} (next : A -> ptr) (test : A -> run bool) (fuel : nat) (h : heap A) (p : ptr)
    : run ptr :=
  match p with
  | None => Ok NULL
  | Some _ =>
      match fuel with
      | O => Crash Fuel
      | S fuel =>
          x ← hload h p;
          b ← test x;
          if b : bool then Ok p else walk_find next test fuel h (next x)
      end
  end.

Lemma walk_find_ok {A} (next : A -> ptr) (test : A -> run bool) (P : A -> bool) fuel h p l :
  linked next p l NULL -> (forall b y, (b, y) ∈ l -> hload h (Some b) = Ok y) ->
  (forall b y, (b, y) ∈ l -> test y = Ok (P y)) -> (length l <= fuel)%nat ->
  walk_find next test fuel h p = Ok ((fun z => z.2.1) <$> list_find (fun y => P y.2 = true) l).
Proof.
  revert fuel p. induction l as [|[b y] l IH]; intros fuel p Hlk Hld Ht Hf.
  - cbn in Hlk. subst p. by destruct fuel.
  - cbn in Hlk. destruct Hlk as [-> Hlk]. destruct fuel as [|fuel]; [cbn in Hf; lia|].
    cbn [walk_find list_find]. rewrite (Hld b y) by (by left). cbn [mbind run_bind].
    rewrite (Ht b y) by (by left). cbn [mbind run_bind snd].
    case_decide as Hd; [by rewrite Hd|].
    destruct (P y); [done|]. rewrite (IH fuel (next y)); [|done| | |cbn in Hf; lia].
    + by destruct (list_find _ l) as [[k z]|].
    + intros b' y' Hin. apply Hld. by right.
    + intros b' y' Hin. apply (Ht b'). by right.
Qed.

(** The frame of an owner is live too. *)
Lemma owning_load_rest {A} (h : heap A) l rest a x :
  owning h l rest -> rest !! a = Some x -> hload h (Some a) = Ok x.
Proof.
  intros (_ & _ & Hdisj & Hc) Hx. cbn. by rewrite Hc, (lookup_union_Some_r _ _ _ x).
Qed.

(** An owner of nothing leaves exactly the frame. *)
Lemma owning_nil {A} (h : heap A) rest : owning h [] rest -> cells h = rest.
Proof.
  intros (_ & _ & _ & Hc). rewrite Hc. cbn [list_to_map foldr fmap list_fmap].
  by rewrite map_empty_union.
Qed.

(** ** Allocation and release in the frame of an owner *)
Section frame.
Context {A : Type}.
Implicit Types (h : heap A) (l : list (positive * A)) (rest : gmap positive A).

Lemma owning_frame h l rest a x : rest !! a = None ->
  owning h ((a, x) :: l) rest <-> owning h l (<[a := x]> rest) /\ a ∉ l.*1.
Proof.
  intros Hr. unfold owning. rewrite fmap_cons, NoDup_cons. cbn [fst].
  rewrite list_to_map_cons. split.
  - intros (Hwf & [Hn Hnd] & Hd & Hc). apply map_disjoint_insert_l in Hd as [_ Hd].
    split_and!; try done; [|rewrite Hc; rewrite <- insert_union_l, insert_union_r; [done|]].
    + apply map_disjoint_insert_r_2; [|done]. by apply not_elem_of_list_to_map_1.
    + by apply not_elem_of_list_to_map_1.
  - intros ((Hwf & Hnd & Hd & Hc) & Hn). apply map_disjoint_insert_r in Hd as [Hl Hd].
    split_and!; try done; [by apply map_disjoint_insert_l_2|].
    rewrite Hc. by rewrite <- insert_union_l, insert_union_r.
Qed.

Lemma owning_rest_not_own h l rest a x : owning h l rest -> rest !! a = Some x -> a ∉ l.*1.
Proof.
  intros (_ & _ & Hd & _) Hx. apply (not_elem_of_list_to_map_2 (M := gmap positive)).
  by apply (map_disjoint_Some_r _ _ _ _ Hd Hx).
Qed.

Lemma owning_alloc_rest h l rest x : owning h l rest ->
  rest !! brk h = None /\ owning (halloc h x).2 l (<[brk h := x]> rest).
Proof.
  intros Ho. destruct (owning_fresh _ _ _ Ho) as [_ Hr]. split; [done|].
  apply (owning_frame _ _ _ _ _ Hr). apply (owning_perm _ _ _ _ (Permutation_app_comm _ [_]) (owning_alloc _ _ _ x Ho)).
Qed.

(** The block [a] of the frame, moved to the front of the owned part. *)
Lemma owning_take h l rest a x : owning h l rest -> rest !! a = Some x ->
  owning h ((a, x) :: l) (delete a rest).
Proof.
  intros Ho Hx. apply owning_frame; [apply lookup_delete_eq|].
  rewrite insert_delete_id by done. split; [done|]. by eapply owning_rest_not_own.
Qed.

Lemma owning_free_rest h l rest a x : owning h l rest -> rest !! a = Some x ->
  exists h', hfree h (Some a) = Ok h' /\ owning h' l (delete a rest).
Proof. intros Ho Hx. exact (owning_free h [] l a x _ (owning_take _ _ _ _ _ Ho Hx)). Qed.

Lemma owning_store_rest h l rest a x y : owning h l rest -> rest !! a = Some x ->
  exists h', hstore h (Some a) y = Ok h' /\ owning h' l (<[a := y]> rest).
Proof.
  intros Ho Hx. destruct (owning_store h [] l a x y _ (owning_take _ _ _ _ _ Ho Hx)) as (h' & Hs & Ho').
  exists h'. split; [exact Hs|]. apply owning_frame in Ho' as [Ho' _]; [|apply lookup_delete_eq].
  by rewrite insert_delete_eq in Ho'.
Qed.
End frame.
