(* ===== verification/Checksum.v ===== *)
(** * Internet checksums: RFC 1071 arithmetic and the router's [cksum]

    Models [Assignment2/src/router/sr_utils.c], function [cksum].  The first
    half is the specification shared with the STCP checksum ([TcpSum.v]):
    one's-complement addition of 16-bit words, its closed form modulo
    65535, and the byte-order independence RFC 1071 relies on.  The second
    half is the C loop, with its [uint32_t] accumulator and the carry fold,
    and its correctness. *)

From S2P Require Import Prelude.

(** ** Specification: one's-complement sums of 16-bit words *)

(** End-around-carry addition. *)
Definition oc_add (a b : Z) : Z :=
  if decide (65535 < a + b) then a + b - 65535 else a + b.
Definition oc_sum (ws : list Z) : Z := fold_left oc_add ws 0.

(** The 16-bit words of a byte string, an odd last byte padded with zero. *)
Fixpoint be_words (l : list Z) : list Z :=
  match l with
  | [] => []
  | [a] => [256 * a]
  | a :: b :: l => (256 * a + b) :: be_words l
  end.
Fixpoint le_words (l : list Z) : list Z :=
  match l with
  | [] => []
  | [a] => [a]
  | a :: b :: l => (a + 256 * b) :: le_words l
  end.

(** The Internet checksum of a byte string. *)
Definition internet_checksum (l : list Z) : Z := 65535 - oc_sum (be_words l).

(** ** The C code *)

Fixpoint cksum_words (data : list Z) (len sum : Z) : run (list Z * Z * Z) :=
  if decide (2 <= len) then
    match data with
    | d0 :: d1 :: data' =>
        cksum_words data' (len - 2) (u32 (sum + Z.lor (Z.shiftl d0 8) d1))
    | _ => Crash OutOfRange
    end
  else Ok (data, len, sum).

(** [while (sum > 0xffff) sum = (sum >> 16) + (sum & 0xffff);] *)
Fixpoint cksum_fold (fuel : nat) (sum : Z) : run Z :=
  if decide (65535 < sum) then
    match fuel with
    | O => Crash Fuel
    | S fuel => cksum_fold fuel (u32 (Z.shiftr sum 16 + Z.land sum 65535))
    end
  else Ok sum.

(** [uint16_t cksum(const void *_data, int len)]: the value returned is the
    [uint16_t] the caller stores in a header field. *)
Definition cksum (data : list Z) (len : Z) : run Z :=
  '(data, len, sum) ← cksum_words data len 0;
  sum ← (if decide (0 < len)
         then d0 ← need OutOfRange (head data); Ok (u32 (sum + Z.shiftl d0 8))
         else Ok sum);
  sum ← cksum_fold 2 sum;
  let sum := htons (u16 (u32 (Z.lnot sum))) in
  Ok (if decide (sum = 0) then 65535 else sum).

(** ** Arithmetic of one's-complement sums *)

Definition wsum (ws : list Z) : Z := foldr Z.add 0 ws.

(** The canonical representative in [0, 65535]: zero only for zero. *)
Definition oc_norm (s : Z) : Z := if decide (s = 0) then 0 else 1 + (s - 1) mod 65535.

Definition is_word (w : Z) : Prop := 0 <= w < 65536.

Lemma oc_norm_range s : 0 <= s -> 0 <= oc_norm s < 65536.
Proof. intros. unfold oc_norm. case_decide; Z.div_mod_to_equations; lia. Qed.

Lemma oc_norm_small s : 0 <= s <= 65535 -> oc_norm s = s.
Proof.
  intros. unfold oc_norm. case_decide; [lia|]. rewrite Z.mod_small; lia.
Qed.

(** Characterisation: congruent modulo 65535, zero exactly at zero. *)
Lemma oc_norm_unique s t :
  0 <= s -> 0 <= t <= 65535 -> (t = 0 <-> s = 0) -> s mod 65535 = t mod 65535 ->
  oc_norm s = t.
Proof.
  intros Hs Ht Hz Hm. unfold oc_norm. case_decide; [lia|].
  assert (t <> 0) by lia. enough ((s - 1) mod 65535 = t - 1) by lia.
  rewrite Zminus_mod, Hm, <- Zminus_mod. apply Z.mod_small. lia.
Qed.

Lemma oc_norm_mod s : 0 <= s -> oc_norm s mod 65535 = s mod 65535.
Proof.
  intros. unfold oc_norm. case_decide; [by subst|].
  rewrite Z.add_mod_idemp_r by lia. f_equal. lia.
Qed.

Lemma oc_norm_zero s : 0 <= s -> oc_norm s = 0 <-> s = 0.
Proof. intros. unfold oc_norm. case_decide; Z.div_mod_to_equations; lia. Qed.

Lemma oc_norm_congr s t :
  0 <= s -> 0 <= t -> (s = 0 <-> t = 0) -> s mod 65535 = t mod 65535 ->
  oc_norm s = oc_norm t.
Proof.
  intros. apply oc_norm_unique; [done| | |].
  - pose proof (oc_norm_range t). lia.
  - rewrite oc_norm_zero by done. naive_solver.
  - by rewrite oc_norm_mod.
Qed.

Lemma oc_norm_add_l a b : 0 <= a -> 0 <= b -> oc_norm (oc_norm a + b) = oc_norm (a + b).
Proof.
  intros. pose proof (oc_norm_range a). apply oc_norm_congr; [lia..| |].
  - pose proof (oc_norm_zero a). lia.
  - by rewrite Z.add_mod, oc_norm_mod, <- Z.add_mod by lia.
Qed.

Lemma oc_add_norm a b : is_word a -> is_word b -> oc_add a b = oc_norm (a + b).
Proof.
  unfold is_word, oc_add. intros. symmetry. case_decide.
  - apply oc_norm_unique; [lia..|]. Z.div_mod_to_equations; lia.
  - apply oc_norm_small. lia.
Qed.

Lemma wsum_nil : wsum [] = 0.
Proof. done. Qed.
Lemma wsum_cons w ws : wsum (w :: ws) = w + wsum ws.
Proof. done. Qed.
Lemma zlen_cons {A} (a : A) l : zlen (a :: l) = 1 + zlen l.
Proof. cbn [length]. lia. Qed.

Lemma wsum_nonneg ws : Forall is_word ws -> 0 <= wsum ws <= 65535 * zlen ws.
Proof.
  induction 1 as [|w ws Hw _ IH]; [done|]. unfold is_word in Hw.
  rewrite wsum_cons, zlen_cons. lia.
Qed.

Lemma wsum_app l k : wsum (l ++ k) = wsum l + wsum k.
Proof.
  induction l as [|w l IH]; [done|].
  rewrite <- app_comm_cons, !wsum_cons. lia.
Qed.

Lemma oc_sum_acc ws a :
  is_word a -> Forall is_word ws -> fold_left oc_add ws a = oc_norm (a + wsum ws).
Proof.
  intros Ha Hws. revert a Ha. induction Hws as [|w ws Hw Hws IH]; intros a Ha.
  - cbn [fold_left]. rewrite wsum_nil. unfold is_word in *. rewrite oc_norm_small; lia.
  - cbn [fold_left]. pose proof (wsum_nonneg _ Hws). unfold is_word in *.
    rewrite oc_add_norm by (unfold is_word; lia).
    rewrite IH by (apply oc_norm_range; lia).
    rewrite oc_norm_add_l by lia. f_equal. rewrite wsum_cons. lia.
Qed.

Lemma oc_sum_norm ws : Forall is_word ws -> oc_sum ws = oc_norm (wsum ws).
Proof. intros. unfold oc_sum. rewrite oc_sum_acc; [done| |done]. unfold is_word; lia. Qed.

Lemma oc_sum_range ws : Forall is_word ws -> 0 <= oc_sum ws < 65536.
Proof.
  intros. rewrite oc_sum_norm by done. apply oc_norm_range. by apply wsum_nonneg.
Qed.

(** Induction on a byte string two bytes at a time. *)
Lemma pair_ind {A} (P : list A -> Prop) :
  P [] -> (forall a, P [a]) -> (forall a b l, P l -> P (a :: b :: l)) -> forall l, P l.
Proof.
  intros H0 H1 H2. fix IH 1. intros [|a [|b l]]; [done|apply H1|apply H2, IH].
Qed.

Lemma be_words_word l : Forall is_byte l -> Forall is_word (be_words l).
Proof.
  induction l as [|a|a b l IH] using pair_ind; intros H; cbn [be_words];
    repeat (apply Forall_cons in H as [? H]); repeat constructor; auto;
    unfold is_word, is_byte in *; lia.
Qed.
Lemma le_words_word l : Forall is_byte l -> Forall is_word (le_words l).
Proof.
  induction l as [|a|a b l IH] using pair_ind; intros H; cbn [le_words];
    repeat (apply Forall_cons in H as [? H]); repeat constructor; auto;
    unfold is_word, is_byte in *; lia.
Qed.

Lemma length_be_words l : 2 * zlen (be_words l) <= zlen l + 1.
Proof. induction l as [|a|a b l IH] using pair_ind; cbn [be_words length] in *; lia. Qed.
Lemma length_le_words l : 2 * zlen (le_words l) <= zlen l + 1.
Proof. induction l as [|a|a b l IH] using pair_ind; cbn [le_words length] in *; lia. Qed.

Lemma even_cons2 {A} (a b : A) l : Z.even (zlen (a :: b :: l)) = Z.even (zlen l).
Proof.
  cbn [length]. rewrite !Nat2Z.inj_succ, Z.even_succ, Z.odd_succ. done.
Qed.

Lemma be_words_app l k :
  Z.even (zlen l) = true -> be_words (l ++ k) = be_words l ++ be_words k.
Proof.
  induction l as [|a|a b l IH] using pair_ind; intros He; [done|done|].
  rewrite even_cons2 in He. cbn [be_words app]. by rewrite IH.
Qed.
Lemma le_words_app l k :
  Z.even (zlen l) = true -> le_words (l ++ k) = le_words l ++ le_words k.
Proof.
  induction l as [|a|a b l IH] using pair_ind; intros He; [done|done|].
  rewrite even_cons2 in He. cbn [le_words app]. by rewrite IH.
Qed.

(** RFC 1071, "byte order independence": summing the words in the host's
    (little-endian) order gives the byte swap of the network-order sum. *)
Lemma le_be_wsum l :
  wsum (le_words l) mod 65535 = (256 * wsum (be_words l)) mod 65535.
Proof.
  induction l as [|a|a b l IH] using pair_ind; cbn [le_words be_words];
    rewrite ?wsum_cons, ?wsum_nil.
  - done.
  - Z.div_mod_to_equations; lia.
  - rewrite Z.add_mod, IH, <- Z.add_mod by lia. Z.div_mod_to_equations; lia.
Qed.

Lemma wsum_zero_be_le l :
  Forall is_byte l -> wsum (be_words l) = 0 <-> wsum (le_words l) = 0.
Proof.
  induction l as [|a|a b l IH] using pair_ind; intros H; cbn [le_words be_words];
    repeat (apply Forall_cons in H as [? H]); unfold is_byte in *;
    rewrite ?wsum_cons, ?wsum_nil; [lia..|].
  specialize (IH H).
  pose proof (wsum_nonneg _ (be_words_word _ H)).
  pose proof (wsum_nonneg _ (le_words_word _ H)). lia.
Qed.

Lemma htons_value z : 0 <= z < 65536 -> htons z = z / 256 + 256 * (z mod 256).
Proof.
  intros. unfold htons, be_bytes. cbn [le_bytes rev app le_val].
  rewrite (Z.mod_small (z / 256)) by (Z.div_mod_to_equations; lia). lia.
Qed.

Lemma htons_oc_norm s : 0 <= s -> htons (oc_norm s) = oc_norm (256 * s).
Proof.
  intros Hs. pose proof (oc_norm_range s Hs) as Hr.
  rewrite htons_value by lia. symmetry. apply oc_norm_unique; [lia| | |].
  - Z.div_mod_to_equations; lia.
  - pose proof (oc_norm_zero s Hs). Z.div_mod_to_equations; lia.
  - pose proof (oc_norm_mod s Hs) as Hm. Z.div_mod_to_equations; lia.
Qed.

Lemma oc_sum_byte_order l :
  Forall is_byte l -> oc_sum (le_words l) = htons (oc_sum (be_words l)).
Proof.
  intros H. rewrite !oc_sum_norm by auto using be_words_word, le_words_word.
  pose proof (wsum_nonneg _ (be_words_word _ H)).
  pose proof (wsum_nonneg _ (le_words_word _ H)).
  rewrite htons_oc_norm by lia. apply oc_norm_congr; [lia..| |apply le_be_wsum].
  pose proof (wsum_zero_be_le _ H). lia.
Qed.

(** One carry fold preserves the canonical value. *)
Lemma fold_step_value s : 0 <= s ->
  Z.shiftr s 16 + Z.land s 65535 = s - 65535 * (s / 65536).
Proof.
  intros. change 65535 with (Z.ones 16) at 1. rewrite Z.land_ones by lia.
  rewrite Z.shiftr_div_pow2 by lia. change (2 ^ 16) with 65536.
  Z.div_mod_to_equations; lia.
Qed.

Lemma fold_step_norm s : 0 <= s ->
  0 <= Z.shiftr s 16 + Z.land s 65535 /\
  oc_norm (Z.shiftr s 16 + Z.land s 65535) = oc_norm s.
Proof.
  intros Hs. rewrite fold_step_value by done.
  assert (0 <= s - 65535 * (s / 65536) /\ (s - 65535 * (s / 65536) = 0 <-> s = 0)) as [H1 H2]
    by (Z.div_mod_to_equations; lia).
  split; [done|]. apply oc_norm_congr; [done..|].
  replace (s - 65535 * (s / 65536)) with (s + (- (s / 65536)) * 65535) by lia.
  by rewrite Z.mod_add by lia.
Qed.

(** ** Correctness of [cksum] *)

(** The carry loop leaves after at most two iterations for any 32-bit sum. *)
Lemma cksum_fold_ok s : 0 <= s < 2 ^ 32 -> cksum_fold 2 s = Ok (oc_norm s).
Proof.
  intros Hs. unfold cksum_fold.
  case_decide; [|by rewrite oc_norm_small by lia].
  destruct (fold_step_norm s) as [? Hn]; [lia|].
  rewrite <- Hn. rewrite fold_step_value in * by lia.
  rewrite u32_small by (Z.div_mod_to_equations; lia).
  set (t := s - 65535 * (s / 65536)) in *.
  assert (t <= 131070) by (unfold t; Z.div_mod_to_equations; lia).
  case_decide; [|by rewrite oc_norm_small by lia].
  destruct (fold_step_norm t) as [? Hn2]; [lia|].
  rewrite <- Hn2. rewrite fold_step_value in * by lia.
  rewrite u32_small by (Z.div_mod_to_equations; lia).
  case_decide; [Z.div_mod_to_equations; lia|].
  by rewrite oc_norm_small by lia.
Qed.

Lemma lor_word d0 d1 :
  is_byte d0 -> is_byte d1 -> Z.lor (Z.shiftl d0 8) d1 = 256 * d0 + d1.
Proof. unfold is_byte. intros. rewrite lor_shiftl_add by lia. lia. Qed.

Lemma cksum_words_ok data len sum :
  Forall is_byte data -> 0 <= len <= zlen data -> 0 <= sum ->
  sum + 65535 * ((len + 1) / 2) < 2 ^ 32 ->
  exists data' len' sum',
    cksum_words data len sum = Ok (data', len', sum') /\
    data' = drop (Z.to_nat (len - len')) data /\ (len' = 0 \/ len' = 1) /\ len' <= len /\
    sum' + 65535 * len' < 2 ^ 32 /\
    sum' + wsum (be_words (take (Z.to_nat len') data')) =
    sum + wsum (be_words (take (Z.to_nat len) data)) /\ 0 <= sum'.
Proof.
  revert len sum. induction data as [|a|a b data IH] using pair_ind; intros len sum HF Hlen Hs Hb;
    cbn [cksum_words].
  - cbn in Hlen. rewrite decide_False by lia. exists [], len, sum.
    replace len with 0 in * by lia. repeat split; (lia || auto).
  - cbn in Hlen. rewrite decide_False by lia. exists [a], len, sum.
    rewrite Z.sub_diag. repeat split; try lia.
    Z.div_mod_to_equations; lia.
  - case_decide as Hd.
    + apply Forall_cons in HF as [Ha HF]; apply Forall_cons in HF as [Hb' HF].
      rewrite lor_word by done. cbn [length] in Hlen.
      pose proof Ha as Ha'; pose proof Hb' as Hb''; unfold is_byte in Ha', Hb''.
      replace ((len + 1) / 2) with (1 + ((len - 2) + 1) / 2) in Hb
        by (Z.div_mod_to_equations; lia).
      assert (0 <= (len - 2 + 1) / 2) by (Z.div_mod_to_equations; lia).
      rewrite u32_small by lia.
      destruct (IH (len - 2) (sum + (256 * a + b))) as (d & l & s & E & -> & Hl & Hle & Hs' & Heq & Hp);
        [done|lia|lia|lia|].
      rewrite E. exists (drop (Z.to_nat (len - 2 - l)) data), l, s. split; [done|].
      split.
      { by replace (Z.to_nat (len - l)) with (S (S (Z.to_nat (len - 2 - l)))) by lia. }
      repeat split; [done|lia|lia| |lia].
      rewrite Heq. replace (Z.to_nat len) with (S (S (Z.to_nat (len - 2)))) by lia.
      cbn [take be_words]. rewrite wsum_cons. lia.
    + exists (a :: b :: data), len, sum. rewrite Z.sub_diag.
      repeat split; try lia. Z.div_mod_to_equations; lia.
Qed.

Lemma lnot16 s : 0 <= s < 65536 -> u16 (u32 (Z.lnot s)) = 65535 - s.
Proof.
  intros. unfold u16, u32, Z.lnot. Z.div_mod_to_equations; lia.
Qed.

(** The functional core of [cksum]: for any buffer short enough that the
    32-bit accumulator cannot wrap, it is the byte-swapped Internet checksum,
    with zero sent as [0xffff]. *)
Definition cksum_value (l : list Z) : Z :=
  let c := htons (internet_checksum l) in if decide (c = 0) then 65535 else c.

Lemma cksum_ok data len :
  Forall is_byte data -> 0 <= len <= zlen data -> len <= 131074 ->
  cksum data len = Ok (cksum_value (take (Z.to_nat len) data)).
Proof.
  intros HF Hlen Hmax. unfold cksum.
  destruct (cksum_words_ok data len 0) as (d & l & s & E & Hd & Hl & Hle & Hs & Heq & Hp);
    [done|done|lia|Z.div_mod_to_equations; lia|].
  rewrite E. cbn [mbind run_bind]. rewrite Z.add_0_l in Heq.
  set (ws := be_words (take (Z.to_nat len) data)) in *.
  assert (Forall is_word ws) as Hw by (by apply be_words_word, Forall_take).
  assert ((if decide (0 < l)
          then d0 ← need OutOfRange (head d); Ok (u32 (s + Z.shiftl d0 8))
          else Ok s) = Ok (wsum ws) /\ wsum ws < 2 ^ 32) as [-> Hlt].
  { destruct Hl as [-> | ->].
    - rewrite decide_False by lia.
      change (wsum (be_words (take (Z.to_nat 0) d))) with 0 in Heq. split; [f_equal|]; lia.
    - rewrite decide_True by lia.
      assert (exists d0 r, d = d0 :: r /\ is_byte d0) as (d0 & r & -> & H0).
      { destruct d as [|d0 r].
        - symmetry in Hd. apply (f_equal length) in Hd. rewrite length_drop in Hd. cbn in Hd. lia.
        - exists d0, r. split; [done|]. assert (Forall is_byte (d0 :: r)) as Hx
            by (rewrite Hd; by apply Forall_drop). by apply Forall_cons in Hx as [? _]. }
      change (wsum (be_words (take (Z.to_nat 1) (d0 :: r)))) with (256 * d0 + 0) in Heq.
      cbn [head need mbind run_bind]. unfold is_byte in H0.
      rewrite Z.shiftl_mul_pow2 by lia. change (2 ^ 8) with 256.
      split; [f_equal; rewrite u32_small|]; lia. }
  cbn [mbind run_bind]. pose proof (wsum_nonneg _ Hw).
  rewrite cksum_fold_ok by lia. cbn [mbind run_bind].
  unfold cksum_value, internet_checksum. fold ws.
  rewrite oc_sum_norm by done. rewrite lnot16 by (apply oc_norm_range; lia). done.
Qed.

(** A length beyond the buffer is read out of bounds. *)
Lemma cksum_overread data len : zlen data < len -> cksum data len = Crash OutOfRange.
Proof.
  intros Hlen. unfold cksum.
  assert (forall sum, cksum_words data len sum = Crash OutOfRange \/
    exists sum', cksum_words data len sum = Ok ([], 1, sum')) as Hw.
  { revert len Hlen. induction data as [|a|a b data IH] using pair_ind; intros len Hlen sum; cbn [cksum_words] in *.
    - cbn in Hlen. case_decide; [by left|right]. exists sum. by replace len with 1 by lia.
    - cbn in Hlen. rewrite decide_True by lia. by left.
    - cbn in Hlen. rewrite decide_True by lia. apply IH. lia. }
  destruct (Hw 0) as [-> | [sum' ->]]; [done|]. run_step. done.
Qed.

Lemma internet_checksum_range l : Forall is_byte l -> 0 <= internet_checksum l < 65536.
Proof.
  intros. unfold internet_checksum.
  pose proof (oc_sum_range _ (be_words_word _ H)). lia.
Qed.

Lemma be_words_le_bytes_htons z r :
  0 <= z < 65536 -> be_words (le_bytes 2 (htons z) ++ r) = z :: be_words r.
Proof.
  intros. rewrite htons_value by done. cbn [le_bytes app be_words]. f_equal.
  Z.div_mod_to_equations; lia.
Qed.

Lemma oc_norm_complement s c : 0 <= s -> 0 <= c -> (oc_norm s + c) mod 65535 = 0 ->
  s + c <> 0 -> oc_norm (s + c) = 65535.
Proof.
  intros Hs Hc Hm H0. apply oc_norm_unique; [lia..|].
  rewrite Z.add_mod, <- (oc_norm_mod s), <- Z.add_mod by lia. done.
Qed.

Lemma cksum_value_memory l r : Forall is_byte l ->
  exists c, be_words (le_bytes 2 (cksum_value l) ++ r) = c :: be_words r /\
    0 < c < 65536 /\ oc_norm (wsum (be_words l) + c) = 65535.
Proof.
  intros HF. pose proof (be_words_word _ HF) as Hw.
  pose proof (wsum_nonneg _ Hw) as Hn.
  unfold cksum_value, internet_checksum. rewrite oc_sum_norm by done.
  set (s := wsum (be_words l)) in *.
  pose proof (oc_norm_range s ltac:(lia)) as Hr.
  rewrite htons_value by lia. case_decide as Hz.
  - exists 65535. split_and!; [done|lia|lia|]. apply oc_norm_complement; [lia..| |lia].
    replace (oc_norm s) with 65535 by (Z.div_mod_to_equations; lia). done.
  - assert (oc_norm s <> 65535) by (intros Hx; rewrite Hx in Hz; by apply Hz).
    exists (65535 - oc_norm s). split_and!; [|lia|lia|].
    { rewrite <- htons_value by lia. apply be_words_le_bytes_htons; lia. }
    apply oc_norm_complement; [lia..| |].
    + by replace (oc_norm s + (65535 - oc_norm s)) with 65535 by lia.
    + pose proof (oc_norm_zero s). lia.
Qed.

(** C24: the router's [cksum] computes the Internet checksum of the first
    [len] bytes: it terminates within the modelled loop bounds, never reads
    outside the buffer, and for every length below the accumulator's
    wrap-around bound it returns the RFC 1071 checksum in network order,
    never zero. *)
Theorem cksum_correct data len :
  Forall is_byte data -> 0 <= len <= zlen data -> len <= 131074 ->
  exists c, cksum data len = Ok c /\ 0 < c < 65536 /\
    (c = htons (internet_checksum (take (Z.to_nat len) data)) \/
     c = 65535 /\ internet_checksum (take (Z.to_nat len) data) = 0).
Proof.
  intros HF Hl Hm. rewrite cksum_ok by done. eexists; split; [done|].
  pose proof (internet_checksum_range (take (Z.to_nat len) data) (Forall_take _ _ _ HF)).
  unfold cksum_value. case_decide as Hz.
  - split; [lia|]. right. split; [done|]. rewrite htons_value in Hz by done.
    Z.div_mod_to_equations; lia.
  - pose proof (htons_range (internet_checksum (take (Z.to_nat len) data))). split; [lia|by left].
Qed.

(** Storing the value [cksum] returns into a zeroed 16-bit field at an
    even offset makes the packet check: its one's-complement sum is
    [0xffff], and running [cksum] over the stored packet returns [0xffff]. *)
Theorem cksum_verifies pre post c :
  Forall is_byte pre -> Forall is_byte post -> Z.even (zlen pre) = true ->
  zlen pre + 2 + zlen post <= 131074 ->
  cksum (pre ++ [0; 0] ++ post) (zlen (pre ++ [0; 0] ++ post)) = Ok c ->
  let stored := pre ++ le_bytes 2 c ++ post in
  oc_sum (be_words stored) = 65535 /\ cksum stored (zlen stored) = Ok 65535.
Proof.
  intros Hpre Hpost He Hlen Hc stored.
  assert (Forall is_byte (pre ++ [0; 0] ++ post)) as Hall.
  { apply Forall_app; split; [done|]. repeat constructor; unfold is_byte; (lia || done). }
  assert (Forall is_byte stored) as Hst.
  { apply Forall_app; split; [done|]. apply Forall_app; auto with net. }
  assert (zlen stored = zlen pre + 2 + zlen post) as Hls.
  { unfold stored. rewrite !length_app, length_le_bytes. lia. }
  rewrite cksum_ok in Hc; [|done| |]; [|rewrite !length_app; cbn [length]; lia..].
  rewrite take_ge in Hc by lia. injection Hc as <-.
  destruct (cksum_value_memory _ post Hall) as (c & Hcw & Hcr & Hsum).
  assert (oc_sum (be_words stored) = 65535) as Hs.
  { rewrite oc_sum_norm by (by apply be_words_word). unfold stored. cbn [app] in Hcw |- *.
    rewrite be_words_app, Hcw, wsum_app by done.
    rewrite <- Hsum, (be_words_app pre), wsum_app by done. f_equal.
    cbn [be_words app]. rewrite !wsum_cons. lia. }
  split; [done|]. rewrite cksum_ok; [|done|lia|lia].
  rewrite take_ge by lia. unfold cksum_value, internet_checksum. rewrite Hs. done.
Qed.

(** An IPv4 header whose checksum is the widely published [0xb861]. *)
Definition sample_ip_prefix : list Z := [69;0;0;115;0;0;64;0;64;17].
Definition sample_ip_suffix : list Z := [192;168;0;1;192;168;0;199].

Lemma cksum_correct_witness :
  exists c, cksum (sample_ip_prefix ++ [0;0] ++ sample_ip_suffix) 20 = Ok c /\
    0 < c < 65536 /\
    (c = htons (internet_checksum
        (take (Z.to_nat 20) (sample_ip_prefix ++ [0;0] ++ sample_ip_suffix))) \/
     c = 65535 /\ internet_checksum
        (take (Z.to_nat 20) (sample_ip_prefix ++ [0;0] ++ sample_ip_suffix)) = 0).
Proof.
  apply cksum_correct.
  - repeat constructor; unfold is_byte; lia.
  - cbn; lia.
  - lia.
Defined.

Lemma cksum_verifies_witness :
  let stored := sample_ip_prefix ++ le_bytes 2 0x61b8 ++ sample_ip_suffix in
  oc_sum (be_words stored) = 65535 /\ cksum stored (zlen stored) = Ok 65535.
Proof.
  apply cksum_verifies.
  - repeat constructor; unfold is_byte; lia.
  - repeat constructor; unfold is_byte; lia.
  - reflexivity.
  - cbn; lia.
  - vm_compute. reflexivity.
Defined.
