(* ===== verification/Sha1.v ===== *)
(** * SHA-1: the VNS authentication hash

    Models [Assignment2/src/router/sha1.c] and [sha1.h] in full
    ([SHA1Reset], [SHA1Input], [SHA1Result], [SHA1ProcessMessageBlock],
    [SHA1PadMessage]) and proves that hashing a message in any number of
    [SHA1Input] calls gives the FIPS 180-4 digest of the concatenation,
    without a bounds error, and that the error flag behaves as documented. *)

From S2P Require Import Prelude.

(** ** Specification: FIPS 180-4 *)
Module Spec.
Definition ROTL (n x : Z) : Z := Z.lor (u32 (Z.shiftl x n)) (Z.shiftr x (32 - n)).
Definition not32 (x : Z) : Z := u32 (Z.lnot x).
Definition Ch (x y z : Z) : Z := Z.lxor (Z.land x y) (Z.land (not32 x) z).
Definition Parity (x y z : Z) : Z := Z.lxor (Z.lxor x y) z.
Definition Maj (x y z : Z) : Z :=
  Z.lxor (Z.lxor (Z.land x y) (Z.land x z)) (Z.land y z).

(** Section 4.1.1 and 4.2.1: the logical functions and constants. *)
Definition f (t : Z) (x y z : Z) : Z :=
  if decide (t < 20) then Ch x y z
  else if decide (t < 40) then Parity x y z
  else if decide (t < 60) then Maj x y z
  else Parity x y z.
Definition K (t : Z) : Z :=
  if decide (t < 20) then 0x5A827999
  else if decide (t < 40) then 0x6ED9EBA1
  else if decide (t < 60) then 0x8F1BBCDC
  else 0xCA62C1D6.

Definition H0 : list Z :=
  [0x67452301; 0xEFCDAB89; 0x98BADCFE; 0x10325476; 0xC3D2E1F0].

(** Section 6.1.2, step 1: the message schedule, extended [n] words past
    the sixteen words of the block. *)
Fixpoint schedule (M : list Z) (n : nat) : list Z :=
  match n with
  | O => M
  | S n =>
      let W := schedule M n in
      let w k := nth (n + 16 - k) W 0 in
      W ++ [ROTL 1 (Z.lxor (Z.lxor (Z.lxor (w 3%nat) (w 8%nat)) (w 14%nat)) (w 16%nat))]
  end.

(** Steps 2 to 4. *)
Definition words := (Z * Z * Z * Z * Z)%type.
Definition round (W : list Z) (s : words) (t : Z) : words :=
  let '(a, b, c, d, e) := s in
  let T := u32 (ROTL 5 a + f t b c d + e + K t + nth (Z.to_nat t) W 0) in
  (T, a, ROTL 30 b, c, d).

Fixpoint block_words (n : nat) (blk : list Z) : list Z :=
  match n with
  | O => []
  | S n => be_val (take 4 blk) :: block_words n (drop 4 blk)
  end.

Definition to_words (H : list Z) : words :=
  (nth 0 H 0, nth 1 H 0, nth 2 H 0, nth 3 H 0, nth 4 H 0).

Definition compress (H : list Z) (blk : list Z) : list Z :=
  let W := schedule (block_words 16 blk) 64 in
  let '(a, b, c, d, e) := foldl (round W) (to_words H) (seqZ 0 80) in
  let '(h0, h1, h2, h3, h4) := to_words H in
  [u32 (h0 + a); u32 (h1 + b); u32 (h2 + c); u32 (h3 + d); u32 (h4 + e)].

(** Section 5.1.1: padding to a multiple of 64 bytes. *)
Definition pad (m : list Z) : list Z :=
  m ++ [0x80] ++ replicate (Z.to_nat ((55 - zlen m) mod 64)) 0 ++ be_bytes 8 (8 * zlen m).

Fixpoint blocks (n : nat) (l : list Z) : list (list Z) :=
  match n with
  | O => []
  | S n => take 64 l :: blocks n (drop 64 l)
  end.

Definition sha1 (m : list Z) : list Z :=
  foldl compress H0 (blocks (length (pad m) / 64) (pad m)).
End Spec.

(** ** The C code *)

Record SHA1Context : Type := {
  Message_Digest : list Z;          (* unsigned Message_Digest[5] *)
  Length_Low : Z;                   (* unsigned *)
  Length_High : Z;                  (* unsigned *)
  Message_Block : list Z;           (* unsigned char Message_Block[64] *)
  Message_Block_Index : Z;          (* int *)
  Computed : bool;
  Corrupted : bool
}.

Definition set_Message_Digest d (c : SHA1Context) : SHA1Context :=
  {| Message_Digest := d; Length_Low := Length_Low c; Length_High := Length_High c;
     Message_Block := Message_Block c; Message_Block_Index := Message_Block_Index c;
     Computed := Computed c; Corrupted := Corrupted c |}.
Definition set_Length lo hi (c : SHA1Context) : SHA1Context :=
  {| Message_Digest := Message_Digest c; Length_Low := lo; Length_High := hi;
     Message_Block := Message_Block c; Message_Block_Index := Message_Block_Index c;
     Computed := Computed c; Corrupted := Corrupted c |}.
Definition set_Block b i (c : SHA1Context) : SHA1Context :=
  {| Message_Digest := Message_Digest c; Length_Low := Length_Low c;
     Length_High := Length_High c; Message_Block := b; Message_Block_Index := i;
     Computed := Computed c; Corrupted := Corrupted c |}.
Definition set_Computed v (c : SHA1Context) : SHA1Context :=
  {| Message_Digest := Message_Digest c; Length_Low := Length_Low c;
     Length_High := Length_High c; Message_Block := Message_Block c;
     Message_Block_Index := Message_Block_Index c; Computed := v; Corrupted := Corrupted c |}.
Definition set_Corrupted v (c : SHA1Context) : SHA1Context :=
  {| Message_Digest := Message_Digest c; Length_Low := Length_Low c;
     Length_High := Length_High c; Message_Block := Message_Block c;
     Message_Block_Index := Message_Block_Index c; Computed := Computed c; Corrupted := v |}.

(** [SHA1CircularShift(bits,word)] *)
Definition SHA1CircularShift (bits word : Z) : Z :=
  Z.lor (Z.land (u32 (Z.shiftl word bits)) 0xFFFFFFFF) (Z.shiftr word (32 - bits)).

(** [SHA1Reset] leaves [Message_Block] as it was. *)
Definition SHA1Reset (context : SHA1Context) : SHA1Context :=
  {| Message_Digest := [0x67452301; 0xEFCDAB89; 0x98BADCFE; 0x10325476; 0xC3D2E1F0];
     Length_Low := 0; Length_High := 0;
     Message_Block := Message_Block context;
     Message_Block_Index := 0; Computed := false; Corrupted := false |}.

(** [W[t] = Message_Block[4t] << 24 | ...], one iteration. *)
Definition sha1_load (blk : list Z) (t : Z) (W : list (option Z)) : run (list (option Z)) :=
  b0 ← arr_get blk (t * 4);
  b1 ← arr_get blk (t * 4 + 1);
  b2 ← arr_get blk (t * 4 + 2);
  b3 ← arr_get blk (t * 4 + 3);
  arr_set W t (Some
    (Z.lor (Z.lor (Z.lor (u32 (Z.shiftl b0 24)) (u32 (Z.shiftl b1 16))) (u32 (Z.shiftl b2 8))) b3)).

Definition sha1_extend (t : Z) (W : list (option Z)) : run (list (option Z)) :=
  w3 ← arr_read W (t - 3);
  w8 ← arr_read W (t - 8);
  w14 ← arr_read W (t - 14);
  w16 ← arr_read W (t - 16);
  arr_set W t (Some (SHA1CircularShift 1 (Z.lxor (Z.lxor (Z.lxor w3 w8) w14) w16))).

(** The bodies of the four round loops. *)
Definition sha1_round (g : Z -> Z -> Z -> Z) (k : Z) (W : list (option Z))
    (t : Z) (s : Spec.words) : run Spec.words :=
  let '(A, B, C, D, E) := s in
  Wt ← arr_read W t;
  let temp := u32 (SHA1CircularShift 5 A + g B C D + E + Wt + k) in
  let temp := Z.land temp 0xFFFFFFFF in
  Ok (temp, A, SHA1CircularShift 30 B, C, D).

Definition sha1_f0 (B C D : Z) : Z := Z.lor (Z.land B C) (Z.land (u32 (Z.lnot B)) D).
Definition sha1_f1 (B C D : Z) : Z := Z.lxor (Z.lxor B C) D.
Definition sha1_f2 (B C D : Z) : Z :=
  Z.lor (Z.lor (Z.land B C) (Z.land B D)) (Z.land C D).

Definition SHA1ProcessMessageBlock (context : SHA1Context) : run SHA1Context :=
  W ← for_from 16 0 (sha1_load (Message_Block context)) (replicate 80 None);
  W ← for_from 64 16 sha1_extend W;
  h0 ← arr_get (Message_Digest context) 0;
  h1 ← arr_get (Message_Digest context) 1;
  h2 ← arr_get (Message_Digest context) 2;
  h3 ← arr_get (Message_Digest context) 3;
  h4 ← arr_get (Message_Digest context) 4;
  s ← for_from 20 0 (sha1_round sha1_f0 0x5A827999 W) (h0, h1, h2, h3, h4);
  s ← for_from 20 20 (sha1_round sha1_f1 0x6ED9EBA1 W) s;
  s ← for_from 20 40 (sha1_round sha1_f2 0x8F1BBCDC W) s;
  '(A, B, C, D, E) ← for_from 20 60 (sha1_round sha1_f1 0xCA62C1D6 W) s;
  Ok (set_Block (Message_Block context) 0
       (set_Message_Digest
         [Z.land (u32 (h0 + A)) 0xFFFFFFFF; Z.land (u32 (h1 + B)) 0xFFFFFFFF;
          Z.land (u32 (h2 + C)) 0xFFFFFFFF; Z.land (u32 (h3 + D)) 0xFFFFFFFF;
          Z.land (u32 (h4 + E)) 0xFFFFFFFF] context)).

(** [context->Message_Block[context->Message_Block_Index++] = b;] *)
Definition sha1_put (b : Z) (context : SHA1Context) : run SHA1Context :=
  blk ← arr_set (Message_Block context) (Message_Block_Index context) b;
  Ok (set_Block blk (Message_Block_Index context + 1) context).

(** The body of the loop of [SHA1Input]. *)
Definition sha1_input_byte (b : Z) (context : SHA1Context) : run SHA1Context :=
  context ← sha1_put (Z.land b 0xFF) context;
  let lo := Z.land (u32 (Length_Low context + 8)) 0xFFFFFFFF in
  let context := set_Length lo (Length_High context) context in
  let context :=
    if decide (lo = 0) then
      let hi := Z.land (u32 (Length_High context + 1)) 0xFFFFFFFF in
      let context := set_Length lo hi context in
      if decide (hi = 0) then set_Corrupted true context else context
    else context in
  if decide (Message_Block_Index context = 64)
  then SHA1ProcessMessageBlock context else Ok context.

(** [while (length-- && !context->Corrupted)] *)
Fixpoint sha1_input_loop (length : nat) (message_array : list Z) (context : SHA1Context)
    : run SHA1Context :=
  match length with
  | O => Ok context
  | S length =>
      if Corrupted context then Ok context
      else
        b ← need OutOfRange (head message_array);
        context ← sha1_input_byte b context;
        sha1_input_loop length (tail message_array) context
  end.

Definition SHA1Input (context : SHA1Context) (message_array : list Z) (length : Z)
    : run SHA1Context :=
  if decide (length = 0) then Ok context
  else if Computed context || Corrupted context then Ok (set_Corrupted true context)
  else sha1_input_loop (Z.to_nat length) message_array context.

(** [while (context->Message_Block_Index < n) block[index++] = 0;] *)
Fixpoint sha1_zero_to (fuel : nat) (n : Z) (context : SHA1Context) : run SHA1Context :=
  if decide (Message_Block_Index context < n) then
    match fuel with
    | O => Crash Fuel
    | S fuel => context ← sha1_put 0 context; sha1_zero_to fuel n context
    end
  else Ok context.

(** The message length goes into the last 8 octets. *)
Definition sha1_finish (context : SHA1Context) : run SHA1Context :=
  let hi := Length_High context in
  let lo := Length_Low context in
  blk ← arr_set (Message_Block context) 56 (Z.land (Z.shiftr hi 24) 0xFF);
  blk ← arr_set blk 57 (Z.land (Z.shiftr hi 16) 0xFF);
  blk ← arr_set blk 58 (Z.land (Z.shiftr hi 8) 0xFF);
  blk ← arr_set blk 59 (Z.land hi 0xFF);
  blk ← arr_set blk 60 (Z.land (Z.shiftr lo 24) 0xFF);
  blk ← arr_set blk 61 (Z.land (Z.shiftr lo 16) 0xFF);
  blk ← arr_set blk 62 (Z.land (Z.shiftr lo 8) 0xFF);
  blk ← arr_set blk 63 (Z.land lo 0xFF);
  SHA1ProcessMessageBlock (set_Block blk (Message_Block_Index context) context).

Definition SHA1PadMessage (context : SHA1Context) : run SHA1Context :=
  context ←
    (if decide (Message_Block_Index context > 55) then
       context ← sha1_put 0x80 context;
       context ← sha1_zero_to 64 64 context;
       context ← SHA1ProcessMessageBlock context;
       sha1_zero_to 64 56 context
     else
       context ← sha1_put 0x80 context;
       sha1_zero_to 64 56 context);
  sha1_finish context.

(** Returns the C result (1 or 0) and the context. *)
Definition SHA1Result (context : SHA1Context) : run (Z * SHA1Context) :=
  if Corrupted context then Ok (0, context)
  else if Computed context then Ok (1, context)
  else
    context ← SHA1PadMessage context;
    Ok (1, set_Computed true context).

(** Hashing a message handed over in pieces, as [sr_handle_auth_request]
    does with the salt and the key. *)
Fixpoint SHA1Inputs (context : SHA1Context) (pieces : list (list Z)) : run SHA1Context :=
  match pieces with
  | [] => Ok context
  | p :: pieces => context ← SHA1Input context p (zlen p); SHA1Inputs context pieces
  end.
Definition SHA1Hash (context : SHA1Context) (pieces : list (list Z)) : run (Z * SHA1Context) :=
  context ← SHA1Inputs (SHA1Reset context) pieces; SHA1Result context.

Definition fresh_context : SHA1Context :=
  {| Message_Digest := replicate 5 0; Length_Low := 0; Length_High := 0;
     Message_Block := replicate 64 0; Message_Block_Index := 0;
     Computed := false; Corrupted := false |}.

(** The FIPS 180 example: SHA-1("abc"). *)
Example sha1_abc_code :
  (Message_Digest ∘ snd) <$> SHA1Hash fresh_context [bytes_of "a"; bytes_of "bc"]
  = Ok [0xA9993E36; 0x4706816A; 0xBA3E2571; 0x7850C26C; 0x9CD0D89D].
Proof. vm_compute. reflexivity. Qed.
Example sha1_abc_spec :
  Spec.sha1 (bytes_of "abc") = [0xA9993E36; 0x4706816A; 0xBA3E2571; 0x7850C26C; 0x9CD0D89D].
Proof. vm_compute. reflexivity. Qed.

(** ** The compression function *)

Lemma circular_shift_rotl n x : SHA1CircularShift n x = Spec.ROTL n x.
Proof.
  unfold SHA1CircularShift, Spec.ROTL. rewrite land_ffffffff. f_equal.
  apply u32_small, u32_range.
Qed.

Lemma not32_testbit x n : 0 <= n ->
  Z.testbit (u32 (Z.lnot x)) n = (n <? 32) && negb (Z.testbit x n).
Proof.
  intros Hn. unfold u32. destruct (Z.ltb_spec n 32).
  - rewrite Z.mod_pow2_bits_low, Z.lnot_spec by lia. done.
  - by rewrite Z.mod_pow2_bits_high by lia.
Qed.

Lemma sha1_f0_ch B C D : sha1_f0 B C D = Spec.Ch B C D.
Proof.
  unfold sha1_f0, Spec.Ch, Spec.not32. apply Z.bits_inj'. intros n Hn.
  rewrite Z.lor_spec, Z.lxor_spec, !Z.land_spec, not32_testbit by done.
  by destruct (n <? 32), (Z.testbit B n), (Z.testbit C n), (Z.testbit D n).
Qed.

Lemma sha1_f2_maj B C D : sha1_f2 B C D = Spec.Maj B C D.
Proof.
  unfold sha1_f2, Spec.Maj. apply Z.bits_inj'. intros n Hn.
  rewrite !Z.lor_spec, !Z.lxor_spec, !Z.land_spec.
  by destruct (Z.testbit B n), (Z.testbit C n), (Z.testbit D n).
Qed.

Lemma length_block_words n blk : length (Spec.block_words n blk) = n.
Proof. revert blk. induction n; intros; cbn; auto. Qed.

Lemma length_schedule M n : length (Spec.schedule M n) = (length M + n)%nat.
Proof.
  induction n as [|n IH]; cbn [Spec.schedule]; [lia|].
  rewrite length_app, IH. cbn. lia.
Qed.

Lemma be_val_4 b0 b1 b2 b3 :
  be_val [b0; b1; b2; b3] = b0 * 2 ^ 24 + b1 * 2 ^ 16 + b2 * 2 ^ 8 + b3.
Proof. unfold be_val. cbn [rev app le_val]. lia. Qed.

Lemma load_word_value b0 b1 b2 b3 :
  is_byte b0 -> is_byte b1 -> is_byte b2 -> is_byte b3 ->
  Z.lor (Z.lor (Z.lor (u32 (Z.shiftl b0 24)) (u32 (Z.shiftl b1 16))) (u32 (Z.shiftl b2 8))) b3
  = be_val [b0; b1; b2; b3].
Proof.
  unfold is_byte. intros. rewrite be_val_4.
  rewrite !u32_small by (rewrite Z.shiftl_mul_pow2 by lia; lia).
  replace (Z.shiftl b0 24) with (Z.shiftl (Z.shiftl b0 8) 16) by (by rewrite Z.shiftl_shiftl by lia).
  rewrite <- Z.shiftl_lor.
  replace (Z.shiftl (Z.lor (Z.shiftl b0 8) b1) 16)
    with (Z.shiftl (Z.shiftl (Z.lor (Z.shiftl b0 8) b1) 8) 8)
    by (by rewrite Z.shiftl_shiftl by lia).
  rewrite <- Z.shiftl_lor. rewrite !lor_shiftl_add by lia. lia.
Qed.

Lemma take_4 {A} (l : list A) : (4 <= length l)%nat ->
  exists a b c d, take 4 l = [a; b; c; d] /\ l !! 0%nat = Some a /\ l !! 1%nat = Some b /\
    l !! 2%nat = Some c /\ l !! 3%nat = Some d.
Proof.
  intros. destruct l as [|a [|b [|c [|d l]]]]; cbn in *; try lia.
  by exists a, b, c, d.
Qed.

Lemma block_words_lookup n blk t : (t < n)%nat ->
  Spec.block_words n blk !! t = Some (be_val (take 4 (drop (4 * t) blk))).
Proof.
  revert blk t. induction n as [|n IH]; intros blk t Ht; [lia|].
  destruct t as [|t]; cbn [Spec.block_words lookup list_lookup]; [done|].
  change (Spec.block_words n (drop 4 blk) !! t = Some (be_val (take 4 (drop (4 * S t) blk)))).
  rewrite IH by lia. rewrite drop_drop. do 4 f_equal. lia.
Qed.

Lemma sha1_load_ok blk t :
  Forall is_byte blk -> length blk = 64%nat -> 0 <= t < 16 ->
  sha1_load blk t (written (take (Z.to_nat t) (Spec.block_words 16 blk)) 80)
  = Ok (written (take (Z.to_nat (t + 1)) (Spec.block_words 16 blk)) 80).
Proof.
  intros HF Hl Ht.
  assert (4 * Z.to_nat t + 4 <= 64)%nat as Hb by lia.
  destruct (take_4 (drop (4 * Z.to_nat t) blk)) as (a & b & c & d & Htk & Ha & Hb' & Hc & Hd).
  { rewrite length_drop. lia. }
  rewrite !lookup_drop in Ha, Hb', Hc, Hd. unfold sha1_load.
  assert (forall k i x, blk !! (4 * Z.to_nat t + k)%nat = Some x -> i = t * 4 + Z.of_nat k ->
    arr_get blk i = Ok x) as Hget.
  { intros k i x Hx ->. apply arr_get_ok; [lia|]. rewrite <- Hx. f_equal. lia. }
  rewrite (Hget 0%nat (t * 4) a), (Hget 1%nat (t * 4 + 1) b), (Hget 2%nat (t * 4 + 2) c),
    (Hget 3%nat (t * 4 + 3) d) by (done || lia).
  cbn [mbind run_bind].
  assert (Forall is_byte [a; b; c; d]) as HF4 by (rewrite <- Htk; by apply Forall_take, Forall_drop).
  rewrite !Forall_cons in HF4. destruct HF4 as (? & ? & ? & ? & _).
  rewrite load_word_value, <- Htk by done.
  rewrite written_set.
  - f_equal. f_equal. replace (Z.to_nat (t + 1)) with (S (Z.to_nat t)) by lia.
    symmetry. apply take_S_r. by rewrite block_words_lookup by lia.
  - rewrite length_take, length_block_words. lia.
  - rewrite length_take, length_block_words. lia.
Qed.

Lemma sha1_load_loop blk :
  Forall is_byte blk -> length blk = 64%nat ->
  for_from 16 0 (sha1_load blk) (replicate 80 None) = Ok (written (Spec.block_words 16 blk) 80).
Proof.
  intros HF Hl.
  destruct (for_from_inv
    (fun t W => W = written (take (Z.to_nat t) (Spec.block_words 16 blk)) 80)
    (sha1_load blk) 16 0 (replicate 80 None)) as (W & -> & ->).
  - intros t W Ht ->. eexists. split; [|reflexivity]. apply sha1_load_ok; (done || lia).
  - done.
  - by rewrite take_ge by (rewrite length_block_words; lia).
Qed.

Lemma nth_to_lookup (l : list Z) i : (i < length l)%nat -> l !! i = Some (nth i l 0).
Proof.
  intros. destruct (lookup_lt_is_Some_2 l i) as [x Hx]; [done|].
  rewrite Hx. f_equal. symmetry. by apply nth_lookup_Some.
Qed.

Lemma sha1_extend_ok M n : length M = 16%nat -> (n < 64)%nat ->
  sha1_extend (16 + Z.of_nat n) (written (Spec.schedule M n) 80)
  = Ok (written (Spec.schedule M (S n)) 80).
Proof.
  intros HM Hn. unfold sha1_extend.
  pose proof (length_schedule M n) as HL.
  assert (forall k z, (1 <= k <= 16)%nat -> z = Z.of_nat k ->
    arr_read (written (Spec.schedule M n) 80) (16 + Z.of_nat n - z)
    = Ok (nth (n + 16 - k) (Spec.schedule M n) 0)) as Hr.
  { intros k z Hk ->. apply written_read; [|lia].
    replace (Z.to_nat (16 + Z.of_nat n - Z.of_nat k)) with (n + 16 - k)%nat by lia.
    apply nth_to_lookup. lia. }
  rewrite (Hr 3%nat 3), (Hr 8%nat 8), (Hr 14%nat 14), (Hr 16%nat 16) by lia.
  cbn [mbind run_bind]. rewrite circular_shift_rotl, written_set by lia. done.
Qed.

Lemma sha1_extend_loop M : length M = 16%nat ->
  for_from 64 16 sha1_extend (written M 80) = Ok (written (Spec.schedule M 64) 80).
Proof.
  intros HM.
  destruct (for_from_inv
    (fun t W => W = written (Spec.schedule M (Z.to_nat (t - 16))) 80)
    sha1_extend 64 16 (written M 80)) as (W & -> & ->).
  - intros t W Ht ->. eexists. split; [|reflexivity].
    replace t with (16 + Z.of_nat (Z.to_nat (t - 16))) at 1 by lia.
    rewrite sha1_extend_ok by lia. do 2 f_equal. f_equal. lia.
  - done.
  - done.
Qed.

Lemma sha1_round_ok g k W t s :
  length W = 80%nat -> 0 <= t < 80 ->
  (forall x y z, g x y z = Spec.f t x y z) -> k = Spec.K t ->
  sha1_round g k (written W 80) t s = Ok (Spec.round W s t).
Proof.
  intros HW Ht Hg ->. destruct s as [[[[A B] C] D] E]. unfold sha1_round, Spec.round.
  rewrite (written_read _ _ _ (nth (Z.to_nat t) W 0)) by (lia || (apply nth_to_lookup; lia)).
  cbn [mbind run_bind]. rewrite Hg, !circular_shift_rotl, land_ffffffff.
  rewrite (u32_small (u32 _)) by apply u32_range. do 6 f_equal. lia.
Qed.

Lemma sha1_round_loop g k W lo n s :
  length W = 80%nat -> 0 <= lo -> lo + Z.of_nat n <= 80 ->
  (forall t, lo <= t < lo + Z.of_nat n -> (forall x y z, g x y z = Spec.f t x y z) /\ k = Spec.K t) ->
  for_from n lo (sha1_round g k (written W 80)) s
  = Ok (foldl (Spec.round W) s (seqZ lo (Z.of_nat n))).
Proof.
  intros HW. revert lo s. induction n as [|n IH]; intros lo s Hlo Hn Hg; [done|].
  cbn [for_from]. destruct (Hg lo) as [Hg1 Hk1]; [lia|].
  rewrite sha1_round_ok by (done || lia). cbn [mbind run_bind].
  rewrite IH; [|lia|lia|intros; apply Hg; lia].
  rewrite (seqZ_cons lo (Z.of_nat (S n))) by lia. cbn [foldl].
  do 3 f_equal; lia.
Qed.

Lemma sha1_rounds W s : length W = 80%nat ->
  (s ← for_from 20 0 (sha1_round sha1_f0 0x5A827999 (written W 80)) s;
   s ← for_from 20 20 (sha1_round sha1_f1 0x6ED9EBA1 (written W 80)) s;
   s ← for_from 20 40 (sha1_round sha1_f2 0x8F1BBCDC (written W 80)) s;
   for_from 20 60 (sha1_round sha1_f1 0xCA62C1D6 (written W 80)) s)
  = Ok (foldl (Spec.round W) s (seqZ 0 80)).
Proof.
  intros HW.
  assert (forall t, Spec.f t = if decide (t < 20) then Spec.Ch else if decide (t < 40) then Spec.Parity
    else if decide (t < 60) then Spec.Maj else Spec.Parity) as Hf.
  { intros t. unfold Spec.f. repeat case_decide; done. }
  rewrite (sha1_round_loop _ _ _ 0 20) by (lia || done ||
    (intros t Ht; rewrite Hf; unfold Spec.K; rewrite !decide_True by lia;
     split; [intros; apply sha1_f0_ch|done])).
  cbn [mbind run_bind].
  rewrite (sha1_round_loop _ _ _ 20 20) by (lia || done ||
    (intros t Ht; rewrite Hf; unfold Spec.K; rewrite !(decide_False (P := t < 20)), !decide_True by lia; done)).
  cbn [mbind run_bind].
  rewrite (sha1_round_loop _ _ _ 40 20) by (lia || done ||
    (intros t Ht; rewrite Hf; unfold Spec.K;
     rewrite !(decide_False (P := t < 20)), !(decide_False (P := t < 40)), !decide_True by lia;
     split; [intros; apply sha1_f2_maj|done])).
  cbn [mbind run_bind].
  rewrite (sha1_round_loop _ _ _ 60 20) by (lia || done ||
    (intros t Ht; rewrite Hf; unfold Spec.K; rewrite !decide_False by lia; done)).
  change (seqZ 0 80) with (seqZ 0 20 ++ seqZ 20 20 ++ seqZ 40 20 ++ seqZ 60 20).
  rewrite !foldl_app. reflexivity.
Qed.

Lemma SHA1ProcessMessageBlock_ok c :
  Forall is_byte (Message_Block c) -> length (Message_Block c) = 64%nat ->
  length (Message_Digest c) = 5%nat ->
  SHA1ProcessMessageBlock c
  = Ok (set_Block (Message_Block c) 0
         (set_Message_Digest (Spec.compress (Message_Digest c) (Message_Block c)) c)).
Proof.
  intros HF Hl Hd. unfold SHA1ProcessMessageBlock.
  rewrite sha1_load_loop by done. cbn [mbind run_bind].
  rewrite sha1_extend_loop by apply length_block_words. cbn [mbind run_bind].
  unfold Spec.compress.
  assert (length (Spec.schedule (Spec.block_words 16 (Message_Block c)) 64) = 80%nat) as HW
    by (by rewrite length_schedule, length_block_words).
  revert HW. generalize (Spec.schedule (Spec.block_words 16 (Message_Block c)) 64).
  intros W HW.
  destruct (Message_Digest c) as [|h0 [|h1 [|h2 [|h3 [|h4 [|? ?]]]]]]; try done.
  unfold Spec.to_words. cbn [nth].
  pose proof (sha1_rounds W (h0, h1, h2, h3, h4) HW) as Hr.
  destruct (foldl (Spec.round W) (h0, h1, h2, h3, h4) (seqZ 0 80)) as [[[[a b] c'] d] e].
  change (arr_get [h0; h1; h2; h3; h4] 0) with (Ok h0).
  change (arr_get [h0; h1; h2; h3; h4] 1) with (Ok h1).
  change (arr_get [h0; h1; h2; h3; h4] 2) with (Ok h2).
  change (arr_get [h0; h1; h2; h3; h4] 3) with (Ok h3).
  change (arr_get [h0; h1; h2; h3; h4] 4) with (Ok h4).
  cbn [mbind run_bind].
  apply bind_ok in Hr as (s1 & -> & Hr); cbn [mbind run_bind].
  apply bind_ok in Hr as (s2 & -> & Hr); cbn [mbind run_bind].
  apply bind_ok in Hr as (s3 & -> & Hr); cbn [mbind run_bind].
  rewrite Hr. cbn [mbind run_bind].
  rewrite !land_ffffffff, !(u32_small (u32 _)) by apply u32_range. done.
Qed.

Arguments Spec.compress : simpl never.

Lemma length_compress H b : length (Spec.compress H b) = 5%nat.
Proof. unfold Spec.compress. by repeat case_match. Qed.

#[local] Opaque Spec.compress.

(** ** Streaming: the context as an abstract message *)

(** [absorbed c m]: the context [c] has consumed exactly the bytes [m]: whole
    blocks [bs] are folded into the digest, the remainder [r] sits in the
    block buffer, and the 64-bit bit counter holds the length. *)
Definition absorbed (c : SHA1Context) (m : list Z) : Prop :=
  exists bs r,
    m = concat bs ++ r /\ Forall (fun b => length b = 64%nat) bs /\ (length r < 64)%nat /\
    Message_Digest c = foldl Spec.compress Spec.H0 bs /\
    take (length r) (Message_Block c) = r /\ Message_Block_Index c = zlen r /\
    length (Message_Block c) = 64%nat /\ Forall is_byte (Message_Block c) /\
    Length_Low c = u32 (8 * zlen m) /\ Length_High c = 8 * zlen m / 2 ^ 32 /\
    Computed c = false /\ Corrupted c = false.

Lemma length_foldl_compress H bs :
  length H = 5%nat -> length (foldl Spec.compress H bs) = 5%nat.
Proof.
  revert H. induction bs as [|b bs IH]; intros H Hl; [done|]. apply IH, length_compress.
Qed.

Lemma absorbed_reset c :
  length (Message_Block c) = 64%nat -> Forall is_byte (Message_Block c) ->
  absorbed (SHA1Reset c) [].
Proof. intros. exists [], []. cbn. repeat split; (done || lia). Qed.

Lemma bit_counter_step (n : Z) :
  0 <= n -> 8 * (n + 1) < 2 ^ 64 ->
  let lo := Z.land (u32 (u32 (8 * n) + 8)) 0xFFFFFFFF in
  lo = u32 (8 * (n + 1)) /\
  8 * n / 2 ^ 32 < 2 ^ 32 /\
  (if decide (lo = 0) then u32 (8 * n / 2 ^ 32 + 1) else 8 * n / 2 ^ 32) = 8 * (n + 1) / 2 ^ 32 /\
  (lo = 0 -> 0 < 8 * (n + 1) / 2 ^ 32 < 2 ^ 32).
Proof.
  intros Hn Hb lo. unfold lo. clear lo. rewrite land_ffffffff, (u32_small (u32 _)) by apply u32_range.
  assert (u32 (u32 (8 * n) + 8) = u32 (8 * (n + 1))) as ->
    by (unfold u32; rewrite Z.add_mod_idemp_l by lia; f_equal; lia).
  unfold u32. split_and!; [done| | |].
  - Z.div_mod_to_equations; lia.
  - case_decide; Z.div_mod_to_equations; lia.
  - intros. Z.div_mod_to_equations; lia.
Qed.

Lemma set_Block_id c : set_Block (Message_Block c) (Message_Block_Index c) c = c.
Proof. by destruct c. Qed.

Lemma sha1_put_ok b c :
  0 <= Message_Block_Index c < zlen (Message_Block c) ->
  sha1_put b c = Ok (set_Block (<[Z.to_nat (Message_Block_Index c) := b]> (Message_Block c))
                       (Message_Block_Index c + 1) c).
Proof. intros. unfold sha1_put. by rewrite arr_set_ok by done. Qed.

(** One byte of input. *)
Lemma sha1_input_byte_ok c m b :
  absorbed c m -> is_byte b -> 8 * (zlen m + 1) < 2 ^ 64 ->
  exists c', sha1_input_byte b c = Ok c' /\ absorbed c' (m ++ [b]).
Proof.
  intros (bs & r & Hm & Hbs & Hr & Hd & Hblk & Hi & Hl & HF & Hlo & Hhi & Hc & Hx) Hb Hlen.
  destruct (bit_counter_step (zlen m)) as (H1 & H2 & H3 & H4); [lia|done|].
  unfold sha1_input_byte. rewrite land_ff.
  replace (u8 b) with b by (symmetry; apply Z.mod_small; done).
  rewrite sha1_put_ok by lia. cbn [mbind run_bind].
  set (blk := <[Z.to_nat (Message_Block_Index c):=b]> (Message_Block c)).
  set (c1 := set_Length (u32 (8 * (zlen m + 1))) (8 * (zlen m + 1) / 2 ^ 32)
     (set_Block blk (Message_Block_Index c + 1) c)).
  match goal with |- context [if decide (_ = 64) then SHA1ProcessMessageBlock ?x else _] =>
    assert (x = c1) as -> end.
  { cbn [Length_Low Length_High set_Block set_Length]. rewrite Hlo, Hhi. unfold c1.
    rewrite <- H3, <- H1. case_decide as Hz; [|done]. rewrite land_ffffffff, (u32_small (u32 _)) by apply u32_range.
    specialize (H4 Hz). rewrite decide_False; [done|]. rewrite H3. lia. }
  assert (length blk = 64%nat) as Hlblk by (unfold blk; by rewrite length_insert).
  assert (Forall is_byte blk) as HFblk by (by apply Forall_insert_any).
  assert (take (S (length r)) blk = r ++ [b]) as Htk.
  { unfold blk. rewrite Hi, Nat2Z.id, take_insert_S by lia. by rewrite Hblk. }
  assert (zlen (m ++ [b]) = zlen m + 1) as Hlm by (rewrite length_app; cbn; lia).
  change (Message_Block_Index c1) with (Message_Block_Index c + 1).
  clear H1 H2 H3 H4. case_decide as H64.
  - rewrite SHA1ProcessMessageBlock_ok; cbn; [|done|done|].
    2:{ rewrite Hd. by apply length_foldl_compress. }
    eexists; split; [done|].
    assert (blk = r ++ [b]) as Hblk'.
    { rewrite <- Htk. symmetry. apply take_ge. lia. }
    exists (bs ++ [blk]), []. cbn. rewrite Hlm, foldl_app. cbn [foldl]. rewrite <- Hd.
    split_and!; try reflexivity; try assumption.
    + rewrite concat_app, app_nil_r. cbn. by rewrite app_nil_r, Hblk', Hm, app_assoc.
    + by apply Forall_app_2; [|apply Forall_singleton].
    + lia.
  - eexists; split; [done|]. exists bs, (r ++ [b]). cbn. rewrite Hlm.
    assert (length (r ++ [b]) = S (length r)) as Hlr by (rewrite length_app; cbn; lia).
    rewrite Hlr. split_and!; try done; [by rewrite Hm, app_assoc|lia|lia].
Qed.

Lemma sha1_input_loop_ok msg m c :
  absorbed c m -> Forall is_byte msg -> 8 * (zlen m + zlen msg) < 2 ^ 64 ->
  exists c', sha1_input_loop (length msg) msg c = Ok c' /\ absorbed c' (m ++ msg).
Proof.
  revert m c. induction msg as [|b msg IH]; intros m c Hab HF Hlen; cbn [sha1_input_loop length].
  - exists c. by rewrite app_nil_r.
  - assert (Corrupted c = false) as -> by (destruct Hab as (? & ? & Hab); tauto).
    apply Forall_cons in HF as [Hb HF]. cbn [head need tail mbind run_bind].
    cbn [length] in Hlen.
    destruct (sha1_input_byte_ok c m b) as (c' & -> & Hab'); [done|done|lia|].
    cbn [mbind run_bind]. destruct (IH (m ++ [b]) c') as (c'' & -> & Hab''); [done|done| |].
    + rewrite length_app. cbn [length]. lia.
    + exists c''. split; [done|]. by rewrite <- app_assoc in Hab''.
Qed.

Lemma SHA1Input_ok msg m c :
  absorbed c m -> Forall is_byte msg -> 8 * (zlen m + zlen msg) < 2 ^ 64 ->
  exists c', SHA1Input c msg (zlen msg) = Ok c' /\ absorbed c' (m ++ msg).
Proof.
  intros Hab HF Hlen. unfold SHA1Input. case_decide as Hz.
  - destruct msg; [|cbn in Hz; lia]. exists c. by rewrite app_nil_r.
  - assert (Computed c = false /\ Corrupted c = false) as [-> ->]
      by (destruct Hab as (? & ? & Hab); tauto).
    cbn [orb]. rewrite Nat2Z.id. by apply sha1_input_loop_ok.
Qed.

Lemma SHA1Inputs_ok pieces m c :
  absorbed c m -> Forall (Forall is_byte) pieces -> 8 * (zlen m + zlen (concat pieces)) < 2 ^ 64 ->
  exists c', SHA1Inputs c pieces = Ok c' /\ absorbed c' (m ++ concat pieces).
Proof.
  revert m c. induction pieces as [|p pieces IH]; intros m c Hab HF Hlen; cbn [SHA1Inputs concat].
  - exists c. by rewrite app_nil_r.
  - apply Forall_cons in HF as [Hp HF]. cbn [concat] in Hlen. rewrite length_app in Hlen.
    destruct (SHA1Input_ok p m c) as (c' & -> & Hab'); [done|done|lia|]. cbn [mbind run_bind].
    destruct (IH (m ++ p) c') as (c'' & -> & Hab''); [done|done|rewrite length_app; lia|].
    exists c''. by rewrite app_assoc.
Qed.

(** ** Padding *)

(** The block buffer starts with [r]. *)
Definition prefixed (blk r : list Z) : Prop :=
  take (length r) blk = r /\ length blk = 64%nat /\ Forall is_byte blk.

Lemma prefixed_set blk r b :
  prefixed blk r -> (length r < 64)%nat -> is_byte b ->
  exists blk', arr_set blk (zlen r) b = Ok blk' /\ prefixed blk' (r ++ [b]).
Proof.
  intros (Ht & Hl & HF) Hr Hb. rewrite arr_set_ok by lia. eexists; split; [done|].
  rewrite Nat2Z.id. split_and!.
  - rewrite length_app, Nat.add_1_r, take_insert_S by lia. by rewrite Ht.
  - by rewrite length_insert.
  - by apply Forall_insert_any.
Qed.

Lemma prefixed_full blk r : prefixed blk r -> length r = 64%nat -> blk = r.
Proof. intros (Ht & Hl & _) Hr. rewrite <- Ht. symmetry. apply take_ge. lia. Qed.

Lemma sha1_zero_to_ok fuel n c r :
  prefixed (Message_Block c) r -> Message_Block_Index c = zlen r -> zlen r <= n <= 64 ->
  n - zlen r <= Z.of_nat fuel ->
  exists blk, sha1_zero_to fuel n c = Ok (set_Block blk n c) /\
    prefixed blk (r ++ replicate (Z.to_nat (n - zlen r)) 0).
Proof.
  revert c r. induction fuel as [|fuel IH]; intros c r Hp Hi Hr Hn; cbn [sha1_zero_to].
  - assert (n = zlen r) as -> by lia. rewrite decide_False by lia.
    exists (Message_Block c). rewrite <- Hi, set_Block_id, Hi, Z.sub_diag. cbn.
    by rewrite app_nil_r.
  - case_decide as Hlt.
    + destruct (prefixed_set _ _ 0 Hp) as (blk & Hs & Hp'); [lia|done|].
      unfold sha1_put. rewrite Hi, Hs. cbn [mbind run_bind].
      assert (zlen (r ++ [0]) = zlen r + 1) as Hlr by (rewrite length_app; cbn; lia).
      destruct (IH (set_Block blk (zlen r + 1) c) (r ++ [0])) as (blk' & -> & Hp'');
        [done|cbn; lia|lia|lia|].
      exists blk'. split; [done|]. rewrite <- app_assoc, Hlr in Hp''.
      replace (Z.to_nat (n - zlen r)) with (S (Z.to_nat (n - (zlen r + 1)))) by lia. done.
    + assert (n = zlen r) as -> by lia.
      exists (Message_Block c). rewrite <- Hi, set_Block_id, Hi, Z.sub_diag. cbn.
      by rewrite app_nil_r.
Qed.

(** The eight length octets. *)
Lemma length_octets_ok c r n :
  prefixed (Message_Block c) r -> length r = 56%nat -> 0 <= n < 2 ^ 64 ->
  Length_Low c = u32 n -> Length_High c = n / 2 ^ 32 ->
  sha1_finish c
  = SHA1ProcessMessageBlock (set_Block (r ++ be_bytes 8 n) (Message_Block_Index c) c).
Proof.
  intros Hp Hr Hn Hlo Hhi. unfold sha1_finish. cbn zeta.
  assert (Forall is_byte (be_bytes 8 n)) as HF by apply be_bytes_is_byte.
  assert (be_bytes 8 n =
    [Z.land (Z.shiftr (Length_High c) 24) 0xFF; Z.land (Z.shiftr (Length_High c) 16) 0xFF;
     Z.land (Z.shiftr (Length_High c) 8) 0xFF; Z.land (Length_High c) 0xFF;
     Z.land (Z.shiftr (Length_Low c) 24) 0xFF; Z.land (Z.shiftr (Length_Low c) 16) 0xFF;
     Z.land (Z.shiftr (Length_Low c) 8) 0xFF; Z.land (Length_Low c) 0xFF]) as Hbe.
  { unfold be_bytes. change 8%nat with (4 + 4)%nat. rewrite (le_bytes_app 4 4 n), rev_app_distr.
    rewrite <- (le_bytes_mod 4 n). change (256 ^ Z.of_nat 4) with (2 ^ 32).
    rewrite <- Hhi. change (n mod 2 ^ 32) with (u32 n). rewrite <- Hlo.
    by rewrite !le_bytes_4_shifts. }
  rewrite Hbe in HF |- *. clear Hbe.
  revert HF. generalize (Z.land (Z.shiftr (Length_High c) 24) 0xFF)
    (Z.land (Z.shiftr (Length_High c) 16) 0xFF) (Z.land (Z.shiftr (Length_High c) 8) 0xFF)
    (Z.land (Length_High c) 0xFF) (Z.land (Z.shiftr (Length_Low c) 24) 0xFF)
    (Z.land (Z.shiftr (Length_Low c) 16) 0xFF) (Z.land (Z.shiftr (Length_Low c) 8) 0xFF)
    (Z.land (Length_Low c) 0xFF).
  intros b0 b1 b2 b3 b4 b5 b6 b7 HF.
  assert (forall blk rr i b (k : list Z -> run SHA1Context) X,
    prefixed blk rr -> i = zlen rr -> (length rr < 64)%nat -> is_byte b ->
    (forall blk', prefixed blk' (rr ++ [b]) -> k blk' = X) ->
    (arr_set blk i b ≫= k) = X) as Hstep.
  { intros blk rr i b k X Hpr -> Hl Hb Hk.
    destruct (prefixed_set blk rr b Hpr Hl Hb) as (blk' & -> & Hp'). cbn. by apply Hk. }
  repeat (apply Forall_cons in HF as [? HF]).
  change (r ++ [b0; b1; b2; b3; b4; b5; b6; b7])
    with (r ++ ([b0] ++ [b1] ++ [b2] ++ [b3] ++ [b4] ++ [b5] ++ [b6] ++ [b7])).
  rewrite !app_assoc.
  do 8 (match goal with H : prefixed ?b ?rr |- (arr_set _ _ _ ≫= _) = _ =>
    eapply (Hstep _ rr); [exact H|rewrite ?length_app, Hr; cbn [length]; lia
      |rewrite ?length_app, Hr; cbn [length]; lia|done|]; clear H; intros ? ? end).
  match goal with H : prefixed ?b _ |- _ => apply prefixed_full in H as -> end; [done|].
  rewrite !length_app, Hr. done.
Qed.

Lemma blocks_concat bs :
  Forall (fun b : list Z => length b = 64%nat) bs -> Spec.blocks (length bs) (concat bs) = bs.
Proof.
  induction 1 as [|b bs Hb _ IH]; [done|]. cbn [Spec.blocks length concat].
  by rewrite take_app_length', drop_app_length', IH by done.
Qed.

Lemma length_concat_64 (bs : list (list Z)) :
  Forall (fun b : list Z => length b = 64%nat) bs -> length (concat bs) = (64 * length bs)%nat.
Proof.
  induction 1 as [|b bs Hb _ IH]; [done|]. cbn beta in Hb. cbn [length concat].
  rewrite length_app, IH, Hb. lia.
Qed.

Lemma sha1_of_blocks m bs :
  Forall (fun b : list Z => length b = 64%nat) bs -> Spec.pad m = concat bs ->
  Spec.sha1 m = foldl Spec.compress Spec.H0 bs.
Proof.
  intros HF Hp. unfold Spec.sha1. rewrite Hp, length_concat_64 by done.
  rewrite (Nat.mul_comm 64), Nat.div_mul by lia. by rewrite blocks_concat.
Qed.

(** The length and the last compression. *)
Lemma sha1_finish_ok c q n :
  prefixed (Message_Block c) q -> length q = 56%nat -> 0 <= n < 2 ^ 64 ->
  Length_Low c = u32 n -> Length_High c = n / 2 ^ 32 -> length (Message_Digest c) = 5%nat ->
  exists c', sha1_finish c = Ok c' /\ Message_Digest c' = Spec.compress (Message_Digest c) (q ++ be_bytes 8 n).
Proof.
  intros Hp Hq Hn Hlo Hhi Hd. rewrite (length_octets_ok c q n Hp Hq Hn Hlo Hhi).
  rewrite SHA1ProcessMessageBlock_ok; cbn [Message_Block Message_Digest set_Block]; [by eexists| | |exact Hd].
  - apply Forall_app_2; [destruct Hp as (<- & _ & HF); by apply Forall_take|apply be_bytes_is_byte].
  - rewrite length_app, length_be_bytes. lia.
Qed.

(** The end of the message: what is left of it, the marker and the zeros. *)
Lemma pad_short m (bs : list (list Z)) r :
  m = concat bs ++ r -> Forall (fun b : list Z => length b = 64%nat) bs -> zlen r <= 55 ->
  Spec.pad m = concat (bs ++ [((r ++ [0x80]) ++ replicate (Z.to_nat (56 - (zlen r + 1))) 0)
                               ++ be_bytes 8 (8 * zlen m)]).
Proof.
  intros Hm Hbs Hr.
  assert (zlen m = 64 * zlen bs + zlen r) as Hzm
    by (rewrite Hm, length_app, length_concat_64 by done; lia).
  unfold Spec.pad. replace ((55 - zlen m) mod 64) with (56 - (zlen r + 1))
    by (rewrite Hzm; Z.div_mod_to_equations; lia).
  rewrite concat_app. cbn [concat]. rewrite app_nil_r, Hm at 1. by rewrite <- !app_assoc.
Qed.

Lemma pad_long m (bs : list (list Z)) r :
  m = concat bs ++ r -> Forall (fun b : list Z => length b = 64%nat) bs -> 55 < zlen r < 64 ->
  Spec.pad m = concat (bs ++ [(r ++ [0x80]) ++ replicate (Z.to_nat (64 - (zlen r + 1))) 0;
                              replicate 56 0 ++ be_bytes 8 (8 * zlen m)]).
Proof.
  intros Hm Hbs Hr.
  assert (zlen m = 64 * zlen bs + zlen r) as Hzm
    by (rewrite Hm, length_app, length_concat_64 by done; lia).
  unfold Spec.pad. replace ((55 - zlen m) mod 64) with ((64 - (zlen r + 1)) + 56)
    by (rewrite Hzm; Z.div_mod_to_equations; lia).
  rewrite Z2Nat.inj_add, replicate_add by lia. change (Z.to_nat 56) with 56%nat.
  rewrite concat_app. cbn [concat]. rewrite app_nil_r, Hm at 1. by rewrite <- !app_assoc.
Qed.

(** [Message_Block_Index] zeros are appended up to [n]. *)
Lemma sha1_zeros c q n : prefixed (Message_Block c) q -> Message_Block_Index c = zlen q -> zlen q <= n <= 64 ->
  exists blk, sha1_zero_to 64 n c = Ok (set_Block blk n c) /\ prefixed blk (q ++ replicate (Z.to_nat (n - zlen q)) 0).
Proof. intros Hp Hi Hn. apply (sha1_zero_to_ok 64 n c q); (done || lia). Qed.

Section padding.
Context (c : SHA1Context) (m r : list Z) (bs : list (list Z)).
Context (Hm : m = concat bs ++ r) (Hbs : Forall (fun b : list Z => length b = 64%nat) bs).
Context (Hd : Message_Digest c = foldl Spec.compress Spec.H0 bs).
Context (Hn : 0 <= 8 * zlen m < 2 ^ 64).
Context (Hlo : Length_Low c = u32 (8 * zlen m)) (Hhi : Length_High c = 8 * zlen m / 2 ^ 32).
Context (Hp : prefixed (Message_Block c) (r ++ [0x80])) (Hi : Message_Block_Index c = zlen (r ++ [0x80])).

Let Hlr : zlen (r ++ [0x80]) = zlen r + 1.
Proof. rewrite length_app. cbn [length]. lia. Qed.
Let Hd5 : length (Message_Digest c) = 5%nat.
Proof. rewrite Hd. by apply length_foldl_compress. Qed.

(** The padding fits in the block begun. *)
Lemma pad_one_block : zlen r <= 55 ->
  exists c', (context ← sha1_zero_to 64 56 c; sha1_finish context) = Ok c' /\ Message_Digest c' = Spec.sha1 m.
Proof.
  intros Hr. destruct (sha1_zeros c _ 56 Hp Hi) as (blk & -> & Hp2); [lia|]. run_step. rewrite Hlr in Hp2.
  set (q := (r ++ [0x80]) ++ replicate (Z.to_nat (56 - (zlen r + 1))) 0) in *.
  assert (length q = 56%nat) as Hq by (unfold q; rewrite !length_app, length_replicate; cbn [length]; lia).
  destruct (sha1_finish_ok (set_Block blk 56 c) q _ Hp2 Hq Hn Hlo Hhi Hd5) as (c' & Hrun & Hc').
  exists c'. split; [exact Hrun|]. rewrite Hc'. cbn [Message_Digest set_Block]. symmetry.
  erewrite sha1_of_blocks; [| |by apply pad_short].
  - rewrite foldl_app. cbn [foldl]. by rewrite <- Hd.
  - apply Forall_app_2; [done|]. apply Forall_singleton. fold q. by rewrite length_app, length_be_bytes, Hq.
Qed.

(** It needs another block. *)
Lemma pad_two_blocks : 55 < zlen r < 64 ->
  exists c', (context ← (context ← sha1_zero_to 64 64 c; context ← SHA1ProcessMessageBlock context;
                         sha1_zero_to 64 56 context);
              sha1_finish context) = Ok c' /\ Message_Digest c' = Spec.sha1 m.
Proof.
  intros Hr. destruct (sha1_zeros c _ 64 Hp Hi) as (blk & -> & Hp2); [lia|]. run_step. rewrite Hlr in Hp2.
  set (b1 := (r ++ [0x80]) ++ replicate (Z.to_nat (64 - (zlen r + 1))) 0) in *.
  assert (length b1 = 64%nat) as Hb1 by (unfold b1; rewrite !length_app, length_replicate; cbn [length]; lia).
  apply prefixed_full in Hp2 as Hblk; [|done]. subst blk. destruct Hp2 as (_ & _ & HFb1).
  rewrite (SHA1ProcessMessageBlock_ok (set_Block b1 64 c)) by assumption. run_step.
  set (c2 := set_Block _ 0 _).
  destruct (sha1_zeros c2 [] 56) as (blk & -> & Hp3); [by split_and!|done|cbn [length]; lia|]. run_step.
  change (prefixed blk (replicate 56 0)) in Hp3.
  destruct (sha1_finish_ok (set_Block blk 56 c2) _ _ Hp3 (length_replicate 56 0) Hn Hlo Hhi (length_compress _ _))
    as (c' & Hrun & Hc').
  exists c'. split; [exact Hrun|]. rewrite Hc'. symmetry.
  erewrite sha1_of_blocks; [| |by apply pad_long].
  - rewrite foldl_app. cbn [foldl]. by rewrite <- Hd.
  - apply Forall_app_2; [done|]. apply Forall_cons_2; [exact Hb1|]. apply Forall_singleton.
    by rewrite length_app, length_be_bytes, length_replicate.
Qed.
End padding.

Lemma SHA1PadMessage_ok c m :
  absorbed c m -> 8 * zlen m < 2 ^ 64 ->
  exists c', SHA1PadMessage c = Ok c' /\ Message_Digest c' = Spec.sha1 m.
Proof.
  intros (bs & r & Hm & Hbs & Hr & Hd & Hblk & Hi & Hl & HF & Hlo & Hhi & Hc & Hx) Hlen.
  destruct (prefixed_set (Message_Block c) r 0x80) as (blk & Hset & Hp); [done|exact Hr|done|].
  unfold SHA1PadMessage, sha1_put. rewrite Hi, Hset. run_step.
  assert (zlen r + 1 = zlen (r ++ [0x80])) as Hlr by (rewrite length_app; cbn [length]; lia).
  case_decide as H55.
  - apply (pad_two_blocks (set_Block blk (zlen r + 1) c) m r bs); (done || lia).
  - apply (pad_one_block (set_Block blk (zlen r + 1) c) m r bs); (done || lia).
Qed.

(** No internal step clears the error flag or raises it on its own. *)
Lemma process_flag c c' :
  SHA1ProcessMessageBlock c = Ok c' -> Corrupted c' = Corrupted c /\ Computed c' = Computed c.
Proof.
  unfold SHA1ProcessMessageBlock. intros H. run_inv.
  match goal with H : (let '(_, _) := ?r in _) = _ |- _ => destruct r as [[[[? ?] ?] ?] ?] end.
  run_inv. split; reflexivity.
Qed.

Lemma sha1_put_flag b c c' :
  sha1_put b c = Ok c' -> Corrupted c' = Corrupted c /\ Computed c' = Computed c.
Proof. unfold sha1_put. intros H. run_inv. done. Qed.

Lemma sha1_zero_to_flag fuel n c c' :
  sha1_zero_to fuel n c = Ok c' -> Corrupted c' = Corrupted c /\ Computed c' = Computed c.
Proof.
  revert c. induction fuel as [|fuel IH]; intros c; cbn [sha1_zero_to]; case_decide;
    intros H1; run_inv; try done.
  apply sha1_put_flag in E as [<- <-]. by apply IH.
Qed.

Lemma SHA1PadMessage_flag c c' :
  SHA1PadMessage c = Ok c' -> Corrupted c' = Corrupted c /\ Computed c' = Computed c.
Proof.
  unfold SHA1PadMessage, sha1_finish. case_decide; intros H1; run_inv;
  repeat match goal with
  | H : SHA1ProcessMessageBlock _ = Ok _ |- _ => apply process_flag in H as [? ?]; cbn [Corrupted Computed set_Block] in *
  | H : sha1_put _ _ = Ok _ |- _ => apply sha1_put_flag in H as [? ?]
  | H : sha1_zero_to _ _ _ = Ok _ |- _ => apply sha1_zero_to_flag in H as [? ?]
  end.
  all: split; congruence.
Qed.

Lemma SHA1Hash_ok context pieces :
  length (Message_Block context) = 64%nat -> Forall is_byte (Message_Block context) ->
  Forall (Forall is_byte) pieces -> 8 * zlen (concat pieces) < 2 ^ 64 ->
  exists context', SHA1Hash context pieces = Ok (1, context') /\
    Message_Digest context' = Spec.sha1 (concat pieces) /\
    Computed context' = true /\ Corrupted context' = false.
Proof.
  intros Hl HF Hp Hlen. unfold SHA1Hash, SHA1Result.
  destruct (SHA1Inputs_ok pieces [] (SHA1Reset context)) as (c1 & -> & Hab);
    [by apply absorbed_reset|done|cbn; lia|].
  cbn [mbind run_bind]. assert (Corrupted c1 = false /\ Computed c1 = false) as [Hc1 Hx1]
    by (destruct Hab as (? & ? & Hab); tauto).
  rewrite Hc1, Hx1.
  destruct (SHA1PadMessage_ok c1 (concat pieces)) as (c2 & Hpad & Hd); [exact Hab|lia|].
  rewrite Hpad. cbn [mbind run_bind]. exists (set_Computed true c2). split_and!; [reflexivity|exact Hd|reflexivity|].
  apply SHA1PadMessage_flag in Hpad as [Hc _]. cbn. rewrite Hc.
  exact Hc1.
Qed.

(** C8: hashing a message of fewer than 2^61 bytes, handed to [SHA1Input] in
    any pieces after [SHA1Reset], never indexes outside the context's
    arrays, makes [SHA1Result] return 1, and leaves in [Message_Digest] the
    FIPS 180-4 digest of the concatenation of the pieces; whatever the
    64 bytes of the context's buffer held before. *)
Theorem SHA1Hash_correct context pieces :
  length (Message_Block context) = 64%nat -> Forall is_byte (Message_Block context) ->
  Forall (Forall is_byte) pieces -> 8 * zlen (concat pieces) < 2 ^ 64 ->
  exists context', SHA1Hash context pieces = Ok (1, context') /\
    Message_Digest context' = Spec.sha1 (concat pieces) /\
    Computed context' = true /\ Corrupted context' = false.
Proof. apply SHA1Hash_ok. Qed.

Lemma SHA1Hash_correct_witness :
  exists context', SHA1Hash fresh_context [bytes_of "net"; []; bytes_of "work"] = Ok (1, context') /\
    Message_Digest context' = Spec.sha1 (concat [bytes_of "net"; []; bytes_of "work"]) /\
    Computed context' = true /\ Corrupted context' = false.
Proof.
  apply SHA1Hash_correct; [reflexivity| | |reflexivity].
  - by apply Forall_replicate.
  - repeat (apply Forall_cons_2; [first [apply bytes_of_is_byte|apply Forall_nil_2]|]).
    apply Forall_nil_2.
Defined.


(** A byte that makes the 64-bit bit counter wrap sets [Corrupted]. *)
Lemma sha1_counter_overflow b c c' :
  Length_Low c = 2 ^ 32 - 8 -> Length_High c = 2 ^ 32 - 1 ->
  sha1_input_byte b c = Ok c' -> Corrupted c' = true.
Proof.
  intros Hlo Hhi. unfold sha1_input_byte. intros H. apply bind_ok in H as (c1 & Hput & H).
  unfold sha1_put in Hput. run_inv. cbn [Length_Low Length_High set_Block set_Length] in H.
  rewrite Hlo, Hhi in H.
  change (Z.land (u32 (2 ^ 32 - 8 + 8)) 4294967295) with 0 in H.
  change (Z.land (u32 (2 ^ 32 - 1 + 1)) 4294967295) with 0 in H.
  rewrite !(decide_True (P := 0 = 0)) in H by reflexivity.
  case_decide; run_inv; [|reflexivity]. by apply process_flag in H as [-> _].
Qed.

(** The error flag works as documented.  After a [SHA1Result] that
    returned 1, repeating it returns 1 and the same context; any further
    non-empty [SHA1Input] only sets [Corrupted], leaving the digest alone,
    and [SHA1Result] then returns 0.  A byte of input that would wrap the
    64-bit bit counter makes every later [SHA1Result] return 0 as well. *)
Theorem SHA1_misuse context context' data :
  SHA1Result context = Ok (1, context') -> data <> [] ->
  SHA1Result context' = Ok (1, context') /\
  SHA1Input context' data (zlen data) = Ok (set_Corrupted true context') /\
  SHA1Result (set_Corrupted true context') = Ok (0, set_Corrupted true context') /\
  (forall b c c', Length_Low c = 2 ^ 32 - 8 -> Length_High c = 2 ^ 32 - 1 ->
     sha1_input_byte b c = Ok c' -> SHA1Result c' = Ok (0, c')).
Proof.
  intros H Hd.
  assert (Corrupted context' = false /\ Computed context' = true) as [Hc Hx].
  { unfold SHA1Result in H. destruct (Corrupted context) eqn:?; [by simplify_eq|].
    destruct (Computed context) eqn:?; [by simplify_eq|].
    apply bind_ok in H as (c1 & Hpad%SHA1PadMessage_flag & H). simplify_eq. cbn.
    destruct Hpad. split; congruence. }
  split_and!; [unfold SHA1Result; by rewrite Hc, Hx| |done|].
  - unfold SHA1Input. rewrite decide_False by (by destruct data). by rewrite Hx.
  - intros b c c' Hlo Hhi Hb. unfold SHA1Result.
    by rewrite (sha1_counter_overflow b c c' Hlo Hhi Hb).
Qed.

Lemma SHA1_misuse_witness :
  let c := set_Computed true (SHA1Reset fresh_context) in
  SHA1Result c = Ok (1, c) /\
  SHA1Input c [7] 1 = Ok (set_Corrupted true c) /\
  SHA1Result (set_Corrupted true c) = Ok (0, set_Corrupted true c).
Proof.
  intros c. destruct (SHA1_misuse c c [7]) as (H1 & H2 & H3 & _); [reflexivity|discriminate|].
  exact (conj H1 (conj H2 H3)).
Defined.
