(* ===== verification/PacketQueue.v ===== *)
(** * The buffer queues between application, transport and network

    Models the queue functions of [Assignment3/src/mysock.c]
    ([_mysock_enqueue_buffer], [_mysock_dequeue_buffer],
    [_mysock_free_queue]) on a heap of nodes, and proves that they implement
    FIFO queues of messages, whose partial removals make them byte streams as
    long as no removal leaves more of a message behind than it takes.  The
    mutex makes an enqueue atomic, but covers only the first half of a
    removal ([dequeue_locked]): the message is copied after the mutex is
    released ([dequeue_copy]), and writers may run in between.  A wait on the
    condition variable is the outcome [Crash Blocks]. *)

From S2P Require Import Prelude Heap.

(** ** The C code *)

(** [packet_queue_node_t]; [data] is the buffer [malloc] returned, which may
    be longer than [data_len] after a partial removal. *)
Record packet_queue_node_t : Type := Node {
  data : list Z;
  data_len : Z;
  next : ptr
}.

Record packet_queue_t : Type := Queue { head : ptr; tail : ptr }.
Definition empty_queue : packet_queue_t := Queue NULL NULL.

Abbreviation nodes := (heap packet_queue_node_t).

(** [memcpy] of [n] bytes out of a buffer. *)
Definition mem_read (p : list Z) (n : Z) : run (list Z) :=
  if decide (0 <= n <= zlen p) then Ok (take (Z.to_nat n) p) else Crash OutOfRange.
(** [memcpy] of bytes to the start of a buffer. *)
Definition mem_write (p bytes : list Z) : run (list Z) :=
  if decide (zlen bytes <= zlen p) then Ok (bytes ++ drop (length bytes) p)
  else Crash OutOfRange.
(** [memcpy(p, p + off, n)] inside one buffer: undefined when the two
    regions overlap. *)
Definition mem_shift (p : list Z) (off n : Z) : run (list Z) :=
  if decide (0 <= off /\ 0 <= n /\ off + n <= zlen p) then
    if decide (0 < n /\ off < n) then Crash Overlap
    else mem_write p (take (Z.to_nat n) (drop (Z.to_nat off) p))
  else Crash OutOfRange.

(** [packet] is [None] for a NULL pointer. *)
Definition _mysock_enqueue_buffer (h : nodes) (pq : packet_queue_t)
    (packet : option (list Z)) (packet_len : Z) : run (nodes * packet_queue_t) :=
  c_assert (bool_decide (is_Some packet \/ packet_len = 0));;
  bytes ← (if decide (0 < packet_len)
           then p ← need NullPtr packet; mem_read p packet_len
           else Ok []);
  let '(a, h) := halloc h (Node bytes packet_len NULL) in
  match head pq with
  | None =>
      c_assert (bool_decide (tail pq = NULL));;
      Ok (h, Queue (Some a) (Some a))
  | Some _ =>
      c_assert (bool_decide (tail pq <> NULL));;
      t ← hload h (tail pq);
      c_assert (bool_decide (next t = NULL));;
      h ← hstore h (tail pq) (Node (data t) (data_len t) (Some a));
      Ok (h, Queue (head pq) (Some a))
  end.

(** [_mysock_dequeue_buffer] up to the release of the mutex: the node, and
    whether only a part of it is to be removed. *)
Definition dequeue_locked (h : nodes) (pq : packet_queue_t) (max_len : Z) (remove_partial : bool)
    : run (positive * bool * packet_queue_t) :=
  match head pq with
  | None => Crash Blocks
  | Some a =>
      node ← hload h (Some a);
      if bool_decide (max_len < data_len node) && remove_partial then Ok (a, true, pq)
      else
        pq ← (match next node with
              | None =>
                  c_assert (bool_decide (tail pq = Some a));;
                  Ok (Queue NULL NULL)
              | Some b => Ok (Queue (Some b) (tail pq))
              end);
        Ok (a, false, pq)
  end.

(** From there to the end: the length reported, the destination buffer and
    the heap. *)
Definition dequeue_copy (h : nodes) (a : positive) (partial : bool) (dst : list Z) (max_len : Z)
    : run (Z * list Z * nodes) :=
  node ← hload h (Some a);
  if partial then
    bytes ← mem_read (data node) max_len;
    dst ← mem_write dst bytes;
    data' ← mem_shift (data node) max_len (data_len node - max_len);
    h ← hstore h (Some a) (Node data' (data_len node - max_len) (next node));
    Ok (max_len, dst, h)
  else
    bytes ← mem_read (data node) (Z.min max_len (data_len node));
    dst ← mem_write dst bytes;
    h ← hfree h (Some a);
    Ok (data_len node, dst, h).

Definition _mysock_dequeue_buffer (h : nodes) (pq : packet_queue_t)
    (dst : list Z) (max_len : Z) (remove_partial : bool)
    : run (Z * list Z * nodes * packet_queue_t) :=
  '(a, partial, pq) ← dequeue_locked h pq max_len remove_partial;
  '(n, dst, h) ← dequeue_copy h a partial dst max_len;
  Ok (n, dst, h, pq).

(** The loop [for (node = pq->head; node; )] of [_mysock_free_queue]. *)
Fixpoint free_nodes (fuel : nat) (h : nodes) (node : ptr) (result : bool) : run (bool * nodes) :=
  match node with
  | None => Ok (result, h)
  | Some a =>
      match fuel with
      | O => Crash Fuel
      | S fuel =>
          n ← hload h (Some a);
          let result := if decide (0 < data_len n) then true else result in
          h ← hfree h (Some a);
          free_nodes fuel h (next n) result
      end
  end.

Definition _mysock_free_queue (fuel : nat) (h : nodes) (pq : packet_queue_t)
    : run (bool * nodes * packet_queue_t) :=
  let result := bool_decide (head pq <> NULL) in
  '(result, h) ← free_nodes fuel h (head pq) result;
  Ok (result, h, Queue NULL NULL).

(** ** Specification: a queue of messages *)

Definition message (n : packet_queue_node_t) : list Z := take (Z.to_nat (data_len n)) (data n).
Definition node_ok (n : packet_queue_node_t) : Prop := 0 <= data_len n <= zlen (data n).

(** [is_queue pq l]: the chain [l] is the queue [pq]. *)
Definition is_queue (pq : packet_queue_t) (l : list (positive * packet_queue_node_t)) : Prop :=
  linked next (head pq) l NULL /\ tail pq = fst <$> last l /\ Forall (node_ok ∘ snd) l.

(** [queue_rep h pq msgs rest]: in heap [h], [pq] holds the messages [msgs];
    its nodes are the only live ones outside the frame [rest]. *)
Definition queue_rep (h : nodes) (pq : packet_queue_t) (msgs : list (list Z))
    (rest : gmap positive packet_queue_node_t) : Prop :=
  exists l, is_queue pq l /\ owning h l rest /\ msgs = message ∘ snd <$> l.

Lemma queue_rep_empty h : heap_wf h -> queue_rep h empty_queue [] (cells h).
Proof. intros Hwf. exists []. split; [done|]. split; [by apply owning_empty|done]. Qed.

Lemma length_message n : node_ok n -> zlen (message n) = data_len n.
Proof. unfold node_ok, message. intros. rewrite length_take. lia. Qed.

Lemma mem_read_ok p n : 0 <= n <= zlen p -> mem_read p n = Ok (take (Z.to_nat n) p).
Proof. intros. unfold mem_read. by rewrite decide_True by done. Qed.

Lemma mem_write_ok p bytes :
  zlen bytes <= zlen p -> mem_write p bytes = Ok (bytes ++ drop (length bytes) p).
Proof. intros. unfold mem_write. by rewrite decide_True by done. Qed.

(** ** Refinement *)

(** Enqueueing appends a message holding the first [packet_len] bytes. *)
Lemma enqueue_ok h pq msgs rest p len :
  queue_rep h pq msgs rest -> 0 <= len <= zlen p ->
  exists h' pq', _mysock_enqueue_buffer h pq (Some p) len = Ok (h', pq') /\
    queue_rep h' pq' (msgs ++ [take (Z.to_nat len) p]) rest.
Proof.
  intros (l & (Hlk & Htl & Hok) & Ho & ->) Hlen. unfold _mysock_enqueue_buffer.
  rewrite (bool_decide_true (is_Some _ \/ _)) by (left; by eexists). cbn [c_assert mbind run_bind need].
  assert ((if decide (0 < len) then mem_read p len else Ok []) = Ok (take (Z.to_nat len) p)) as ->.
  { case_decide; [by rewrite mem_read_ok|]. replace len with 0 by lia. done. }
  set (bytes := take (Z.to_nat len) p). cbn [mbind run_bind halloc].
  assert (zlen bytes = len) as Hb by (unfold bytes; rewrite length_take; lia).
  set (n := Node bytes len NULL). assert (node_ok n) as Hn by (unfold node_ok; cbn; lia).
  assert (message n = bytes) as Hm by (unfold message; cbn; apply take_ge; lia).
  pose proof (owning_alloc h l rest n Ho) as Ho'. cbn [halloc snd] in Ho'.
  destruct l as [|[a x] l _] using rev_ind.
  - cbn in Hlk, Htl. rewrite Hlk, Htl, bool_decide_true by done. cbn [c_assert mbind run_bind].
    eexists _, _. split; [done|]. exists [(brk h, n)]. split; [|split; [done|]].
    + split_and!; [done|done|by apply Forall_singleton].
    + cbn. by rewrite Hm.
  - rewrite last_snoc in Htl. cbn in Htl.
    apply linked_app in Hlk as Hlk'. destruct Hlk' as (r & Hlk1 & -> & Hnull). cbn in Hnull.
    assert (exists b, head pq = Some b) as [b Hb'].
    { destruct l as [|[b y] l]; cbn in Hlk1; [by eexists|]. destruct Hlk1; by eexists. }
    rewrite Hb', Htl, bool_decide_true by done. cbn [c_assert mbind run_bind].
    rewrite (owning_load _ _ _ a x Ho') by (rewrite !elem_of_app; left; right; by left).
    cbn [mbind run_bind]. rewrite Hnull, bool_decide_true by done. cbn [c_assert mbind run_bind].
    rewrite <- app_assoc in Ho'. cbn [app] in Ho'.
    destruct (owning_store _ _ _ _ _ (Node (data x) (data_len x) (Some (brk h))) _ Ho')
      as (h' & -> & Ho2).
    cbn [mbind run_bind]. eexists _, _. split; [done|].
    exists (l ++ [(a, Node (data x) (data_len x) (Some (brk h))); (brk h, n)]).
    split; [|split; [done|]].
    + split_and!.
      * cbn [head]. rewrite <- Hb'. apply linked_app. by exists (Some a).
      * cbn [tail]. by rewrite last_app.
      * apply Forall_app in Hok as [Hok1 Hok2]. apply Forall_app. split; [done|].
        rewrite Forall_singleton in Hok2.
        apply Forall_cons_2; [done|by apply Forall_singleton].
    + rewrite !fmap_app, <- app_assoc. cbn. by rewrite Hm.
Qed.

Lemma enqueue_head h pq p len h' pq' :
  _mysock_enqueue_buffer h pq p len = Ok (h', pq') -> head pq <> NULL -> head pq' = head pq.
Proof.
  intros He Hb. unfold _mysock_enqueue_buffer in He. destruct (head pq) eqn:Hh; [|done].
  cbn [halloc] in He. by run_inv.
Qed.

(** Zero-length messages carry no pointer. *)
Lemma enqueue_null_ok h pq msgs rest :
  queue_rep h pq msgs rest ->
  exists h' pq', _mysock_enqueue_buffer h pq None 0 = Ok (h', pq') /\
    queue_rep h' pq' (msgs ++ [[]]) rest.
Proof.
  intros Hq. destruct (enqueue_ok h pq msgs rest [] 0 Hq) as (h' & pq' & He & Hq'); [done|].
  exists h', pq'. split; [|done]. rewrite <- He. unfold _mysock_enqueue_buffer.
  rewrite (bool_decide_true (is_Some None \/ _)) by auto.
  rewrite (bool_decide_true (is_Some (Some []) \/ _)) by auto. done.
Qed.

Lemma mem_shift_ok p off n :
  0 <= off -> 0 <= n -> off + n <= zlen p -> (n = 0 \/ n <= off) ->
  mem_shift p off n
  = Ok (take (Z.to_nat n) (drop (Z.to_nat off) p) ++ drop (Z.to_nat n) p).
Proof.
  intros. unfold mem_shift. rewrite decide_True, decide_False by lia.
  assert (length (take (Z.to_nat n) (drop (Z.to_nat off) p)) = Z.to_nat n) as Hl
    by (rewrite length_take, length_drop; lia).
  rewrite mem_write_ok by lia. by rewrite Hl.
Qed.

(** *** The two halves of a removal *)

Lemma locked_blocks h pq rest max_len partial :
  queue_rep h pq [] rest -> dequeue_locked h pq max_len partial = Crash Blocks.
Proof.
  intros (l & (Hlk & _) & _ & Hm). destruct l as [|[a x] l]; [|done].
  cbn in Hlk. unfold dequeue_locked. by rewrite Hlk.
Qed.

(** A whole message: its node leaves the queue, and nobody else reaches it. *)
Lemma locked_whole h pq m msgs rest max_len partial :
  queue_rep h pq (m :: msgs) rest -> (partial = true -> zlen m <= max_len) ->
  exists a x pq', dequeue_locked h pq max_len partial = Ok (a, false, pq') /\
    node_ok x /\ message x = m /\ rest !! a = None /\ queue_rep h pq' msgs (<[a := x]> rest).
Proof.
  intros (l & (Hlk & Htl & Hok) & Ho & Hm) Hp.
  destruct l as [|[a x] l]; [done|]. cbn in Hm. injection Hm as -> ->.
  cbn in Hlk. destruct Hlk as [Hhd Hlk]. apply Forall_cons in Hok as [Hx Hok]. cbn in Hx.
  pose proof (length_message x Hx) as Hlm. rewrite Hlm in Hp.
  assert (rest !! a = None) as Hr.
  { destruct Ho as (_ & _ & Hd & _). cbn in Hd. by apply map_disjoint_insert_l in Hd as [? _]. }
  pose proof (proj1 (owning_frame _ _ _ _ _ Hr) Ho) as [Ho' _].
  unfold dequeue_locked. rewrite Hhd.
  rewrite (owning_load _ _ _ a x Ho) by (by left). cbn [mbind run_bind].
  assert (bool_decide (max_len < data_len x) && partial = false) as ->.
  { destruct partial; [|apply andb_false_r]. rewrite bool_decide_false; [done|].
    specialize (Hp eq_refl). lia. }
  exists a, x. destruct (next x) as [b|] eqn:Hnx.
  - eexists. split_and!; [done..|]. exists l. split; [split_and!; [done| |done]|done].
    cbn [tail]. rewrite Htl. by destruct l.
  - apply linked_null_nil in Hlk as [-> _]. cbn in Htl. rewrite Htl, bool_decide_true by done.
    eexists. split_and!; [done..|]. by exists [].
Qed.

Lemma copy_whole h pq msgs rest a x dst max_len :
  queue_rep h pq msgs (<[a := x]> rest) -> rest !! a = None -> node_ok x ->
  0 <= max_len <= zlen dst ->
  exists h', dequeue_copy h a false dst max_len
    = Ok (data_len x, take (Z.to_nat max_len) (message x)
            ++ drop (min (Z.to_nat max_len) (length (message x))) dst, h') /\
    queue_rep h' pq msgs rest.
Proof.
  intros (l & Hl & Ho & Hm) Hr Hx Hdst. pose proof (length_message x Hx) as Hlm.
  unfold dequeue_copy, node_ok in *.
  rewrite (owning_load_rest _ _ _ _ x Ho) by apply lookup_insert_eq. cbn [mbind run_bind].
  rewrite mem_read_ok by lia. cbn [mbind run_bind].
  rewrite mem_write_ok by (rewrite length_take; lia). cbn [mbind run_bind].
  destruct (owning_free_rest _ _ _ a x Ho) as (h' & -> & Ho'); [apply lookup_insert_eq|].
  rewrite delete_insert_id in Ho' by done. cbn [mbind run_bind]. exists h'. split; [|by exists l].
  do 4 f_equal.
  - unfold message. rewrite take_take. f_equal. lia.
  - f_equal. rewrite length_take. lia.
Qed.

(** A prefix: the node stays, and every enqueue keeps it the first one. *)
Lemma locked_part h pq m msgs rest max_len :
  queue_rep h pq (m :: msgs) rest -> max_len < zlen m ->
  exists a, dequeue_locked h pq max_len true = Ok (a, true, pq) /\ head pq = Some a.
Proof.
  intros (l & (Hlk & Htl & Hok) & Ho & Hm) Hp.
  destruct l as [|[a x] l]; [done|]. cbn in Hm. injection Hm as -> ->.
  cbn in Hlk. destruct Hlk as [Hhd Hlk]. apply Forall_cons in Hok as [Hx Hok]. cbn in Hx.
  rewrite (length_message x Hx) in Hp. exists a. split; [|done].
  unfold dequeue_locked. rewrite Hhd, (owning_load _ _ _ a x Ho) by (by left). cbn [mbind run_bind].
  by rewrite bool_decide_true by lia.
Qed.

(** The remainder is moved to the front of the buffer with [memcpy], which
    is defined only if it is not longer than the part removed. *)
Lemma copy_part h pq m msgs rest a dst max_len :
  queue_rep h pq (m :: msgs) rest -> head pq = Some a ->
  0 <= max_len <= zlen dst -> max_len < zlen m ->
  if decide (zlen m <= 2 * max_len) then
    exists h', dequeue_copy h a true dst max_len
      = Ok (max_len, take (Z.to_nat max_len) m ++ drop (Z.to_nat max_len) dst, h') /\
      queue_rep h' pq (drop (Z.to_nat max_len) m :: msgs) rest
  else dequeue_copy h a true dst max_len = Crash Overlap.
Proof.
  intros (l & (Hlk & Htl & Hok) & Ho & Hm) Hhd Hdst Hp.
  destruct l as [|[b x] l]; [done|]. cbn in Hm. injection Hm as -> ->.
  cbn in Hlk. destruct Hlk as [Hhd' Hlk]. rewrite Hhd in Hhd'. injection Hhd' as <-.
  apply Forall_cons in Hok as [Hx Hok]. cbn in Hx.
  pose proof (length_message x Hx) as Hlm. rewrite Hlm in *. unfold node_ok in Hx.
  unfold dequeue_copy. rewrite (owning_load _ _ _ a x Ho) by (by left). cbn [mbind run_bind].
  rewrite mem_read_ok by lia. cbn [mbind run_bind].
  assert (zlen (take (Z.to_nat max_len) (data x)) = max_len) as Hlt by (rewrite length_take; lia).
  rewrite mem_write_ok by lia. cbn [mbind run_bind].
  case_decide as H2; [|unfold mem_shift; by rewrite !decide_True by lia].
  rewrite mem_shift_ok by lia. cbn [mbind run_bind].
  set (x' := Node _ (data_len x - max_len) (next x)).
  destruct (owning_store h [] l a x x' rest Ho) as (h' & -> & Ho'). cbn [mbind run_bind].
  exists h'. split.
  - do 4 f_equal; [|f_equal; lia]. unfold message. rewrite take_take. f_equal. lia.
  - exists ((a, x') :: l). split; [|split; [done|]].
    + split_and!; [by rewrite Hhd| |].
      * rewrite Htl. by destruct l.
      * apply Forall_cons. split; [|done]. unfold node_ok, x'. cbn.
        rewrite length_app, length_take, !length_drop. lia.
    + cbn. f_equal. unfold message, x'. cbn.
      rewrite take_app_le by (rewrite length_take, length_drop; lia).
      rewrite take_take, skipn_firstn_comm. f_equal. lia.
Qed.

(** *** The whole removal *)

Lemma dequeue_blocks h pq rest dst max_len partial :
  queue_rep h pq [] rest -> _mysock_dequeue_buffer h pq dst max_len partial = Crash Blocks.
Proof. intros Hq. unfold _mysock_dequeue_buffer. by rewrite (locked_blocks _ _ _ _ _ Hq). Qed.

Lemma dequeue_whole h pq m msgs rest dst max_len partial :
  queue_rep h pq (m :: msgs) rest -> 0 <= max_len <= zlen dst ->
  (partial = true -> zlen m <= max_len) ->
  exists h' pq', _mysock_dequeue_buffer h pq dst max_len partial
    = Ok (zlen m, take (Z.to_nat max_len) m ++ drop (min (Z.to_nat max_len) (length m)) dst, h', pq') /\
    queue_rep h' pq' msgs rest.
Proof.
  intros Hq Hdst Hp. unfold _mysock_dequeue_buffer.
  destruct (locked_whole _ _ _ _ _ _ _ Hq Hp) as (a & x & pq' & -> & Hx & <- & Hr & Hq'). run_step.
  destruct (copy_whole _ _ _ _ _ _ dst max_len Hq' Hr Hx Hdst) as (h' & -> & Hq2). run_step.
  exists h', pq'. by rewrite length_message.
Qed.

Lemma dequeue_part h pq m msgs rest dst max_len :
  queue_rep h pq (m :: msgs) rest -> 0 <= max_len <= zlen dst -> max_len < zlen m ->
  if decide (zlen m <= 2 * max_len) then
    exists h' pq', _mysock_dequeue_buffer h pq dst max_len true
      = Ok (max_len, take (Z.to_nat max_len) m ++ drop (Z.to_nat max_len) dst, h', pq') /\
      queue_rep h' pq' (drop (Z.to_nat max_len) m :: msgs) rest
  else _mysock_dequeue_buffer h pq dst max_len true = Crash Overlap.
Proof.
  intros Hq Hdst Hp. unfold _mysock_dequeue_buffer.
  destruct (locked_part _ _ _ _ _ _ Hq Hp) as (a & -> & Hhd). run_step.
  pose proof (copy_part _ _ _ _ _ a dst max_len Hq Hhd Hdst Hp) as Hc. case_decide.
  - destruct Hc as (h' & -> & Hq'). run_step. by exists h', pq.
  - by rewrite Hc.
Qed.

(** The abstract queue: what one removal does to the list of messages. *)
Inductive removal : Type :=
| Waits                                              (* no message: the caller blocks *)
| Undefined                                          (* overlapping [memcpy] *)
| Got (n : Z) (bytes : list Z) (left : list (list Z)).

Definition spec_dequeue (msgs : list (list Z)) (max_len : Z) (partial : bool) : removal :=
  match msgs with
  | [] => Waits
  | m :: msgs =>
      if bool_decide (max_len < zlen m) && partial then
        if decide (zlen m <= 2 * max_len) then
          Got max_len (take (Z.to_nat max_len) m) (drop (Z.to_nat max_len) m :: msgs)
        else Undefined
      else Got (zlen m) (take (Z.to_nat max_len) m) msgs
  end.

(** Removal, on every branch. *)
Lemma dequeue_ok h pq msgs rest dst max_len partial :
  queue_rep h pq msgs rest -> 0 <= max_len <= zlen dst ->
  match spec_dequeue msgs max_len partial with
  | Waits => _mysock_dequeue_buffer h pq dst max_len partial = Crash Blocks
  | Undefined => _mysock_dequeue_buffer h pq dst max_len partial = Crash Overlap
  | Got n bytes msgs' =>
      exists h' pq', _mysock_dequeue_buffer h pq dst max_len partial
        = Ok (n, bytes ++ drop (length bytes) dst, h', pq') /\
        queue_rep h' pq' msgs' rest
  end.
Proof.
  intros Hq Hdst. destruct msgs as [|m msgs]; cbn [spec_dequeue]; [by eapply dequeue_blocks|].
  case_bool_decide as Hlt; cbn [andb]; [destruct partial|].
  - pose proof (dequeue_part _ _ _ _ _ _ _ Hq Hdst Hlt) as Hd. case_decide; [|done].
    rewrite length_take, Nat.min_l by lia. done.
  - rewrite length_take. by apply dequeue_whole.
  - rewrite length_take. apply dequeue_whole; [done|done|lia].
Qed.

(** C2: the linked queue of [mysock.c] refines the FIFO queue of messages,
    on every branch.  [_mysock_enqueue_buffer] appends a copy of the first
    [packet_len] bytes; [_mysock_dequeue_buffer] takes from the front exactly
    as [spec_dequeue] says (blocking, partial removal, whole removal, and the
    overlapping [memcpy] when more than half of a message stays behind).  No
    node of another queue (the frame [rest]) is touched and no node leaks. *)
Theorem queue_refines h pq msgs rest :
  queue_rep h pq msgs rest ->
  (forall p len, 0 <= len <= zlen p ->
     exists h' pq', _mysock_enqueue_buffer h pq (Some p) len = Ok (h', pq') /\
       queue_rep h' pq' (msgs ++ [take (Z.to_nat len) p]) rest) /\
  (forall dst max_len partial, 0 <= max_len <= zlen dst ->
     match spec_dequeue msgs max_len partial with
     | Waits => _mysock_dequeue_buffer h pq dst max_len partial = Crash Blocks
     | Undefined => _mysock_dequeue_buffer h pq dst max_len partial = Crash Overlap
     | Got n bytes msgs' =>
         exists h' pq', _mysock_dequeue_buffer h pq dst max_len partial
           = Ok (n, bytes ++ drop (length bytes) dst, h', pq') /\
           queue_rep h' pq' msgs' rest
     end).
Proof. intros Hq. split; [intros; by apply enqueue_ok|]. intros. by apply dequeue_ok. Qed.

Lemma free_nodes_ok fuel h p l rest result :
  linked next p l NULL -> owning h l rest -> Forall (node_ok ∘ snd) l ->
  (length l <= fuel)%nat ->
  exists h', free_nodes fuel h p result
    = Ok (result || existsb (fun m => bool_decide (m <> [])) (message ∘ snd <$> l), h') /\
    owning h' [] rest.
Proof.
  revert fuel h p result. induction l as [|[a x] l IH]; intros fuel h p result Hlk Ho Hok Hf.
  - cbn in Hlk. subst p. exists h. destruct fuel; cbn; rewrite orb_false_r; done.
  - cbn in Hlk. destruct Hlk as [-> Hlk]. apply Forall_cons in Hok as [Hx Hok]. cbn in Hx.
    destruct fuel as [|fuel]; [cbn in Hf; lia|]. cbn [free_nodes].
    rewrite (owning_load _ _ _ a x Ho) by (by left). cbn [mbind run_bind].
    destruct (owning_free h [] l a x rest Ho) as (h' & -> & Ho'). cbn [mbind run_bind].
    destruct (IH fuel h' (next x) (if decide (0 < data_len x) then true else result))
      as (h2 & -> & Ho2); [done|done|done|cbn in Hf; lia|].
    exists h2. split; [|done]. do 2 f_equal. cbn.
    pose proof (length_message x Hx) as Hlm. rewrite orb_assoc. f_equal.
    case_decide; case_bool_decide as Hm; try by destruct result.
    + destruct (message x); [cbn in Hlm; lia|done].
    + destruct (message x); [done|cbn in Hlm; lia].
Qed.

(** [_mysock_free_queue] terminates within as many steps as there are
    messages, frees every node of the queue and only those, and returns TRUE
    exactly when the queue held any message at all (the comment above the
    function promises TRUE only for non-zero-length buffers). *)
Theorem free_queue_correct fuel h pq msgs rest :
  queue_rep h pq msgs rest -> (length msgs <= fuel)%nat ->
  exists h', _mysock_free_queue fuel h pq
    = Ok (bool_decide (msgs <> []), h', empty_queue) /\
    queue_rep h' empty_queue [] rest /\ cells h' = rest.
Proof.
  intros (l & (Hlk & Htl & Hok) & Ho & ->) Hf. rewrite length_fmap in Hf.
  unfold _mysock_free_queue.
  destruct (free_nodes_ok fuel h (head pq) l rest (bool_decide (head pq <> NULL)))
    as (h' & -> & Ho'); [done..|].
  cbn [mbind run_bind]. exists h'. split_and!.
  - do 3 f_equal. destruct l as [|[a x] l]; cbn in Hlk.
    + rewrite Hlk. done.
    + destruct Hlk as [-> _]. done.
  - exists []. done.
  - destruct Ho' as (_ & _ & _ & ->). cbn [list_to_map foldr fmap list_fmap].
    by rewrite map_empty_union.
Qed.

(** ** Byte streams: any interleaving of the writers with the reader *)

(** [Put] is an enqueue; [Get] a partial removal into a buffer of [max_len]
    bytes, with the messages that other threads enqueue while it waits for
    the first one or, if there is one, between the release of the mutex and
    the end of the copy.  Each queue of the code has one reading thread, so
    no two removals overlap. *)
Inductive queue_op : Type :=
| Put (bytes : list Z)
| Get (max_len : Z) (meanwhile : list (list Z)).

Fixpoint put_all (h : nodes) (pq : packet_queue_t) (bs : list (list Z)) : run (nodes * packet_queue_t) :=
  match bs with
  | [] => Ok (h, pq)
  | b :: bs =>
      '(h, pq) ← _mysock_enqueue_buffer h pq (Some b) (zlen b);
      put_all h pq bs
  end.

(** The bytes a step delivers; a [Get] that finds no message waits, and the
    schedule goes on. *)
Definition queue_step (h : nodes) (pq : packet_queue_t) (op : queue_op)
    : run (list Z * nodes * packet_queue_t) :=
  match op with
  | Put bytes => '(h, pq) ← put_all h pq [bytes]; Ok ([], h, pq)
  | Get max_len meanwhile =>
      match dequeue_locked h pq max_len true with
      | Crash Blocks => '(h, pq) ← put_all h pq meanwhile; Ok ([], h, pq)
      | Crash f => Crash f
      | Ok (a, partial, pq) =>
          '(h, pq) ← put_all h pq meanwhile;
          '(n, dst, h) ← dequeue_copy h a partial (replicate (Z.to_nat max_len) 0) max_len;
          Ok (take (Z.to_nat n) dst, h, pq)
      end
  end.

Fixpoint queue_run (h : nodes) (pq : packet_queue_t) (ops : list queue_op)
    : run (list Z * nodes * packet_queue_t) :=
  match ops with
  | [] => Ok ([], h, pq)
  | op :: ops =>
      '(out, h, pq) ← queue_step h pq op;
      '(out', h, pq) ← queue_run h pq ops;
      Ok (out ++ out', h, pq)
  end.

Definition puts_of (op : queue_op) : list (list Z) :=
  match op with Put b => [b] | Get _ bs => bs end.
Definition written_by (ops : list queue_op) : list Z := concat (concat (puts_of <$> ops)).
Definition op_wf (op : queue_op) : Prop :=
  match op with Put _ => True | Get n _ => 0 <= n end.

Lemma written_by_cons op ops : written_by (op :: ops) = concat (puts_of op) ++ written_by ops.
Proof. unfold written_by. by rewrite fmap_cons, concat_cons, concat_app. Qed.

Lemma put_all_ok bs : forall h pq msgs rest, queue_rep h pq msgs rest ->
  exists h' pq', put_all h pq bs = Ok (h', pq') /\ queue_rep h' pq' (msgs ++ bs) rest /\
    (msgs <> [] -> head pq' = head pq).
Proof.
  induction bs as [|b bs IH]; intros h pq msgs rest Hq; cbn [put_all].
  { exists h, pq. by rewrite app_nil_r. }
  destruct (enqueue_ok h pq msgs rest b (zlen b) Hq) as (h1 & pq1 & He & Hq1); [lia|].
  rewrite He. run_step. rewrite Nat2Z.id, firstn_all in Hq1.
  destruct (IH _ _ _ _ Hq1) as (h2 & pq2 & -> & Hq2 & Hh). exists h2, pq2.
  rewrite <- app_assoc in Hq2. split_and!; [done|done|]. intros Hne.
  rewrite Hh by (by destruct msgs). apply (enqueue_head _ _ _ _ _ _ He).
  destruct Hq as (l & (Hlk & _) & _ & ->). destruct l as [|[a x] l]; [done|].
  cbn in Hlk. by destruct Hlk as [-> _].
Qed.

Lemma longest_message (ms : list (list Z)) B :
  Forall (fun m => zlen m <= B) ms \/ exists m, m ∈ ms /\ B < zlen m.
Proof.
  destruct (decide (Forall (fun m => zlen m <= B) ms)) as [H|H]; [by left|right].
  apply not_Forall_Exists, Exists_exists in H as (m & Hm & Hl); [|apply _].
  exists m. cbn in Hl. split; [done|lia].
Qed.

(** One step: the stream is kept, and no message of the queue grows; or the
    first message is more than twice as long as the reader's buffer. *)
Lemma queue_step_ok h pq msgs rest op :
  queue_rep h pq msgs rest -> op_wf op ->
  (exists out h' pq' msgs', queue_step h pq op = Ok (out, h', pq') /\
     queue_rep h' pq' msgs' rest /\
     (forall B, Forall (fun m => zlen m <= B) (msgs ++ puts_of op) -> Forall (fun m => zlen m <= B) msgs') /\
     concat msgs ++ concat (puts_of op) = out ++ concat msgs') \/
  (queue_step h pq op = Crash Overlap /\
   exists n bs m msgs0, op = Get n bs /\ msgs = m :: msgs0 /\ 2 * n < zlen m).
Proof.
  intros Hq Hop. destruct op as [b|n bs]; cbn [queue_step puts_of].
  { destruct (put_all_ok [b] _ _ _ _ Hq) as (h' & pq' & -> & Hq' & _). run_step.
    left. exists [], h', pq', (msgs ++ [b]). by rewrite concat_app. }
  cbn in Hop. destruct msgs as [|m msgs].
  { rewrite (locked_blocks _ _ _ _ _ Hq).
    destruct (put_all_ok bs _ _ _ _ Hq) as (h' & pq' & -> & Hq' & _). run_step.
    left. by exists [], h', pq', bs. }
  assert (0 <= n <= zlen (replicate (Z.to_nat n) 0)) as Hdst by (rewrite length_replicate; lia).
  destruct (decide (n < zlen m)) as [Hlt|Hge].
  - destruct (locked_part _ _ _ _ _ _ Hq Hlt) as (a & -> & Hhd).
    destruct (put_all_ok bs _ _ _ _ Hq) as (h' & pq' & -> & Hq' & Hh'). run_step.
    pose proof (copy_part _ _ m (msgs ++ bs) _ a _ n Hq' ltac:(by rewrite Hh') Hdst Hlt) as Hc.
    case_decide; [|right; rewrite Hc; split; [done|]; exists n, bs, m, msgs; split_and!; [done|done|lia]].
    destruct Hc as (h2 & -> & Hq2). run_step. left.
    exists (take (Z.to_nat n) m), h2, pq', (drop (Z.to_nat n) m :: msgs ++ bs). split_and!.
    + by rewrite take_app_length' by (rewrite length_take; lia).
    + done.
    + intros B [HB Hr]%Forall_cons. apply Forall_cons. split; [rewrite length_drop; lia|done].
    + cbn [concat]. by rewrite app_assoc, concat_app, take_drop, app_assoc.
  - destruct (locked_whole _ _ _ _ _ n true Hq) as (a & x & pq1 & -> & Hx & Hm & Hr & Hq1); [lia|].
    destruct (put_all_ok bs _ _ _ _ Hq1) as (h' & pq' & -> & Hq' & _). run_step.
    destruct (copy_whole _ _ _ _ _ _ _ n Hq' Hr Hx Hdst) as (h2 & -> & Hq2). run_step. left.
    exists m, h2, pq', (msgs ++ bs). rewrite <- (length_message x Hx), Hm, Nat2Z.id. split_and!.
    + rewrite (take_ge m) by lia. by rewrite take_app_length' by done.
    + done.
    + by intros B [_ HB]%Forall_cons.
    + cbn [concat]. by rewrite concat_app, app_assoc.
Qed.

(** C1: a queue is a byte stream under every schedule of its writers and its
    reader, writers running also in the middle of a removal.  Either what was
    queued before followed by what the schedule writes equals what the reader
    got followed by what is still queued: nothing is lost, duplicated or
    reordered.  Or the run reached the overlapping [memcpy] of a partial
    removal, and then some reader's buffer is shorter than half of a message
    that was queued or written: with buffers of at least half the longest
    message no schedule fails. *)
Theorem queue_byte_stream h pq msgs rest ops :
  queue_rep h pq msgs rest -> Forall op_wf ops ->
  (exists out h' pq' msgs', queue_run h pq ops = Ok (out, h', pq') /\
     queue_rep h' pq' msgs' rest /\
     concat msgs ++ written_by ops = out ++ concat msgs') \/
  (queue_run h pq ops = Crash Overlap /\
   exists n bs m, Get n bs ∈ ops /\ m ∈ msgs ++ concat (puts_of <$> ops) /\ 2 * n < zlen m).
Proof.
  intros Hq Hops. revert h pq msgs Hq.
  induction Hops as [|op ops Hop _ IH]; intros h pq msgs Hq.
  { left. exists [], h, pq, msgs. split_and!; [done|done|]. by rewrite app_nil_r. }
  cbn [queue_run]. rewrite fmap_cons, concat_cons.
  destruct (queue_step_ok h pq msgs rest op Hq Hop)
    as [(out & h1 & pq1 & msgs1 & -> & Hq1 & HB & He1)|(-> & n & bs & m & msgs0 & -> & -> & Hn)]; run_step.
  2: { right. split; [done|]. exists n, bs, m. split_and!; [by left|by left|done]. }
  destruct (IH h1 pq1 msgs1 Hq1) as [(out2 & h2 & pq2 & msgs2 & -> & Hq2 & He2)|(-> & n & bs & m & Hn & Hm & Hlt)];
    run_step.
  - left. exists (out ++ out2), h2, pq2, msgs2. split_and!; [done|done|].
    by rewrite written_by_cons, <- app_assoc, <- He2, app_assoc, He1, app_assoc.
  - right. split; [done|]. rewrite app_assoc. apply elem_of_app in Hm as [Hm|Hm].
    + destruct (longest_message (msgs ++ puts_of op) (2 * n)) as [HB'|(m' & Hm' & Hlt')].
      * exfalso. apply HB in HB'. rewrite Forall_forall in HB'. specialize (HB' _ Hm). cbn in HB'. lia.
      * exists n, bs, m'. split_and!; [by right| |done]. apply elem_of_app. by left.
    + exists n, bs, m. split_and!; [by right| |done]. apply elem_of_app. by right.
Qed.

(** ** Witnesses *)

Definition two_messages : run (nodes * packet_queue_t) :=
  '(h, pq) ← _mysock_enqueue_buffer empty_heap empty_queue (Some (bytes_of "hello")) 5;
  _mysock_enqueue_buffer h pq (Some (bytes_of "net")) 3.

Lemma two_messages_rep h pq : two_messages = Ok (h, pq) ->
  queue_rep h pq [bytes_of "hello"; bytes_of "net"] ∅.
Proof.
  intros H. pose proof (queue_rep_empty empty_heap heap_wf_empty) as H0.
  destruct (enqueue_ok _ _ _ _ (bytes_of "hello") 5 H0) as (h1 & pq1 & E1 & H1); [cbn; lia|].
  destruct (enqueue_ok _ _ _ _ (bytes_of "net") 3 H1) as (h2 & pq2 & E2 & H2); [cbn; lia|].
  unfold two_messages in H. rewrite E1 in H. cbn [mbind run_bind] in H.
  rewrite E2 in H. by simplify_eq.
Qed.

Lemma two_messages_witness :
  exists h pq, queue_rep h pq [bytes_of "hello"; bytes_of "net"] ∅.
Proof.
  destruct two_messages as [[h pq]|] eqn:E; [|vm_compute in E; discriminate].
  exists h, pq. by apply two_messages_rep.
Defined.

Lemma queue_refines_witness :
  exists h pq, queue_rep h pq [bytes_of "hello"; bytes_of "net"] ∅ /\
    (exists h' pq', _mysock_dequeue_buffer h pq [0; 0; 0] 3 true
       = Ok (3, bytes_of "hel" ++ [], h', pq') /\ queue_rep h' pq' [bytes_of "lo"; bytes_of "net"] ∅) /\
    _mysock_dequeue_buffer h pq [0; 0] 2 true = Crash Overlap.
Proof.
  destruct two_messages as [[h pq]|] eqn:E; [|vm_compute in E; discriminate].
  apply two_messages_rep in E. exists h, pq. split; [done|].
  destruct (queue_refines _ _ _ _ E) as [_ Hget]. split.
  - exact (Hget [0; 0; 0] 3 true ltac:(cbn; lia)).
  - exact (Hget [0; 0] 2 true ltac:(cbn; lia)).
Defined.

Lemma free_queue_correct_witness :
  exists h pq h', queue_rep h pq [bytes_of "hello"; bytes_of "net"] ∅ /\
    _mysock_free_queue 2 h pq = Ok (true, h', empty_queue) /\ cells h' = ∅.
Proof.
  destruct two_messages as [[h pq]|] eqn:E; [|vm_compute in E; discriminate].
  apply two_messages_rep in E. exists h, pq.
  destruct (free_queue_correct 2 h pq _ _ E) as (h' & Hf & _ & Hc); [cbn; lia|].
  exists h'. done.
Defined.

Lemma queue_byte_stream_witness :
  (exists out h' pq' msgs',
    queue_run empty_heap empty_queue
      [Get 4 []; Put (bytes_of "hello"); Get 4 [bytes_of "net"]; Get 4 [bytes_of "s"]; Get 4 []]
      = Ok (out, h', pq') /\
    queue_rep h' pq' msgs' ∅ /\ bytes_of "hellonets" = out ++ concat msgs') /\
  (queue_run empty_heap empty_queue [Put (bytes_of "hello"); Get 2 []] = Crash Overlap).
Proof.
  split.
  - destruct (queue_byte_stream empty_heap empty_queue [] ∅
      [Get 4 []; Put (bytes_of "hello"); Get 4 [bytes_of "net"]; Get 4 [bytes_of "s"]; Get 4 []])
      as [H|[H _]].
    + apply (queue_rep_empty empty_heap heap_wf_empty).
    + repeat (apply Forall_cons_2; [cbn; done|]). by apply Forall_nil_2.
    + exact H.
    + vm_compute in H. discriminate.
  - destruct (queue_byte_stream empty_heap empty_queue [] ∅ [Put (bytes_of "hello"); Get 2 []])
      as [(out & h & pq & msgs & H & _)|[H _]].
    + apply (queue_rep_empty empty_heap heap_wf_empty).
    + repeat (apply Forall_cons_2; [cbn; done|]). by apply Forall_nil_2.
    + vm_compute in H. discriminate.
    + exact H.
Defined.
