(* ===== verification/HashTable.v ===== *)
(** * Chained hash tables

    Models [Assignment3/src/mysock_hash.h]: the functions
    [HASH_TABLE_DECLARE_EXTENDED] generates, for any key type, hash function
    and size, on a heap of entries.  They refine a family of stacks, one per
    key ([contents]); [KeyedTable] is the interface the connection
    demultiplexer uses, of which the hash table is an instance. *)

From S2P Require Import Prelude Heap.

(** ** The interface *)

(** What a client may rely on: a table maps each key to the stack of values
    inserted under it, newest first. *)
Class KeyedTable (T K D : Type) `{EqDecision K} := {
  table_rep : T -> (K -> list D) -> Prop;
  table_valid : K -> Prop;
  table_new : T;
  table_insert : K -> D -> T -> run T;
  table_lookup_ptr : K -> T -> run (option D);
  table_delete : K -> T -> run T;
  table_new_rep : table_rep table_new (fun _ => []);
  table_insert_spec t c k d : table_rep t c -> table_valid k ->
    exists t', table_insert k d t = Ok t' /\
      table_rep t' (fun k' => if decide (k' = k) then d :: c k' else c k');
  table_lookup_spec t c k : table_rep t c -> table_valid k ->
    table_lookup_ptr k t = Ok (head (c k));
  table_delete_spec t c k : table_rep t c -> table_valid k ->
    if decide (length (c k) <= 1)%nat then
      exists t', table_delete k t = Ok t' /\
        table_rep t' (fun k' => if decide (k' = k) then [] else c k')
    else table_delete k t = Crash Abort
}.

(** ** The C code *)
Section hash.
Context {K D : Type} `{EqDecision K}.
Context (hashfn : K -> Z -> Z) (keyequal : K -> K -> bool) (size : Z).

Record entry : Type := Entry { key : K; data : D; next : ptr }.

Record table : Type := Table { entries : heap entry; buckets : list ptr }.

Definition hash_new : table := Table empty_heap (replicate (Z.to_nat size) NULL).

(** [for (e = tbl[ndx]; e && !keyequal(e->key, key); e = e->next) ;] *)
Fixpoint find_entry (fuel : nat) (h : heap entry) (e : ptr) (k : K) : run ptr :=
  match e with
  | None => Ok NULL
  | Some _ =>
      n ← hload h e;
      if keyequal (key n) k then Ok e
      else match fuel with
           | O => Crash Fuel
           | S fuel => find_entry fuel h (next n) k
           end
  end.

Definition fuel_for (h : heap entry) : nat := base.size (cells h).

Definition hash_get_entry (k : K) (t : table) : run ptr :=
  let ndx := u32 (hashfn k size) in
  c_assert (bool_decide (ndx < size));;
  e ← arr_get (buckets t) ndx;
  find_entry (fuel_for (entries t)) (entries t) e k.

Definition hash_insert (k : K) (d : D) (t : table) : run table :=
  let ndx := u32 (hashfn k size) in
  c_assert (bool_decide (ndx < size));;
  old_head ← arr_get (buckets t) ndx;
  let '(a, h) := halloc (entries t) (Entry k d old_head) in
  b ← arr_set (buckets t) ndx (Some a);
  let t := Table h b in
  e ← hash_get_entry k t;
  c_assert (bool_decide (e = Some a));;
  Ok t.

Definition hash_lookup (k : K) (t : table) : run D :=
  e ← hash_get_entry k t;
  c_assert (bool_decide (e <> NULL));;
  n ← hload (entries t) e;
  Ok (data n).

(** The data type is a pointer here: [None] is the NULL returned for a
    missing key. *)
Definition hash_lookup_ptr (k : K) (t : table) : run (option D) :=
  e ← hash_get_entry k t;
  match e with
  | Some _ => n ← hload (entries t) e; Ok (Some (data n))
  | None => Ok None
  end.

Definition hash_entry_exists (k : K) (t : table) : run bool :=
  e ← hash_get_entry k t; Ok (bool_decide (e <> NULL)).

Definition hash_set_entry (k : K) (d : D) (t : table) : run table :=
  e ← hash_get_entry k t;
  match e with
  | Some _ =>
      n ← hload (entries t) e;
      h ← hstore (entries t) e (Entry (key n) d (next n));
      Ok (Table h (buckets t))
  | None => hash_insert k d t
  end.

(** The loop of [_hash_delete], with [prev]; returns the unlinked entry. *)
Fixpoint unlink_entry (fuel : nat) (t : table) (ndx : Z) (prev e : ptr) (k : K)
    : run (ptr * table) :=
  match e with
  | None => Ok (NULL, t)
  | Some _ =>
      n ← hload (entries t) e;
      if keyequal (key n) k then
        first ← arr_get (buckets t) ndx;
        if bool_decide (e = first) then
          b ← arr_set (buckets t) ndx (next n); Ok (e, Table (entries t) b)
        else
          p ← hload (entries t) prev;
          h ← hstore (entries t) prev (Entry (key p) (data p) (next n));
          Ok (e, Table h (buckets t))
      else match fuel with
           | O => Crash Fuel
           | S fuel => unlink_entry fuel t ndx e (next n) k
           end
  end.

Definition hash_delete (k : K) (t : table) : run table :=
  let ndx := u32 (hashfn k size) in
  c_assert (bool_decide (ndx < size));;
  first ← arr_get (buckets t) ndx;
  '(e, t) ← unlink_entry (fuel_for (entries t)) t ndx NULL first k;
  h ← hfree (entries t) e;
  let t := Table h (buckets t) in
  e ← hash_get_entry k t;
  c_assert (bool_decide (e = NULL));;
  Ok t.
End hash.
Arguments entry : clear implicits.
Arguments table : clear implicits.

(** [HASH_DEFAULT_HASH_FN] and [HASH_DEFAULT_KEY_EQUALS] for [int] keys; the
    remainder of C truncates. *)
Definition default_hash_fn (k size : Z) : Z := Z.rem k size.
Definition default_key_equals (a b : Z) : bool := bool_decide (a = b).

(** ** Correctness *)
Section proofs.
Context {K D : Type} `{EqDecision K}.
Context (hashfn : K -> Z -> Z) (keyequal : K -> K -> bool) (size : Z) (valid : K -> Prop).
Hypothesis keyequal_eq : forall a b, keyequal a b = true <-> a = b.
Hypothesis hash_range : forall k, valid k -> 0 <= hashfn k size < size.
Hypothesis size_range : 0 < size <= 2 ^ 32.

Abbreviation kentry := (entry K D).
Abbreviation ktable := (table K D).
Implicit Types (t : ktable) (l : list (positive * kentry)) (ls : list (list (positive * kentry))).

Definition slot (k : K) : nat := Z.to_nat (hashfn k size).
Definition matching (k : K) l : list (positive * kentry) := filter (fun p => key p.2 = k) l.
Definition vals (k : K) l : list D := (data ∘ snd) <$> matching k l.

(** The buckets [ls] are the chains of [t], and hold all its entries. *)
Record chains (t : ktable) ls : Prop := {
  chains_len : length ls = Z.to_nat size;
  chains_buckets : length (buckets t) = Z.to_nat size;
  chains_linked i l : ls !! i = Some l ->
    exists p, buckets t !! i = Some p /\ linked next p l NULL;
  chains_slots i l : ls !! i = Some l -> Forall (fun p => slot (key p.2) = i) l;
  chains_owned : owning (entries t) (concat ls) ∅
}.

Definition contents ls (k : K) : list D := vals k (ls !!! slot k).

Lemma ndx_ok k : valid k -> u32 (hashfn k size) = hashfn k size /\
  (slot k < Z.to_nat size)%nat /\ 0 <= hashfn k size < size.
Proof.
  intros Hv. pose proof (hash_range k Hv). split; [apply u32_small; lia|].
  unfold slot. lia.
Qed.

Lemma chains_bucket t ls k : chains t ls -> valid k ->
  exists l p, ls !! slot k = Some l /\ ls !!! slot k = l /\
    arr_get (buckets t) (hashfn k size) = Ok p /\ linked next p l NULL /\
    (forall q, q ∈ l -> q ∈ concat ls).
Proof.
  intros Hc Hv. destruct (ndx_ok k Hv) as (_ & Hs & Hr).
  destruct (lookup_lt_is_Some_2 ls (slot k)) as [l Hl]; [by rewrite (chains_len _ _ Hc)|].
  destruct (chains_linked _ _ Hc _ _ Hl) as (p & Hp & Hlk). exists l, p. split_and!.
  - done.
  - by apply list_lookup_total_correct.
  - apply arr_get_ok; [lia|exact Hp].
  - done.
  - intros q Hq. eapply elem_of_concat; [|done]. by eapply list_elem_of_lookup_2.
Qed.

Lemma find_entry_ok fuel h p l k :
  linked next p l NULL -> (forall a x, (a, x) ∈ l -> hload h (Some a) = Ok x) ->
  (length l <= fuel)%nat ->
  find_entry keyequal fuel h p k = Ok (fst <$> head (matching k l)).
Proof.
  revert fuel p. induction l as [|[a x] l IH]; intros fuel p Hlk Hld Hf.
  { cbn in Hlk. subst p. by destruct fuel. }
  cbn in Hlk. destruct Hlk as [-> Hlk].
  assert (hload h (Some a) = Ok x) as Hx by (apply Hld; by left).
  unfold matching. rewrite filter_cons. cbn [snd].
  destruct (keyequal (key x) k) eqn:Hk.
  - rewrite decide_True by (by apply keyequal_eq).
    destruct fuel; cbn [find_entry]; rewrite Hx; cbn [mbind run_bind]; rewrite Hk; done.
  - rewrite decide_False by (rewrite <- keyequal_eq, Hk; done).
    destruct fuel as [|fuel]; [cbn in Hf; lia|].
    cbn [find_entry]. rewrite Hx. cbn [mbind run_bind]. rewrite Hk.
    apply IH; [done| |cbn in Hf; lia]. intros b y Hb. apply Hld. by right.
Qed.

Lemma hash_get_entry_ok t ls k : chains t ls -> valid k ->
  hash_get_entry hashfn keyequal size k t = Ok (fst <$> head (matching k (ls !!! slot k))).
Proof.
  intros Hc Hv. destruct (ndx_ok k Hv) as (Hn & Hs & Hr).
  destruct (chains_bucket t ls k Hc Hv) as (l & p & Hl & -> & Hp & Hlk & Hin).
  unfold hash_get_entry. rewrite Hn, bool_decide_true by lia. cbn [c_assert mbind run_bind].
  rewrite Hp. cbn [mbind run_bind]. apply find_entry_ok; [done| |].
  - intros a x Hax. apply (owning_load _ _ _ _ _ (chains_owned _ _ Hc)). by apply Hin.
  - etrans; [|exact (owning_size _ _ _ (chains_owned _ _ Hc))].
    apply concat_length_le. by eapply list_elem_of_lookup_2.
Qed.

Lemma contents_head t ls k : chains t ls -> valid k ->
  match matching k (ls !!! slot k) with
  | [] => contents ls k = []
  | (a, x) :: m => contents ls k = data x :: (data ∘ snd <$> m) /\ key x = k /\
      hload (entries t) (Some a) = Ok x
  end.
Proof.
  intros Hc Hv. unfold contents, vals.
  destruct (matching k (ls !!! slot k)) as [|[a x] m] eqn:Hm; [done|].
  assert ((a, x) ∈ matching k (ls !!! slot k)) as Hin by (rewrite Hm; by left).
  apply list_elem_of_filter in Hin as [Hk Hin]. split_and!; [done|done|].
  destruct (chains_bucket t ls k Hc Hv) as (l & p & Hl & Hll & _ & _ & Hcc).
  apply (owning_load _ _ _ _ _ (chains_owned _ _ Hc)). apply Hcc. by rewrite <- Hll.
Qed.

Lemma hash_lookup_ptr_ok t ls k : chains t ls -> valid k ->
  hash_lookup_ptr hashfn keyequal size k t = Ok (head (contents ls k)).
Proof.
  intros Hc Hv. unfold hash_lookup_ptr. rewrite (hash_get_entry_ok t ls k Hc Hv).
  pose proof (contents_head t ls k Hc Hv) as Hh.
  destruct (matching k (ls !!! slot k)) as [|[a x] m]; cbn [head fmap option_fmap option_map mbind run_bind fst].
  - by rewrite Hh.
  - destruct Hh as (-> & _ & ->). done.
Qed.

(** Replacing one bucket's chain. *)
Lemma concat_insert ls i l m : ls !! i = Some l ->
  exists k1, concat ls ≡ₚ l ++ k1 /\ concat (<[i := m]> ls) ≡ₚ m ++ k1.
Proof.
  intros Hi. exists (concat (take i ls) ++ concat (drop (S i) ls)).
  rewrite insert_take_drop by (by eapply lookup_lt_Some).
  rewrite <- (take_drop_middle _ _ _ Hi) at 1.
  rewrite !concat_app. cbn [concat]. split; by rewrite Permutation_app_swap_app.
Qed.

Lemma chains_update t ls i l l' h b p :
  chains t ls -> ls !! i = Some l ->
  buckets t !! i = Some p -> length b = length (buckets t) ->
  (forall j, j <> i -> b !! j = buckets t !! j) ->
  (exists p', b !! i = Some p' /\ linked next p' l' NULL) ->
  Forall (fun q => slot (key q.2) = i) l' ->
  (forall k1, concat ls ≡ₚ l ++ k1 -> owning h (l' ++ k1) ∅) ->
  chains (Table h b) (<[i := l']> ls).
Proof.
  intros Hc Hi Hp Hb Hne Hlk Hs Ho. destruct (concat_insert ls i l l' Hi) as (k1 & Hk1 & Hk2).
  split.
  - rewrite length_insert. apply (chains_len _ _ Hc).
  - cbn. rewrite Hb. apply (chains_buckets _ _ Hc).
  - intros j m Hj. destruct (decide (j = i)) as [->|Hji].
    + rewrite list_lookup_insert_eq in Hj by (by eapply lookup_lt_Some). by simplify_eq.
    + rewrite list_lookup_insert_ne in Hj by done. cbn. rewrite Hne by done.
      by apply (chains_linked _ _ Hc).
  - intros j m Hj. destruct (decide (j = i)) as [->|Hji].
    + rewrite list_lookup_insert_eq in Hj by (by eapply lookup_lt_Some). by simplify_eq.
    + rewrite list_lookup_insert_ne in Hj by done. by apply (chains_slots _ _ Hc).
  - cbn. eapply owning_perm; [symmetry; exact Hk2|]. by apply Ho.
Qed.

(** Only one key's stack changes when a bucket changes for that key only. *)
Lemma contents_update ls i l l' k vs :
  ls !! i = Some l -> i = slot k ->
  vals k l' = vs -> (forall k', k' <> k -> vals k' l' = vals k' l) ->
  forall k', contents (<[i := l']> ls) k' = if decide (k' = k) then vs else contents ls k'.
Proof.
  intros Hi -> Hv Hne k'. unfold contents. case_decide as Hk.
  - subst k'. rewrite list_lookup_total_insert_eq by (by eapply lookup_lt_Some). done.
  - destruct (decide (slot k' = slot k)) as [He|He].
    + rewrite He, list_lookup_total_insert_eq by (by eapply lookup_lt_Some).
      rewrite (list_lookup_total_correct _ _ _ Hi). by apply Hne.
    + by rewrite list_lookup_total_insert_ne by done.
Qed.

Lemma vals_cons k p l :
  vals k (p :: l) = if decide (key p.2 = k) then data p.2 :: vals k l else vals k l.
Proof. unfold vals, matching. rewrite filter_cons. by case_decide. Qed.

Lemma vals_app k l m : vals k (l ++ m) = vals k l ++ vals k m.
Proof. unfold vals, matching. by rewrite filter_app, fmap_app. Qed.

(** [hash_new]. *)
Lemma hash_new_chains : chains (hash_new size) (replicate (Z.to_nat size) []).
Proof.
  split.
  - apply length_replicate.
  - apply length_replicate.
  - intros i l [-> Hi]%lookup_replicate. exists NULL. split; [|done]. cbn.
    by apply lookup_replicate.
  - intros i l [-> _]%lookup_replicate. done.
  - assert (forall n, concat (replicate n ([] : list (positive * kentry))) = []) as ->
      by (induction n; cbn; auto).
    apply (owning_empty empty_heap heap_wf_empty).
Qed.

Lemma hash_insert_ok t ls k d : chains t ls -> valid k ->
  exists t' ls', hash_insert hashfn keyequal size k d t = Ok t' /\ chains t' ls' /\
    forall k', contents ls' k' = if decide (k' = k) then d :: contents ls k' else contents ls k'.
Proof.
  intros Hc Hv. destruct (ndx_ok k Hv) as (Hn & Hs & Hr).
  destruct (chains_bucket t ls k Hc Hv) as (l & p & Hl & Hll & Hp & Hlk & Hin).
  unfold hash_insert. rewrite Hn, bool_decide_true by lia. cbn [c_assert mbind run_bind].
  rewrite Hp. cbn [mbind run_bind halloc].
  set (n := Entry k d p). set (a := brk (entries t)).
  rewrite arr_set_ok by (rewrite (chains_buckets _ _ Hc); lia). cbn [mbind run_bind].
  assert (buckets t !! slot k = Some p) as Hb.
  { unfold arr_get in Hp. rewrite decide_True in Hp by lia. fold (slot k) in Hp.
    destruct (buckets t !! slot k); by simplify_eq/=. }
  fold (slot k).
  set (t' := Table _ _).
  assert (chains t' (<[slot k := (a, n) :: l]> ls)) as Hc'.
  { apply (chains_update t ls (slot k) l _ _ _ p Hc Hl Hb).
    - by rewrite length_insert.
    - intros j Hj. by rewrite list_lookup_insert_ne by done.
    - exists (Some a). split; [|done].
      apply list_lookup_insert_eq. by rewrite (chains_buckets _ _ Hc).
    - apply Forall_cons. split; [done|]. by apply (chains_slots _ _ Hc).
    - intros k1 Hk1. eapply owning_perm; [|exact (owning_alloc _ _ _ n (chains_owned _ _ Hc))].
      rewrite Hk1. cbn. by rewrite <- Permutation_cons_append. }
  assert (forall k', contents (<[slot k := (a, n) :: l]> ls) k'
           = if decide (k' = k) then d :: contents ls k' else contents ls k') as Hcont.
  { intros k'. rewrite (contents_update ls (slot k) l _ k (d :: vals k l)); [|done|done| |].
    - case_decide; [|done]. subst k'. unfold contents. by rewrite Hll.
    - rewrite vals_cons. by rewrite decide_True by done.
    - intros k2 Hk2. rewrite vals_cons. cbn. by rewrite decide_False by done. }
  rewrite (hash_get_entry_ok t' _ k Hc' Hv).
  rewrite list_lookup_total_insert_eq by (by eapply lookup_lt_Some).
  unfold matching. rewrite filter_cons. cbn [snd key n]. rewrite decide_True by done.
  cbn [head fmap option_fmap option_map fst mbind run_bind].
  rewrite bool_decide_true by done. cbn [c_assert mbind run_bind].
  by exists t', (<[slot k := (a, n) :: l]> ls).
Qed.

(** Splitting a chain at the first kentry for [k]. *)
Lemma matching_split k l :
  (matching k l = []) \/
  exists l1 a x l2, l = l1 ++ (a, x) :: l2 /\ key x = k /\ matching k l1 = [] /\
    matching k l = (a, x) :: matching k l2.
Proof.
  induction l as [|[a x] l IH]; [by left|]. unfold matching. rewrite filter_cons. cbn [snd].
  case_decide as Hk.
  - right. exists [], a, x, l. done.
  - destruct IH as [IH|(l1 & b & y & l2 & -> & Hy & H1 & H2)]; [by left|].
    right. exists ((a, x) :: l1), b, y, l2. split_and!; [done|done| |done].
    unfold matching. rewrite filter_cons. cbn [snd]. by rewrite decide_False by done.
Qed.

(** The search loop of [hash_delete] skips entries for other keys. *)
Lemma unlink_skip fuel t ndx prev e l q k :
  linked next e l q -> (forall a x, (a, x) ∈ l -> hload (entries t) (Some a) = Ok x) ->
  matching k l = [] ->
  unlink_entry keyequal (length l + fuel) t ndx prev e k
  = unlink_entry keyequal fuel t ndx (default prev (Some ∘ fst <$> last l)) q k.
Proof.
  revert prev e. induction l as [|[a x] l IH]; intros prev e Hlk Hld Hm.
  { cbn in Hlk. by subst. }
  cbn in Hlk. destruct Hlk as [-> Hlk]. cbn [length Nat.add unlink_entry].
  rewrite (Hld a x) by (by left). cbn [mbind run_bind].
  unfold matching in Hm. rewrite filter_cons in Hm. cbn [snd] in Hm.
  destruct (keyequal (key x) k) eqn:Hk.
  - rewrite decide_True in Hm by (by apply keyequal_eq). done.
  - rewrite decide_False in Hm by (rewrite <- keyequal_eq, Hk; done).
    rewrite IH; [|done|intros; apply Hld; by right|done].
    rewrite last_cons. by destruct (last l).
Qed.

(** The first entry of a chain, taken out and freed. *)
Lemma remove_first t ls i a x l2 : chains t ls -> ls !! i = Some ((a, x) :: l2) ->
  exists h, hfree (entries t) (Some a) = Ok h /\
    chains (Table h (<[i := next x]> (buckets t))) (<[i := l2]> ls).
Proof.
  intros Hc Hl. destruct (chains_linked _ _ Hc _ _ Hl) as (p & Hb & -> & Hlk).
  destruct (concat_insert ls i _ [] Hl) as (k1 & Hk1 & _).
  pose proof (owning_perm _ _ _ _ Hk1 (chains_owned _ _ Hc)) as Ho.
  destruct (owning_free _ [] (l2 ++ k1) a x ∅ Ho) as (h & Hf & Ho'). exists h. split; [done|].
  pose proof (chains_slots _ _ Hc _ _ Hl) as Hs. apply Forall_cons in Hs as [_ Hs].
  apply (chains_update t ls i _ _ _ _ (Some a) Hc Hl Hb).
  - by rewrite length_insert.
  - intros j Hj. by rewrite list_lookup_insert_ne by done.
  - exists (next x). split; [|done]. apply list_lookup_insert_eq. by apply lookup_lt_Some in Hb.
  - done.
  - intros k2 Hk2. rewrite Hk1 in Hk2. apply Permutation_app_inv_l in Hk2.
    eapply owning_perm; [|exact Ho']. cbn [app]. by rewrite Hk2.
Qed.

(** An entry behind another, whose link is made to pass it. *)
Lemma remove_next t ls i l1 b y a x l2 : chains t ls -> ls !! i = Some (l1 ++ (b, y) :: (a, x) :: l2) ->
  let y' := Entry (key y) (data y) (next x) in
  exists h1 h2, hstore (entries t) (Some b) y' = Ok h1 /\ hfree h1 (Some a) = Ok h2 /\
    chains (Table h2 (buckets t)) (<[i := l1 ++ (b, y') :: l2]> ls).
Proof.
  intros Hc Hl y'. destruct (chains_linked _ _ Hc _ _ Hl) as (p & Hb & Hlk).
  destruct (concat_insert ls i _ [] Hl) as (k1 & Hk1 & _).
  pose proof (owning_perm _ _ _ _ Hk1 (chains_owned _ _ Hc)) as Ho. rewrite <- app_assoc in Ho.
  destruct (owning_store _ _ _ _ _ y' _ Ho) as (h1 & Hst & Ho1). cbn [app] in Ho1.
  rewrite cons_middle, app_assoc in Ho1.
  destruct (owning_free _ _ _ _ _ _ Ho1) as (h2 & Hf & Ho2). exists h1, h2. split; [done|]. split; [done|].
  pose proof (chains_slots _ _ Hc _ _ Hl) as Hs. rewrite Forall_app, !Forall_cons in Hs.
  apply (chains_update t ls i _ _ _ _ p Hc Hl Hb); [done|done| | |].
  - exists p. split; [done|]. apply linked_app in Hlk as (r & H1 & -> & _ & Hlk).
    apply linked_app. by exists (Some b).
  - rewrite Forall_app, Forall_cons. naive_solver.
  - intros k2 Hk2. rewrite Hk1 in Hk2. apply Permutation_app_inv_l in Hk2.
    eapply owning_perm; [|exact Ho2]. by rewrite <- !app_assoc, Hk2.
Qed.

(** Only the first entry of a chain is where its bucket points. *)
Lemma first_differs t ls i l1 b y a x l2 p : chains t ls -> ls !! i = Some (l1 ++ (b, y) :: (a, x) :: l2) ->
  buckets t !! i = Some p -> Some a <> p.
Proof.
  intros Hc Hl Hb <-. destruct (chains_linked _ _ Hc _ _ Hl) as (p & Hp & Hlk). simplify_eq.
  destruct (concat_insert ls i _ [] Hl) as (k1 & Hk1 & _).
  pose proof (owning_perm _ _ _ _ Hk1 (chains_owned _ _ Hc)) as (_ & Hnd & _).
  rewrite cons_middle, (app_assoc l1), !fmap_app in Hnd. apply NoDup_app in Hnd as (Hnd & _).
  apply NoDup_app in Hnd as (_ & Hnd & _).
  apply (Hnd a); [|cbn; by left].
  destruct l1 as [|[c z] l1]; cbn in Hlk; destruct Hlk as [Hac _]; injection Hac as <-; cbn; by left.
Qed.

(** Unlinking and freeing the first kentry for [k]. *)
Lemma unlink_ok t ls k l1 a x l2 p : chains t ls -> valid k ->
  ls !! slot k = Some (l1 ++ (a, x) :: l2) -> key x = k -> matching k l1 = [] ->
  arr_get (buckets t) (hashfn k size) = Ok p ->
  exists t' l1' h,
    unlink_entry keyequal (fuel_for (entries t)) t (hashfn k size) NULL p k = Ok (Some a, t') /\
    (forall k', vals k' l1' = vals k' l1) /\
    hfree (entries t') (Some a) = Ok h /\
    chains (Table h (buckets t')) (<[slot k := l1' ++ l2]> ls).
Proof.
  intros Hc Hv Hl Hk Hm Hp. destruct (ndx_ok k Hv) as (Hn & Hs & Hr).
  assert (buckets t !! slot k = Some p) as Hb.
  { unfold arr_get in Hp. rewrite decide_True in Hp by lia. fold (slot k) in Hp.
    destruct (buckets t !! slot k); by simplify_eq/=. }
  destruct (chains_linked _ _ Hc _ _ Hl) as (p' & Hp' & Hlk). rewrite Hb in Hp'. injection Hp' as <-.
  pose proof (chains_owned _ _ Hc) as Ho. destruct (concat_insert ls (slot k) _ [] Hl) as (k1 & Hk1 & _).
  apply (owning_perm _ _ _ _ Hk1) in Ho.
  assert (forall b y, (b, y) ∈ l1 ++ (a, x) :: l2 -> hload (entries t) (Some b) = Ok y) as Hld.
  { intros b y Hin. apply (owning_load _ _ _ _ _ Ho). rewrite elem_of_app. by left. }
  apply linked_app in Hlk as (r & Hlk1 & -> & Hlk2).
  assert (exists fuel, fuel_for (entries t) = (length l1 + S fuel)%nat) as [fuel ->].
  { pose proof (owning_size _ _ _ Ho) as Hsz. rewrite !length_app in Hsz. cbn in Hsz.
    exists (fuel_for (entries t) - length l1 - 1)%nat. unfold fuel_for. lia. }
  rewrite (unlink_skip _ _ _ _ _ l1 (Some a)); [|done|intros b y Hin; apply Hld; rewrite elem_of_app; by left|done].
  cbn [unlink_entry]. rewrite (Hld a x) by (rewrite elem_of_app; right; by left). run_step.
  assert (keyequal (key x) k = true) as -> by (by apply keyequal_eq). rewrite Hp. run_step.
  destruct l1 as [|[b y] l1 _] using rev_ind.
  - cbn in Hlk1. subst p. rewrite bool_decide_true by done.
    rewrite arr_set_ok by (rewrite (chains_buckets _ _ Hc); lia). run_step. fold (slot k).
    destruct (remove_first _ _ _ _ _ _ Hc Hl) as (h & Hf & Hc'). eexists _, [], h. by split_and!.
  - rewrite <- app_assoc in Hl. cbn [app] in Hl.
    rewrite bool_decide_false by (by eapply first_differs).
    rewrite last_snoc. cbn [fmap option_fmap option_map default compose fst id from_option].
    rewrite (Hld b y) by (rewrite !elem_of_app; left; right; by left). run_step.
    destruct (remove_next _ _ _ _ _ _ _ _ _ Hc Hl) as (h1 & h2 & -> & Hf & Hc'). run_step.
    eexists _, (l1 ++ [(b, _)]), h2. split_and!; [done| |done|by rewrite <- app_assoc].
    intros k'. by rewrite !vals_app, !vals_cons.
Qed.

Lemma unlink_absent t ls k p : chains t ls -> valid k ->
  matching k (ls !!! slot k) = [] -> arr_get (buckets t) (hashfn k size) = Ok p ->
  unlink_entry keyequal (fuel_for (entries t)) t (hashfn k size) NULL p k = Ok (NULL, t).
Proof.
  intros Hc Hv Hm Hp.
  destruct (chains_bucket t ls k Hc Hv) as (l & p' & Hl & Hll & Hp' & Hlk & Hin).
  assert (p' = p) as -> by congruence. rewrite Hll in Hm.
  assert (exists fuel, fuel_for (entries t) = (length l + fuel)%nat) as [fuel Hfuel].
  { exists (fuel_for (entries t) - length l)%nat.
    pose proof (owning_size _ _ _ (chains_owned _ _ Hc)).
    pose proof (concat_length_le l ls ltac:(by eapply list_elem_of_lookup_2)).
    unfold fuel_for. lia. }
  rewrite Hfuel, (unlink_skip _ _ _ _ _ l NULL); [by destruct fuel|done| |done].
  intros a x Hax. apply (owning_load _ _ _ _ _ (chains_owned _ _ Hc)). by by apply Hin.
Qed.

Lemma hash_delete_ok t ls k : chains t ls -> valid k ->
  if decide (length (contents ls k) <= 1)%nat then
    exists t' ls', hash_delete hashfn keyequal size k t = Ok t' /\ chains t' ls' /\
      forall k', contents ls' k' = if decide (k' = k) then [] else contents ls k'
  else hash_delete hashfn keyequal size k t = Crash Abort.
Proof.
  intros Hc Hv. destruct (ndx_ok k Hv) as (Hn & Hs & Hr).
  destruct (chains_bucket t ls k Hc Hv) as (l & p & Hl & Hll & Hp & Hlk & Hin).
  unfold hash_delete. rewrite Hn, bool_decide_true by lia. cbn [c_assert mbind run_bind].
  rewrite Hp. cbn [mbind run_bind].
  destruct (matching_split k l) as [Hm|(l1 & a & x & l2 & -> & Hk & Hm1 & Hm)].
  - rewrite (unlink_absent t ls k p) by (done || by rewrite Hll). cbn [mbind run_bind hfree].
    assert (contents ls k = []) as Hck by (unfold contents, vals; rewrite Hll, Hm; done).
    rewrite Hck, decide_True by (cbn; lia).
    replace (Table (entries t) (buckets t)) with t by (by destruct t).
    rewrite (hash_get_entry_ok t ls k Hc Hv), Hll, Hm. cbn [mbind run_bind head fmap option_fmap option_map].
    rewrite bool_decide_true by done. exists t, ls. split_and!; [done|done|].
    intros k'. case_decide; [by subst k'|done].
  - destruct (unlink_ok t ls k l1 a x l2 p Hc Hv Hl Hk Hm1 Hp) as (t' & l1' & h & Hu & Hv1 & Hf & Hc').
    rewrite Hu. cbn [mbind run_bind]. rewrite Hf. cbn [mbind run_bind].
    assert (vals k l1 = []) as Hv0 by (unfold vals; by rewrite Hm1).
    assert (contents ls k = data x :: vals k l2) as Hck
      by (unfold contents; rewrite Hll, vals_app, vals_cons, Hv0, decide_True by done; done).
    rewrite (hash_get_entry_ok _ _ k Hc' Hv).
    rewrite list_lookup_total_insert_eq by (by eapply lookup_lt_Some).
    assert (forall k', contents (<[slot k := l1' ++ l2]> ls) k'
             = if decide (k' = k) then vals k l2 else contents ls k') as Hcont.
    { apply (contents_update ls (slot k) _ _ k _ Hl); [done| |].
      - by rewrite vals_app, Hv1, Hv0.
      - intros k' Hk'. rewrite !vals_app, vals_cons, Hv1. cbn. rewrite decide_False by congruence.
        done. }
    rewrite Hck. cbn [length]. unfold vals in Hv1. specialize (Hv1 k). fold (vals k l1) in Hv1.
    rewrite Hv0 in Hv1. apply fmap_nil_inv in Hv1.
    assert (matching k (l1' ++ l2) = matching k l2) as ->
      by (unfold matching in *; rewrite filter_app, Hv1; done).
    unfold vals. rewrite length_fmap. destruct (matching k l2) as [|q m] eqn:Hm2.
    + rewrite decide_True by (cbn; lia). cbn [mbind run_bind head fmap option_fmap option_map].
      rewrite bool_decide_true by done. cbn [c_assert mbind run_bind].
      eexists _, _. split_and!; [done|exact Hc'|]. intros k'. rewrite Hcont. unfold vals.
      by rewrite Hm2.
    + rewrite decide_False by (cbn; lia). cbn [mbind run_bind head fmap option_fmap option_map].
      by rewrite bool_decide_false by done.
Qed.

Lemma hash_set_entry_ok t ls k d : chains t ls -> valid k ->
  exists t' ls', hash_set_entry hashfn keyequal size k d t = Ok t' /\ chains t' ls' /\
    forall k', contents ls' k' = if decide (k' = k) then d :: tail (contents ls k') else contents ls k'.
Proof.
  intros Hc Hv. destruct (ndx_ok k Hv) as (Hn & Hs & Hr).
  destruct (chains_bucket t ls k Hc Hv) as (l & p & Hl & Hll & Hp & Hlk & Hin).
  unfold hash_set_entry. rewrite (hash_get_entry_ok t ls k Hc Hv), Hll.
  destruct (matching_split k l) as [Hm|(l1 & a & x & l2 & -> & Hk & Hm1 & Hm)]; rewrite Hm;
    cbn [mbind run_bind head fmap option_fmap option_map fst].
  - destruct (hash_insert_ok t ls k d Hc Hv) as (t' & ls' & -> & Hc' & Hcont).
    exists t', ls'. split_and!; [done|done|]. intros k'. rewrite Hcont.
    case_decide; [|done]. subst k'.
    assert (contents ls k = []) as -> by (unfold contents, vals; by rewrite Hll, Hm). done.
  - rewrite (owning_load _ _ _ a x (chains_owned _ _ Hc))
      by (apply Hin; rewrite elem_of_app; right; by left).
    cbn [mbind run_bind]. set (x' := Entry (key x) d (next x)).
    pose proof (chains_owned _ _ Hc) as Ho.
    destruct (concat_insert ls (slot k) _ [] Hl) as (k1 & Hk1 & _).
    apply (owning_perm _ _ _ _ Hk1) in Ho. rewrite <- app_assoc in Ho. cbn [app] in Ho.
    destruct (owning_store _ _ _ _ _ x' _ Ho) as (h & -> & Ho'). cbn [mbind run_bind].
    assert (buckets t !! slot k = Some p) as Hb.
    { destruct (chains_linked _ _ Hc _ _ Hl) as (p' & Hp' & _).
      unfold arr_get in Hp. rewrite decide_True in Hp by lia. fold (slot k) in Hp.
      rewrite Hp' in Hp |- *. by simplify_eq/=. }
    pose proof (chains_slots _ _ Hc _ _ Hl) as Hslots. subst k.
    eexists _, (<[slot (key x) := l1 ++ (a, x') :: l2]> ls). split_and!; [done| |].
    + apply (chains_update t ls (slot (key x)) _ _ _ _ p Hc Hl Hb).
      * done.
      * done.
      * exists p. split; [done|]. apply linked_app in Hlk as (r & Hlk1 & -> & Hlk2).
        apply linked_app. by exists (Some a).
      * apply Forall_app in Hslots as [Hs1 Hs2]. apply Forall_cons in Hs2 as [Hsx Hs2].
        apply Forall_app. split; [done|]. by apply Forall_cons.
      * intros k2 Hk2. assert (k1 ≡ₚ k2) as Hk12.
        { rewrite Hk1 in Hk2. by apply Permutation_app_inv_l in Hk2. }
        eapply owning_perm; [|exact Ho']. by rewrite <- app_assoc, Hk12.
    + assert (vals (key x) l1 = []) as Hv0 by (unfold vals; by rewrite Hm1).
      intros k'.
      rewrite (contents_update ls (slot (key x)) _ _ (key x) (d :: vals (key x) l2) Hl);
        [|done| |].
      * case_decide as Hd; [|done]. rewrite Hd. unfold contents.
        rewrite Hll, vals_app, Hv0, vals_cons, decide_True by done. done.
      * by rewrite vals_app, Hv0, vals_cons, decide_True by done.
      * intros k2 Hk2. rewrite !vals_app, !vals_cons. cbn. by rewrite !decide_False by congruence.
Qed.

(** C3: the chained hash ktable of [mysock_hash.h] implements, for every
    hash function into the table's range, a family of stacks indexed by
    key.  [insert] pushes, [lookup] and [lookup_ptr] return the newest
    value, [entry_exists] tells whether there is one, [set_entry] replaces
    it or inserts; [delete] removes the only value of a key, and fails its
    final assertion when the key was inserted twice.  Other keys, even in
    the same bucket, are unaffected, and entries are neither leaked nor
    freed twice. *)
Theorem hash_table_refines t ls k d :
  chains t ls -> valid k ->
  (exists t' ls', hash_insert hashfn keyequal size k d t = Ok t' /\ chains t' ls' /\
    forall k', contents ls' k' = if decide (k' = k) then d :: contents ls k' else contents ls k') /\
  hash_lookup_ptr hashfn keyequal size k t = Ok (head (contents ls k)) /\
  hash_lookup hashfn keyequal size k t = need Abort (head (contents ls k)) /\
  hash_entry_exists hashfn keyequal size k t = Ok (bool_decide (contents ls k <> [])) /\
  (exists t' ls', hash_set_entry hashfn keyequal size k d t = Ok t' /\ chains t' ls' /\
    forall k', contents ls' k'
      = if decide (k' = k) then d :: tail (contents ls k') else contents ls k') /\
  (if decide (length (contents ls k) <= 1)%nat then
     exists t' ls', hash_delete hashfn keyequal size k t = Ok t' /\ chains t' ls' /\
       forall k', contents ls' k' = if decide (k' = k) then [] else contents ls k'
   else hash_delete hashfn keyequal size k t = Crash Abort).
Proof.
  intros Hc Hv. pose proof (contents_head t ls k Hc Hv) as Hh.
  split_and!; [by apply hash_insert_ok|by apply hash_lookup_ptr_ok| | |by apply hash_set_entry_ok
    |by apply hash_delete_ok].
  - unfold hash_lookup. rewrite (hash_get_entry_ok t ls k Hc Hv).
    destruct (matching k (ls !!! slot k)) as [|[a x] m]; [by rewrite Hh|].
    destruct Hh as (-> & _ & Hx). cbn [head fmap option_fmap option_map fst mbind run_bind].
    rewrite bool_decide_true by done. cbn [c_assert mbind run_bind]. by rewrite Hx.
  - unfold hash_entry_exists. rewrite (hash_get_entry_ok t ls k Hc Hv).
    destruct (matching k (ls !!! slot k)) as [|[a x] m]; [by rewrite Hh|].
    by destruct Hh as (-> & _ & Hx).
Qed.
End proofs.

(** ** The instance: [int] keys below the table size bound *)
Section instance.
Context (D : Type) (size : Z) (Hsize : 0 < size <= 2 ^ 32).

Lemma default_key_equals_eq a b : default_key_equals a b = true <-> a = b.
Proof. apply bool_decide_eq_true. Qed.

Lemma default_hash_range k : 0 <= k -> 0 <= default_hash_fn k size < size.
Proof. intros. unfold default_hash_fn. apply Z.rem_bound_pos; lia. Qed.

Abbreviation H := (default_hash_fn).
Abbreviation E := (default_key_equals).

Program Definition int_table : KeyedTable (table Z D) Z D :=
  {| table_rep t c := exists ls, chains H size t ls /\ forall k, 0 <= k -> c k = contents H size ls k;
     table_valid k := 0 <= k;
     table_new := hash_new size;
     table_insert := hash_insert H E size;
     table_lookup_ptr := hash_lookup_ptr H E size;
     table_delete := hash_delete H E size |}.
Next Obligation.
  eexists. split; [apply hash_new_chains; lia|]. intros k Hk. unfold contents.
  pose proof (default_hash_range k Hk).
  rewrite lookup_total_replicate_2; [done|]. unfold slot. lia.
Qed.
Next Obligation.
  intros t c k d (ls & Hc & Hk) Hv. cbn in *.
  destruct (hash_insert_ok H E size (fun k => 0 <= k) default_key_equals_eq default_hash_range
    Hsize t ls k d Hc Hv) as (t' & ls' & He & Hc' & Hk').
  exists t'. split; [done|]. exists ls'. split; [done|].
  intros k' Hv'. rewrite Hk', Hk by done. done.
Qed.
Next Obligation.
  intros t c k (ls & Hc & Hk) Hv. cbn in *. rewrite Hk by done.
  exact (hash_lookup_ptr_ok H E size (fun k => 0 <= k) default_key_equals_eq default_hash_range
    Hsize t ls k Hc Hv).
Qed.
Next Obligation.
  intros t c k (ls & Hc & Hk) Hv. cbn in *. rewrite Hk by done.
  pose proof (hash_delete_ok H E size (fun k => 0 <= k) default_key_equals_eq default_hash_range
    Hsize t ls k Hc Hv) as Hd. case_decide; [|done].
  destruct Hd as (t' & ls' & He & Hc' & Hk').
  exists t'. split; [done|]. exists ls'. split; [done|].
  intros k' Hv'. rewrite Hk', Hk by done. done.
Qed.
End instance.

(** Two colliding keys in a table of four buckets. *)
Definition sample_table : run (table Z Z) :=
  t ← hash_insert default_hash_fn default_key_equals 4 1 10 (hash_new 4);
  hash_insert default_hash_fn default_key_equals 4 5 50 t.

Lemma hash_table_refines_witness :
  exists t ls, sample_table = Ok t /\ chains default_hash_fn 4 t ls /\
    hash_lookup_ptr default_hash_fn default_key_equals 4 1 t = Ok (head (contents default_hash_fn 4 ls 1)) /\
    head (contents default_hash_fn 4 ls 1) = Some 10.
Proof.
  pose proof (hash_table_refines (D := Z) default_hash_fn default_key_equals 4 (fun k => 0 <= k)
    default_key_equals_eq (default_hash_range 4 ltac:(lia)) ltac:(lia)) as R.
  assert (H0 : chains default_hash_fn 4 (hash_new 4 : table Z Z) (replicate 4 []))
    by (apply (hash_new_chains default_hash_fn 4); lia).
  destruct (R _ _ 1 10 H0 ltac:(done)) as [(t1 & ls1 & E1 & C1 & F1) _].
  destruct (R _ _ 5 50 C1 ltac:(done)) as [(t2 & ls2 & E2 & C2 & F2) _].
  destruct (R _ _ 1 10 C2 ltac:(done)) as (_ & L & _).
  exists t2, ls2. split_and!; [|done|exact L|].
  - unfold sample_table. rewrite E1. exact E2.
  - rewrite F2. rewrite decide_False by lia. rewrite F1, decide_True by done. done.
Defined.
