(* ===== verification/MysockTypes.v ===== *)
(** * STCP sockets: shared data and the program state

    The C structures of [Assignment3/src] ([network_io.h],
    [network_io_socket.h], [mysock_impl.h], [connection_demux.c]), the state
    of the whole socket library as one record of heaps and static variables,
    the interface of the operating system's sockets, and the state-and-fault
    monad the library's functions are written in.  Thread handles, mutexes
    and condition variables carry no data and are not fields. *)

From S2P Require Import Prelude Heap HashTable PacketQueue.

Definition AF_INET : Z := 2.
Definition MAX_IP_PAYLOAD_LEN : Z := 1500.
Definition MAX_NUM_CONNECTIONS : Z := 64.
Definition sizeof_tcphdr : Z := 20.

(** [struct sockaddr_in]; port and address are in network byte order. *)
Record sockaddr_in : Type := Sockaddr {
  sa_family : Z;
  sin_port : Z;
  sin_addr : Z
}.
#[global] Instance sockaddr_in_eq_dec : EqDecision sockaddr_in.
Proof. solve_decision. Defined.

(** [network_io.h] *)
Record network_context_t : Type := NetCtx {
  local_addr : sockaddr_in;
  peer_addr : sockaddr_in;
  peer_addr_len : Z;
  peer_addr_valid : bool;
  impl_data : ptr;   (* network_context_socket_tcp_t * *)
  random_seed : Z;
  copied : bool;
  copy_buffer : list Z;
  copy_buf_len : Z
}.

Definition set_local_addr (v : sockaddr_in) (c : network_context_t) : network_context_t :=
  NetCtx v (peer_addr c) (peer_addr_len c) (peer_addr_valid c) (impl_data c) (random_seed c)
    (copied c) (copy_buffer c) (copy_buf_len c).
Definition set_peer_addr (v : sockaddr_in) (c : network_context_t) : network_context_t :=
  NetCtx (local_addr c) v (peer_addr_len c) (peer_addr_valid c) (impl_data c) (random_seed c)
    (copied c) (copy_buffer c) (copy_buf_len c).
Definition set_peer_addr_len (v : Z) (c : network_context_t) : network_context_t :=
  NetCtx (local_addr c) (peer_addr c) v (peer_addr_valid c) (impl_data c) (random_seed c) (copied
    c) (copy_buffer c) (copy_buf_len c).
Definition set_peer_addr_valid (v : bool) (c : network_context_t) : network_context_t :=
  NetCtx (local_addr c) (peer_addr c) (peer_addr_len c) v (impl_data c) (random_seed c) (copied c)
    (copy_buffer c) (copy_buf_len c).
Definition set_impl_data (v : ptr) (c : network_context_t) : network_context_t :=
  NetCtx (local_addr c) (peer_addr c) (peer_addr_len c) (peer_addr_valid c) v (random_seed c)
    (copied c) (copy_buffer c) (copy_buf_len c).
Definition set_random_seed (v : Z) (c : network_context_t) : network_context_t :=
  NetCtx (local_addr c) (peer_addr c) (peer_addr_len c) (peer_addr_valid c) (impl_data c) v (copied
    c) (copy_buffer c) (copy_buf_len c).

(** [network_io_socket.h]: the state of the TCP-based network layer. *)
Record network_context_socket_tcp_t : Type := TcpCtx {
  recv_thread_started : bool;
  socket : Z;
  exit_pipe : Z * Z;
  sock_ctx : ptr;   (* mysock_context_t * *)
  new_socket : Z;
  connected : bool
}.

Definition set_recv_thread_started (v : bool) (c : network_context_socket_tcp_t) : network_context_socket_tcp_t :=
  TcpCtx v (socket c) (exit_pipe c) (sock_ctx c) (new_socket c) (connected c).
Definition set_socket (v : Z) (c : network_context_socket_tcp_t) : network_context_socket_tcp_t :=
  TcpCtx (recv_thread_started c) v (exit_pipe c) (sock_ctx c) (new_socket c) (connected c).
Definition set_sock_ctx (v : ptr) (c : network_context_socket_tcp_t) : network_context_socket_tcp_t :=
  TcpCtx (recv_thread_started c) (socket c) (exit_pipe c) v (new_socket c) (connected c).
Definition set_new_socket (v : Z) (c : network_context_socket_tcp_t) : network_context_socket_tcp_t :=
  TcpCtx (recv_thread_started c) (socket c) (exit_pipe c) (sock_ctx c) v (connected c).
Definition set_connected (v : bool) (c : network_context_socket_tcp_t) : network_context_socket_tcp_t :=
  TcpCtx (recv_thread_started c) (socket c) (exit_pipe c) (sock_ctx c) (new_socket c) v.

(** [mysock_impl.h] *)
Record mysock_context_t : Type := MysockCtx {
  is_active : bool;
  stcp_state : Z;   (* void * *)
  network_state : network_context_t;
  bound : bool;
  listening : bool;
  my_sd : Z;
  listen_sd : Z;
  blocking : bool;
  stcp_errno : Z;
  transport_thread_started : bool;
  close_requested : bool;
  eof : bool;
  network_recv_queue : packet_queue_t;
  app_send_queue : packet_queue_t;
  app_recv_queue : packet_queue_t
}.

Definition set_is_active (v : bool) (c : mysock_context_t) : mysock_context_t :=
  MysockCtx v (stcp_state c) (network_state c) (bound c) (listening c) (my_sd c) (listen_sd c)
    (blocking c) (stcp_errno c) (transport_thread_started c) (close_requested c) (eof c)
    (network_recv_queue c) (app_send_queue c) (app_recv_queue c).
Definition set_stcp_state (v : Z) (c : mysock_context_t) : mysock_context_t :=
  MysockCtx (is_active c) v (network_state c) (bound c) (listening c) (my_sd c) (listen_sd c)
    (blocking c) (stcp_errno c) (transport_thread_started c) (close_requested c) (eof c)
    (network_recv_queue c) (app_send_queue c) (app_recv_queue c).
Definition set_network_state (v : network_context_t) (c : mysock_context_t) : mysock_context_t :=
  MysockCtx (is_active c) (stcp_state c) v (bound c) (listening c) (my_sd c) (listen_sd c) (blocking
    c) (stcp_errno c) (transport_thread_started c) (close_requested c) (eof c)
    (network_recv_queue c) (app_send_queue c) (app_recv_queue c).
Definition set_bound (v : bool) (c : mysock_context_t) : mysock_context_t :=
  MysockCtx (is_active c) (stcp_state c) (network_state c) v (listening c) (my_sd c) (listen_sd c)
    (blocking c) (stcp_errno c) (transport_thread_started c) (close_requested c) (eof c)
    (network_recv_queue c) (app_send_queue c) (app_recv_queue c).
Definition set_listening (v : bool) (c : mysock_context_t) : mysock_context_t :=
  MysockCtx (is_active c) (stcp_state c) (network_state c) (bound c) v (my_sd c) (listen_sd c)
    (blocking c) (stcp_errno c) (transport_thread_started c) (close_requested c) (eof c)
    (network_recv_queue c) (app_send_queue c) (app_recv_queue c).
Definition set_my_sd (v : Z) (c : mysock_context_t) : mysock_context_t :=
  MysockCtx (is_active c) (stcp_state c) (network_state c) (bound c) (listening c) v (listen_sd c)
    (blocking c) (stcp_errno c) (transport_thread_started c) (close_requested c) (eof c)
    (network_recv_queue c) (app_send_queue c) (app_recv_queue c).
Definition set_listen_sd (v : Z) (c : mysock_context_t) : mysock_context_t :=
  MysockCtx (is_active c) (stcp_state c) (network_state c) (bound c) (listening c) (my_sd c) v
    (blocking c) (stcp_errno c) (transport_thread_started c) (close_requested c) (eof c)
    (network_recv_queue c) (app_send_queue c) (app_recv_queue c).
Definition set_blocking (v : bool) (c : mysock_context_t) : mysock_context_t :=
  MysockCtx (is_active c) (stcp_state c) (network_state c) (bound c) (listening c) (my_sd c)
    (listen_sd c) v (stcp_errno c) (transport_thread_started c) (close_requested c) (eof c)
    (network_recv_queue c) (app_send_queue c) (app_recv_queue c).
Definition set_stcp_errno (v : Z) (c : mysock_context_t) : mysock_context_t :=
  MysockCtx (is_active c) (stcp_state c) (network_state c) (bound c) (listening c) (my_sd c)
    (listen_sd c) (blocking c) v (transport_thread_started c) (close_requested c) (eof c)
    (network_recv_queue c) (app_send_queue c) (app_recv_queue c).
Definition set_transport_thread_started (v : bool) (c : mysock_context_t) : mysock_context_t :=
  MysockCtx (is_active c) (stcp_state c) (network_state c) (bound c) (listening c) (my_sd c)
    (listen_sd c) (blocking c) (stcp_errno c) v (close_requested c) (eof c)
    (network_recv_queue c) (app_send_queue c) (app_recv_queue c).
Definition set_close_requested (v : bool) (c : mysock_context_t) : mysock_context_t :=
  MysockCtx (is_active c) (stcp_state c) (network_state c) (bound c) (listening c) (my_sd c)
    (listen_sd c) (blocking c) (stcp_errno c) (transport_thread_started c) v (eof c)
    (network_recv_queue c) (app_send_queue c) (app_recv_queue c).
Definition set_eof (v : bool) (c : mysock_context_t) : mysock_context_t :=
  MysockCtx (is_active c) (stcp_state c) (network_state c) (bound c) (listening c) (my_sd c)
    (listen_sd c) (blocking c) (stcp_errno c) (transport_thread_started c) (close_requested c)
    v (network_recv_queue c) (app_send_queue c) (app_recv_queue c).
Definition set_network_recv_queue (v : packet_queue_t) (c : mysock_context_t) : mysock_context_t :=
  MysockCtx (is_active c) (stcp_state c) (network_state c) (bound c) (listening c) (my_sd c)
    (listen_sd c) (blocking c) (stcp_errno c) (transport_thread_started c) (close_requested c)
    (eof c) v (app_send_queue c) (app_recv_queue c).
Definition set_app_send_queue (v : packet_queue_t) (c : mysock_context_t) : mysock_context_t :=
  MysockCtx (is_active c) (stcp_state c) (network_state c) (bound c) (listening c) (my_sd c)
    (listen_sd c) (blocking c) (stcp_errno c) (transport_thread_started c) (close_requested c)
    (eof c) (network_recv_queue c) v (app_recv_queue c).
Definition set_app_recv_queue (v : packet_queue_t) (c : mysock_context_t) : mysock_context_t :=
  MysockCtx (is_active c) (stcp_state c) (network_state c) (bound c) (listening c) (my_sd c)
    (listen_sd c) (blocking c) (stcp_errno c) (transport_thread_started c) (close_requested c)
    (eof c) (network_recv_queue c) (app_send_queue c) v.

(** [connection_demux.c] *)
Record connect_request_t : Type := ConnectRequest {
  req_peer_addr : sockaddr_in;
  req_peer_addr_len : Z;
  req_sd : Z;   (* sd *)
  user_data : bool   (* true for a non-NULL pointer *)
}.

(** [request] points into a [connection_queue] array. *)
Record completed_connect_t : Type := CompletedConnect {
  request : ptr * Z;
  next_completed : ptr   (* next *)
}.

Record listen_queue_t : Type := ListenQueue {
  local_port : Z;
  max_len : Z;
  cur_len : Z;
  connection_queue : ptr;   (* array of connect_request_t *)
  completed_queue : ptr   (* completed_connect_t * *)
}.

Definition set_local_port (v : Z) (c : listen_queue_t) : listen_queue_t :=
  ListenQueue v (max_len c) (cur_len c) (connection_queue c) (completed_queue c).
Definition set_max_len (v : Z) (c : listen_queue_t) : listen_queue_t :=
  ListenQueue (local_port c) v (cur_len c) (connection_queue c) (completed_queue c).
Definition set_cur_len (v : Z) (c : listen_queue_t) : listen_queue_t :=
  ListenQueue (local_port c) (max_len c) v (connection_queue c) (completed_queue c).
Definition set_connection_queue (v : ptr) (c : listen_queue_t) : listen_queue_t :=
  ListenQueue (local_port c) (max_len c) (cur_len c) v (completed_queue c).
Definition set_completed_queue (v : ptr) (c : listen_queue_t) : listen_queue_t :=
  ListenQueue (local_port c) (max_len c) (cur_len c) (connection_queue c) v.

(** [memset] to zero, as [calloc] returns them. *)
Definition zero_sockaddr : sockaddr_in := Sockaddr 0 0 0.
Definition zero_network_context : network_context_t :=
  NetCtx zero_sockaddr zero_sockaddr 0 false NULL 0 false
    (replicate (Z.to_nat MAX_IP_PAYLOAD_LEN) 0) 0.
Definition zero_mysock_context : mysock_context_t :=
  MysockCtx false 0 zero_network_context false false 0 0 false 0 false false false
    empty_queue empty_queue empty_queue.
Definition zero_request : connect_request_t := ConnectRequest zero_sockaddr 0 0 false.

(** [gethostname], and [gethostbyname_r] with the addresses it lists. *)
Record resolver : Type := Resolver {
  gethostname : option (list Z);
  gethostbyname_r : list Z -> option (list Z)
}.

(** ** The operating system

    The socket calls the library makes, on an abstract world [W]; results
    below zero are errors.  [os_read] and [os_write] return the byte count
    and may transfer less than asked. *)
Class OS (W : Type) := {
  os_socket : W -> Z * W;
  os_pipe : W -> Z * (Z * Z) * W;
  os_close : Z -> W -> W;
  os_bind : Z -> sockaddr_in -> W -> Z * W;
  os_listen : Z -> Z -> W -> Z * W;
  os_connect : Z -> sockaddr_in -> W -> Z * W;
  os_accept : Z -> W -> (Z * sockaddr_in * Z) * W;
  os_getsockname : Z -> W -> Z * sockaddr_in;
  os_read : Z -> Z -> W -> Z * list Z * W;
  os_write : Z -> list Z -> W -> Z * W;
  os_resolver : resolver
}.

(** ** The state of the library *)

Record state (T W : Type) : Type := State {
  contexts : heap mysock_context_t;
  global_ctx : list ptr;   (* static array of MAX_NUM_CONNECTIONS *)
  queue_nodes : nodes;
  impls : heap network_context_socket_tcp_t;
  listen_queues : heap listen_queue_t;
  requests : heap (list connect_request_t);   (* arrays from realloc *)
  completions : heap completed_connect_t;
  listen_table : T;
  errno : Z;
  world : W   (* the operating system *)
}.
Arguments State {T W}.
Arguments contexts {T W} _.
Arguments global_ctx {T W} _.
Arguments queue_nodes {T W} _.
Arguments impls {T W} _.
Arguments listen_queues {T W} _.
Arguments requests {T W} _.
Arguments completions {T W} _.
Arguments listen_table {T W} _.
Arguments errno {T W} _.
Arguments world {T W} _.

Section setters.
Context {T W : Type}.
Definition set_contexts (v : heap mysock_context_t) (s : state T W) : state T W :=
  State v (global_ctx s) (queue_nodes s) (impls s) (listen_queues s) (requests s) (completions s)
    (listen_table s) (errno s) (world s).
Definition set_global_ctx (v : list ptr) (s : state T W) : state T W :=
  State (contexts s) v (queue_nodes s) (impls s) (listen_queues s) (requests s) (completions s)
    (listen_table s) (errno s) (world s).
Definition set_queue_nodes (v : nodes) (s : state T W) : state T W :=
  State (contexts s) (global_ctx s) v (impls s) (listen_queues s) (requests s) (completions s)
    (listen_table s) (errno s) (world s).
Definition set_impls (v : heap network_context_socket_tcp_t) (s : state T W) : state T W :=
  State (contexts s) (global_ctx s) (queue_nodes s) v (listen_queues s) (requests s) (completions
    s) (listen_table s) (errno s) (world s).
Definition set_listen_queues (v : heap listen_queue_t) (s : state T W) : state T W :=
  State (contexts s) (global_ctx s) (queue_nodes s) (impls s) v (requests s) (completions s)
    (listen_table s) (errno s) (world s).
Definition set_requests (v : heap (list connect_request_t)) (s : state T W) : state T W :=
  State (contexts s) (global_ctx s) (queue_nodes s) (impls s) (listen_queues s) v (completions s)
    (listen_table s) (errno s) (world s).
Definition set_completions (v : heap completed_connect_t) (s : state T W) : state T W :=
  State (contexts s) (global_ctx s) (queue_nodes s) (impls s) (listen_queues s) (requests s) v
    (listen_table s) (errno s) (world s).
Definition set_listen_table (v : T) (s : state T W) : state T W :=
  State (contexts s) (global_ctx s) (queue_nodes s) (impls s) (listen_queues s) (requests s)
    (completions s) v (errno s) (world s).
Definition set_errno (v : Z) (s : state T W) : state T W :=
  State (contexts s) (global_ctx s) (queue_nodes s) (impls s) (listen_queues s) (requests s)
    (completions s) (listen_table s) v (world s).
Definition set_world (v : W) (s : state T W) : state T W :=
  State (contexts s) (global_ctx s) (queue_nodes s) (impls s) (listen_queues s) (requests s)
    (completions s) (listen_table s) (errno s) v.
End setters.

(** ** The monad: state passing with faults *)

Definition M (T W A : Type) : Type := state T W -> run (A * state T W).

Section monad.
Context {T W : Type}.

#[global] Instance M_ret : MRet (M T W) := fun A a s => Ok (a, s).
#[global] Instance M_bind : MBind (M T W) := fun A B k m s =>
  match m s with Ok (a, s') => k a s' | Crash f => Crash f end.

Definition lift {A} (r : run A) : M T W A := fun s =>
  match r with Ok a => Ok (a, s) | Crash f => Crash f end.
Definition gets {A} (f : state T W -> A) : M T W A := fun s => Ok (f s, s).
Definition modify (f : state T W -> state T W) : M T W unit := fun s => Ok (tt, f s).
Definition m_assert (b : bool) : M T W unit := lift (c_assert b).
Definition on_world {A} (f : W -> A * W) : M T W A := fun s =>
  let '(a, w) := f (world s) in Ok (a, set_world w s).

(** Reading and updating an object through a pointer. *)
Definition load_ctx (p : ptr) : M T W mysock_context_t := fun s =>
  c ← hload (contexts s) p; Ok (c, s).
Definition update_ctx (p : ptr) (f : mysock_context_t -> mysock_context_t) : M T W unit := fun s =>
  c ← hload (contexts s) p; h ← hstore (contexts s) p (f c); Ok (tt, set_contexts h s).
Definition update_net (p : ptr) (f : network_context_t -> network_context_t) : M T W unit :=
  update_ctx p (fun c => set_network_state (f (network_state c)) c).
Definition load_impl (p : ptr) : M T W network_context_socket_tcp_t := fun s =>
  c ← hload (impls s) p; Ok (c, s).
Definition update_impl (p : ptr)
    (f : network_context_socket_tcp_t -> network_context_socket_tcp_t) : M T W unit := fun s =>
  c ← hload (impls s) p; h ← hstore (impls s) p (f c); Ok (tt, set_impls h s).
Definition load_lq (p : ptr) : M T W listen_queue_t := fun s =>
  q ← hload (listen_queues s) p; Ok (q, s).
Definition update_lq (p : ptr) (f : listen_queue_t -> listen_queue_t) : M T W unit := fun s =>
  q ← hload (listen_queues s) p; h ← hstore (listen_queues s) p (f q);
  Ok (tt, set_listen_queues h s).

(** The entries of a request array. *)
Definition load_req (p : ptr * Z) : M T W connect_request_t := fun s =>
  a ← hload (requests s) p.1; r ← arr_get a p.2; Ok (r, s).
Definition store_req (p : ptr * Z) (r : connect_request_t) : M T W unit := fun s =>
  a ← hload (requests s) p.1; a ← arr_set a p.2 r;
  h ← hstore (requests s) p.1 a; Ok (tt, set_requests h s).

(** The queue operations of [PacketQueue.v] on one queue of a context. *)
Definition m_enqueue (p : ptr) (get : mysock_context_t -> packet_queue_t)
    (put : packet_queue_t -> mysock_context_t -> mysock_context_t)
    (packet : option (list Z)) (packet_len : Z) : M T W unit := fun s =>
  c ← hload (contexts s) p;
  '(h, q) ← _mysock_enqueue_buffer (queue_nodes s) (get c) packet packet_len;
  cs ← hstore (contexts s) p (put q c);
  Ok (tt, set_queue_nodes h (set_contexts cs s)).

Definition m_dequeue (p : ptr) (get : mysock_context_t -> packet_queue_t)
    (put : packet_queue_t -> mysock_context_t -> mysock_context_t)
    (dst : list Z) (max_len : Z) (remove_partial : bool) : M T W (Z * list Z) := fun s =>
  c ← hload (contexts s) p;
  '(n, dst, h, q) ← _mysock_dequeue_buffer (queue_nodes s) (get c) dst max_len remove_partial;
  cs ← hstore (contexts s) p (put q c);
  Ok ((n, dst), set_queue_nodes h (set_contexts cs s)).

Definition m_free_queue (p : ptr) (get : mysock_context_t -> packet_queue_t)
    (put : packet_queue_t -> mysock_context_t -> mysock_context_t) : M T W bool := fun s =>
  c ← hload (contexts s) p;
  '(r, h, q) ← _mysock_free_queue (base.size (cells (queue_nodes s))) (queue_nodes s) (get c);
  cs ← hstore (contexts s) p (put q c);
  Ok (r, set_queue_nodes h (set_contexts cs s)).
End monad.

(** [for (k = 0; k < n; ++k)] with an early exit: the body returns [Some] to
    leave the loop. *)
Fixpoint m_for {T W A} (n : nat) (k : Z) (body : Z -> M T W (option A)) : M T W (option A) :=
  match n with
  | O => mret None
  | S n => r ← body k; match r with Some a => mret (Some a) | None => m_for n (k + 1) body end
  end.

(** ** Running the monad *)
Section running.
Context {T W : Type}.
Implicit Types s : state T W.

Lemma m_bind_ok {A B} (m : M T W A) (k : A -> M T W B) s a s' :
  m s = Ok (a, s') -> (m ≫= k) s = k a s'.
Proof. intros Hm. unfold mbind, M_bind. by rewrite Hm. Qed.

Lemma m_bind_crash {A B} (m : M T W A) (k : A -> M T W B) s f :
  m s = Crash f -> (m ≫= k) s = Crash f.
Proof. intros Hm. unfold mbind, M_bind. by rewrite Hm. Qed.

Lemma m_bind_inv {A B} (m : M T W A) (k : A -> M T W B) s b s' :
  (m ≫= k) s = Ok (b, s') -> exists a s1, m s = Ok (a, s1) /\ k a s1 = Ok (b, s').
Proof.
  unfold mbind, M_bind. intros Hm. destruct (m s) as [[a s1]|]; [|done]. by exists a, s1.
Qed.

Lemma m_assert_ok (b : bool) s : b = true -> m_assert b s = Ok (tt, s).
Proof. by intros ->. Qed.

Lemma m_assert_dec (P : Prop) `{Decision P} s : P -> m_assert (bool_decide P) s = Ok (tt, s).
Proof. intros. apply m_assert_ok. by apply bool_decide_true. Qed.

Lemma load_ctx_ok s a c : cells (contexts s) !! a = Some c -> load_ctx (Some a) s = Ok (c, s).
Proof. intros Hc. unfold load_ctx, hload. by rewrite Hc. Qed.
Lemma load_impl_ok s a c : cells (impls s) !! a = Some c -> load_impl (Some a) s = Ok (c, s).
Proof. intros Hc. unfold load_impl, hload. by rewrite Hc. Qed.
Lemma load_lq_ok s a c : cells (listen_queues s) !! a = Some c -> load_lq (Some a) s = Ok (c, s).
Proof. intros Hc. unfold load_lq, hload. by rewrite Hc. Qed.

Definition heap_put {A} (a : positive) (x : A) (h : heap A) : heap A :=
  Heap (<[a := x]> (cells h)) (brk h).

Lemma update_ctx_ok s a c f : cells (contexts s) !! a = Some c ->
  update_ctx (Some a) f s = Ok (tt, set_contexts (heap_put a (f c) (contexts s)) s).
Proof. intros Hc. unfold update_ctx, hload, hstore. by rewrite Hc. Qed.
Lemma update_impl_ok s a c f : cells (impls s) !! a = Some c ->
  update_impl (Some a) f s = Ok (tt, set_impls (heap_put a (f c) (impls s)) s).
Proof. intros Hc. unfold update_impl, hload, hstore. by rewrite Hc. Qed.
Lemma update_lq_ok s a c f : cells (listen_queues s) !! a = Some c ->
  update_lq (Some a) f s = Ok (tt, set_listen_queues (heap_put a (f c) (listen_queues s)) s).
Proof. intros Hc. unfold update_lq, hload, hstore. by rewrite Hc. Qed.

Lemma m_enqueue_eq s a c get put packet n h q :
  cells (contexts s) !! a = Some c ->
  _mysock_enqueue_buffer (queue_nodes s) (get c) packet n = Ok (h, q) ->
  m_enqueue (Some a) get put packet n s
  = Ok (tt, set_queue_nodes h (set_contexts (heap_put a (put q c) (contexts s)) s)).
Proof.
  intros Hc He. unfold m_enqueue, hload, hstore. rewrite Hc. cbn [need mbind run_bind].
  by rewrite He.
Qed.

Lemma set_world_id s : set_world (world s) s = s.
Proof. by destruct s. Qed.

(** The first [Some] among [f k], [f (k + 1)], ... *)
Fixpoint first_some {A} (n : nat) (k : Z) (f : Z -> option A) : option A :=
  match n with
  | O => None
  | S n => match f k with Some a => Some a | None => first_some n (k + 1) f end
  end.

(** A search loop that only reads. *)
Lemma m_for_find {A} n k (f : Z -> option A) (body : Z -> M T W (option A)) s :
  (forall j, k <= j < k + Z.of_nat n -> body j s = Ok (f j, s)) ->
  m_for n k body s = Ok (first_some n k f, s).
Proof.
  revert k. induction n as [|n IH]; intros k Hb; [done|]. cbn [m_for first_some].
  erewrite m_bind_ok by (apply Hb; lia). destruct (f k); [done|].
  apply IH. intros j Hj. apply Hb. lia.
Qed.

Lemma first_some_inv {A} n k (f : Z -> option A) a :
  first_some n k f = Some a -> exists j, k <= j < k + Z.of_nat n /\ f j = Some a.
Proof.
  revert k. induction n as [|n IH]; intros k; [done|]. cbn. destruct (f k) eqn:Hf.
  - intros [= <-]. exists k. split; [lia|done].
  - intros Hr. destruct (IH _ Hr) as (j & Hj & Hfj). exists j. split; [lia|done].
Qed.

Lemma first_some_none {A} n k (f : Z -> option A) :
  first_some n k f = None <-> forall j, k <= j < k + Z.of_nat n -> f j = None.
Proof.
  revert k. induction n as [|n IH]; intros k; cbn [first_some].
  - split; [intros _ j Hj; lia|done].
  - destruct (f k) eqn:Hf.
    + split; [done|]. intros Hall. specialize (Hall k ltac:(lia)). congruence.
    + rewrite IH. split; intros Hall j Hj; [|apply Hall; lia].
      destruct (decide (j = k)) as [->|]; [done|]. apply Hall. lia.
Qed.
End running.

(** Run the next monadic step with an equation for it. *)
Ltac m_step :=
  first
  [ erewrite m_bind_ok by
      first [ eassumption | reflexivity | (apply load_ctx_ok; eassumption)
            | (apply load_impl_ok; eassumption) | (apply load_lq_ok; eassumption)
            | (apply m_assert_dec; first [done | lia | congruence | (split; congruence)])
            | (apply m_assert_ok; first [done | congruence]) ]
  | progress cbn [mret M_ret lift gets modify m_assert] ].
(** Run the next step with a given equation. *)
Ltac m_use E := erewrite m_bind_ok by (exact E); cbn beta iota zeta.
Ltac m_steps := repeat m_step.
