(* ===== verification/TcpSum.v ===== *)
(** * The STCP segment checksum

    Models [Assignment3/src/tcp_sum.c], [_network_get_local_addr] of
    [network_io.c] and [_network_get_interface_ip] of [network_io_socket.c]: the pseudo-header sum in host byte order with its signed
    [int32_t] accumulator, and the routines that store and verify the
    checksum of a segment.  Proved: it is the RFC 793 checksum, a stored
    checksum verifies at the peer, and a changed word is detected. *)

From S2P Require Import Prelude Heap Checksum MysockTypes.

Definition IPPROTO_TCP : Z := 6.
Definition offsetof_th_sum : Z := 16.

(** ** The C code *)

(** [((uint16_t * ) p)[k]] on a little-endian host. *)
Definition word_at (p : list Z) (k : Z) : run Z :=
  b0 ← arr_get p (2 * k); b1 ← arr_get p (2 * k + 1); Ok (b0 + 256 * b1).

Definition pseudo_header (src_addr dst_addr len : Z) : list Z :=
  le_bytes 4 src_addr ++ le_bytes 4 dst_addr ++ [0; IPPROTO_TCP] ++ le_bytes 2 (htons (u16 len)).

(** [packet] is the buffer [packet_addr] points to. *)
Definition _mysock_tcp_checksum (src_addr dst_addr packet_addr : Z) (packet : list Z) (len : Z)
    : run Z :=
  let ph := pseudo_header src_addr dst_addr len in
  c_assert (bool_decide (packet_addr <> 0 /\ sizeof_tcphdr <= len));;
  c_assert (bool_decide (zlen ph = 12));;
  c_assert (bool_decide (0 < src_addr));;
  c_assert (bool_decide (0 < dst_addr));;
  sum ← for_from 6 0 (fun k sum => w ← word_at ph k; i32 (sum + w)) 0;
  c_assert (bool_decide (Z.land packet_addr 2 = 0));;
  c_assert (bool_decide (Z.land offsetof_th_sum 2 = 0));;
  sum ← for_from (Z.to_nat (Z.shiftr len 1)) 0
          (fun k sum =>
             if decide (k = Z.shiftr offsetof_th_sum 1) then Ok sum
             else w ← word_at packet k; i32 (sum + w)) sum;
  sum ← (if decide (Z.land len 1 = 1)
         then tmp ← arr_get packet (len - 1); i32 (sum + tmp)
         else Ok sum);
  let sum := Z.shiftr sum 16 + Z.land sum 0xffff in
  let sum := sum + Z.shiftr sum 16 in
  Ok (u16 (Z.lnot sum)).

Section segment.
Context (host : resolver).

(** The first address of the host, whatever the peer.  [errno] is cleared as
    well, where the callers do not look at it. *)
Definition _network_get_interface_ip (peer_addr : Z) : run Z :=
  hostname ← need Abort (gethostname host);
  h ← need Abort (gethostbyname_r host hostname);
  need NullPtr (head h).

Definition _network_get_local_addr (ctx : network_context_t) : run Z :=
  c_assert (peer_addr_valid ctx);;
  c_assert (bool_decide (0 < peer_addr_len ctx));;
  c_assert (bool_decide (sa_family (peer_addr ctx) = AF_INET));;
  _network_get_interface_ip (sin_addr (peer_addr ctx)).

(** [((struct tcphdr * ) packet)->th_sum], a read and a write. *)
Definition th_sum (packet : list Z) : run Z := word_at packet (Z.shiftr offsetof_th_sum 1).
Definition set_th_sum (packet : list Z) (v : Z) : run (list Z) :=
  packet ← arr_set packet offsetof_th_sum (v mod 256);
  arr_set packet (offsetof_th_sum + 1) (v / 256).

(** Returns the packet with its checksum field filled in. *)
Definition _mysock_set_checksum (ctx : network_context_t) (packet_addr : Z)
    (packet : list Z) (len : Z) : run (list Z) :=
  c_assert (bool_decide (packet_addr <> 0));;
  c_assert (bool_decide (sizeof_tcphdr <= len));;
  c_assert (bool_decide (sa_family (peer_addr ctx) = AF_INET));;
  src ← _network_get_local_addr ctx;
  v ← _mysock_tcp_checksum src (sin_addr (peer_addr ctx)) packet_addr packet len;
  set_th_sum packet v.

Definition _mysock_verify_checksum (ctx : network_context_t) (packet_addr : Z)
    (packet : list Z) (len : Z) : run bool :=
  c_assert (bool_decide (packet_addr <> 0));;
  c_assert (bool_decide (sizeof_tcphdr <= len));;
  c_assert (bool_decide (sa_family (peer_addr ctx) = AF_INET));;
  dst ← _network_get_local_addr ctx;
  my_sum ← _mysock_tcp_checksum (sin_addr (peer_addr ctx)) dst packet_addr packet len;
  v ← th_sum packet;
  Ok (bool_decide (my_sum = v)).
End segment.

(** ** Specification: RFC 793 section 3.1 *)

(** The segment with its checksum field replaced by zero. *)
Definition zeroed (p : list Z) : list Z := take 16 p ++ [0; 0] ++ drop 18 p.

(** The 96-bit pseudo header; addresses are held in network order, so their
    memory image is the little-endian image of the [uint32_t]. *)
Definition rfc_pseudo_header (src dst len : Z) : list Z :=
  le_bytes 4 src ++ le_bytes 4 dst ++ [0; 6] ++ be_bytes 2 len.

Definition rfc793_checksum (src dst : Z) (segment : list Z) : Z :=
  internet_checksum (rfc_pseudo_header src dst (zlen segment) ++ zeroed segment).

(** ** Correctness *)

Lemma i32_ok z : 0 <= z < 2 ^ 31 -> i32 z = Ok z.
Proof. intros. unfold i32. by rewrite decide_True by lia. Qed.

Lemma word_at_ok p k a b :
  0 <= k -> p !! Z.to_nat (2 * k) = Some a -> p !! S (Z.to_nat (2 * k)) = Some b ->
  word_at p k = Ok (a + 256 * b).
Proof.
  intros Hk Ha Hb. unfold word_at. rewrite (arr_get_ok _ (2 * k) a) by (done || lia).
  cbn [mbind run_bind]. rewrite (arr_get_ok _ _ b); [done|lia|].
  by replace (Z.to_nat (2 * k + 1)) with (S (Z.to_nat (2 * k))) by lia.
Qed.

Lemma le_words_take_S l n a b :
  Nat.Even n -> l !! n = Some a -> l !! S n = Some b ->
  le_words (take (S (S n)) l) = le_words (take n l) ++ [a + 256 * b].
Proof.
  intros Hn Ha Hb. rewrite (take_S_r _ _ b), (take_S_r _ _ a) by done.
  apply lookup_lt_Some in Hb as Hl. rewrite <- app_assoc. cbn [app].
  rewrite le_words_app; [done|].
  rewrite length_take_le by lia. destruct Hn as [m ->].
  by rewrite Nat2Z.inj_mul, Z.even_mul.
Qed.

(** A word-summing loop over [l], where [body] adds the word of [l] at each
    index, computes the sum of the words without overflow. *)
Lemma word_loop l body s n :
  Forall is_byte l -> (2 * n <= length l)%nat -> 0 <= s ->
  s + 65535 * Z.of_nat n < 2 ^ 31 ->
  (forall k s a b, 0 <= k < Z.of_nat n -> l !! Z.to_nat (2 * k) = Some a ->
     l !! S (Z.to_nat (2 * k)) = Some b -> 0 <= s + (a + 256 * b) < 2 ^ 31 ->
     body k s = Ok (s + (a + 256 * b))) ->
  for_from n 0 body s = Ok (s + wsum (le_words (take (2 * n) l))).
Proof.
  intros HF Hn Hs Hb Hbody.
  destruct (for_from_inv (fun k t => t = s + wsum (le_words (take (Z.to_nat (2 * k)) l)))
    body n 0 s) as (t & -> & ->).
  - intros k t Hk ->.
    destruct (lookup_lt_is_Some_2 l (Z.to_nat (2 * k))) as [a Ha]; [lia|].
    destruct (lookup_lt_is_Some_2 l (S (Z.to_nat (2 * k)))) as [b Hb']; [lia|].
    replace (Z.to_nat (2 * (k + 1))) with (S (S (Z.to_nat (2 * k)))) by lia.
    pose proof (Forall_lookup_1 _ _ _ _ HF Ha). pose proof (Forall_lookup_1 _ _ _ _ HF Hb').
    pose proof (wsum_nonneg _ (le_words_word _ (Forall_take _ (Z.to_nat (2 * k)) _ HF))).
    pose proof (length_le_words (take (Z.to_nat (2 * k)) l)).
    rewrite length_take_le in H2 by lia.
    rewrite (le_words_take_S _ _ a b), wsum_app, wsum_cons, wsum_nil by
      (done || (exists (Z.to_nat k); lia)).
    eexists. split; [|reflexivity]. unfold is_byte in *.
    rewrite (Hbody _ _ a b) by (done || lia). f_equal. lia.
  - change (le_words (take (Z.to_nat (2 * 0)) l)) with ([] : list Z). rewrite wsum_nil. lia.
  - do 5 f_equal. lia.
Qed.

Lemma length_zeroed p : (18 <= length p)%nat -> length (zeroed p) = length p.
Proof. intros. unfold zeroed. rewrite !length_app, length_take_le, length_drop by lia. cbn. lia. Qed.

Lemma zeroed_bytes p : Forall is_byte p -> Forall is_byte (zeroed p).
Proof.
  intros. unfold zeroed. repeat apply Forall_app_2; [by apply Forall_take| |by apply Forall_drop].
  repeat constructor; unfold is_byte; lia.
Qed.

Lemma zeroed_lookup p i : (18 <= length p)%nat -> (i <> 16)%nat -> (i <> 17)%nat ->
  zeroed p !! i = p !! i.
Proof.
  intros Hp H6 H7. unfold zeroed. destruct (decide (i < 16)%nat).
  - rewrite lookup_app_l by (rewrite length_take; lia). by apply lookup_take_lt.
  - rewrite lookup_app_r by (rewrite length_take; lia). rewrite length_take_le by lia.
    rewrite lookup_app_r by (cbn; lia). rewrite lookup_drop. f_equal. cbn [length]. lia.
Qed.

Lemma zeroed_field p : (18 <= length p)%nat ->
  zeroed p !! 16%nat = Some 0 /\ zeroed p !! 17%nat = Some 0.
Proof.
  intros Hp. unfold zeroed.
  split; rewrite lookup_app_r by (rewrite length_take; lia);
    by rewrite length_take_le by lia.
Qed.

(** The odd last byte. *)
Lemma le_words_last l n b :
  l !! n = Some b -> length l = S n -> Nat.Even n ->
  le_words l = le_words (take n l) ++ [b].
Proof.
  intros Hb Hl Hn. rewrite <- (take_drop n l) at 1. rewrite le_words_app.
  - f_equal. rewrite (drop_S _ b) by done. by rewrite drop_ge by lia.
  - rewrite length_take_le by lia. destruct Hn as [m ->]. by rewrite Nat2Z.inj_mul, Z.even_mul.
Qed.

(** The final two-step fold. *)
Lemma final_fold s : 0 <= s < 2 ^ 31 ->
  let t := Z.shiftr s 16 + Z.land s 0xffff in
  u16 (Z.lnot (t + Z.shiftr t 16)) = 65535 - oc_norm s.
Proof.
  intros Hs t. destruct (fold_step_norm s) as [Ht Hn]; [lia|]. fold t in Ht, Hn.
  rewrite <- Hn. assert (0 <= t < 131071) as Hr.
  { unfold t. rewrite fold_step_value by lia. Z.div_mod_to_equations; lia. }
  clearbody t. rewrite Z.shiftr_div_pow2 by lia. change (2 ^ 16) with 65536.
  unfold u16, Z.lnot. change (2 ^ 16) with 65536.
  destruct (decide (t < 65536)).
  - rewrite oc_norm_small by lia. Z.div_mod_to_equations; lia.
  - rewrite (oc_norm_unique t (t - 65535)); [Z.div_mod_to_equations; lia|lia..|].
    rewrite Zminus_mod, Z.mod_same, Z.sub_0_r, Z.mod_mod by lia. done.
Qed.

Lemma htons_complement s : 0 <= s < 65536 -> htons (65535 - s) = 65535 - htons s.
Proof. intros. rewrite !htons_value by lia. Z.div_mod_to_equations; lia. Qed.

Lemma pseudo_header_rfc src dst len :
  0 <= len < 65536 -> pseudo_header src dst len = rfc_pseudo_header src dst len.
Proof.
  intros. unfold pseudo_header, rfc_pseudo_header, htons. rewrite u16_small by lia.
  pose proof (le_bytes_val _ (be_bytes_is_byte 2 len)) as Hb. rewrite length_be_bytes in Hb.
  by rewrite Hb.
Qed.

Lemma oc_norm_zeroed_sum l : Forall is_byte l ->
  0 <= wsum (le_words l) <= 65535 * ((zlen l + 1) / 2).
Proof.
  intros H. pose proof (wsum_nonneg _ (le_words_word _ H)).
  pose proof (length_le_words l). split; [lia|].
  assert (zlen (le_words l) <= (zlen l + 1) / 2) by (Z.div_mod_to_equations; lia). lia.
Qed.

(** The loop over the segment skips the checksum field, as if it were zero. *)
Lemma segment_loop p acc : 20 <= zlen p -> Forall is_byte p -> 0 <= acc ->
  acc + 65535 * (zlen p / 2) < 2 ^ 31 ->
  for_from (Z.to_nat (Z.shiftr (zlen p) 1)) 0
    (fun k sum => if decide (k = Z.shiftr offsetof_th_sum 1) then Ok sum
                  else w ← word_at p k; i32 (sum + w)) acc
  = Ok (acc + wsum (le_words (take (2 * Z.to_nat (zlen p / 2)) (zeroed p)))).
Proof.
  intros Hl HF Ha Hmax. pose proof (length_zeroed p ltac:(lia)) as Hlz.
  destruct (zeroed_field p ltac:(lia)) as [Hz16 Hz17].
  rewrite Z.shiftr_div_pow2 by lia. change (2 ^ 1) with 2.
  apply word_loop; [by apply zeroed_bytes|rewrite Hlz; Z.div_mod_to_equations; lia|lia|Z.div_mod_to_equations; lia|].
  intros k s a b Hk Hka Hkb Hr. case_decide as H8; change (Z.shiftr offsetof_th_sum 1) with 8 in H8.
  - subst k. change (Z.to_nat (2 * 8)) with 16%nat in *. simplify_eq. f_equal. lia.
  - rewrite zeroed_lookup in Hka, Hkb by lia. rewrite (word_at_ok _ _ a b) by (done || lia).
    run_step. by rewrite i32_ok by lia.
Qed.

(** The last byte of a segment of odd length is a word of its own. *)
Lemma last_byte p acc : 20 <= zlen p -> Forall is_byte p -> 0 <= acc ->
  acc + wsum (le_words (zeroed p)) < 2 ^ 31 ->
  let even := acc + wsum (le_words (take (2 * Z.to_nat (zlen p / 2)) (zeroed p))) in
  (if decide (Z.land (zlen p) 1 = 1) then tmp ← arr_get p (zlen p - 1); i32 (even + tmp) else Ok even)
  = Ok (acc + wsum (le_words (zeroed p))).
Proof.
  intros Hl HF Ha Hmax even. pose proof (length_zeroed p ltac:(lia)) as Hlz. pose proof (zeroed_bytes p HF) as HFz.
  pose proof (Z.land_ones (zlen p) 1 ltac:(lia)) as Hbit. change (Z.ones 1) with 1 in Hbit. change (2 ^ 1) with 2 in Hbit.
  rewrite Hbit. unfold even. clear Hbit even. set (z := zeroed p) in *. case_decide as Hodd.
  - set (n := (2 * Z.to_nat (zlen p / 2))%nat).
    assert (length z = S n) as Hzn by (unfold n; Z.div_mod_to_equations; lia).
    destruct (lookup_lt_is_Some_2 z n) as [b Hb]; [lia|].
    assert (p !! Z.to_nat (zlen p - 1) = Some b) as Hpb.
    { rewrite <- Hb. unfold z. rewrite zeroed_lookup; [f_equal; lia|unfold n; lia..]. }
    rewrite (arr_get_ok _ _ b) by (done || lia). run_step.
    pose proof (le_words_last z n b Hb Hzn ltac:(by exists (Z.to_nat (zlen p / 2)))) as Hw.
    rewrite Hw, wsum_app, wsum_cons, wsum_nil in Hmax |- *.
    pose proof (Forall_lookup_1 _ _ _ _ HFz Hb) as Hbb. unfold is_byte in Hbb.
    pose proof (wsum_nonneg _ (le_words_word _ (Forall_take _ n _ HFz))).
    rewrite i32_ok by lia. f_equal. lia.
  - by rewrite take_ge by (Z.div_mod_to_equations; lia).
Qed.

(** The value both loops accumulate. *)
Lemma tcp_checksum_value src dst addr p :
  Forall is_byte p -> 20 <= zlen p <= 65522 -> addr <> 0 -> Z.land addr 2 = 0 ->
  0 < src -> 0 < dst ->
  _mysock_tcp_checksum src dst addr p (zlen p)
  = Ok (65535 - oc_norm (wsum (le_words (rfc_pseudo_header src dst (zlen p) ++ zeroed p)))).
Proof.
  intros HF Hlen Ha Hal Hs Hd. unfold _mysock_tcp_checksum.
  rewrite pseudo_header_rfc by lia. set (ph := rfc_pseudo_header src dst (zlen p)).
  assert (length ph = 12%nat) as Hph
    by (unfold ph, rfc_pseudo_header; by rewrite !length_app, !length_le_bytes, length_be_bytes).
  assert (Forall is_byte ph) as HFph.
  { unfold ph, rfc_pseudo_header. rewrite !Forall_app.
    split_and!; auto with net. repeat constructor; unfold is_byte; lia. }
  pose proof (oc_norm_zeroed_sum ph HFph) as Hsp. rewrite Hph in Hsp. change ((Z.of_nat 12 + 1) / 2) with 6 in Hsp.
  pose proof (oc_norm_zeroed_sum _ (zeroed_bytes p HF)) as Hsz. rewrite length_zeroed in Hsz by lia.
  assert (0 <= wsum (le_words ph) + wsum (le_words (zeroed p)) < 2 ^ 31) as Hsum by (Z.div_mod_to_equations; lia).
  rewrite (bool_decide_true (addr <> 0 /\ _)), (bool_decide_true (zlen ph = 12)),
    !bool_decide_true by (unfold sizeof_tcphdr; (done || lia)).
  cbn [c_assert mbind run_bind].
  rewrite (word_loop ph _ 0 6); [|done|lia|lia|lia|].
  2:{ intros k s a b Hk Hka Hkb Hr. rewrite (word_at_ok _ _ a b) by (done || lia).
      cbn [mbind run_bind]. by rewrite i32_ok by lia. }
  rewrite Z.add_0_l. cbn [mbind run_bind]. change (2 * 6)%nat with 12%nat. rewrite (take_ge ph) by lia.
  rewrite segment_loop by (done || (Z.div_mod_to_equations; lia)). cbn [mbind run_bind].
  rewrite last_byte by (done || lia). cbn [mbind run_bind].
  rewrite le_words_app, wsum_app by (by rewrite Hph). by rewrite final_fold by lia.
Qed.

(** C9: the STCP checksum is the RFC 793 checksum, in network order, of the
    pseudo header and the segment with a zero checksum field: for segments
    of 20 to 65522 bytes (any length STCP can send) the signed 32-bit
    accumulator never overflows, no assertion fails and nothing outside the
    segment is read. *)
Theorem tcp_checksum_correct src_addr dst_addr packet_addr packet :
  Forall is_byte packet -> 20 <= zlen packet <= 65522 ->
  packet_addr <> 0 -> Z.land packet_addr 2 = 0 -> 0 < src_addr -> 0 < dst_addr ->
  _mysock_tcp_checksum src_addr dst_addr packet_addr packet (zlen packet)
  = Ok (htons (rfc793_checksum src_addr dst_addr packet)).
Proof.
  intros HF Hlen Ha Hal Hs Hd. rewrite tcp_checksum_value by done. f_equal.
  unfold rfc793_checksum, internet_checksum.
  set (l := rfc_pseudo_header src_addr dst_addr (zlen packet) ++ zeroed packet).
  assert (Forall is_byte l) as HFl.
  { unfold l, rfc_pseudo_header. rewrite !Forall_app.
    split_and!; auto using zeroed_bytes with net. repeat constructor; unfold is_byte; lia. }
  pose proof (oc_sum_range _ (be_words_word _ HFl)).
  rewrite htons_complement, <- oc_sum_byte_order, oc_sum_norm; auto using le_words_word.
Qed.

(** ** Storing and verifying *)

(** What [_network_get_local_addr] requires, with both addresses known. *)
Definition addressed (host : resolver) (ctx : network_context_t) (local peer : Z) : Prop :=
  peer_addr_valid ctx = true /\ 0 < peer_addr_len ctx /\
  sa_family (peer_addr ctx) = AF_INET /\ sin_addr (peer_addr ctx) = peer /\
  _network_get_interface_ip host peer = Ok local /\ 0 < local /\ 0 < peer.

(** A buffer the checksum routines accept. *)
Definition segment_at (addr : Z) (p : list Z) : Prop :=
  Forall is_byte p /\ 20 <= zlen p <= 65522 /\ addr <> 0 /\ Z.land addr 2 = 0.

(** The sum the two ends compute. *)
Definition segment_sum (src dst : Z) (p : list Z) : Z :=
  wsum (le_words (rfc_pseudo_header src dst (zlen p) ++ zeroed p)).

Lemma rfc_pseudo_header_bytes src dst n : Forall is_byte (rfc_pseudo_header src dst n).
Proof.
  unfold rfc_pseudo_header. rewrite !Forall_app.
  split_and!; auto with net. repeat constructor; unfold is_byte; lia.
Qed.
Lemma length_rfc_pseudo_header src dst n : length (rfc_pseudo_header src dst n) = 12%nat.
Proof. unfold rfc_pseudo_header. by rewrite !length_app, !length_le_bytes, length_be_bytes. Qed.

Lemma segment_sum_split src dst p :
  segment_sum src dst p
  = wsum (le_words (rfc_pseudo_header src dst (zlen p))) + wsum (le_words (zeroed p)).
Proof. unfold segment_sum. rewrite le_words_app, wsum_app; [done|]. by rewrite length_rfc_pseudo_header. Qed.

(** The protocol number makes the sum positive. *)
Lemma segment_sum_pos src dst p : Forall is_byte p -> 0 < segment_sum src dst p.
Proof.
  intros HF. rewrite segment_sum_split.
  pose proof (oc_norm_zeroed_sum _ (zeroed_bytes p HF)).
  enough (0 < wsum (le_words (rfc_pseudo_header src dst (zlen p)))) by lia.
  unfold rfc_pseudo_header. pose proof (le_bytes_is_byte 4 src). pose proof (le_bytes_is_byte 4 dst).
  pose proof (be_bytes_is_byte 2 (zlen p)).
  rewrite !le_words_app, !wsum_app by (by rewrite ?length_le_bytes, ?length_app).
  pose proof (oc_norm_zeroed_sum (le_bytes 4 src) H0).
  pose proof (oc_norm_zeroed_sum (le_bytes 4 dst) H1).
  pose proof (oc_norm_zeroed_sum (be_bytes 2 (zlen p)) H2).
  change (wsum (le_words [0; 6])) with (0 + 256 * 6 + 0). lia.
Qed.

Lemma verify_value host ctx local peer addr p x y :
  addressed host ctx local peer -> segment_at addr p ->
  p !! 16%nat = Some x -> p !! 17%nat = Some y ->
  _mysock_verify_checksum host ctx addr p (zlen p)
  = Ok (bool_decide (65535 - oc_norm (segment_sum peer local p) = x + 256 * y)).
Proof.
  intros (Hv & Hl & Hf & Hp & Hi & Hlp & Hpp) (HF & Hlen & Ha & Hal) Hx Hy.
  unfold _mysock_verify_checksum, _network_get_local_addr.
  rewrite Hp, Hi, Hv, Hf, !bool_decide_true by (unfold sizeof_tcphdr; (done || lia)).
  cbn [c_assert mbind run_bind].
  rewrite tcp_checksum_value by done. cbn [mbind run_bind]. unfold th_sum.
  by rewrite (word_at_ok p (Z.shiftr offsetof_th_sum 1) x y).
Qed.

Lemma set_value host ctx local peer addr p :
  addressed host ctx local peer -> segment_at addr p ->
  _mysock_set_checksum host ctx addr p (zlen p)
  = Ok (take 16 p ++ le_bytes 2 (65535 - oc_norm (segment_sum local peer p)) ++ drop 18 p).
Proof.
  intros (Hv & Hl & Hf & Hp & Hi & Hlp & Hpp) (HF & Hlen & Ha & Hal).
  unfold _mysock_set_checksum, _network_get_local_addr.
  rewrite Hp, Hi, Hv, Hf, !bool_decide_true by (unfold sizeof_tcphdr; (done || lia)).
  cbn [c_assert mbind run_bind].
  rewrite tcp_checksum_value by done. cbn [mbind run_bind]. fold (segment_sum local peer p).
  pose proof (oc_norm_range (segment_sum local peer p)
    ltac:(pose proof (segment_sum_pos local peer p HF); lia)) as Hr.
  set (v := 65535 - _) in *. assert (0 <= v < 65536) as Hvr by lia. clearbody v.
  exact (store2_ok p 16 v ltac:(lia) Hvr).
Qed.

(** The checksum field does not enter the sum. *)
Lemma segment_sum_field src dst p a b :
  (18 <= length p)%nat ->
  segment_sum src dst (take 16 p ++ [a; b] ++ drop 18 p) = segment_sum src dst p.
Proof.
  intros Hp. unfold segment_sum.
  assert (length (take 16 p ++ [a; b] ++ drop 18 p) = length p) as Hl
    by (rewrite !length_app, length_take_le, length_drop by lia; cbn [length]; lia).
  rewrite Hl. do 3 f_equal. unfold zeroed.
  rewrite take_app_length' by (rewrite length_take; lia). do 2 f_equal.
  rewrite drop_app_ge by (rewrite length_take; lia). rewrite length_take_le by lia. done.
Qed.

Lemma zeroed_wsum p x y :
  p !! 16%nat = Some x -> p !! 17%nat = Some y ->
  wsum (le_words p) = wsum (le_words (zeroed p)) + (x + 256 * y).
Proof.
  intros Hx Hy. pose proof (lookup_lt_Some _ _ _ Hy).
  rewrite <- (take_drop 16 p) at 1. rewrite (drop_S _ x), (drop_S _ y) by done.
  unfold zeroed. rewrite !le_words_app by (by rewrite length_take_le by lia).
  cbn [le_words app]. rewrite !wsum_app, !wsum_cons. lia.
Qed.

(** The checksum protocol between two sockets.  When the sender's local
    address is the receiver's peer and conversely, a segment whose checksum
    the sender stored passes the receiver's check, whatever the field held
    before; storing it changes nothing outside the two bytes of [th_sum]. *)
Theorem checksum_roundtrip host_s host_r sctx rctx a b addr addr' p :
  addressed host_s sctx a b -> addressed host_r rctx b a ->
  segment_at addr p -> segment_at addr' p ->
  exists p', _mysock_set_checksum host_s sctx addr p (zlen p) = Ok p' /\
    zlen p' = zlen p /\ take 16 p' = take 16 p /\ drop 18 p' = drop 18 p /\
    _mysock_verify_checksum host_r rctx addr' p' (zlen p') = Ok true.
Proof.
  intros Hs Hr Hp Hp'. rewrite (set_value _ _ a b) by done.
  set (v := 65535 - oc_norm (segment_sum a b p)).
  destruct Hp as (HF & Hlen & _).
  pose proof (oc_norm_range (segment_sum a b p)
    ltac:(pose proof (segment_sum_pos a b p HF); lia)) as Hrg.
  set (p' := take 16 p ++ le_bytes 2 v ++ drop 18 p).
  assert (length p' = length p) as Hl.
  { unfold p'. rewrite !length_app, length_take_le, length_drop, length_le_bytes by lia. lia. }
  exists p'. split_and!; [done|by rewrite Hl| | |].
  - unfold p'. by rewrite take_app_length' by (rewrite length_take; lia).
  - unfold p'. rewrite drop_app_ge by (rewrite length_take; lia).
    rewrite length_take_le by lia. done.
  - destruct Hp' as (_ & _ & Ha & Hal).
    rewrite (verify_value _ _ b a addr' p' (v mod 256) ((v / 256) mod 256)); [|done| | |].
    + assert (segment_sum a b p' = segment_sum a b p) as ->
        by (apply (segment_sum_field a b p); lia).
      rewrite bool_decide_true; [done|]. unfold v. Z.div_mod_to_equations; lia.
    + split_and!; [|rewrite Hl; lia|rewrite Hl; lia|done|done]. unfold p'.
      rewrite !Forall_app. split_and!; [by apply Forall_take|apply le_bytes_is_byte|by apply Forall_drop].
    + unfold p'. rewrite lookup_app_r by (rewrite length_take; lia). by rewrite length_take_le by lia.
    + unfold p'. rewrite lookup_app_r by (rewrite length_take; lia). by rewrite length_take_le by lia.
Qed.

Lemma le_words_pair x y : wsum (le_words [x; y]) = x + 256 * y.
Proof. cbn [le_words]. rewrite wsum_cons, wsum_nil. lia. Qed.

Lemma oc_norm_inj_mod s t : 0 < s -> 0 < t -> oc_norm s = oc_norm t -> s mod 65535 = t mod 65535.
Proof. intros ?? H. by rewrite <- (oc_norm_mod s), <- (oc_norm_mod t), H by lia. Qed.

(** C29: corruption of one 16-bit word is detected.  If a segment passes the
    receiver's check and one aligned word of it (header, payload or the
    checksum field itself) is replaced by a word with a different value
    modulo 65535, the check of the altered segment fails.  (Replacing
    0x0000 by 0xffff is the change the RFC's sum cannot see.) *)
Theorem checksum_detects host ctx local peer addr pre x y x' y' post :
  addressed host ctx local peer ->
  segment_at addr (pre ++ [x; y] ++ post) -> is_byte x' -> is_byte y' ->
  Z.even (zlen pre) = true ->
  (x + 256 * y) mod 65535 <> (x' + 256 * y') mod 65535 ->
  _mysock_verify_checksum host ctx addr (pre ++ [x; y] ++ post) (zlen (pre ++ [x; y] ++ post))
    = Ok true ->
  _mysock_verify_checksum host ctx addr (pre ++ [x'; y'] ++ post) (zlen (pre ++ [x'; y'] ++ post))
    = Ok false.
Proof.
  intros Had Hseg Hx' Hy' Hev Hne.
  set (p := pre ++ [x; y] ++ post) in *. set (q := pre ++ [x'; y'] ++ post).
  assert (length q = length p) as Hl by (unfold p, q; by rewrite !length_app).
  pose proof Hseg as (HF & Hlen & Ha & Hal).
  assert (Forall is_byte q) as HFq.
  { unfold p in HF. unfold q. rewrite !Forall_app in HF |- *.
    split_and!; [tauto| |tauto]. apply Forall_cons_2; [done|by apply Forall_singleton]. }
  assert (segment_at addr q) as Hseg' by (unfold segment_at; by rewrite Hl).
  destruct (lookup_lt_is_Some_2 p 16%nat) as [f Hf]; [lia|].
  destruct (lookup_lt_is_Some_2 p 17%nat) as [g Hg]; [lia|].
  destruct (lookup_lt_is_Some_2 q 16%nat) as [f' Hf']; [lia|].
  destruct (lookup_lt_is_Some_2 q 17%nat) as [g' Hg']; [lia|].
  rewrite (verify_value _ _ local peer _ p f g), (verify_value _ _ local peer _ q f' g') by done.
  intros [= Hp%bool_decide_eq_true]. f_equal. apply bool_decide_eq_false. intros Hq.
  pose proof (segment_sum_pos peer local p HF) as Hsp.
  pose proof (segment_sum_pos peer local q HFq) as Hsq.
  pose proof (zeroed_wsum p f g Hf Hg) as Hzp. pose proof (zeroed_wsum q f' g' Hf' Hg') as Hzq.
  assert (wsum (le_words q) - wsum (le_words p) = (x' + 256 * y') - (x + 256 * y)) as Hd.
  { unfold p, q. rewrite !le_words_app, !wsum_app, !le_words_pair by done. lia. }
  assert (segment_sum peer local q - segment_sum peer local p
          = wsum (le_words (zeroed q)) - wsum (le_words (zeroed p))) as Hdz
    by (rewrite !segment_sum_split, Hl; lia).
  destruct (decide (length pre = 16%nat)) as [H16|H16].
  - assert (f = x /\ g = y /\ f' = x' /\ g' = y') as (-> & -> & -> & ->).
    { unfold p, q in *. rewrite !lookup_app_r, !H16 in * by lia. by simplify_eq/=. }
    assert (segment_sum peer local q = segment_sum peer local p) as Heq by lia.
    rewrite Heq in Hq. apply Hne. f_equal. lia.
  - assert (f' = f /\ g' = g) as [-> ->].
    { assert (forall i, i <> length pre -> i <> S (length pre) -> q !! i = p !! i) as Hsame.
      { intros i Hi1 Hi2. unfold p, q. destruct (decide (i < length pre)%nat).
        - by rewrite !lookup_app_l by lia.
        - rewrite !(lookup_app_r pre) by lia.
          by rewrite !lookup_app_r by (cbn [length]; lia). }
      assert (Nat.Even (length pre)) as [k Hk]
        by (apply Z.even_spec in Hev as [k Hk]; exists (Z.to_nat k); lia).
      rewrite Hsame in Hf', Hg' by lia. by simplify_eq. }
    assert (oc_norm (segment_sum peer local q) = oc_norm (segment_sum peer local p)) as Hn by lia.
    apply oc_norm_inj_mod in Hn; [|lia..]. apply Hne.
    Z.div_mod_to_equations; lia.
Qed.

(** Two hosts, 10.0.0.1 and 10.0.0.2, and a 21-byte segment. *)
Definition sample_ctx (peer : Z) : network_context_t :=
  NetCtx zero_sockaddr (Sockaddr AF_INET 0x1234 peer) 16 true NULL 0 false [] 0.
Definition host1 : Z := 0x0100000a.
Definition host2 : Z := 0x0200000a.
(** A host with one address. *)
Definition one_address (l : Z) : resolver := Resolver (Some [104]) (fun _ => Some [l]).
Definition sample_segment : list Z := [4;210;22;46;0;0;0;1;0;0;0;0;80;2;12;0;0xaa;0xbb;0;0;104].

Lemma sample_segment_at : segment_at 4 sample_segment.
Proof. split_and!; [repeat constructor; unfold is_byte; lia|cbn; lia..|done|done]. Qed.
Lemma sample_addressed l p : 0 < l -> 0 < p -> addressed (one_address l) (sample_ctx p) l p.
Proof. intros. repeat split; cbn; (lia || done). Qed.

Lemma tcp_checksum_correct_witness :
  _mysock_tcp_checksum host1 host2 4 sample_segment (zlen sample_segment)
  = Ok (htons (rfc793_checksum host1 host2 sample_segment)).
Proof.
  apply tcp_checksum_correct; try reflexivity; try (apply sample_segment_at).
Defined.

Lemma checksum_roundtrip_witness :
  exists p', _mysock_set_checksum (one_address host1) (sample_ctx host2) 4 sample_segment
               (zlen sample_segment) = Ok p' /\
    zlen p' = zlen sample_segment /\ take 16 p' = take 16 sample_segment /\
    drop 18 p' = drop 18 sample_segment /\
    _mysock_verify_checksum (one_address host2) (sample_ctx host1) 8 p' (zlen p') = Ok true.
Proof.
  apply (checksum_roundtrip _ _ _ _ host1 host2).
  - by apply sample_addressed.
  - by apply sample_addressed.
  - apply sample_segment_at.
  - destruct sample_segment_at as (H1 & H2 & _). split_and!; (done || apply H2).
Defined.

(** The stored segment of the round trip, with one payload bit of its window
    field flipped. *)
Definition stored_pre : list Z := [4;210;22;46;0;0;0;1;0;0;0;0;80;2].
Definition stored_post : list Z := [12;222;0;0;104].

Lemma checksum_detects_witness :
  _mysock_verify_checksum (one_address host2) (sample_ctx host1) 4
    (stored_pre ++ [12; 1] ++ stored_post) (zlen (stored_pre ++ [12; 1] ++ stored_post)) = Ok false.
Proof.
  apply (checksum_detects _ _ host2 host1 4 stored_pre 12 0 12 1 stored_post).
  - by apply sample_addressed.
  - split_and!; [repeat constructor; unfold is_byte; lia|cbn; lia..|done|done].
  - unfold is_byte; lia.
  - unfold is_byte; lia.
  - reflexivity.
  - vm_compute. discriminate.
  - vm_compute. reflexivity.
Defined.
