(* ===== verification/TcpIo.v ===== *)
(** * The network layer over TCP

    Models [Assignment3/src/network_io_tcp.c] and the non-thread part of
    [network_io_socket.c]: creating and closing the per-socket state, binding
    and listening, and the datagram service emulated on a byte stream (a
    16-bit length before each packet).  The operating system is the class
    [OS]; [StreamOS] states what the framing theorems rely on: a connected
    descriptor delivers bytes in order, in chunks of any positive size. *)

From S2P Require Import Prelude Heap HashTable PacketQueue MysockTypes.

Section code.
Context {T W : Type} `{OS W}.
Abbreviation M := (M T W).

(** [GET_SOCKET(ctx)] and [VERIFY_SOCKET(ctx)], for the network state of the
    mysocket context [p]. *)
Definition impl_of (p : ptr) : M ptr :=
  c ← load_ctx p; mret (impl_data (network_state c)).
Definition GET_SOCKET (p : ptr) : M Z :=
  i ← impl_of p; t ← load_impl i; mret (socket t).
Definition VERIFY_SOCKET (p : ptr) : M unit :=
  i ← impl_of p; m_assert (bool_decide (i <> NULL));;
  t ← load_impl i; m_assert (bool_decide (0 <= socket t)).

(** ** Creation and destruction *)

Definition zero_tcp_context : network_context_socket_tcp_t :=
  TcpCtx false 0 (0, 0) NULL 0 false.

(** [socket] and [pipe] failures reach [assert(0)]. *)
Definition _network_alloc_context_socket : M ptr := fun s =>
  let '(fd, w) := os_socket (world s) in
  c_assert (bool_decide (0 <= fd));;
  let '(rc, fds, w) := os_pipe w in
  c_assert (bool_decide (0 <= rc));;
  let '(a, h) := halloc (impls s) (TcpCtx false fd fds NULL 0 false) in
  Ok (Some a, set_impls h (set_world w s)).

Definition _network_destroy_context_socket (i : ptr) : M unit := fun s =>
  c_assert (bool_decide (i <> NULL));;
  t ← hload (impls s) i;
  let close_if fd (w : W) := if decide (0 <= fd) then os_close fd w else w in
  let w := close_if (socket t) (world s) in
  let w := close_if (exit_pipe t).1 w in
  let w := close_if (exit_pipe t).2 w in
  h ← hfree (impls s) i;
  Ok (tt, set_impls h (set_world w s)).

Definition _network_init_socket (p : ptr) : M Z :=
  update_net p (fun _ => set_random_seed 0x632a zero_network_context);;
  i ← _network_alloc_context_socket;
  update_net p (set_impl_data i);;
  m_assert (bool_decide (i <> NULL));;
  mret 0.

Definition _network_init (p : ptr) : M Z :=
  m_assert (bool_decide (p <> NULL));;
  rc ← _network_init_socket p;
  if decide (rc < 0) then mret rc else
  i ← impl_of p;
  m_assert (bool_decide (i <> NULL));;
  update_impl i (fun t => set_connected false (set_new_socket (-1) (set_sock_ctx p t)));;
  mret 0.

Definition _network_close_socket (p : ptr) : M unit :=
  i ← impl_of p;
  _network_destroy_context_socket i;;
  update_net p (set_impl_data NULL).

Definition _network_close (p : ptr) : M unit :=
  i ← impl_of p;
  m_assert (bool_decide (i <> NULL));;
  t ← load_impl i;
  (if decide (new_socket t <> -1) then modify (fun s => set_world (os_close (new_socket t) (world s)) s)
   else mret tt);;
  _network_close_socket p.

(** ** Addresses *)

Definition _network_bind_socket (p : ptr) (addr : sockaddr_in) : M Z :=
  VERIFY_SOCKET p;; fd ← GET_SOCKET p; on_world (os_bind fd addr).

Definition _network_bind (p : ptr) (addr : sockaddr_in) : M Z :=
  VERIFY_SOCKET p;; _network_bind_socket p addr.

Definition _network_listen (p : ptr) (backlog : Z) : M Z :=
  VERIFY_SOCKET p;; fd ← GET_SOCKET p; on_world (os_listen fd backlog).

(** Port in network byte order. *)
Definition _network_get_port (p : ptr) : M Z :=
  VERIFY_SOCKET p;;
  fd ← GET_SOCKET p;
  '(rc, sin) ← gets (fun s => os_getsockname fd (world s));
  m_assert (bool_decide (0 <= rc));;
  m_assert (bool_decide (sa_family sin = AF_INET));;
  mret (sin_port sin).

(** Hand the accepted descriptor of the listening socket [accept_p] to the
    new connection [new_p]; [user_data] is NULL in this network layer. *)
Definition _network_update_passive_state (new_p accept_p : ptr) (user_data : bool) : M unit :=
  m_assert (negb user_data);;
  ni ← impl_of new_p;
  ai ← impl_of accept_p;
  m_assert (bool_decide (ni <> NULL /\ ai <> NULL));;
  nt ← load_impl ni;
  at' ← load_impl ai;
  sc ← load_ctx (sock_ctx nt);
  m_assert (negb (listening sc));;
  m_assert (negb (is_active sc));;
  modify (fun s => set_world (os_close (socket nt) (world s)) s);;
  update_impl ni (fun t => set_connected true (set_socket (new_socket at') t));;
  update_impl ai (set_new_socket (-1)).

(** ** Reading and writing whole buffers: [_tcp_io] *)

(** With [read]: returns the C result and the bytes stored in [buf]. *)
Fixpoint tcp_io_read (fuel : nat) (sd : Z) (buf : list Z) (bytes_remaining count : Z) (w : W)
    : run (Z * list Z * W) :=
  if decide (0 < bytes_remaining) then
    match fuel with
    | O => Crash Fuel
    | S fuel =>
        let '(rc, bytes, w) := os_read sd bytes_remaining w in
        if decide (rc <= 0) then Ok (rc, buf, w)
        else
          c_assert (bool_decide (rc <= bytes_remaining));;
          tcp_io_read fuel sd (buf ++ bytes) (bytes_remaining - rc) count w
    end
  else Ok (count, buf, w).

(** With [write]. *)
Fixpoint tcp_io_write (fuel : nat) (sd : Z) (cbuf : list Z) (bytes_remaining count : Z) (w : W)
    : run (Z * W) :=
  if decide (0 < bytes_remaining) then
    match fuel with
    | O => Crash Fuel
    | S fuel =>
        let '(rc, w) := os_write sd (take (Z.to_nat bytes_remaining) cbuf) w in
        if decide (rc <= 0) then Ok (rc, w)
        else
          c_assert (bool_decide (rc <= bytes_remaining));;
          tcp_io_write fuel sd (drop (Z.to_nat rc) cbuf) (bytes_remaining - rc) count w
    end
  else Ok (count, w).

(** Every iteration transfers at least one byte, so [count] iterations are
    enough. *)
Definition m_read (sd count : Z) : M (Z * list Z) := fun s =>
  '(rc, buf, w) ← tcp_io_read (Z.to_nat count) sd [] count count (world s);
  Ok ((rc, buf), set_world w s).
Definition m_write (sd : Z) (buf : list Z) (count : Z) : M Z := fun s =>
  '(rc, w) ← tcp_io_write (Z.to_nat count) sd buf count count (world s);
  Ok (rc, set_world w s).

Definition _tcp_connect (p : ptr) : M Z :=
  i ← impl_of p;
  m_assert (bool_decide (i <> NULL));;
  t ← load_impl i;
  if connected t then mret 0 else
  c ← load_ctx p;
  let net := network_state c in
  m_assert (peer_addr_valid net);;
  m_assert (bool_decide (sa_family (peer_addr net) = AF_INET));;
  m_assert (bool_decide (0 < sin_port (peer_addr net)));;
  fd ← GET_SOCKET p;
  rc ← on_world (os_connect fd (peer_addr net));
  if decide (rc < 0) then mret (-1) else
  update_impl i (set_connected true);;
  mret 0.

(** ** Packets *)

(** Send [len] bytes of [src] to the peer. *)
Definition _network_send_packet (p : ptr) (src : list Z) (len : Z) : M Z :=
  c ← load_ctx p;
  m_assert (bool_decide (0 < peer_addr_len (network_state c)));;
  m_assert (bool_decide (impl_data (network_state c) <> NULL));;
  VERIFY_SOCKET p;;
  rc ← _tcp_connect p;
  if decide (rc < 0) then mret (-1) else
  let packet_len := htons (u16 len) in
  fd ← GET_SOCKET p;
  rc ← m_write fd (le_bytes 2 packet_len) 2;
  if decide (rc < 0) then mret (-1) else
  rc ← m_write fd src len;
  if decide (rc < 0) then mret (-1) else
  mret len.

(** The reads of [_network_recv_packet], once the descriptor is known. *)
Definition recv_frame (io_socket max_len : Z) : M (Z * list Z) :=
  '(rc, hdr) ← m_read io_socket 2;
  if decide (rc <= 0) then mret (rc, []) else
  let packet_len := ntohs (le_val hdr) in
  '(rc, dst) ← m_read io_socket (Z.min packet_len max_len);
  if decide (rc <= 0) then mret (rc, dst) else
  (if decide (max_len < packet_len)
   then _ ← m_read io_socket (packet_len - max_len); mret tt
   else mret tt);;
  mret (packet_len, dst).

(** Receive a packet: the C result, and the bytes stored in [dst]. *)
Definition _network_recv_packet (p : ptr) (max_len : Z) : M (Z * list Z) :=
  i ← impl_of p;
  m_assert (bool_decide (i <> NULL));;
  t ← load_impl i;
  m_assert (bool_decide (sock_ctx t <> NULL));;
  VERIFY_SOCKET p;;
  let io_socket := socket t in
  sc ← load_ctx (sock_ctx t);
  rc ← (if is_active sc then _tcp_connect p else mret 0);
  if decide (rc < 0) then mret (-1, []) else
  io_socket ← (if listening sc then
      fd ← GET_SOCKET p;
      '(tmp_sd, addr, len) ← on_world (fun w => os_accept fd w);
      update_net p (fun n => set_peer_addr_len len (set_peer_addr addr n));;
      if decide (tmp_sd < 0) then mret (inl tmp_sd) else
      t ← load_impl i;
      m_assert (bool_decide (new_socket t = -1));;
      update_impl i (set_new_socket tmp_sd);;
      mret (inr tmp_sd)
    else mret (inr io_socket));
  match io_socket with
  | inl rc => mret (rc, [])
  | inr io_socket => recv_frame io_socket max_len
  end.
End code.

(** ** Connected byte streams *)

(** What [read] and [write] promise on a connected stream: bytes written to
    [sd] become readable, in order, at [peer_of sd]; a call moves at least one
    byte and may move fewer than asked. *)
Class StreamOS (W : Type) `{OS W} := {
  stream : Z -> W -> list Z;
  peer_of : Z -> Z;
  read_spec sd n w : 0 < n -> stream sd w <> [] ->
    exists k w', os_read sd n w = (k, take (Z.to_nat k) (stream sd w), w') /\
      1 <= k <= n /\ k <= zlen (stream sd w) /\
      stream sd w' = drop (Z.to_nat k) (stream sd w);
  write_spec sd bytes w : bytes <> [] ->
    exists k w', os_write sd bytes w = (k, w') /\ 1 <= k <= zlen bytes /\
      stream (peer_of sd) w' = stream (peer_of sd) w ++ take (Z.to_nat k) bytes
}.

(** A packet on the wire. *)
Definition frame (m : list Z) : list Z := be_bytes 2 (zlen m) ++ m.

Section framing.
Context {T W : Type} `{StreamOS W}.

Lemma tcp_io_read_ok fuel sd buf n count w :
  0 <= n <= zlen (stream sd w) -> n <= Z.of_nat fuel ->
  exists w', tcp_io_read fuel sd buf n count w
    = Ok (count, buf ++ take (Z.to_nat n) (stream sd w), w') /\
    stream sd w' = drop (Z.to_nat n) (stream sd w).
Proof.
  revert buf n w. induction fuel as [|fuel IH]; intros buf n w Hn Hf; cbn [tcp_io_read].
  - assert (n = 0) as -> by lia. rewrite decide_False by lia. exists w.
    by rewrite take_0, drop_0, app_nil_r.
  - case_decide as Hpos.
    + destruct (read_spec sd n w Hpos) as (k & w1 & -> & Hk & Hkl & Hw1).
      { intros Hnil. rewrite Hnil in Hn. cbn in Hn. lia. }
      rewrite decide_False, bool_decide_true by lia. cbn [c_assert mbind run_bind].
      destruct (IH (buf ++ take (Z.to_nat k) (stream sd w)) (n - k) w1) as (w2 & -> & Hw2).
      { rewrite Hw1, length_drop. lia. }
      { lia. }
      exists w2. rewrite Hw2, Hw1. split.
      * do 3 f_equal. rewrite <- app_assoc. f_equal.
        rewrite <- (take_drop (Z.to_nat k) (take (Z.to_nat n) (stream sd w))).
        rewrite take_take, Nat.min_l, skipn_firstn_comm by lia. do 2 f_equal. lia.
      * rewrite drop_drop. f_equal. lia.
    + assert (n = 0) as -> by lia. exists w. by rewrite take_0, drop_0, app_nil_r.
Qed.

Lemma tcp_io_write_ok fuel sd buf n count w :
  n = zlen buf -> n <= Z.of_nat fuel ->
  exists w', tcp_io_write fuel sd buf n count w = Ok (count, w') /\
    stream (peer_of sd) w' = stream (peer_of sd) w ++ buf.
Proof.
  revert buf n w. induction fuel as [|fuel IH]; intros buf n w Hn Hf; cbn [tcp_io_write].
  - destruct buf; [|cbn in Hn; lia]. cbn in Hn. subst n. rewrite decide_False by lia.
    exists w. by rewrite app_nil_r.
  - case_decide as Hpos.
    + rewrite take_ge by lia.
      destruct (write_spec sd buf w) as (k & w1 & -> & Hk & Hw1).
      { intros ->. cbn in Hn. lia. }
      rewrite decide_False, bool_decide_true by lia. cbn [c_assert mbind run_bind].
      destruct (IH (drop (Z.to_nat k) buf) (n - k) w1) as (w2 & -> & Hw2).
      { rewrite length_drop. lia. }
      { lia. }
      exists w2. split; [done|]. by rewrite Hw2, Hw1, <- app_assoc, take_drop.
    + destruct buf; [|cbn in Hn; lia]. exists w. by rewrite app_nil_r.
Qed.

Lemma m_read_ok sd n (s : state T W) :
  0 <= n <= zlen (stream sd (world s)) ->
  exists w', m_read sd n s = Ok ((n, take (Z.to_nat n) (stream sd (world s))), set_world w' s) /\
    stream sd w' = drop (Z.to_nat n) (stream sd (world s)).
Proof.
  intros Hn. unfold m_read.
  destruct (tcp_io_read_ok (Z.to_nat n) sd [] n n (world s)) as (w' & -> & Hw'); [lia|lia|].
  by exists w'.
Qed.

Lemma m_write_ok sd buf n (s : state T W) : n = zlen buf ->
  exists w', m_write sd buf n s = Ok (n, set_world w' s) /\
    stream (peer_of sd) w' = stream (peer_of sd) (world s) ++ buf.
Proof.
  intros ->. unfold m_write.
  destruct (tcp_io_write_ok (Z.to_nat (zlen buf)) sd buf (zlen buf) (zlen buf) (world s))
    as (w' & -> & Hw'); [done|lia|]. by exists w'.
Qed.

(** The socket of context [a] is connected on descriptor [fd]. *)
Definition connected_on (s : state T W) (a : positive) (fd : Z) : Prop :=
  exists c i t, cells (contexts s) !! a = Some c /\ impl_data (network_state c) = Some i /\
    cells (impls s) !! i = Some t /\ connected t = true /\ socket t = fd /\ 0 <= fd /\
    sock_ctx t = Some a /\ listening c = false /\ 0 < peer_addr_len (network_state c).

Lemma connected_on_world s a fd w : connected_on (set_world w s) a fd <-> connected_on s a fd.
Proof. done. Qed.

Lemma verify_socket_ok s a fd : connected_on s a fd -> VERIFY_SOCKET (Some a) s = Ok (tt, s).
Proof.
  intros (c & i & t & Hc & Hi & Ht & Hcn & Hfd & Hpos & _). unfold VERIFY_SOCKET, impl_of.
  rewrite (m_bind_ok _ _ s (Some i) s) by (erewrite m_bind_ok by (by apply load_ctx_ok); by rewrite Hi).
  m_step. m_step. apply m_assert_dec. lia.
Qed.

Lemma get_socket_ok s a fd : connected_on s a fd -> GET_SOCKET (Some a) s = Ok (fd, s).
Proof.
  intros (c & i & t & Hc & Hi & Ht & Hcn & Hfd & Hpos & _). unfold GET_SOCKET, impl_of.
  rewrite (m_bind_ok _ _ s (Some i) s) by (erewrite m_bind_ok by (by apply load_ctx_ok); by rewrite Hi).
  m_step. by rewrite <- Hfd.
Qed.

Lemma tcp_connect_ok s a fd : connected_on s a fd -> _tcp_connect (Some a) s = Ok (0, s).
Proof.
  intros (c & i & t & Hc & Hi & Ht & Hcn & _). unfold _tcp_connect, impl_of.
  rewrite (m_bind_ok _ _ s (Some i) s) by (erewrite m_bind_ok by (by apply load_ctx_ok); by rewrite Hi).
  m_step. m_step. by rewrite Hcn.
Qed.

Lemma wire_length len : 0 <= len < 65536 -> le_bytes 2 (htons (u16 len)) = be_bytes 2 len.
Proof.
  intros. rewrite u16_small by lia. unfold htons.
  pose proof (le_bytes_val _ (be_bytes_is_byte 2 len)) as Hb. by rewrite length_be_bytes in Hb.
Qed.

Lemma wire_length_back len : 0 <= len < 65536 -> ntohs (le_val (be_bytes 2 len)) = len.
Proof. intros. apply (htons_involutive len). lia. Qed.

(** Sending writes one frame. *)
Lemma send_packet_ok s a fd m :
  connected_on s a fd -> zlen m <= 65535 ->
  exists w', _network_send_packet (Some a) m (zlen m) s = Ok (zlen m, set_world w' s) /\
    stream (peer_of fd) w' = stream (peer_of fd) (world s) ++ frame m.
Proof.
  intros Hcn Hlen. pose proof Hcn as (c & i & t & Hc & Hi & _ & _ & _ & _ & _ & _ & Hpl).
  unfold _network_send_packet. m_step. m_step. m_step.
  erewrite m_bind_ok by (by eapply verify_socket_ok).
  erewrite m_bind_ok by (by eapply tcp_connect_ok).
  rewrite decide_False by lia. cbn zeta. rewrite wire_length by lia.
  erewrite m_bind_ok by (by eapply get_socket_ok).
  destruct (m_write_ok fd (be_bytes 2 (zlen m)) 2 s) as (w1 & E1 & Hw1); [done|].
  m_use E1. rewrite decide_False by lia.
  destruct (m_write_ok fd m (zlen m) (set_world w1 s)) as (w2 & E2 & Hw2); [done|].
  m_use E2. rewrite decide_False by lia.
  exists w2. split; [done|]. rewrite Hw2. cbn [world set_world]. rewrite Hw1.
  unfold frame. by rewrite <- app_assoc.
Qed.

Lemma recv_packet_connected s a fd max_len :
  connected_on s a fd -> _network_recv_packet (Some a) max_len s = recv_frame fd max_len s.
Proof.
  intros Hcn. pose proof Hcn as (c & i & t & Hc & Hi & Ht & Hcn' & Hfd & Hpos & Hsc & Hl & _).
  unfold _network_recv_packet.
  rewrite (m_bind_ok _ _ s (Some i) s)
    by (unfold impl_of; erewrite m_bind_ok by (by apply load_ctx_ok); by rewrite Hi).
  m_step. m_step. rewrite Hsc. m_step.
  erewrite m_bind_ok by (by eapply verify_socket_ok). cbn zeta.
  m_step. rewrite (m_bind_ok _ _ s 0 s)
    by (destruct (is_active c); [by eapply tcp_connect_ok|done]).
  rewrite decide_False by lia. rewrite Hl, Hfd. by m_step.
Qed.

(** Receiving consumes exactly one frame, whatever the buffer size. *)
Lemma recv_frame_ok (s : state T W) fd m rest max_len :
  0 < zlen m <= 65535 -> 0 < max_len -> stream fd (world s) = frame m ++ rest ->
  exists w', recv_frame fd max_len s
    = Ok ((zlen m, take (Z.to_nat max_len) m), set_world w' s) /\
    stream fd w' = rest.
Proof.
  intros Hlen Hmax Hst. unfold recv_frame.
  destruct (m_read_ok fd 2 s) as (w1 & E1 & Hw1).
  { rewrite Hst. unfold frame. rewrite !length_app, length_be_bytes. lia. }
  m_use E1. rewrite decide_False by lia. cbn zeta.
  rewrite Hst in Hw1 |- *. unfold frame in Hw1 |- *. rewrite <- app_assoc in Hw1 |- *.
  rewrite take_app_length' by (by rewrite length_be_bytes).
  rewrite drop_app_length' in Hw1 by (by rewrite length_be_bytes).
  rewrite wire_length_back by lia.
  destruct (m_read_ok fd (Z.min (zlen m) max_len) (set_world w1 s)) as (w2 & E2 & Hw2).
  { cbn [world set_world]. rewrite Hw1, length_app. lia. }
  m_use E2. rewrite decide_False by lia.
  cbn [world set_world] in Hw2 |- *. rewrite Hw1 in Hw2 |- *.
  rewrite take_app_le by lia.
  assert (take (Z.to_nat (Z.min (zlen m) max_len)) m = take (Z.to_nat max_len) m) as ->.
  { destruct (decide (zlen m <= max_len)).
    - by rewrite !take_ge by lia.
    - f_equal. lia. }
  case_decide as Hbig.
  - destruct (m_read_ok fd (zlen m - max_len) (set_world w2 (set_world w1 s))) as (w3 & E3 & Hw3).
    { cbn [world set_world]. rewrite Hw2, length_drop, length_app. lia. }
    rewrite (m_bind_ok _ _ _ tt (set_world w3 s)) by (erewrite m_bind_ok by exact E3; done).
    exists w3. split; [done|]. rewrite Hw3. cbn [world set_world]. rewrite Hw2, drop_drop.
    by rewrite drop_app_length' by lia.
  - m_step. exists w2. split; [done|]. rewrite Hw2. by rewrite drop_app_length' by lia.
Qed.

Lemma recv_packet_ok s a fd m rest max_len :
  connected_on s a fd -> 0 < zlen m <= 65535 -> 0 < max_len ->
  stream fd (world s) = frame m ++ rest ->
  exists w', _network_recv_packet (Some a) max_len s
    = Ok ((zlen m, take (Z.to_nat max_len) m), set_world w' s) /\
    stream fd w' = rest.
Proof. intros Hcn. rewrite (recv_packet_connected s a fd) by done. by apply recv_frame_ok. Qed.

(** The peer that [accept] reported, in the context of the listener. *)
Definition accepted_from (addr : sockaddr_in) (len : Z) (c : mysock_context_t) : mysock_context_t :=
  set_network_state (set_peer_addr_len len (set_peer_addr addr (network_state c))) c.

(** On a listening socket the packet is read from the connection accepted,
    unless the one accepted before was not taken over. *)
Lemma recv_packet_listening (s : state T W) a c i t fd' addr len w1 max_len :
  cells (contexts s) !! a = Some c -> impl_data (network_state c) = Some i ->
  cells (impls s) !! i = Some t -> sock_ctx t = Some a -> 0 <= socket t ->
  listening c = true -> is_active c = false ->
  os_accept (socket t) (world s) = (fd', addr, len, w1) -> 0 <= fd' ->
  _network_recv_packet (Some a) max_len s
  = if decide (new_socket t = -1) then
      recv_frame fd' max_len (set_impls (heap_put i (set_new_socket fd' t) (impls s))
        (set_contexts (heap_put a (accepted_from addr len c) (contexts s)) (set_world w1 s)))
    else Crash Abort.
Proof.
  intros Hc Hi Ht Hsc Hpos Hl Hact Hacc Hfd'. unfold _network_recv_packet.
  assert (impl_of (Some a) s = Ok (Some i, s)) as Him
    by (unfold impl_of; erewrite m_bind_ok by (by apply load_ctx_ok); by rewrite Hi).
  m_use Him. m_step. m_step. rewrite Hsc. m_step.
  assert (VERIFY_SOCKET (Some a) s = Ok (tt, s)) as Hv.
  { unfold VERIFY_SOCKET. m_use Him. m_step. m_step. apply m_assert_dec. lia. }
  m_use Hv. m_step. rewrite Hact. m_step. rewrite (decide_False (P := 0 < 0)) by lia. rewrite Hl.
  assert (GET_SOCKET (Some a) s = Ok (socket t, s)) as Hg by (unfold GET_SOCKET; m_use Him; by m_step).
  assert (on_world (os_accept (socket t)) s = Ok ((fd', addr, len), set_world w1 s)) as Ha
    by (unfold on_world; by rewrite Hacc).
  case_decide as Hnew.
  - rewrite m_bind_ok with (a := inr fd') (s' := set_impls (heap_put i (set_new_socket fd' t) (impls s))
      (set_contexts (heap_put a (accepted_from addr len c) (contexts s)) (set_world w1 s))); [done|].
    m_use Hg. m_use Ha.
    erewrite m_bind_ok by (apply update_ctx_ok; exact Hc). rewrite decide_False by lia.
    erewrite m_bind_ok by (apply load_impl_ok; exact Ht). m_step.
    erewrite m_bind_ok by (apply update_impl_ok; exact Ht). reflexivity.
  - apply m_bind_crash. m_use Hg. m_use Ha.
    erewrite m_bind_ok by (apply update_ctx_ok; exact Hc). rewrite decide_False by lia.
    erewrite m_bind_ok by (apply load_impl_ok; exact Ht).
    apply m_bind_crash. unfold m_assert. by rewrite bool_decide_false.
Qed.

Fixpoint send_all (p : ptr) (ms : list (list Z)) : M T W (list Z) :=
  match ms with
  | [] => mret []
  | m :: ms => n ← _network_send_packet p m (zlen m); ns ← send_all p ms; mret (n :: ns)
  end.
Fixpoint recv_all (p : ptr) (k : nat) (max_len : Z) : M T W (list (Z * list Z)) :=
  match k with
  | O => mret []
  | S k => m ← _network_recv_packet p max_len; ms ← recv_all p k max_len; mret (m :: ms)
  end.

Lemma send_all_ok s a fd ms :
  connected_on s a fd -> Forall (fun m => 0 < zlen m <= 65535) ms ->
  exists w', send_all (Some a) ms s = Ok ((fun m => zlen m) <$> ms, set_world w' s) /\
    stream (peer_of fd) w' = stream (peer_of fd) (world s) ++ concat (frame <$> ms).
Proof.
  intros Hcn Hms. revert s Hcn. induction Hms as [|m ms Hm _ IH]; intros s Hcn.
  - exists (world s). cbn. by rewrite set_world_id, app_nil_r.
  - cbn [send_all fmap list_fmap concat].
    destruct (send_packet_ok s a fd m) as (w1 & E1 & Hw1); [done|lia|].
    m_use E1.
    destruct (IH (set_world w1 s) Hcn) as (w2 & E2 & Hw2).
    m_use E2. exists w2. split; [done|].
    rewrite Hw2. cbn [world set_world]. by rewrite Hw1, <- app_assoc.
Qed.

Lemma recv_all_ok s a fd ms rest max_len :
  connected_on s a fd -> Forall (fun m => 0 < zlen m <= 65535) ms -> 0 < max_len ->
  stream fd (world s) = concat (frame <$> ms) ++ rest ->
  exists w', recv_all (Some a) (length ms) max_len s
    = Ok ((fun m => (zlen m, take (Z.to_nat max_len) m)) <$> ms, set_world w' s) /\
    stream fd w' = rest.
Proof.
  intros Hcn Hms Hmax. revert s Hcn. induction Hms as [|m ms Hm _ IH]; intros s Hcn Hst.
  - exists (world s). cbn. by rewrite set_world_id.
  - cbn [recv_all length fmap list_fmap concat] in *. rewrite <- app_assoc in Hst.
    destruct (recv_packet_ok s a fd m _ max_len Hcn Hm Hmax Hst) as (w1 & E1 & Hw1).
    m_use E1.
    destruct (IH (set_world w1 s) Hcn Hw1) as (w2 & E2 & Hw2).
    m_use E2. by exists w2.
Qed.

(** C7: the datagram service emulated over TCP keeps packet boundaries.
    Packets of 1 to 65535 bytes sent one after the other by a connected
    mysocket, over a byte stream that may split reads and writes at any
    point, are received by the peer's mysocket one per call, in order, each
    with its length and its first [max_len] bytes; the excess of a packet
    longer than the buffer is discarded without disturbing the next one, and
    nothing stays on the wire. *)
Theorem tcp_framing_roundtrip sA sB a b fd ms max_len :
  connected_on sA a fd -> connected_on sB b (peer_of fd) ->
  stream (peer_of fd) (world sA) = [] -> 0 < max_len ->
  Forall (fun m => 0 < zlen m <= 65535) ms ->
  exists w1 w2,
    send_all (Some a) ms sA = Ok ((fun m => zlen m) <$> ms, set_world w1 sA) /\
    recv_all (Some b) (length ms) max_len (set_world w1 sB)
      = Ok ((fun m => (zlen m, take (Z.to_nat max_len) m)) <$> ms, set_world w2 sB) /\
    stream (peer_of fd) w2 = [].
Proof.
  intros HA HB He Hmax Hms.
  destruct (send_all_ok sA a fd ms HA Hms) as (w1 & E1 & Hw1). rewrite He in Hw1.
  destruct (recv_all_ok (set_world w1 sB) b (peer_of fd) ms [] max_len) as (w2 & E2 & Hw2);
    [done|done|done|by rewrite app_nil_r|].
  exists w1, w2. done.
Qed.

(** End of stream and empty packets are reported alike: when the peer
    sent an empty packet, or [read] reports end of file or an error before a
    packet, [_network_recv_packet] returns that non-positive result and
    stores nothing; on a listening socket whose previous accepted descriptor
    was not taken over (its connection request was dropped), the next
    accepted connection fails the assertion [new_socket == -1]. *)
Theorem recv_packet_errors s a fd max_len :
  (forall rest, connected_on s a fd -> 0 < max_len -> stream fd (world s) = frame [] ++ rest ->
     exists w', _network_recv_packet (Some a) max_len s = Ok ((0, []), set_world w' s) /\
       stream fd w' = rest) /\
  (forall rc w', connected_on s a fd -> os_read fd 2 (world s) = (rc, [], w') -> rc <= 0 ->
     _network_recv_packet (Some a) max_len s = Ok ((rc, []), set_world w' s)) /\
  (forall c i t fd' addr len w', cells (contexts s) !! a = Some c ->
     impl_data (network_state c) = Some i -> cells (impls s) !! i = Some t ->
     sock_ctx t = Some a -> socket t = fd -> 0 <= fd -> listening c = true -> is_active c = false ->
     os_accept fd (world s) = (fd', addr, len, w') -> 0 <= fd' -> new_socket t <> -1 ->
     _network_recv_packet (Some a) max_len s = Crash Abort).
Proof.
  split_and!.
  - intros rest Hcn Hmax Hst.
    rewrite (recv_packet_connected s a fd) by done. unfold recv_frame.
    destruct (m_read_ok fd 2 s) as (w1 & E1 & Hw1).
    { rewrite Hst. unfold frame. rewrite !length_app, length_be_bytes. lia. }
    m_use E1. rewrite decide_False by lia.
    rewrite Hst in Hw1 |- *. unfold frame in Hw1 |- *. rewrite <- app_assoc in Hw1 |- *.
    rewrite take_app_length' by (by rewrite length_be_bytes).
    rewrite drop_app_length' in Hw1 by (by rewrite length_be_bytes).
    rewrite wire_length_back by (cbn; lia).
    replace (Z.min (zlen ([] : list Z)) max_len) with 0 by (cbn; lia).
    destruct (m_read_ok fd 0 (set_world w1 s)) as (w2 & E2 & Hw2).
    { cbn [world set_world]. lia. }
    m_use E2. rewrite decide_True by lia. exists w2. split; [done|].
    cbn [world set_world] in Hw2. by rewrite Hw2, Hw1.
  - intros rc w' Hcn Hrd Hrc.
    rewrite (recv_packet_connected s a fd) by done. unfold recv_frame.
    assert (m_read fd 2 s = Ok ((rc, []), set_world w' s)) as E1.
    { unfold m_read. cbn [tcp_io_read Z.to_nat Pos.to_nat Pos.iter_op Nat.add].
      change (Z.to_nat 2) with 2%nat. cbn [tcp_io_read]. rewrite decide_True by lia.
      rewrite Hrd, decide_True by lia. done. }
    m_use E1. by rewrite decide_True by lia.
  - intros c i t fd' addr len w' Hc Hi Ht Hsc <- Hpos Hl Hact Hacc Hfd' Hnew.
    erewrite recv_packet_listening by done. by rewrite decide_False.
Qed.
End framing.

(** ** A concrete operating system: descriptor pairs [2k], [2k+1] joined by
    streams, moving at most three bytes per call *)
Abbreviation pipes := (gmap Z (list Z)).
Definition pipe_stream (sd : Z) (w : pipes) : list Z := default [] (w !! sd).
Definition pipe_peer (sd : Z) : Z := Z.lxor sd 1.
Definition pipe_addr : sockaddr_in := Sockaddr AF_INET 0x901f 0x0100007f.

#[global] Instance pipe_os : OS pipes := {|
  os_socket w := (4, w);
  os_pipe w := (0, (8, 9), w);
  os_close fd w := delete fd w;
  os_bind _ _ w := (0, w);
  os_listen _ _ w := (0, w);
  os_connect _ _ w := (0, w);
  os_accept _ w := (6, pipe_addr, 16, w);
  os_getsockname _ w := (0, pipe_addr);
  os_read sd n w :=
    let k := Z.min (Z.min n 3) (zlen (pipe_stream sd w)) in
    (k, take (Z.to_nat k) (pipe_stream sd w), <[sd := drop (Z.to_nat k) (pipe_stream sd w)]> w);
  os_write sd bytes w :=
    let k := Z.min 3 (zlen bytes) in
    (k, <[pipe_peer sd := pipe_stream (pipe_peer sd) w ++ take (Z.to_nat k) bytes]> w);
  os_resolver := Resolver (Some [104]) (fun _ => Some [0x0100007f])
|}.

#[global] Program Instance pipe_stream_os : StreamOS pipes := {|
  stream := pipe_stream;
  peer_of := pipe_peer
|}.
Next Obligation.
  intros sd n w Hn Hne. eexists _, _. split; [reflexivity|].
  assert (0 < zlen (pipe_stream sd w)) by (destruct (pipe_stream sd w); cbn; [done|lia]).
  split; [lia|]. split; [lia|]. unfold pipe_stream. by rewrite lookup_insert_eq.
Qed.
Next Obligation.
  intros sd bytes w Hne. eexists _, _. split; [reflexivity|].
  assert (0 < zlen bytes) by (destruct bytes; cbn; [done|lia]).
  split; [lia|]. unfold pipe_stream. by rewrite lookup_insert_eq.
Qed.

(** One mysocket on descriptor [fd]. *)
Definition sample_state (fd : Z) (is_listening : bool) (pending : Z) (w : pipes) : state unit pipes :=
  let net := set_impl_data (Some 1%positive) (set_peer_addr_len 16
               (set_peer_addr_valid true (set_peer_addr pipe_addr zero_network_context))) in
  let c := set_bound true (set_listening is_listening (set_network_state net zero_mysock_context)) in
  State (Heap {[1%positive := c]} 2) (Some 1%positive :: replicate 63 NULL) empty_heap
    (Heap {[1%positive := TcpCtx false fd (8, 9) (Some 1%positive) pending true]} 2)
    empty_heap empty_heap empty_heap tt 0 w.

Lemma sample_connected fd pending w :
  0 <= fd -> connected_on (sample_state fd false pending w) 1 fd.
Proof.
  intros Hfd. eexists _, 1%positive, _. cbn [contexts impls cells sample_state].
  rewrite !lookup_singleton_eq. done.
Qed.

Lemma tcp_framing_roundtrip_witness :
  exists w1 w2,
    send_all (Some 1%positive) [bytes_of "hello"; bytes_of "x"; bytes_of "networks"]
      (sample_state 4 false (-1) ∅) = Ok ([5; 1; 8], set_world w1 (sample_state 4 false (-1) ∅)) /\
    recv_all (Some 1%positive) 3 6 (set_world w1 (sample_state 5 false (-1) ∅))
      = Ok ([(5, bytes_of "hello"); (1, bytes_of "x"); (8, bytes_of "networ")],
            set_world w2 (sample_state 5 false (-1) ∅)) /\
    pipe_stream 5 w2 = [].
Proof.
  destruct (tcp_framing_roundtrip (sample_state 4 false (-1) ∅) (sample_state 5 false (-1) ∅) 1 1 4
    [bytes_of "hello"; bytes_of "x"; bytes_of "networks"] 6) as (w1 & w2 & H1 & H2 & H3).
  - apply sample_connected. lia.
  - apply (sample_connected 5). lia.
  - reflexivity.
  - lia.
  - repeat (apply Forall_cons_2; [cbn; lia|]). by apply Forall_nil_2.
  - exists w1, w2. exact (conj H1 (conj H2 H3)).
Defined.

Lemma recv_packet_errors_witness :
  _network_recv_packet (Some 1%positive) 1500 (sample_state 5 true 6 ∅) = Crash Abort.
Proof.
  destruct (recv_packet_errors (sample_state 5 true 6 ∅) 1 5 1500) as (_ & _ & Hl).
  eapply (Hl _ 1%positive _ 6 pipe_addr 16 ∅).
  - cbn [contexts cells sample_state]. apply lookup_singleton_eq.
  - reflexivity.
  - cbn [impls cells sample_state]. apply lookup_singleton_eq.
  - reflexivity.
  - reflexivity.
  - lia.
  - reflexivity.
  - reflexivity.
  - reflexivity.
  - lia.
  - cbn. lia.
Defined.

(** Its only context. *)
Definition sample_context (is_listening : bool) : mysock_context_t :=
  set_bound true (set_listening is_listening (set_network_state
    (set_impl_data (Some 1%positive) (set_peer_addr_len 16
      (set_peer_addr_valid true (set_peer_addr pipe_addr zero_network_context)))) zero_mysock_context)).
