(* ===== verification/Mysock.v ===== *)
(** * Mysocket contexts and the descriptor table

    Models the rest of [Assignment3/src/mysock.c] ([network.c] included):
    allocation and release of contexts, the table of 64 descriptors, the
    start of a connection's threads and the wait for its establishment.
    Proved: allocation returns the least free descriptor and keeps the table
    well formed, a full table releases the context again, and
    [_mysock_get_context] never returns NULL. *)

From S2P Require Import Prelude Heap HashTable PacketQueue MysockTypes TcpIo.

(** Linux errno values. *)
Definition EINTR : Z := 4.
Definition EBADF : Z := 9.
Definition EFAULT : Z := 14.
Definition EINVAL : Z := 22.
Definition EMFILE : Z := 24.
Definition EADDRNOTAVAIL : Z := 99.
Definition ECONNABORTED : Z := 103.
Definition EISCONN : Z := 106.
Definition ENOTCONN : Z := 107.
Definition ECONNREFUSED : Z := 111.

Section code.
Context {T W : Type} `{OS W}.
Abbreviation M := (M T W).

(** ** Contexts *)

(** [if (global_ctx[sd] == ctx) global_ctx[sd] = 0;] and [free(ctx)]. *)
Definition release_slot (p : ptr) (sd : Z) : M unit := fun s =>
  entry ← arr_get (global_ctx s) sd;
  g ← (if decide (entry = p) then arr_set (global_ctx s) sd NULL else Ok (global_ctx s));
  Ok (tt, set_global_ctx g s).
Definition free_ctx (p : ptr) : M unit := fun s =>
  h ← hfree (contexts s) p; Ok (tt, set_contexts h s).
Definition calloc_ctx : M ptr := fun s =>
  let '(a, h) := halloc (contexts s) zero_mysock_context in Ok (Some a, set_contexts h s).

(** Drop the queues, the network state, the table entry and the context. *)
Definition _mysock_free_context (p : ptr) : M unit :=
  m_assert (bool_decide (p <> NULL));;
  _ ← m_free_queue p network_recv_queue set_network_recv_queue;
  _ ← m_free_queue p app_recv_queue set_app_recv_queue;
  _ ← m_free_queue p app_send_queue set_app_send_queue;
  _network_close p;;
  c ← load_ctx p;
  release_slot p (my_sd c);;
  free_ctx p.

Definition _mysock_allocate_context : M ptr :=
  p ← calloc_ctx;
  update_ctx p (set_listen_sd (-1));;
  update_ctx p (set_blocking true);;
  rc ← _network_init p;
  if decide (rc < 0) then _mysock_free_context p;; mret NULL
  else mret p.

(** One iteration of the search for a free descriptor. *)
Definition claim_slot (p : ptr) (k : Z) : M (option Z) := fun s =>
  entry ← arr_get (global_ctx s) k;
  if decide (entry = NULL) then
    g ← arr_set (global_ctx s) k p;
    (update_ctx p (set_my_sd k);; mret (Some k)) (set_global_ctx g s)
  else Ok (None, s).

Definition _mysock_new_mysocket : M Z :=
  p ← _mysock_allocate_context;
  m_assert (bool_decide (p <> NULL));;
  r ← m_for (Z.to_nat MAX_NUM_CONNECTIONS) 0 (claim_slot p);
  match r with
  | Some k => mret k
  | None =>
      _mysock_free_context p;;
      modify (set_errno EMFILE);;
      mret (-1)
  end.

(** ** Descriptors *)

(** The build does not define [NDEBUG], so the check is active. *)
Definition verify_mysocket_descriptor (comp_ctx : ptr) (my_sd_arg : Z) : M unit :=
  g ← gets global_ctx;
  m_assert (bool_decide (0 <= my_sd_arg /\ my_sd_arg < zlen g));;
  p ← lift (arr_get g my_sd_arg);
  m_assert (bool_decide (p <> NULL));;
  c ← load_ctx p;
  m_assert (bool_decide (my_sd c = my_sd_arg));;
  m_assert (bool_decide (comp_ctx = NULL \/ comp_ctx = p)).

Definition _mysock_get_context (sd : Z) : M ptr :=
  verify_mysocket_descriptor NULL sd;;
  g ← gets global_ctx;
  if decide (0 <= sd /\ sd < zlen g) then lift (arr_get g sd) else mret NULL.

(** ** Connections *)

(** The thread created here runs [network_recv_thread_func]. *)
Definition _network_start_recv_thread (p : ptr) : M Z :=
  i ← impl_of p;
  m_assert (bool_decide (i <> NULL));;
  update_impl i (set_recv_thread_started true);;
  mret 0.

(** Wakes the thread up through its pipe and joins it. *)
Definition _network_stop_recv_thread (p : ptr) : M unit :=
  i ← impl_of p;
  m_assert (bool_decide (i <> NULL));;
  t ← load_impl i;
  if recv_thread_started t then
    rc ← on_world (os_write (exit_pipe t).2 (bytes_of "X"));
    m_assert (bool_decide (0 <= rc));;
    update_impl i (set_recv_thread_started false)
  else mret tt.

Definition _mysock_transport_init (sd : Z) (is_active_arg : bool) : M unit :=
  p ← _mysock_get_context sd;
  c ← load_ctx p;
  m_assert (negb (listening c));;
  update_ctx p (set_is_active is_active_arg);;
  rc ← _network_start_recv_thread p;
  m_assert (bool_decide (0 <= rc));;
  update_ctx p (set_transport_thread_started true).

(** Waits until [stcp_unblock_application] clears [blocking]. *)
Definition _mysock_wait_for_connection (p : ptr) : M Z :=
  m_assert (bool_decide (p <> NULL));;
  c ← load_ctx p;
  if blocking c then lift (Crash Blocks) else
  modify (set_errno (stcp_errno c));;
  mret (if decide (stcp_errno c <> 0) then -1 else 0).

Definition INADDR_ANY : Z := 0.

Definition _mysock_bind_ephemeral (p : ptr) : M Z :=
  m_assert (bool_decide (p <> NULL));;
  c ← load_ctx p;
  m_assert (negb (bound c));;
  rc ← _network_bind p (Sockaddr AF_INET 0 (htonl INADDR_ANY));
  m_assert (bool_decide (0 <= rc));;
  update_ctx p (set_bound true);;
  mret 0.

(** ** [network.c] *)

Definition _network_send (sd : Z) (buf : list Z) (len : Z) : M Z :=
  p ← _mysock_get_context sd;
  m_assert (bool_decide (p <> NULL));;
  _network_send_packet p buf len.

Definition _network_recv (sd : Z) (dst : list Z) (max_len : Z) : M (Z * list Z) :=
  p ← _mysock_get_context sd;
  m_assert (bool_decide (p <> NULL));;
  m_dequeue p network_recv_queue set_network_recv_queue dst max_len false.
End code.

(** ** Well-formed descriptor tables *)

Record table_ok {T W} (s : state T W) : Prop := {
  table_len : length (global_ctx s) = 64%nat;
  table_heap : heap_wf (contexts s);
  table_impls : heap_wf (impls s);
  table_entry k a : global_ctx s !! k = Some (Some a) ->
    exists c, cells (contexts s) !! a = Some c /\ my_sd c = Z.of_nat k
}.

Section proofs.
Context {T W : Type} `{OS W}.
Implicit Types s : state T W.

(** A valid descriptor. *)
Definition descriptor s (sd : Z) (a : positive) (c : mysock_context_t) : Prop :=
  0 <= sd /\ global_ctx s !! Z.to_nat sd = Some (Some a) /\
  cells (contexts s) !! a = Some c /\ my_sd c = sd.

Lemma verify_ok s sd a c : descriptor s sd a c ->
  verify_mysocket_descriptor NULL sd s = Ok (tt, s).
Proof.
  intros (Hsd & Hg & Hc & Hm). unfold verify_mysocket_descriptor.
  apply lookup_lt_Some in Hg as Hlt. m_step.
  erewrite m_bind_ok by (apply m_assert_dec; lia).
  assert (arr_get (global_ctx s) sd = Ok (Some a)) as Ha by (by apply arr_get_ok).
  rewrite Ha. m_step. m_step. m_step. m_step. apply m_assert_dec. by left.
Qed.

Lemma get_context_ok s sd a c : descriptor s sd a c ->
  _mysock_get_context sd s = Ok (Some a, s).
Proof.
  intros Hd. unfold _mysock_get_context.
  erewrite m_bind_ok by (eapply verify_ok; exact Hd).
  destruct Hd as (Hsd & Hg & Hc & Hm). apply lookup_lt_Some in Hg as Hlt. m_step.
  rewrite decide_True by lia. unfold lift.
  by rewrite (arr_get_ok _ _ (Some a)).
Qed.

Lemma get_context_bad s sd : table_ok s ->
  (forall a c, ~ descriptor s sd a c) -> _mysock_get_context sd s = Crash Abort.
Proof.
  intros Ht Hno. unfold _mysock_get_context. apply m_bind_crash.
  unfold verify_mysocket_descriptor. m_step.
  destruct (decide (0 <= sd /\ sd < zlen (global_ctx s))) as [Hr|Hr].
  2:{ apply m_bind_crash. unfold m_assert. by rewrite bool_decide_false. }
  m_step. destruct (lookup_lt_is_Some_2 (global_ctx s) (Z.to_nat sd)) as [[a|] Hg]; [lia| |].
  - destruct (table_entry _ Ht _ _ Hg) as (c & Hc & Hm). exfalso. apply (Hno a c).
    split_and!; [lia|done|done|lia].
  - assert (arr_get (global_ctx s) sd = Ok NULL) as Ha by (apply arr_get_ok; [lia|done]).
    rewrite Ha. m_step. apply m_bind_crash. done.
Qed.

(** A new context: calloc, then the two defaults and the network state. *)
Definition fresh_context (i : positive) : mysock_context_t :=
  set_network_state (set_impl_data (Some i) (set_random_seed 0x632a zero_network_context))
    (set_blocking true (set_listen_sd (-1) zero_mysock_context)).

Lemma heap_put_put {A} a (x y : A) (h : heap A) : heap_put a x (heap_put a y h) = heap_put a x h.
Proof. unfold heap_put. cbn. by rewrite insert_insert_eq. Qed.

Lemma heap_wf_put {A} a (x : A) (h : heap A) :
  heap_wf h -> is_Some (cells h !! a) -> heap_wf (heap_put a x h).
Proof.
  intros Hwf Ha b [y Hy]. cbn in *. apply Hwf. destruct (decide (b = a)) as [->|Hne]; [done|].
  rewrite lookup_insert_ne in Hy by done. by eexists.
Qed.

(** One more object. *)
Definition heap_add {A} (x : A) (h : heap A) : heap A := (halloc h x).2.

Lemma heap_add_put {A} (x y : A) (h : heap A) :
  heap_put (brk h) x (heap_add y h) = heap_add x h.
Proof. unfold heap_put, heap_add. cbn. by rewrite insert_insert_eq. Qed.

(** The operating system grants the resources of one mysocket. *)
Definition os_grants (w : W) (fd : Z) (fds : Z * Z) (w' : W) : Prop :=
  exists w1 rc, os_socket w = (fd, w1) /\ os_pipe w1 = (rc, fds, w') /\ 0 <= fd /\ 0 <= rc.

Lemma alloc_ok s fd fds w : os_grants (world s) fd fds w ->
  _mysock_allocate_context s
  = Ok (Some (brk (contexts s)),
        set_contexts (heap_add (fresh_context (brk (impls s))) (contexts s))
          (set_impls (heap_add (TcpCtx false fd fds (Some (brk (contexts s))) (-1) false) (impls s))
            (set_world w s))).
Proof.
  intros (w1 & rc & Hso & Hpi & Hfd & Hrc). unfold _mysock_allocate_context.
  rewrite (m_bind_ok _ _ _ (Some (brk (contexts s))) (set_contexts (heap_add zero_mysock_context (contexts s)) s))
    by done.
  erewrite m_bind_ok by (apply update_ctx_ok; cbn; apply lookup_insert_eq).
  erewrite m_bind_ok by (apply update_ctx_ok; cbn; apply lookup_insert_eq).
  cbn [contexts set_contexts]. rewrite heap_put_put, heap_add_put.
  unfold _network_init. rewrite m_bind_ok with (a := 0) (s' :=
    set_contexts (heap_add (fresh_context (brk (impls s))) (contexts s))
      (set_impls (heap_add (TcpCtx false fd fds (Some (brk (contexts s))) (-1) false) (impls s)) (set_world w s))).
  { by rewrite decide_False by lia. }
  m_step. unfold _network_init_socket.
  rewrite m_bind_ok with (a := 0) (s' :=
    set_contexts (heap_add (fresh_context (brk (impls s))) (contexts s))
      (set_impls (heap_add (TcpCtx false fd fds NULL 0 false) (impls s)) (set_world w s))).
  - rewrite decide_False by lia. unfold impl_of.
    rewrite m_bind_ok with (a := Some (brk (impls s))) (s' := set_contexts (heap_add (fresh_context (brk (impls s))) (contexts s))
      (set_impls (heap_add (TcpCtx false fd fds NULL 0 false) (impls s)) (set_world w s))).
    2:{ erewrite m_bind_ok by (apply load_ctx_ok; cbn; apply lookup_insert_eq). done. }
    m_step. erewrite m_bind_ok by (apply update_impl_ok; cbn; apply lookup_insert_eq).
    cbn [impls set_impls set_contexts]. by rewrite heap_add_put.
  - unfold update_net.
    erewrite m_bind_ok by (apply update_ctx_ok; cbn; apply lookup_insert_eq).
    cbn [contexts set_contexts]. rewrite heap_add_put.
    rewrite m_bind_ok with (a := Some (brk (impls s))) (s' :=
      set_contexts (heap_add (set_network_state (set_random_seed 0x632a zero_network_context)
                     (set_blocking true (set_listen_sd (-1) zero_mysock_context))) (contexts s))
      (set_impls (heap_add (TcpCtx false fd fds NULL 0 false) (impls s)) (set_world w s))).
    2:{ unfold _network_alloc_context_socket. cbn [world set_contexts]. rewrite Hso.
        rewrite bool_decide_true by done. cbn [c_assert mbind run_bind]. rewrite Hpi.
        rewrite bool_decide_true by done. done. }
    erewrite m_bind_ok by (apply update_ctx_ok; cbn; apply lookup_insert_eq).
    cbn [contexts set_contexts]. rewrite heap_add_put. m_step. done.
Qed.

Lemma heap_put_id {A} a (x : A) (h : heap A) : cells h !! a = Some x -> heap_put a x h = h.
Proof. intros Hx. unfold heap_put. rewrite insert_id by done. by destruct h. Qed.

Lemma set_contexts_id s : set_contexts (contexts s) s = s.
Proof. by destruct s. Qed.
Lemma set_queue_nodes_id s : set_queue_nodes (queue_nodes s) s = s.
Proof. by destruct s. Qed.

Lemma m_free_empty s a c get put :
  cells (contexts s) !! a = Some c -> get c = empty_queue -> put empty_queue c = c ->
  m_free_queue (Some a) get put s = Ok (false, s).
Proof.
  intros Hc Hg Hp. unfold m_free_queue, hload, hstore. rewrite Hc. cbn [need mbind run_bind].
  rewrite Hg. unfold _mysock_free_queue. cbn [head empty_queue].
  rewrite bool_decide_false by auto.
  assert (forall f, free_nodes f (queue_nodes s) NULL false = Ok (false, queue_nodes s)) as ->
    by (by intros []).
  cbn [mbind run_bind].
  change (Queue NULL NULL) with empty_queue. rewrite Hp.
  fold (heap_put a c (contexts s)). rewrite heap_put_id by done.
  by rewrite set_contexts_id, set_queue_nodes_id.
Qed.

(** Freeing a context whose queues are empty and whose entry is not in the
    table returns its memory and its descriptors. *)
Lemma free_context_unlisted s a c i t : 
  cells (contexts s) !! a = Some c ->
  network_recv_queue c = empty_queue -> app_recv_queue c = empty_queue ->
  app_send_queue c = empty_queue ->
  impl_data (network_state c) = Some i -> cells (impls s) !! i = Some t ->
  new_socket t = -1 -> 
  (exists e, arr_get (global_ctx s) (my_sd c) = Ok e /\ e <> Some a) ->
  exists hc hi w, _mysock_free_context (Some a) s
    = Ok (tt, set_contexts hc (set_impls hi (set_world w s))) /\
    cells hc = delete a (cells (contexts s)) /\ cells hi = delete i (cells (impls s)) /\
    brk hc = brk (contexts s) /\ brk hi = brk (impls s).
Proof.
  intros Hc Hq1 Hq2 Hq3 Hi Ht Hn (e & He & Hea). unfold _mysock_free_context. m_step.
  erewrite m_bind_ok by (apply (m_free_empty s a c); [done|done|]; rewrite <- Hq1; by destruct c).
  erewrite m_bind_ok by (apply (m_free_empty s a c); [done|done|]; rewrite <- Hq2; by destruct c).
  erewrite m_bind_ok by (apply (m_free_empty s a c); [done|done|]; rewrite <- Hq3; by destruct c).
  set (close_if := fun fd (w : W) => if decide (0 <= fd) then os_close fd w else w).
  set (w := close_if (exit_pipe t).2 (close_if (exit_pipe t).1 (close_if (socket t) (world s)))).
  set (hi := Heap (delete i (cells (impls s))) (brk (impls s))).
  set (c' := set_network_state (set_impl_data NULL (network_state c)) c).
  rewrite m_bind_ok with (a := tt)
    (s' := set_contexts (heap_put a c' (contexts s)) (set_impls hi (set_world w s))).
  - erewrite m_bind_ok by (apply load_ctx_ok; cbn; apply lookup_insert_eq).
    rewrite m_bind_ok with (a := tt)
      (s' := set_contexts (heap_put a c' (contexts s)) (set_impls hi (set_world w s))).
    2:{ unfold release_slot. cbn [global_ctx set_contexts set_impls set_world]. change (my_sd c') with (my_sd c).
        rewrite He. cbn [mbind run_bind]. rewrite decide_False by done. by destruct s. }
    unfold free_ctx, hfree. cbn [contexts set_contexts heap_put cells brk].
    rewrite lookup_insert_eq. cbn [mbind run_bind].
    eexists _, hi, w. split; [reflexivity|]. cbn. rewrite delete_insert_eq. done.
  - unfold _network_close, impl_of.
    rewrite (m_bind_ok _ _ s (Some i) s) by (erewrite m_bind_ok by (by apply load_ctx_ok); by rewrite Hi).
    m_step. m_step. rewrite decide_False by lia. m_step.
    unfold _network_close_socket, impl_of.
    rewrite (m_bind_ok _ _ s (Some i) s) by (erewrite m_bind_ok by (by apply load_ctx_ok); by rewrite Hi).
    rewrite m_bind_ok with (a := tt) (s' := set_impls hi (set_world w s)).
    + unfold update_net. by rewrite (update_ctx_ok _ a c) by done.
    + unfold _network_destroy_context_socket, hload, hfree. rewrite bool_decide_true by done.
      cbn [c_assert mbind run_bind]. rewrite Ht. cbn [need mbind run_bind]. done.
Qed.

(** The first free descriptor. *)
Definition first_free (g : list ptr) : option nat := fst <$> list_find (fun e => e = NULL) g.

Lemma claim_loop s a c pre suf :
  cells (contexts s) !! a = Some c -> global_ctx s = pre ++ suf ->
  m_for (length suf) (zlen pre) (claim_slot (Some a)) s
  = Ok match first_free suf with
       | Some j => (Some (zlen pre + Z.of_nat j),
           set_contexts (heap_put a (set_my_sd (zlen pre + Z.of_nat j) c) (contexts s))
             (set_global_ctx (<[(length pre + j)%nat := Some a]> (global_ctx s)) s))
       | None => (None, s)
       end.
Proof.
  intros Hc. revert pre. induction suf as [|e suf IH]; intros pre Hg; [done|].
  cbn [length m_for]. unfold first_free. cbn [list_find].
  assert (arr_get (global_ctx s) (zlen pre) = Ok e) as He.
  { apply arr_get_ok; [lia|]. rewrite Hg, Nat2Z.id. by apply list_lookup_middle. }
  case_decide as Hd.
  - subst e. rewrite m_bind_ok with (a := Some (zlen pre)) (s' :=
      set_contexts (heap_put a (set_my_sd (zlen pre) c) (contexts s))
        (set_global_ctx (<[length pre := Some a]> (global_ctx s)) s)).
    + cbn. by rewrite Z.add_0_r, Nat.add_0_r.
    + unfold claim_slot. rewrite He. cbn [mbind run_bind]. rewrite decide_True by done.
      rewrite arr_set_ok by (rewrite Hg, length_app; cbn; lia). cbn [mbind run_bind].
      rewrite Nat2Z.id.
      erewrite m_bind_ok by (apply update_ctx_ok; exact Hc). done.
  - rewrite m_bind_ok with (a := None) (s' := s).
    + replace (zlen pre + 1) with (zlen (pre ++ [e])) by (rewrite length_app; cbn; lia).
      rewrite (IH (pre ++ [e])) by (by rewrite <- app_assoc).
      unfold first_free. destruct (list_find _ suf) as [[j x]|]; cbn; [|done].
      rewrite length_app. cbn [length].
      replace (Z.of_nat (length pre + 1) + Z.of_nat j) with (zlen pre + Z.of_nat (S j)) by lia.
      by replace (length pre + 1 + j)%nat with (length pre + S j)%nat by lia.
    + unfold claim_slot. rewrite He. cbn [mbind run_bind]. by rewrite decide_False by done.
Qed.

Lemma first_free_bound g j : first_free g = Some j -> (j < length g)%nat /\ g !! j = Some NULL.
Proof.
  unfold first_free. destruct (list_find _ g) as [[k e]|] eqn:Hf; [|done]. cbn. intros [= <-].
  apply list_find_Some in Hf as (Hk & -> & _). split; [by eapply lookup_lt_Some|done].
Qed.

Lemma first_free_none g k : first_free g = None -> (k < length g)%nat -> exists a, g !! k = Some (Some a).
Proof.
  unfold first_free. destruct (list_find _ g) as [|] eqn:Hf; [done|]. intros _ Hk.
  apply list_find_None in Hf. destruct (lookup_lt_is_Some_2 g k Hk) as [e He].
  pose proof (Forall_lookup_1 _ _ _ _ Hf He). destruct e as [a|]; [by exists a|done].
Qed.

(** A descriptor that [mysocket] has just returned. *)
Definition unconnected (c : mysock_context_t) : Prop :=
  listen_sd c = -1 /\ blocking c = true /\ bound c = false /\ listening c = false /\
  close_requested c = false /\ eof c = false /\ transport_thread_started c = false /\
  network_recv_queue c = empty_queue /\ app_send_queue c = empty_queue /\
  app_recv_queue c = empty_queue.

Lemma new_mysocket_ok s fd fds w k :
  table_ok s -> os_grants (world s) fd fds w -> first_free (global_ctx s) = Some k ->
  _mysock_new_mysocket s
  = Ok (Z.of_nat k,
      set_contexts (heap_add (set_my_sd (Z.of_nat k) (fresh_context (brk (impls s)))) (contexts s))
        (set_global_ctx (<[k := Some (brk (contexts s))]> (global_ctx s))
          (set_impls (heap_add (TcpCtx false fd fds (Some (brk (contexts s))) (-1) false) (impls s))
            (set_world w s)))).
Proof.
  intros Ht Hos Hff. unfold _mysock_new_mysocket. m_use (alloc_ok s fd fds w Hos). m_step.
  set (s1 := set_contexts _ _).
  assert (cells (contexts s1) !! brk (contexts s) = Some (fresh_context (brk (impls s)))) as Ha1
    by (cbn; apply lookup_insert_eq).
  pose proof (claim_loop s1 _ _ [] (global_ctx s) Ha1 eq_refl) as Hloop.
  cbn [length Nat.add] in Hloop. rewrite (table_len _ Ht) in Hloop.
  change (Z.of_nat 0) with 0 in Hloop. rewrite Hff, Z.add_0_l in Hloop.
  change (Z.to_nat MAX_NUM_CONNECTIONS) with 64%nat.
  m_use Hloop. unfold s1. cbn [contexts set_contexts]. by rewrite heap_add_put.
Qed.

Lemma new_table_ok s k c imp w :
  table_ok s -> (k < 64)%nat -> my_sd c = Z.of_nat k ->
  table_ok (set_contexts (heap_add c (contexts s))
    (set_global_ctx (<[k := Some (brk (contexts s))]> (global_ctx s))
      (set_impls (heap_add imp (impls s)) (set_world w s)))).
Proof.
  intros [Hlen Hwf Hwfi Hent] Hk Hm.
  pose proof (heap_wf_fresh _ Hwf) as Hna.
  split; cbn [global_ctx contexts impls set_contexts set_global_ctx set_impls set_world].
  - by rewrite length_insert.
  - by apply heap_wf_alloc.
  - by apply heap_wf_alloc.
  - intros k' b Hb. destruct (decide (k' = k)) as [->|Hne].
    + rewrite list_lookup_insert_eq in Hb by lia. injection Hb as <-.
      exists c. split; [apply lookup_insert_eq|done].
    + rewrite list_lookup_insert_ne in Hb by done.
      destruct (Hent _ _ Hb) as (cb & Hc & Hmb). exists cb. split; [|done].
      cbn. rewrite lookup_insert_ne; [done|]. intros <-. congruence.
Qed.

Lemma new_mysocket_full s fd fds w :
  table_ok s -> os_grants (world s) fd fds w -> first_free (global_ctx s) = None ->
  exists hc hi w', _mysock_new_mysocket s
      = Ok (-1, set_errno EMFILE (set_contexts hc (set_impls hi (set_world w' s)))) /\
    cells hc = cells (contexts s) /\ cells hi = cells (impls s) /\
    table_ok (set_errno EMFILE (set_contexts hc (set_impls hi (set_world w' s)))).
Proof.
  intros Ht Hos Hff. destruct Ht as [Hlen Hwf Hwfi Hent].
  set (a := brk (contexts s)). set (i := brk (impls s)).
  assert (cells (contexts s) !! a = None) as Hna by (by apply heap_wf_fresh).
  assert (cells (impls s) !! i = None) as Hni by (by apply heap_wf_fresh).
  unfold _mysock_new_mysocket. m_use (alloc_ok s fd fds w Hos). fold a i. m_step.
  set (s1 := set_contexts _ _).
  assert (cells (contexts s1) !! a = Some (fresh_context i)) as Ha1
    by (cbn; apply lookup_insert_eq).
  pose proof (claim_loop s1 a (fresh_context i) [] (global_ctx s) Ha1 eq_refl) as Hloop.
  cbn [length Nat.add] in Hloop. rewrite Hlen in Hloop. change (Z.of_nat 0) with 0 in Hloop.
  change (Z.to_nat MAX_NUM_CONNECTIONS) with 64%nat. rewrite Hff in Hloop.
  m_use Hloop.
  destruct (first_free_none _ 0 Hff ltac:(lia)) as [b Hb].
  destruct (Hent _ _ Hb) as (cb & Hcb & _).
  destruct (free_context_unlisted s1 a (fresh_context i) i (TcpCtx false fd fds (Some a) (-1) false))
    as (hc & hi & w' & Hfree & Hhc & Hhi & Hbc & Hbi); try done.
  - cbn. apply lookup_insert_eq.
  - exists (Some b). split; [by apply arr_get_ok|]. intros [= ->]. congruence.
  - assert (cells hc = cells (contexts s)) as Hhc'
      by (rewrite Hhc; cbn; by rewrite delete_insert_id).
    assert (cells hi = cells (impls s)) as Hhi'
      by (rewrite Hhi; cbn; by rewrite delete_insert_id).
    m_use Hfree. m_step. exists hc, hi, w'. split; [reflexivity|]. split_and!; [done|done|].
    split; cbn [global_ctx contexts impls set_contexts set_impls set_world set_errno].
    + exact Hlen.
    + intros x Hx. rewrite Hhc' in Hx. rewrite Hbc. cbn. specialize (Hwf x Hx). lia.
    + intros x Hx. rewrite Hhi' in Hx. rewrite Hbi. cbn. specialize (Hwfi x Hx). lia.
    + intros k x Hx. rewrite Hhc'. by apply Hent.
Qed.

(** C30: [_mysock_new_mysocket] returns the least free descriptor, which then
    names a fresh unconnected context, and touches no other descriptor or
    context; when all 64 are taken it returns -1 with [EMFILE] and gives
    back the context and the network state it had allocated.  Either way the
    table stays well formed. *)
Theorem new_mysocket_correct s fd fds w :
  table_ok s -> os_grants (world s) fd fds w ->
  match first_free (global_ctx s) with
  | Some k =>
      exists a c s', _mysock_new_mysocket s = Ok (Z.of_nat k, s') /\ table_ok s' /\
        cells (contexts s) !! a = None /\ descriptor s' (Z.of_nat k) a c /\ unconnected c /\
        global_ctx s' = <[k := Some a]> (global_ctx s) /\
        (forall b, b <> a -> cells (contexts s') !! b = cells (contexts s) !! b)
  | None =>
      exists s', _mysock_new_mysocket s = Ok (-1, s') /\ table_ok s' /\ errno s' = EMFILE /\
        global_ctx s' = global_ctx s /\ cells (contexts s') = cells (contexts s) /\
        cells (impls s') = cells (impls s)
  end.
Proof.
  intros Ht Hos. destruct (first_free (global_ctx s)) as [k|] eqn:Hff.
  - destruct (first_free_bound _ _ Hff) as [Hk Hnull].
    exists (brk (contexts s)), (set_my_sd (Z.of_nat k) (fresh_context (brk (impls s)))).
    eexists. split; [by apply (new_mysocket_ok s fd fds w k)|].
    split; [apply new_table_ok; [done|rewrite (table_len _ Ht) in Hk; lia|done]|].
    split_and!.
    + apply heap_wf_fresh, Ht.
    + split_and!; cbn.
      * lia.
      * rewrite Nat2Z.id. by apply list_lookup_insert_eq.
      * apply lookup_insert_eq.
      * reflexivity.
    + by split_and!.
    + reflexivity.
    + intros b Hb. cbn. by rewrite lookup_insert_ne by done.
  - destruct (new_mysocket_full s fd fds w Ht Hos Hff)
      as (hc & hi & w' & Hrun & Hcc & Hci & Hok).
    eexists. split; [exact Hrun|]. by split_and!.
Qed.

(** With assertions compiled in, [_mysock_get_context] returns the
    context of every descriptor in use and never NULL: any other descriptor
    fails an assertion.  So the callers' [MYSOCK_CHECK(ctx != NULL, EBADF)]
    can never report [EBADF]. *)
Theorem get_context_total s sd :
  table_ok s ->
  (exists a c, descriptor s sd a c /\ _mysock_get_context sd s = Ok (Some a, s)) \/
  (forall a c, ~ descriptor s sd a c) /\ _mysock_get_context sd s = Crash Abort.
Proof.
  intros Ht.
  destruct (decide (0 <= sd < 64)) as [Hr|Hr].
  - destruct (lookup_lt_is_Some_2 (global_ctx s) (Z.to_nat sd)) as [[a|] Hg];
      [rewrite (table_len _ Ht); lia| |].
    + destruct (table_entry _ Ht _ _ Hg) as (c & Hc & Hm). left. exists a, c.
      assert (descriptor s sd a c) as Hd by (split_and!; [lia|done|done|lia]).
      split; [done|]. by eapply get_context_ok.
    + right. assert (forall a c, ~ descriptor s sd a c) as Hno.
      { intros a c (_ & Hg' & _). congruence. }
      split; [done|]. by apply get_context_bad.
  - right. assert (forall a c, ~ descriptor s sd a c) as Hno.
    { intros a c (Hsd & Hg & _). apply lookup_lt_Some in Hg. rewrite (table_len _ Ht) in Hg. lia. }
    split; [done|]. by apply get_context_bad.
Qed.
End proofs.

(** An empty library. *)
Definition initial_state {T} (t : T) : state T pipes :=
  State empty_heap (replicate 64 NULL) empty_heap empty_heap empty_heap empty_heap empty_heap t 0 ∅.

Lemma initial_table_ok {T} (t : T) : table_ok (initial_state t).
Proof.
  split.
  - apply length_replicate.
  - apply heap_wf_empty.
  - apply heap_wf_empty.
  - intros k a Hk. apply lookup_replicate in Hk as [Hk _]. discriminate.
Qed.

Lemma new_mysocket_correct_witness :
  exists a c s', _mysock_new_mysocket (initial_state tt) = Ok (0, s') /\ table_ok s' /\
    cells (contexts (initial_state tt)) !! a = None /\ descriptor s' 0 a c /\ unconnected c /\
    global_ctx s' = <[0%nat := Some a]> (global_ctx (initial_state tt)) /\
    (forall b, b <> a -> cells (contexts s') !! b = cells (contexts (initial_state tt)) !! b).
Proof.
  apply (new_mysocket_correct (initial_state tt) 4 (8, 9) ∅ (initial_table_ok tt)).
  exists ∅, 0. repeat split; lia.
Defined.

Lemma get_context_total_witness :
  (exists a c, descriptor (initial_state tt) 3 a c /\
     _mysock_get_context 3 (initial_state tt) = Ok (Some a, initial_state tt)) \/
  (forall a c, ~ descriptor (initial_state tt) 3 a c) /\
  _mysock_get_context 3 (initial_state tt) = Crash Abort.
Proof. apply get_context_total. apply initial_table_ok. Defined.
