(* ===== verification/Demux.v ===== *)
(** * Connection requests on listening mysockets

    Models [Assignment3/src/connection_demux.c] and the loop body of the
    receive thread of [network_io_socket.c]: the table of listen queues (any
    [KeyedTable]), the slots of pending requests, and the queue of completed
    connections that [myaccept] consumes.  Each operation is modelled as one
    thread runs it from beginning to end: the lock that
    [_mysock_enqueue_connection] and [_mysock_dequeue_connection] take is a
    read lock, which does not keep them apart; what happens when they do
    overlap is the subject of [Lifecycle.accept_overlap_aborts]. *)

From S2P Require Import Prelude Heap HashTable PacketQueue MysockTypes TcpIo Mysock.

Definition TH_SYN : Z := 0x02.
Definition offsetof_th_flags : Z := 13.

(** The memory image of a [struct sockaddr] holding an Internet address. *)
Definition sockaddr_bytes (a : sockaddr_in) : list Z :=
  le_bytes 2 (sa_family a) ++ le_bytes 2 (sin_port a) ++ le_bytes 4 (sin_addr a) ++ replicate 8 0.

Section code.
Context {T W : Type} `{KT : KeyedTable T Z positive} `{OS W}.
Abbreviation M := (M T W).

Definition listen_insert (k : Z) (q : positive) : M unit := fun s =>
  t ← table_insert k q (listen_table s); Ok (tt, set_listen_table t s).
Definition listen_lookup (k : Z) : M ptr := fun s =>
  q ← table_lookup_ptr k (listen_table s); Ok (q, s).
Definition listen_delete (k : Z) : M unit := fun s =>
  t ← table_delete k (listen_table s); Ok (tt, set_listen_table t s).

(** [memcmp(&r->peer_addr, peer_addr, n) == 0] *)
Definition same_addr (a b : sockaddr_in) (n : Z) : run bool :=
  if decide (0 <= n <= 16) then
    Ok (bool_decide (take (Z.to_nat n) (sockaddr_bytes a) = take (Z.to_nat n) (sockaddr_bytes b)))
  else Crash OutOfRange.

Definition invalid_request : connect_request_t :=
  ConnectRequest zero_sockaddr 0 (-1) false.
(** The [memset], then the descriptor. *)
Definition INVALIDATE_CONNECT_REQUEST (r : ptr * Z) : M unit :=
  store_req r zero_request;;
  x ← load_req r;
  store_req r (ConnectRequest (req_peer_addr x) (req_peer_addr_len x) (-1) (user_data x)).

Definition load_comp (p : ptr) : M completed_connect_t := fun s =>
  c ← hload (completions s) p; Ok (c, s).
Definition free_comp (p : ptr) : M unit := fun s =>
  h ← hfree (completions s) p; Ok (tt, set_completions h s).

Definition _get_connection_queue (p : ptr) : M ptr :=
  m_assert (bool_decide (p <> NULL));;
  c ← load_ctx p;
  m_assert (listening c && bound c);;
  listen_lookup (my_sd c).

(** ** [myaccept]'s side *)

Definition _mysock_dequeue_connection (accept_p : ptr) : M ptr :=
  m_assert (bool_decide (accept_p <> NULL));;
  c ← load_ctx accept_p;
  m_assert (listening c && bound c);;
  qp ← _get_connection_queue accept_p;
  m_assert (bool_decide (qp <> NULL));;
  q ← load_lq qp;
  if decide (completed_queue q = NULL) then lift (Crash Blocks) else
  let rp := completed_queue q in
  r ← load_comp rp;
  update_lq qp (set_completed_queue (next_completed r));;
  m_assert (bool_decide ((request r).1 <> NULL));;
  req ← load_req (request r);
  new_ctx ← _mysock_get_context (req_sd req);
  m_assert (bool_decide (new_ctx <> NULL));;
  INVALIDATE_CONNECT_REQUEST (request r);;
  free_comp rp;;
  q ← load_lq qp;
  m_assert (bool_decide (0 < cur_len q));;
  update_lq qp (fun q => set_cur_len (cur_len q - 1) q);;
  mret new_ctx.

(** ** Arriving SYN packets *)

(** Its assertion; the message itself is compiled only with [DEBUG]. *)
Definition _debug_print_connection (peer_addr_arg : sockaddr_in) : M unit :=
  m_assert (bool_decide (sa_family peer_addr_arg = AF_INET)).

(** The retransmission check on slot [k]. *)
Definition retransmission_at (arr : ptr) (peer_addr_arg : sockaddr_in) (peer_addr_len_arg k : Z)
    : M (option unit) :=
  r ← load_req (arr, k);
  m_assert (bool_decide (req_sd r = -1 \/ peer_addr_len_arg = req_peer_addr_len r));;
  same ← lift (same_addr (req_peer_addr r) peer_addr_arg peer_addr_len_arg);
  mret (if same : bool then Some tt else None).

Definition empty_slot_at (arr : ptr) (k : Z) : M (option Z) :=
  r ← load_req (arr, k);
  mret (if decide (req_sd r < 0) then Some k else None).

(** What happens once a slot is found. *)
Definition establish (p qp : ptr) (slot : ptr * Z) (packet : list Z) (packet_len : Z)
    (peer_addr_arg : sockaddr_in) (peer_addr_len_arg : Z) (user_data_arg : bool) : M bool :=
  r ← load_req slot;
  m_assert (bool_decide (req_sd r = -1));;
  sd ← _mysock_new_mysocket;
  r ← load_req slot;
  store_req slot (ConnectRequest (req_peer_addr r) (req_peer_addr_len r) sd (user_data r));;
  if decide (sd < 0) then
    _debug_print_connection peer_addr_arg;;
    INVALIDATE_CONNECT_REQUEST slot;;
    update_lq qp (fun q => set_cur_len (cur_len q - 1) q);;
    mret false
  else
    new_ctx ← _mysock_get_context sd;
    c ← load_ctx p;
    update_ctx new_ctx (set_listen_sd (my_sd c));;
    update_net new_ctx (set_peer_addr peer_addr_arg);;
    update_net new_ctx (set_peer_addr_len peer_addr_len_arg);;
    update_net new_ctx (set_peer_addr_valid true);;
    store_req slot (ConnectRequest peer_addr_arg peer_addr_len_arg sd user_data_arg);;
    _debug_print_connection peer_addr_arg;;
    _network_update_passive_state new_ctx p user_data_arg;;
    _mysock_transport_init sd false;;
    m_enqueue new_ctx network_recv_queue set_network_recv_queue (Some packet) packet_len;;
    mret true.

Definition _mysock_enqueue_connection (p : ptr) (packet : list Z) (packet_len : Z)
    (peer_addr_arg : sockaddr_in) (peer_addr_len_arg : Z) (user_data_arg : bool) : M bool :=
  m_assert (bool_decide (p <> NULL));;
  c ← load_ctx p;
  m_assert (listening c && bound c);;
  m_assert (bool_decide (0 < peer_addr_len_arg));;
  not_syn ← (if decide (packet_len < sizeof_tcphdr) then mret true
             else flags ← lift (arr_get packet offsetof_th_flags);
                  mret (bool_decide (Z.land flags TH_SYN = 0)));
  let drop_it := _debug_print_connection peer_addr_arg;; mret false in
  if (not_syn : bool) then drop_it else
  qp ← _get_connection_queue p;
  if decide (qp = NULL) then drop_it else
  q ← load_lq qp;
  dup ← m_for (Z.to_nat (max_len q)) 0
          (retransmission_at (connection_queue q) peer_addr_arg peer_addr_len_arg);
  if decide (dup = Some tt) then drop_it else
  if decide (cur_len q < max_len q) then
    slot ← m_for (Z.to_nat (max_len q)) 0 (empty_slot_at (connection_queue q));
    m_assert (bool_decide (slot <> None));;
    update_lq qp (fun q => set_cur_len (cur_len q + 1) q);;
    match slot with
    | Some k => establish p qp (connection_queue q, k) packet packet_len
                  peer_addr_arg peer_addr_len_arg user_data_arg
    | None => mret false
    end
  else drop_it.

(** ** Completed handshakes *)

(** [for (tail = q->completed_queue; tail && tail->next; tail = tail->next) ;] *)
Fixpoint last_completed (fuel : nat) (tail : ptr) : M ptr :=
  match tail with
  | None => mret NULL
  | Some _ =>
      r ← load_comp tail;
      if decide (next_completed r = NULL) then mret tail
      else match fuel with
           | O => lift (Crash Fuel)
           | S fuel => last_completed fuel (next_completed r)
           end
  end.

Definition request_for (arr : ptr) (sd k : Z) : M (option Z) :=
  r ← load_req (arr, k);
  mret (if decide (req_sd r = sd) then Some k else None).

Definition malloc_comp (r : completed_connect_t) : M ptr := fun s =>
  let '(a, h) := halloc (completions s) r in Ok (Some a, set_completions h s).
Definition link_comp (p : ptr) (n : ptr) : M unit := fun s =>
  c ← hload (completions s) p;
  h ← hstore (completions s) p (CompletedConnect (request c) n);
  Ok (tt, set_completions h s).

(** A new entry for [slot] at the end of the completed queue of [q]. *)
Definition append_completed (qp : ptr) (q : listen_queue_t) (slot : ptr * Z) : M unit :=
  new_entry ← malloc_comp (CompletedConnect slot NULL);
  fuel ← gets (fun s => base.size (cells (completions s)));
  tail ← last_completed fuel (completed_queue q);
  if decide (tail = NULL) then update_lq qp (set_completed_queue new_entry)
  else link_comp tail new_entry.

Definition _mysock_passive_connection_complete (p : ptr) : M unit :=
  m_assert (bool_decide (p <> NULL));;
  c ← load_ctx p;
  m_assert (bool_decide (0 <= listen_sd c));;
  lp ← _mysock_get_context (listen_sd c);
  qp ← _get_connection_queue lp;
  if decide (qp = NULL) then mret tt else
  q ← load_lq qp;
  slot ← m_for (Z.to_nat (max_len q)) 0 (request_for (connection_queue q) (my_sd c));
  match slot with
  | None => lift (Crash Abort)
  | Some k => append_completed qp q (connection_queue q, k)
  end.

(** ** The backlog *)

Definition calloc_lq (q : listen_queue_t) : M positive := fun s =>
  let '(a, h) := halloc (listen_queues s) q in Ok (a, set_listen_queues h s).

(** [realloc] to [n] elements followed by the [memset] of those from [old_len]
    on; the old block is freed. *)
Definition grow_requests (arr : ptr) (old_len n : Z) : M ptr := fun s =>
  old ← (match arr with None => Ok [] | Some _ => hload (requests s) arr end);
  h ← hfree (requests s) arr;
  let '(a, h) := halloc h (take (Z.to_nat old_len) old
                           ++ replicate (Z.to_nat (n - old_len)) zero_request) in
  Ok (Some a, set_requests h s).

Definition invalidate_from (arr : ptr) (k : Z) : M (option unit) :=
  r ← load_req (arr, k);
  store_req (arr, k) (ConnectRequest (req_peer_addr r) (req_peer_addr_len r) (-1) (user_data r));;
  mret None.

(** The array of the queue at [qp] is made [max_len_new] slots long. *)
Definition resize_queue (qp : ptr) (port max_len_new : Z) : M unit :=
  q ← load_lq qp;
  m_assert (bool_decide (local_port q = port));;
  (if decide (max_len q < max_len_new) then
     arr ← grow_requests (connection_queue q) (max_len q) max_len_new;
     update_lq qp (set_connection_queue arr)
   else mret tt);;
  q ← load_lq qp;
  _ ← m_for (Z.to_nat (max_len_new - max_len q)) (max_len q) (invalidate_from (connection_queue q));
  update_lq qp (set_max_len max_len_new).

Definition _mysock_set_backlog (p : ptr) (backlog : Z) : M unit :=
  let max_len_new := u32 (u32 backlog + 1) in
  m_assert (bool_decide (p <> NULL));;
  c ← load_ctx p;
  m_assert (listening c && bound c);;
  port ← _network_get_port p;
  let port := ntohs (u16 port) in
  m_assert (bool_decide (0 < port));;
  qp ← _get_connection_queue p;
  qp ← (match qp with
        | Some _ => mret qp
        | None =>
            a ← calloc_lq (ListenQueue port 0 0 NULL NULL);
            listen_insert (my_sd c) a;;
            mret (Some a)
        end);
  resize_queue qp port max_len_new.

(** ** Closing *)

Definition free_requests (arr : ptr) : M unit := fun s =>
  h ← hfree (requests s) arr; Ok (tt, set_requests h s).
Definition free_lq (p : ptr) : M unit := fun s =>
  h ← hfree (listen_queues s) p; Ok (tt, set_listen_queues h s).

Fixpoint free_completed (fuel : nat) (p : ptr) : M unit :=
  match p with
  | None => mret tt
  | Some _ =>
      match fuel with
      | O => lift (Crash Fuel)
      | S fuel => r ← load_comp p; free_comp p;; free_completed fuel (next_completed r)
      end
  end.

(** [myclose] is the application's call, passed in. *)
Definition close_request (myclose : Z -> M Z) (arr : ptr) (k : Z) : M (option unit) :=
  r ← load_req (arr, k);
  (if decide (req_sd r <> -1) then _ ← myclose (req_sd r); mret tt else mret tt);;
  mret None.

Definition _mysock_close_passive_socket (myclose : Z -> M Z) (p : ptr) : M unit :=
  m_assert (bool_decide (p <> NULL));;
  c ← load_ctx p;
  m_assert (listening c && bound c);;
  qp ← _get_connection_queue p;
  if decide (qp = NULL) then mret tt else
  q ← load_lq qp;
  _ ← m_for (Z.to_nat (max_len q)) 0 (close_request myclose (connection_queue q));
  free_requests (connection_queue q);;
  fuel ← gets (fun s => base.size (cells (completions s)));
  free_completed fuel (completed_queue q);;
  listen_delete (my_sd c);;
  free_lq qp.

(** ** The receive thread *)

(** One turn of the loop of [network_recv_thread_func] after [poll] reported
    the exit pipe ([done]) or the socket; the result tells whether the
    thread goes on. *)
Definition network_recv_thread_turn (p : ptr) (done : bool) : M bool :=
  if done then mret false else
  '(bytes_read, buf) ← _network_recv_packet p MAX_IP_PAYLOAD_LEN;
  if decide (bytes_read <= 0) then
    m_enqueue p network_recv_queue set_network_recv_queue None 0;; mret false
  else
    m_assert (bool_decide (bytes_read <= MAX_IP_PAYLOAD_LEN));;
    c ← load_ctx p;
    (if listening c then
       _ ← _mysock_enqueue_connection p buf bytes_read (peer_addr (network_state c))
             (peer_addr_len (network_state c)) false; mret tt
     else m_enqueue p network_recv_queue set_network_recv_queue (Some buf) bytes_read);;
    mret true.
End code.

(** ** Listen queues *)

(** The first two of three conjuncts together. *)
Ltac and_left :=
  match goal with |- ?A /\ ?B /\ ?C =>
    let H1 := fresh in let H2 := fresh in
    enough (A /\ B) as [H1 H2]; [split; [exact H1|split; [exact H2|]]|]
  end.

(** The slots in use. *)
Definition used (slots : list connect_request_t) : Z :=
  zlen (filter (fun r => 0 <= req_sd r) slots).

Lemma used_insert slots k r r' : slots !! k = Some r ->
  used (<[k := r']> slots)
  = used slots - (if decide (0 <= req_sd r) then 1 else 0) + (if decide (0 <= req_sd r') then 1 else 0).
Proof.
  intros Hk. unfold used. pose proof (lookup_lt_Some _ _ _ Hk) as Hlt.
  rewrite insert_take_drop by done. rewrite <- (take_drop_middle _ _ _ Hk) at 3.
  rewrite !filter_app, !filter_cons, !length_app.
  repeat case_decide; cbn [length]; lia.
Qed.

(** A segment long enough for a TCP header, with the SYN flag. *)
Definition is_syn (packet : list Z) (packet_len : Z) : bool :=
  bool_decide (sizeof_tcphdr <= packet_len) &&
  negb (bool_decide (Z.land (default 0 (packet !! 13%nat)) TH_SYN = 0)).

(** A request slot already holds this address. *)
Definition known_peer (slots : list connect_request_t) (addr : sockaddr_in) (alen : Z) : bool :=
  existsb (fun r => bool_decide (take (Z.to_nat alen) (sockaddr_bytes (req_peer_addr r))
                                 = take (Z.to_nat alen) (sockaddr_bytes addr))) slots.

Definition first_empty (slots : list connect_request_t) : option nat :=
  fst <$> list_find (fun r => req_sd r < 0) slots.

Section queues.
Context {T W : Type} `{KT : KeyedTable T Z positive} `{OS W}.
Implicit Types s : state T W.

(** A completed connection points to a slot in use. *)
Definition entry_ok (arr : positive) (slots : list connect_request_t)
    (x : positive * completed_connect_t) : Prop :=
  exists k r, request x.2 = (Some arr, k) /\ 0 <= k /\ slots !! Z.to_nat k = Some r /\ 0 <= req_sd r.

(** The slots of completed connections. *)
Definition positions (l : list (positive * completed_connect_t)) : list Z :=
  (fun x => (request x.2).2) <$> l.

(** [listen_inv s a qa arr c q slots l rest]: the listening context [c] at [a]
    has the listen queue [q] at [qa], whose request array [arr] holds [slots];
    [cur_len] counts the slots in use, and the completed queue is the chain
    [l] of entries pointing to distinct slots in use. *)
Record listen_inv s (a qa arr : positive) (c : mysock_context_t) (q : listen_queue_t)
    (slots : list connect_request_t) (l : list (positive * completed_connect_t))
    (rest : gmap positive completed_connect_t) : Prop := {
  li_ctx : cells (contexts s) !! a = Some c;
  li_flags : listening c && bound c = true;
  li_table : exists cont, table_rep (listen_table s) cont /\ table_valid (my_sd c) /\
    hd_error (cont (my_sd c)) = Some qa;
  li_q : cells (listen_queues s) !! qa = Some q;
  li_arr : connection_queue q = Some arr;
  li_slots : cells (requests s) !! arr = Some slots;
  li_max : max_len q = zlen slots;
  li_cur : cur_len q = used slots;
  li_chain : linked next_completed (completed_queue q) l NULL;
  li_own : owning (completions s) l rest;
  li_req : Forall (entry_ok arr slots) l;
  li_nodup : NoDup (positions l)
}.

(** The queues change, the connections do not. *)
Record same_tables s s' : Prop := {
  st_contexts : contexts s' = contexts s;
  st_global : global_ctx s' = global_ctx s;
  st_nodes : queue_nodes s' = queue_nodes s;
  st_impls : impls s' = impls s;
  st_world : world s' = world s
}.

(** The descriptors of the completed connections, oldest first. *)
Definition completed_sds (slots : list connect_request_t) (l : list (positive * completed_connect_t))
    : list Z :=
  (fun x => default (-1) (req_sd <$> slots !! Z.to_nat (request x.2).2)) <$> l.

Lemma get_queue_ok s a qa arr c q slots l rest :
  listen_inv s a qa arr c q slots l rest -> _get_connection_queue (Some a) s = Ok (Some qa, s).
Proof.
  intros I. destruct I as [Hc Hf (cont & Hrep & Hv & Hhd) _ _ _ _ _ _ _ _ _].
  unfold _get_connection_queue. m_step. m_step. m_step.
  unfold listen_lookup. rewrite (table_lookup_spec _ cont) by done. by rewrite Hhd.
Qed.

Lemma load_req_ok s arr slots k r :
  cells (requests s) !! arr = Some slots -> 0 <= k -> slots !! Z.to_nat k = Some r ->
  load_req (Some arr, k) s = Ok (r, s).
Proof.
  intros Ha Hk Hr. unfold load_req, hload. cbn [fst snd]. rewrite Ha. cbn [need mbind run_bind].
  by rewrite (arr_get_ok _ _ r).
Qed.

Lemma store_req_ok s arr slots k r :
  cells (requests s) !! arr = Some slots -> 0 <= k < zlen slots ->
  store_req (Some arr, k) r s
  = Ok (tt, set_requests (heap_put arr (<[Z.to_nat k := r]> slots) (requests s)) s).
Proof.
  intros Ha Hk. unfold store_req, hload, hstore. cbn [fst snd]. rewrite Ha.
  cbn [need mbind run_bind]. rewrite arr_set_ok by done. done.
Qed.

Lemma invalidate_ok s arr slots k :
  cells (requests s) !! arr = Some slots -> 0 <= k < zlen slots ->
  INVALIDATE_CONNECT_REQUEST (Some arr, k) s
  = Ok (tt, set_requests (heap_put arr (<[Z.to_nat k := invalid_request]> slots) (requests s)) s).
Proof.
  intros Ha Hk. unfold INVALIDATE_CONNECT_REQUEST. m_use (store_req_ok s arr slots k zero_request Ha Hk).
  set (s1 := set_requests _ _). set (slots1 := <[Z.to_nat k := zero_request]> slots).
  assert (cells (requests s1) !! arr = Some slots1) as Ha1 by (cbn; apply lookup_insert_eq).
  assert (slots1 !! Z.to_nat k = Some zero_request) as Hk1 by (apply list_lookup_insert_eq; lia).
  m_use (load_req_ok s1 arr slots1 k zero_request Ha1 ltac:(lia) Hk1).
  rewrite (store_req_ok s1 arr slots1) by (done || (unfold slots1; rewrite length_insert; lia)).
  unfold slots1, s1. cbn [requests set_requests]. by rewrite heap_put_put, list_insert_insert_eq.
Qed.

Lemma filter_pos (slots : list connect_request_t) k r :
  slots !! k = Some r -> 0 <= req_sd r -> 0 < used slots.
Proof.
  intros Hk Hr. pose proof (used_insert slots k r invalid_request Hk) as Hu.
  rewrite decide_True in Hu by done. rewrite decide_False in Hu by (cbn; lia).
  unfold used in *. lia.
Qed.

(** [myaccept]'s side takes the oldest completed connection. *)
Lemma dequeue_connection_ok s a qa arr c q slots ra x l rest k r b cb :
  listen_inv s a qa arr c q slots ((ra, x) :: l) rest ->
  request x = (Some arr, k) -> slots !! Z.to_nat k = Some r ->
  descriptor s (req_sd r) b cb ->
  exists s' q', _mysock_dequeue_connection (Some a) s = Ok (Some b, s') /\
    listen_inv s' a qa arr c q' (<[Z.to_nat k := invalid_request]> slots) l rest /\
    same_tables s s'.
Proof.
  intros I Hx Hr Hd. pose proof I as [Hc Hf Htab Hq Harr Hsl Hmax Hcur Hch Hown Hreq Hnd].
  cbn in Hch. destruct Hch as [Hcq Hch].
  apply Forall_cons in Hreq as [(k' & r' & Hx' & Hk & Hr' & Hused) Hreq]. cbn in Hx'.
  rewrite Hx in Hx'. simplify_eq.
  cbn in Hnd. apply NoDup_cons in Hnd as [Hkn Hnd]. rewrite Hx in Hkn. cbn in Hkn.
  pose proof (lookup_lt_Some _ _ _ Hr) as Hklt.
  unfold _mysock_dequeue_connection. m_step. m_step. m_step.
  m_use (get_queue_ok _ _ _ _ _ _ _ _ _ I). m_step. m_step. rewrite Hcq. rewrite decide_False by done.
  rewrite m_bind_ok with (a := x) (s' := s)
    by (unfold load_comp; by rewrite (owning_load _ _ _ ra x Hown) by (by left)).
  erewrite m_bind_ok by (apply update_lq_ok; exact Hq).
  rewrite Hx. m_step. rewrite (m_bind_ok _ _ _ r) with (s' := set_listen_queues
    (heap_put qa (set_completed_queue (next_completed x) q) (listen_queues s)) s)
    by (by apply (load_req_ok _ arr slots)).
  rewrite m_bind_ok with (a := Some b) (s' := set_listen_queues
    (heap_put qa (set_completed_queue (next_completed x) q) (listen_queues s)) s)
    by (eapply get_context_ok; exact Hd).
  m_step.
  erewrite m_bind_ok by (apply (invalidate_ok _ arr slots); [exact Hsl|lia]).
  destruct (owning_free (completions s) [] l ra x rest Hown) as (h & Hfree & Hown').
  erewrite m_bind_ok by (unfold free_comp; cbn [completions set_requests set_listen_queues]; by rewrite Hfree).
  erewrite m_bind_ok by (apply load_lq_ok; cbn; apply lookup_insert_eq).
  pose proof (filter_pos slots _ _ Hr Hused) as Hpos.
  erewrite m_bind_ok by (apply m_assert_dec; cbn; lia).
  erewrite m_bind_ok by (apply update_lq_ok; cbn; apply lookup_insert_eq).
  eexists _, (set_cur_len (cur_len q - 1) (set_completed_queue (next_completed x) q)).
  split; [reflexivity|]. split; [|done].
  split; cbn [contexts listen_table listen_queues requests completions set_listen_queues
    set_completions set_requests heap_put cells]; try done.
  - by rewrite lookup_insert_eq.
  - by rewrite lookup_insert_eq.
  - by rewrite length_insert.
  - cbn [cur_len set_cur_len]. rewrite (used_insert _ _ _ _ Hr), decide_True, decide_False
      by (cbn; lia). lia.
  - apply Forall_forall. intros y Hy. rewrite Forall_forall in Hreq.
    destruct (Hreq y Hy) as (k2 & r2 & Hy2 & Hk2 & Hr2 & Hu2). exists k2, r2.
    split_and!; try done. rewrite list_lookup_insert_ne; [done|].
    intros Heq. apply Hkn. apply list_elem_of_fmap. exists y. split; [|done].
    rewrite Hy2. cbn. lia.
Qed.

Lemma last_completed_ok s fuel p l :
  linked next_completed p l NULL ->
  (forall r x, (r, x) ∈ l -> hload (completions s) (Some r) = Ok x) ->
  (length l <= fuel)%nat ->
  last_completed fuel p s = Ok (fst <$> last l, s).
Proof.
  revert p fuel. induction l as [|[r x] l IH]; intros p fuel Hlk Hld Hf.
  { cbn in Hlk. subst p. by destruct fuel. }
  cbn in Hlk. destruct Hlk as [-> Hlk]. destruct fuel as [|fuel]; [cbn in Hf; lia|].
  cbn [last_completed].
  rewrite m_bind_ok with (a := x) (s' := s)
    by (unfold load_comp; by rewrite (Hld r x) by (by left)).
  destruct l as [|[r2 x2] l].
  - cbn in Hlk. by rewrite decide_True by done.
  - rewrite decide_False by (cbn in Hlk; destruct Hlk as [-> _]; done).
    rewrite (IH (next_completed x) fuel Hlk); [done| |cbn in Hf |- *; lia].
    intros r3 x3 Hin. apply Hld. by right.
Qed.

(** The search for the slot of a descriptor. *)
Lemma find_request_ok s arr slots sd k r :
  cells (requests s) !! arr = Some slots -> 0 <= k -> slots !! Z.to_nat k = Some r -> req_sd r = sd ->
  (forall j r', 0 <= j -> slots !! Z.to_nat j = Some r' -> req_sd r' = sd -> j = k) ->
  m_for (length slots) 0 (request_for (Some arr) sd) s = Ok (Some k, s).
Proof.
  intros Hsl Hk Hr Hsd Huniq. pose proof (lookup_lt_Some _ _ _ Hr) as Hklt.
  set (f := fun j => match slots !! Z.to_nat j with
                     | Some r => if decide (req_sd r = sd) then Some j else None
                     | None => None end).
  rewrite (m_for_find _ _ f).
  - do 2 f_equal. destruct (first_some (length slots) 0 f) as [j|] eqn:Hfs.
    + apply first_some_inv in Hfs as (j' & Hj' & Hfj). unfold f in Hfj.
      destruct (slots !! Z.to_nat j') as [rj|] eqn:Hrj; [|done]. case_decide; [|done].
      injection Hfj as <-. f_equal. apply (Huniq j' rj); [lia|done|done].
    + exfalso. rewrite first_some_none in Hfs. specialize (Hfs k ltac:(lia)).
      unfold f in Hfs. by rewrite Hr, decide_True in Hfs by done.
  - intros j Hj. unfold request_for, f.
    destruct (lookup_lt_is_Some_2 slots (Z.to_nat j)) as [rj Hrj]; [lia|].
    rewrite m_bind_ok with (a := rj) (s' := s) by (apply (load_req_ok _ arr slots); (done || lia)).
    by rewrite Hrj.
Qed.

Lemma completed_sds_snoc slots l a x k r : request x = (Some a, k) -> slots !! Z.to_nat k = Some r ->
  forall b, completed_sds slots (l ++ [(b, x)]) = completed_sds slots l ++ [req_sd r].
Proof. intros Hx Hr b. unfold completed_sds. rewrite fmap_app. cbn. rewrite Hx. cbn. by rewrite Hr. Qed.

(** A completed queue one entry longer. *)
Lemma listen_inv_snoc s s' a qa arr c q q' slots l l' n x k r rest :
  listen_inv s a qa arr c q slots l rest -> same_tables s s' ->
  listen_table s' = listen_table s -> requests s' = requests s ->
  cells (listen_queues s') !! qa = Some q' -> connection_queue q' = connection_queue q ->
  max_len q' = max_len q -> cur_len q' = cur_len q ->
  map (fun y => request y.2) l' = map (fun y => request y.2) l ->
  request x = (Some arr, k) -> 0 <= k -> slots !! Z.to_nat k = Some r -> 0 <= req_sd r -> k ∉ positions l ->
  linked next_completed (completed_queue q') (l' ++ [(n, x)]) NULL ->
  owning (completions s') (l' ++ [(n, x)]) rest ->
  listen_inv s' a qa arr c q' slots (l' ++ [(n, x)]) rest /\
  completed_sds slots (l' ++ [(n, x)]) = completed_sds slots l ++ [req_sd r].
Proof.
  intros [Hc Hf Htab Hq Harr Hsl Hmax Hcur Hch Hown Hreq Hnd] [Hctx Hg _ _ _] Ht Hrq Hq' H1 H2 H3 Hmap
    Hx Hk Hr Hsd Hkl Hch' Hown'.
  assert (forall (f : ptr * Z -> Z), (fun y : positive * completed_connect_t => f (request y.2)) <$> l' = (fun y => f (request y.2)) <$> l)
    as Hf'.
  { intros f. change (map (fun y : positive * completed_connect_t => f (request y.2)) l'
      = map (fun y : positive * completed_connect_t => f (request y.2)) l).
    by rewrite <- (map_map (fun y : positive * completed_connect_t => request y.2) f), Hmap, map_map. }
  split.
  - split; rewrite ?Hctx, ?Ht, ?Hrq, ?H1, ?H2, ?H3; try done.
    + apply Forall_app. split; [|apply Forall_singleton; by exists k, r].
      rewrite Forall_forall in Hreq |- *. intros y Hy.
      assert (request y.2 ∈ map (fun y : positive * completed_connect_t => request y.2) l') as Hin
        by (apply list_elem_of_fmap; by exists y).
      rewrite Hmap in Hin. apply list_elem_of_fmap in Hin as (z & Hz & Hzl).
      destruct (Hreq z Hzl) as (k2 & r2 & Hz2 & Hrest). exists k2, r2. by rewrite Hz.
    + unfold positions. rewrite fmap_app, (Hf' snd). apply NoDup_app.
      split_and!; [done| |by apply NoDup_singleton]. intros j Hj Hin.
      apply list_elem_of_singleton in Hin. cbn in Hin. rewrite Hx in Hin. cbn in Hin. by subst j.
  - rewrite (completed_sds_snoc _ _ _ _ _ _ Hx Hr). f_equal.
    apply (Hf' (fun p => default (-1) (req_sd <$> slots !! Z.to_nat p.2))).
Qed.

Lemma append_completed_ok s a qa arr c q slots l rest k r :
  listen_inv s a qa arr c q slots l rest -> 0 <= k -> slots !! Z.to_nat k = Some r -> 0 <= req_sd r ->
  k ∉ positions l ->
  exists s' q' l', append_completed (Some qa) q (Some arr, k) s = Ok (tt, s') /\
    listen_inv s' a qa arr c q' slots l' rest /\
    completed_sds slots l' = completed_sds slots l ++ [req_sd r] /\ same_tables s s'.
Proof.
  intros I Hk Hr Hsd Hkl. pose proof I as [Hc Hf Htab Hq Harr Hsl Hmax Hcur Hch Hown Hreq Hnd].
  unfold append_completed. set (n := CompletedConnect (Some arr, k) NULL).
  set (new := brk (completions s)). set (s1 := set_completions (halloc (completions s) n).2 s).
  rewrite m_bind_ok with (a := Some new) (s' := s1) by done.
  pose proof (owning_alloc _ _ _ n Hown) as Hown1. fold new in Hown1.
  m_step. rewrite m_bind_ok with (a := fst <$> last l) (s' := s1).
  2:{ apply last_completed_ok; [done| |].
      - intros r0 x0 Hin. apply (owning_load _ _ _ _ _ Hown1). rewrite elem_of_app. by left.
      - pose proof (owning_size _ _ _ Hown1) as Hsz. rewrite length_app in Hsz. cbn in Hsz |- *. lia. }
  destruct l as [|[t x] l _] using rev_ind.
  - cbn [last fmap option_fmap option_map]. rewrite decide_True by done.
    erewrite (update_lq_ok s1) by exact Hq.
    eexists _, (set_completed_queue (Some new) q), ([] ++ [(new, n)]). split; [reflexivity|].
    and_left; [done|]. eapply listen_inv_snoc; try done. cbn. by rewrite lookup_insert_eq.
  - rewrite last_snoc. cbn [fmap option_fmap option_map fst]. rewrite decide_False by done.
    rewrite <- app_assoc in Hown1. cbn [app] in Hown1.
    set (x' := CompletedConnect (request x) (Some new)).
    destruct (owning_store _ _ _ _ _ x' _ Hown1) as (h & Hst & Hown2).
    assert (hload (completions s1) (Some t) = Ok x) as Hlt.
    { apply (owning_load _ _ _ _ _ Hown1). rewrite elem_of_app. right. by left. }
    assert (link_comp (Some t) (Some new) s1 = Ok (tt, set_completions h s1)) as ->.
    { unfold link_comp. rewrite Hlt. cbn [mbind run_bind].
      fold x'. change (completions s1) with (halloc (completions s) n).2. by rewrite Hst. }
    exists (set_completions h s1), q, ((l ++ [(t, x')]) ++ [(new, n)]). split; [done|].
    and_left; [done|]. eapply (listen_inv_snoc s); try done; [by rewrite !map_app| |].
    + rewrite <- app_assoc. apply linked_app in Hch as (p & Hch1 & -> & _). apply linked_app. by exists (Some t).
    + by rewrite <- app_assoc.
Qed.

(** The handshake of the connection [cb] at [b], waiting in slot [k], has
    completed: it joins the end of the completed queue. *)
Lemma complete_ok s a qa arr c q slots l rest b cb k r :
  listen_inv s a qa arr c q slots l rest ->
  cells (contexts s) !! b = Some cb -> 0 <= listen_sd cb ->
  descriptor s (listen_sd cb) a c ->
  0 <= k -> slots !! Z.to_nat k = Some r -> req_sd r = my_sd cb -> 0 <= my_sd cb ->
  (forall j r', 0 <= j -> slots !! Z.to_nat j = Some r' -> req_sd r' = my_sd cb -> j = k) ->
  my_sd cb ∉ completed_sds slots l ->
  exists s' q' l', _mysock_passive_connection_complete (Some b) s = Ok (tt, s') /\
    listen_inv s' a qa arr c q' slots l' rest /\
    completed_sds slots l' = completed_sds slots l ++ [my_sd cb] /\ same_tables s s'.
Proof.
  intros I Hb Hls Hd Hk Hr Hsd Hpos Huniq Hnew.
  pose proof I as [Hc Hf Htab Hq Harr Hsl Hmax Hcur Hch Hown Hreq Hnd].
  unfold _mysock_passive_connection_complete. m_step. m_step. m_step.
  erewrite m_bind_ok by (eapply get_context_ok; exact Hd).
  m_use (get_queue_ok _ _ _ _ _ _ _ _ _ I). rewrite decide_False by done. m_step.
  rewrite Harr, Hmax, Nat2Z.id. m_use (find_request_ok s arr slots (my_sd cb) k r Hsl Hk Hr Hsd Huniq).
  rewrite <- Hsd. apply (append_completed_ok s a qa arr c); [done|done|done|lia|].
  intros Hin. apply list_elem_of_fmap in Hin as (x & Hkx & Hx). apply Hnew.
  unfold completed_sds. apply list_elem_of_fmap. exists x. split; [|done]. by rewrite <- Hkx, Hr.
Qed.

(** ** The schedule of completed handshakes and accepts *)

(** A connection completes its handshake, or the application accepts one. *)
Inductive accept_op : Type := Complete (b : positive) | Accept.

Fixpoint run_accepts (a : positive) (ops : list accept_op) : M T W (list ptr) :=
  match ops with
  | [] => mret []
  | Complete b :: ops => _mysock_passive_connection_complete (Some b);; run_accepts a ops
  | Accept :: ops =>
      p ← _mysock_dequeue_connection (Some a); ps ← run_accepts a ops; mret (p :: ps)
  end.

Fixpoint completing (ops : list accept_op) : list positive :=
  match ops with
  | [] => []
  | Complete b :: ops => b :: completing ops
  | Accept :: ops => completing ops
  end.

(** With [n] connections ready, no accept finds the queue empty. *)
Fixpoint never_waits (n : nat) (ops : list accept_op) : bool :=
  match ops with
  | [] => true
  | Complete _ :: ops => never_waits (S n) ops
  | Accept :: ops => match n with O => false | S n => never_waits n ops end
  end.

(** The context a descriptor names. *)
Definition ctx_of s (sd : Z) : ptr := default NULL (global_ctx s !! Z.to_nat sd).

(** The connection at [b] holds a slot and has not completed. *)
Definition waiting s (c : mysock_context_t) (slots : list connect_request_t) (done_sds : list Z)
    (b : positive) : Prop :=
  exists cb k r, cells (contexts s) !! b = Some cb /\ descriptor s (my_sd cb) b cb /\
    listen_sd cb = my_sd c /\ slots !! k = Some r /\ req_sd r = my_sd cb /\ my_sd cb ∉ done_sds.

(** No two slots hold the same descriptor. *)
Definition distinct_sds (slots : list connect_request_t) : Prop :=
  forall i j ri rj, slots !! i = Some ri -> slots !! j = Some rj -> 0 <= req_sd ri ->
    req_sd ri = req_sd rj -> i = j.

Lemma completed_sds_invalidate slots k l :
  k ∉ (fun x : positive * completed_connect_t => (request x.2).2) <$> l ->
  Forall (fun x : positive * completed_connect_t => 0 <= (request x.2).2) l -> 0 <= k ->
  completed_sds (<[Z.to_nat k := invalid_request]> slots) l = completed_sds slots l.
Proof.
  intros Hk Hl Hpos. unfold completed_sds. apply list_fmap_ext. intros i x Hx.
  rewrite list_lookup_insert_ne; [done|]. intros Heq. apply Hk.
  apply list_elem_of_fmap. exists x. apply list_elem_of_lookup_2 in Hx. split; [|done].
  rewrite Forall_forall in Hl. specialize (Hl x Hx). cbn in Hl. lia.
Qed.

Lemma accept_blocks s a qa arr c q slots rest :
  listen_inv s a qa arr c q slots [] rest ->
  _mysock_dequeue_connection (Some a) s = Crash Blocks.
Proof.
  intros I. pose proof I as [Hc Hf Htab Hq Harr Hsl Hmax Hcur Hch Hown Hreq Hnd].
  unfold _mysock_dequeue_connection. m_step. m_step. m_step.
  m_use (get_queue_ok _ _ _ _ _ _ _ _ _ I). m_step. m_step. cbn in Hch. rewrite Hch.
  by rewrite decide_True by done.
Qed.

(** The hypotheses of a run of the operations [ops]: completed connections
    have contexts, and every connection about to complete is waiting. *)
Record accepting s (a qa arr : positive) (c : mysock_context_t) (q : listen_queue_t)
    (slots : list connect_request_t) (l : list (positive * completed_connect_t))
    (rest : gmap positive completed_connect_t) (ops : list accept_op) : Prop := {
  ac_inv : listen_inv s a qa arr c q slots l rest;
  ac_distinct : distinct_sds slots;
  ac_self : descriptor s (my_sd c) a c;
  ac_done : Forall (fun sd => exists b cb, descriptor s sd b cb) (completed_sds slots l);
  ac_nodup : NoDup (completing ops);
  ac_waiting : Forall (waiting s c slots (completed_sds slots l)) (completing ops)
}.

Lemma descriptor_same s s' sd b c :
  contexts s' = contexts s -> global_ctx s' = global_ctx s -> descriptor s sd b c -> descriptor s' sd b c.
Proof. intros Hctx Hg. unfold descriptor. by rewrite Hctx, Hg. Qed.

Lemma ctx_of_descriptor s sd b c : descriptor s sd b c -> ctx_of s sd = Some b.
Proof. intros (_ & Hg & _). unfold ctx_of. by rewrite Hg. Qed.

Lemma complete_step s a qa arr c q slots l rest b ops :
  accepting s a qa arr c q slots l rest (Complete b :: ops) ->
  exists s' q' l' sd, _mysock_passive_connection_complete (Some b) s = Ok (tt, s') /\
    accepting s' a qa arr c q' slots l' rest ops /\ length l' = S (length l) /\
    completed_sds slots l' = completed_sds slots l ++ [sd] /\ ctx_of s sd = Some b /\
    contexts s' = contexts s /\ ctx_of s' = ctx_of s.
Proof.
  intros [I Hdist Hda Hcd Hnd Hw].
  cbn [completing] in Hnd, Hw. apply NoDup_cons in Hnd as [Hb Hnd].
  apply Forall_cons in Hw as [(cb & k & r & Hcb & Hdb & Hls & Hk & Hr & Hnew) Hw].
  destruct (complete_ok s a qa arr c q slots l rest b cb (Z.of_nat k) r I Hcb)
    as (s1 & q1 & l1 & Hrun & I1 & Hsds & [Hctx Hg _ _ _]);
    [rewrite Hls; by destruct Hda|by rewrite Hls|lia|by rewrite Nat2Z.id|done|by destruct Hdb| |done|].
  { intros j r' Hj Hr' Hsd. assert (Z.to_nat j = k) by
      (apply (Hdist _ _ r' r); [done|done|rewrite Hsd; by destruct Hdb|congruence]). lia. }
  exists s1, q1, l1, (my_sd cb). split_and!; [done| | |done|by eapply ctx_of_descriptor|done|].
  - split; [done|done|by eapply descriptor_same| |done|].
    + rewrite Hsds, Forall_app, Forall_singleton. split.
      * eapply Forall_impl; [exact Hcd|]. intros sd (b' & c' & Hd'). exists b', c'.
        by eapply descriptor_same.
      * exists b, cb. by eapply descriptor_same.
    + rewrite Forall_forall in Hw |- *. intros b' Hb'.
      destruct (Hw b' Hb') as (cb' & k' & r' & Hcb' & Hdb' & Hls' & Hk' & Hr' & Hnew').
      exists cb', k', r'. rewrite Hctx. split_and!; try done; [by eapply descriptor_same|].
      rewrite Hsds, elem_of_app, list_elem_of_singleton. intros [?|Heq]; [done|].
      destruct Hdb as (_ & Hg1 & _), Hdb' as (_ & Hg2 & _). rewrite Heq in Hg2.
      assert (b = b') as -> by congruence. done.
  - apply (f_equal length) in Hsds. unfold completed_sds in Hsds.
    rewrite length_app, !length_fmap in Hsds. cbn in Hsds. lia.
  - unfold ctx_of. by rewrite Hg.
Qed.

Lemma distinct_invalidate slots k :
  distinct_sds slots -> distinct_sds (<[k := invalid_request]> slots).
Proof.
  intros Hdist i j ri rj Hi Hj Hp Heq.
  apply list_lookup_insert_Some in Hi as [(<- & <- & _)|[Hni Hi]]; [cbn in Hp; lia|].
  apply list_lookup_insert_Some in Hj as [(<- & <- & _)|[Hnj Hj]]; [cbn in Heq; lia|].
  by apply (Hdist i j ri rj).
Qed.

Lemma accept_step s a qa arr c q slots y l rest ops :
  accepting s a qa arr c q slots (y :: l) rest (Accept :: ops) ->
  exists s' q' slots' sd, _mysock_dequeue_connection (Some a) s = Ok (ctx_of s sd, s') /\
    accepting s' a qa arr c q' slots' l rest ops /\
    completed_sds slots (y :: l) = sd :: completed_sds slots' l /\
    contexts s' = contexts s /\ ctx_of s' = ctx_of s.
Proof.
  destruct y as [ra x]. intros [I Hdist Hda Hcd Hnd Hw].
  pose proof (li_req _ _ _ _ _ _ _ _ _ I) as Hreq.
  apply Forall_cons in Hreq as [(k & r & Hx & Hkp & Hr & Hpos) Hreq]. cbn in Hx.
  assert (completed_sds slots ((ra, x) :: l) = req_sd r :: completed_sds slots l) as Hsds
    by (unfold completed_sds; cbn; rewrite Hx; cbn; by rewrite Hr).
  rewrite Hsds in Hcd, Hw. apply Forall_cons in Hcd as [(b & cb & Hdb) Hcd].
  destruct (dequeue_connection_ok s a qa arr c q slots ra x l rest k r b cb I Hx Hr Hdb)
    as (s1 & q1 & Hrun & I1 & [Hctx Hg _ _ _]).
  pose proof (li_nodup _ _ _ _ _ _ _ _ _ I) as Hndl. cbn in Hndl.
  apply NoDup_cons in Hndl as [Hkn _]. rewrite Hx in Hkn. cbn in Hkn.
  assert (completed_sds (<[Z.to_nat k := invalid_request]> slots) l = completed_sds slots l) as Hinv.
  { apply completed_sds_invalidate; [done| |done]. eapply Forall_impl; [exact Hreq|].
    intros y (k' & r' & Hy & Hk' & _). rewrite Hy. done. }
  exists s1, q1, (<[Z.to_nat k := invalid_request]> slots), (req_sd r).
  rewrite (ctx_of_descriptor _ _ _ _ Hdb), Hinv.
  split_and!; [done| |done|done|unfold ctx_of; by rewrite Hg].
  split; [done|by apply distinct_invalidate|by eapply descriptor_same| |done|].
  - rewrite Hinv. eapply Forall_impl; [exact Hcd|]. intros sd (b' & c' & Hd').
    exists b', c'. by eapply descriptor_same.
  - rewrite Hinv. eapply Forall_impl; [exact Hw|].
    intros b' (cb' & k' & r' & Hcb' & Hdb' & Hls' & Hk' & Hr' & Hnew').
    rewrite not_elem_of_cons in Hnew'. destruct Hnew' as [Hne Hnew'].
    exists cb', k', r'. rewrite Hctx. split_and!; try done; [by eapply descriptor_same|].
    rewrite list_lookup_insert_ne; [done|]. intros <-. congruence.
Qed.

(** The listen queue hands out connections first come, first served.
    Under every schedule of completed handshakes and accepts on a listening
    socket, the contexts [_mysock_dequeue_connection] returns, followed by
    those still queued, are the ones queued at first followed by those whose
    handshake completed, in order; each accept frees its request slot, and
    the run blocks exactly when an accept finds no completed connection. *)
Theorem accept_queue_fifo a qa arr c rest ops : forall s q slots l,
  accepting s a qa arr c q slots l rest ops ->
  if never_waits (length l) ops
  then exists ps s' q' slots' l', run_accepts a ops s = Ok (ps, s') /\
         listen_inv s' a qa arr c q' slots' l' rest /\ contexts s' = contexts s /\
         ps ++ (ctx_of s <$> completed_sds slots' l')
         = (ctx_of s <$> completed_sds slots l) ++ (Some <$> completing ops)
  else run_accepts a ops s = Crash Blocks.
Proof.
  induction ops as [|[b|] ops IH]; intros s q slots l A.
  - exists [], s, q, slots, l. split_and!; [done|apply A|done|]. by rewrite app_nil_r.
  - destruct (complete_step _ _ _ _ _ _ _ _ _ _ _ A)
      as (s1 & q1 & l1 & sd & Hrun & A1 & Hlen & Hsds & Hb & Hctx & Hco).
    specialize (IH s1 q1 slots l1 A1). rewrite Hlen in IH.
    cbn [never_waits run_accepts completing]. rewrite (m_bind_ok _ _ _ _ _ Hrun).
    destruct (never_waits (S (length l)) ops); [|done].
    destruct IH as (ps & s' & q' & slots' & l' & Hr' & I' & Hctx' & Heq).
    exists ps, s', q', slots', l'. split_and!; [done|done|congruence|].
    rewrite Hco, Hsds, fmap_app, <- app_assoc in Heq. rewrite Heq. cbn. by rewrite Hb.
  - destruct l as [|y l].
    { cbn [length never_waits run_accepts]. rewrite (m_bind_crash _ _ _ Blocks); [done|].
      eapply accept_blocks. apply A. }
    destruct (accept_step _ _ _ _ _ _ _ _ _ _ _ A)
      as (s1 & q1 & slots1 & sd & Hrun & A1 & Hsds & Hctx & Hco).
    specialize (IH s1 q1 slots1 l A1).
    cbn [length never_waits run_accepts completing]. rewrite (m_bind_ok _ _ _ _ _ Hrun).
    destruct (never_waits (length l) ops); [|by rewrite (m_bind_crash _ _ _ Blocks)].
    destruct IH as (ps & s' & q' & slots' & l' & Hr' & I' & Hctx' & Heq).
    exists (ctx_of s sd :: ps), s', q', slots', l'. rewrite (m_bind_ok _ _ _ _ _ Hr').
    split_and!; [done|done|congruence|]. rewrite Hco in Heq. rewrite Hsds. cbn. by rewrite Heq.
Qed.

(** ** Arriving SYN packets *)

(** The context of an accepted connection. *)
Definition accepted_context (i : positive) (k listener : Z) (addr : sockaddr_in) (alen : Z)
    (pq : packet_queue_t) : mysock_context_t :=
  let c := set_listen_sd listener (set_my_sd k (fresh_context i)) in
  let net := set_peer_addr_valid true (set_peer_addr_len alen (set_peer_addr addr (network_state c))) in
  set_network_recv_queue pq
    (set_transport_thread_started true (set_is_active false (set_network_state net c))).

Lemma heap_put_comm {A} a b (x y : A) (h : heap A) : a <> b ->
  heap_put a x (heap_put b y h) = heap_put b y (heap_put a x h).
Proof. intros Hne. unfold heap_put. cbn. by rewrite insert_insert_ne. Qed.

Lemma passive_state_ok s na a cn c ni ai nt at' :
  cells (contexts s) !! na = Some cn -> cells (contexts s) !! a = Some c ->
  impl_data (network_state cn) = Some ni -> impl_data (network_state c) = Some ai ->
  cells (impls s) !! ni = Some nt -> cells (impls s) !! ai = Some at' -> ni <> ai ->
  sock_ctx nt = Some na -> listening cn = false -> is_active cn = false ->
  _network_update_passive_state (Some na) (Some a) false s
  = Ok (tt, set_impls (heap_put ai (set_new_socket (-1) at')
              (heap_put ni (set_connected true (set_socket (new_socket at') nt)) (impls s)))
            (set_world (os_close (socket nt) (world s)) s)).
Proof.
  intros Hn Ha Hni Hai Hnt Hat Hne Hsc Hl Hact. unfold _network_update_passive_state, impl_of.
  m_step. rewrite m_bind_ok with (a := Some ni) (s' := s)
    by (erewrite m_bind_ok by (by apply load_ctx_ok); cbn; by rewrite Hni).
  rewrite m_bind_ok with (a := Some ai) (s' := s)
    by (erewrite m_bind_ok by (by apply load_ctx_ok); cbn; by rewrite Hai).
  m_step. m_step. m_step. rewrite Hsc. m_step. rewrite Hl, Hact. m_step. m_step. m_step.
  erewrite m_bind_ok by (apply update_impl_ok; exact Hnt).
  erewrite update_impl_ok by (cbn; by rewrite lookup_insert_ne). done.
Qed.

Lemma transport_init_ok s sd a c act i t :
  descriptor s sd a c -> listening c = false -> impl_data (network_state c) = Some i ->
  cells (impls s) !! i = Some t ->
  _mysock_transport_init sd act s
  = Ok (tt, set_contexts (heap_put a (set_transport_thread_started true (set_is_active act c)) (contexts s))
              (set_impls (heap_put i (set_recv_thread_started true t) (impls s)) s)).
Proof.
  intros Hd Hl Hi Ht. pose proof Hd as (Hsd & Hg & Hc & Hm). unfold _mysock_transport_init.
  erewrite m_bind_ok by (eapply get_context_ok; exact Hd). m_step.
  rewrite Hl. m_step. erewrite m_bind_ok by (apply update_ctx_ok; exact Hc).
  rewrite m_bind_ok with (a := 0) (s' := set_contexts (heap_put a (set_is_active act c) (contexts s))
    (set_impls (heap_put i (set_recv_thread_started true t) (impls s)) s)).
  - m_step. erewrite update_ctx_ok by (cbn; apply lookup_insert_eq).
    cbn [contexts set_contexts]. by rewrite heap_put_put.
  - unfold _network_start_recv_thread, impl_of.
    rewrite m_bind_ok with (a := Some i) (s' := set_contexts (heap_put a (set_is_active act c) (contexts s)) s)
      by (erewrite m_bind_ok by (apply load_ctx_ok; cbn; apply lookup_insert_eq); cbn; by rewrite Hi).
    m_step. erewrite m_bind_ok by (apply update_impl_ok; exact Ht). done.
Qed.

Lemma new_descriptor_lookup s k (c : mysock_context_t) imp w :
  (k < length (global_ctx s))%nat -> my_sd c = Z.of_nat k ->
  descriptor (set_contexts (heap_add c (contexts s))
    (set_global_ctx (<[k := Some (brk (contexts s))]> (global_ctx s))
      (set_impls (heap_add imp (impls s)) (set_world w s)))) (Z.of_nat k) (brk (contexts s)) c.
Proof.
  intros Hk Hm. split_and!; cbn; [lia| | |done].
  - rewrite Nat2Z.id. by apply list_lookup_insert_eq.
  - apply lookup_insert_eq.
Qed.

Lemma debug_print_eq addr s : _debug_print_connection addr s
  = if decide (sa_family addr = AF_INET) then Ok (tt, s) else Crash Abort.
Proof.
  unfold _debug_print_connection. case_decide; [by apply m_assert_dec|].
  by rewrite bool_decide_false.
Qed.

(** Dropping a segment. *)
Lemma drop_eq addr s : (_debug_print_connection addr;; mret false) s
  = if decide (sa_family addr = AF_INET) then Ok (false, s) else Crash Abort.
Proof.
  pose proof (debug_print_eq addr s) as Hd. case_decide; [by m_use Hd|by apply m_bind_crash].
Qed.

Lemma establish_ok s a c qa arr slots j rj packet n addr alen fd fds w k ai at' :
  table_ok s -> heap_wf (queue_nodes s) ->
  cells (contexts s) !! a = Some c -> cells (requests s) !! arr = Some slots ->
  slots !! j = Some rj -> req_sd rj = -1 -> os_grants (world s) fd fds w ->
  first_free (global_ctx s) = Some k -> impl_data (network_state c) = Some ai ->
  cells (impls s) !! ai = Some at' -> 0 <= n <= zlen packet ->
  if decide (sa_family addr = AF_INET) then
  exists h' pq', establish (Some a) (Some qa) (Some arr, Z.of_nat j) packet n addr alen false s
    = Ok (true, State
        (heap_add (accepted_context (brk (impls s)) (Z.of_nat k) (my_sd c) addr alen pq') (contexts s))
        (<[k := Some (brk (contexts s))]> (global_ctx s)) h'
        (heap_put ai (set_new_socket (-1) at')
          (heap_add (TcpCtx true (new_socket at') fds (Some (brk (contexts s))) (-1) true) (impls s)))
        (listen_queues s)
        (heap_put arr (<[j := ConnectRequest addr alen (Z.of_nat k) false]> slots) (requests s))
        (completions s) (listen_table s) (errno s) (os_close fd w)) /\
    queue_rep h' pq' [take (Z.to_nat n) packet] (cells (queue_nodes s))
  else establish (Some a) (Some qa) (Some arr, Z.of_nat j) packet n addr alen false s = Crash Abort.
Proof.
  intros Ht Hwq Hc Hreq Hj Hrj Hos Hff Hai Hat Hn.
  pose proof (lookup_lt_Some _ _ _ Hj) as Hjlt.
  destruct (first_free_bound _ _ Hff) as [Hk _].
  assert (brk (contexts s) <> a) as Hna.
  { intros <-. rewrite heap_wf_fresh in Hc by apply Ht. done. }
  assert (brk (impls s) <> ai) as Hni.
  { intros <-. rewrite heap_wf_fresh in Hat by apply Ht. done. }
  unfold establish.
  rewrite m_bind_ok with (a := rj) (s' := s)
    by (apply (load_req_ok _ arr slots); [done|lia|by rewrite Nat2Z.id]).
  m_step. m_use (new_mysocket_ok s fd fds w k Ht Hos Hff).
  erewrite m_bind_ok by (apply (load_req_ok _ arr slots); [exact Hreq|lia|by rewrite Nat2Z.id]).
  erewrite m_bind_ok by (apply (store_req_ok _ arr slots); [exact Hreq|lia]).
  rewrite (decide_False (P := Z.of_nat k < 0)) by lia.
  erewrite m_bind_ok by (eapply get_context_ok, new_descriptor_lookup; [exact Hk|reflexivity]).
  erewrite m_bind_ok by (apply load_ctx_ok; cbn; rewrite lookup_insert_ne by done; exact Hc).
  unfold update_net.
  do 4 (erewrite m_bind_ok by (apply update_ctx_ok; cbn; apply lookup_insert_eq);
        cbn [contexts set_contexts set_requests]; rewrite heap_add_put).
  erewrite m_bind_ok
    by (apply (store_req_ok _ arr (<[Z.to_nat (Z.of_nat j) := ConnectRequest (req_peer_addr rj)
          (req_peer_addr_len rj) (Z.of_nat k) (user_data rj)]> slots));
        [cbn; apply lookup_insert_eq|rewrite length_insert; lia]).
  cbn [requests set_contexts set_requests]. rewrite heap_put_put, list_insert_insert_eq, Nat2Z.id.
  case_decide as Hfam; [|apply m_bind_crash; by rewrite debug_print_eq, decide_False].
  erewrite m_bind_ok by (rewrite debug_print_eq, decide_True by done; reflexivity).
  erewrite m_bind_ok by (eapply (passive_state_ok _ _ a _ c (brk (impls s)) ai _ at');
    [cbn; apply lookup_insert_eq|cbn; by rewrite lookup_insert_ne|reflexivity|exact Hai
    |cbn; apply lookup_insert_eq|cbn; by rewrite lookup_insert_ne|done|reflexivity|reflexivity|reflexivity]).
  cbn [impls set_impls set_requests set_global_ctx set_contexts]. rewrite heap_add_put.
  erewrite m_bind_ok.
  2:{ eapply transport_init_ok.
      - split_and!; [lia| | |].
        + cbn. rewrite Nat2Z.id. by apply list_lookup_insert_eq.
        + cbn. apply lookup_insert_eq.
        + reflexivity.
      - reflexivity.
      - reflexivity.
      - cbn. rewrite lookup_insert_ne by done. apply lookup_insert_eq. }
  cbn [contexts impls set_impls set_contexts set_world set_requests set_global_ctx].
  rewrite heap_add_put, (heap_put_comm (brk (impls s))), heap_add_put by done.
  destruct (enqueue_ok (queue_nodes s) empty_queue [] (cells (queue_nodes s)) packet n)
    as (h' & pq' & Henq & Hrep); [by apply queue_rep_empty|done|].
  exists h', pq'. split; [|exact Hrep].
  erewrite m_bind_ok by (eapply m_enqueue_eq; [cbn; apply lookup_insert_eq|exact Henq]).
  cbn [contexts set_contexts]. rewrite heap_add_put. reflexivity.
Qed.

(** Slots are empty, or hold a descriptor and an address of [alen] bytes. *)
Definition slots_ok (slots : list connect_request_t) (alen : Z) : Prop :=
  Forall (fun r => req_sd r = -1 \/ 0 <= req_sd r /\ req_peer_addr_len r = alen) slots.

Lemma used_full slots : first_empty slots = None -> used slots = zlen slots.
Proof.
  unfold first_empty. destruct (list_find _ slots) eqn:Hf; [done|]. intros _.
  apply list_find_None in Hf. unfold used. induction Hf as [|r slots Hr Hf IH]; [done|].
  rewrite filter_cons, decide_True by lia. cbn [length]. lia.
Qed.

Lemma used_le slots : used slots <= zlen slots.
Proof. unfold used. pose proof (length_filter (fun r => 0 <= req_sd r) slots). lia. Qed.

Lemma syn_check packet n s : 0 <= n <= zlen packet ->
  (if decide (n < sizeof_tcphdr) then mret true
   else flags ← lift (arr_get packet offsetof_th_flags);
        mret (bool_decide (Z.land flags TH_SYN = 0))) s = Ok (negb (is_syn packet n), s).
Proof.
  intros Hn. unfold is_syn. case_decide as Hs.
  - by rewrite bool_decide_false by lia.
  - rewrite bool_decide_true by lia. cbn [andb].
    destruct (lookup_lt_is_Some_2 packet 13) as [f Hf]; [unfold sizeof_tcphdr in Hs; lia|].
    rewrite (m_bind_ok _ _ _ f s); [rewrite Hf, negb_involutive; unfold mret, M_ret; do 2 f_equal; by apply bool_decide_ext|].
    unfold lift. by rewrite (arr_get_ok _ _ f).
Qed.

Lemma retransmission_scan s arr slots addr alen n :
  cells (requests s) !! arr = Some slots -> slots_ok slots alen -> 0 <= alen <= 16 ->
  n = length slots ->
  exists o, m_for n 0 (retransmission_at (Some arr) addr alen) s = Ok (o, s) /\
    (o = Some tt <-> known_peer slots addr alen = true).
Proof.
  intros Ha Hok Hlen ->.
  set (same r := bool_decide (take (Z.to_nat alen) (sockaddr_bytes (req_peer_addr r))
                                 = take (Z.to_nat alen) (sockaddr_bytes addr))).
  set (f j := if default false (same <$> slots !! Z.to_nat j) then Some tt else None).
  exists (first_some (length slots) 0 f). split.
  - apply m_for_find. intros j Hj. unfold retransmission_at, f.
    destruct (lookup_lt_is_Some_2 slots (Z.to_nat j)) as [r Hr]; [lia|].
    pose proof (Forall_lookup_1 _ _ _ _ Hok Hr) as Hrok.
    rewrite (m_bind_ok _ _ _ r s) by (apply (load_req_ok _ arr slots); [done|lia|done]).
    rewrite (m_bind_ok _ _ _ tt s) by (apply m_assert_dec; intuition lia).
    unfold same_addr. rewrite (decide_True _ _ Hlen). fold (same r).
    rewrite (m_bind_ok _ _ _ (same r) s) by reflexivity. rewrite Hr. reflexivity.
  - assert (known_peer slots addr alen = existsb same slots) as ->.
    { unfold known_peer. clear. induction slots as [|r slots IH]; [done|]. cbn [existsb]. rewrite IH.
      f_equal. unfold same. by apply bool_decide_ext. }
    rewrite existsb_exists. split.
    + intros Hs. apply first_some_inv in Hs as (j & Hj & Hfj). unfold f in Hfj.
      destruct (slots !! Z.to_nat j) as [r|] eqn:Hr; [|done]. cbn in Hfj.
      exists r. split; [apply list_elem_of_In; by eapply list_elem_of_lookup_2|].
      by destruct (same r).
    + intros (r & Hin & Hr). destruct (first_some _ _ _) as [[]|] eqn:Hs; [done|]. exfalso.
      apply list_elem_of_In, list_elem_of_lookup in Hin as [j Hj].
      rewrite first_some_none in Hs. specialize (Hs (Z.of_nat j)).
      pose proof (lookup_lt_Some _ _ _ Hj). unfold f in Hs.
      rewrite Nat2Z.id, Hj in Hs. cbn in Hs. rewrite Hr in Hs.
      specialize (Hs ltac:(lia)). done.
Qed.

Lemma empty_slot_scan s arr slots n :
  cells (requests s) !! arr = Some slots -> n = length slots ->
  m_for n 0 (empty_slot_at (Some arr)) s = Ok (Z.of_nat <$> first_empty slots, s).
Proof.
  intros Ha ->.
  set (f j := match slots !! Z.to_nat j with
              | Some r => if decide (req_sd r < 0) then Some j else None | None => None end).
  assert (first_some (length slots) 0 f = Z.of_nat <$> first_empty slots) as <-.
  { clear Ha. unfold first_empty.
    assert (forall pre suf, first_some (length suf) (zlen pre)
      (fun j => match (pre ++ suf) !! Z.to_nat j with
                | Some r => if decide (req_sd r < 0) then Some j else None | None => None end)
      = (fun k => zlen pre + Z.of_nat k) <$> (fst <$> list_find (fun r => req_sd r < 0) suf)) as Hg.
    2:{ specialize (Hg [] slots). cbn [app length] in Hg. change (Z.of_nat 0) with 0 in Hg.
        unfold f. rewrite Hg. by destruct (list_find _ slots) as [[]|]. }
    intros pre suf. revert pre. induction suf as [|r suf IH]; intros pre; [done|].
    cbn [first_some length list_find]. rewrite Nat2Z.id, list_lookup_middle by done.
    case_decide; cbn; [f_equal; lia|].
    specialize (IH (pre ++ [r])). rewrite length_app, <- app_assoc in IH. cbn in IH.
    replace (zlen pre + 1) with (Z.of_nat (length pre + 1)) by lia. rewrite IH.
    destruct (list_find _ suf) as [[k x]|]; cbn; [f_equal; lia|done]. }
  apply m_for_find. intros j Hj. unfold empty_slot_at, f.
  destruct (lookup_lt_is_Some_2 slots (Z.to_nat j)) as [r Hr]; [lia|].
  rewrite (m_bind_ok _ _ _ r s) by (apply (load_req_ok _ arr slots); [done|lia|done]).
  by rewrite Hr.
Qed.

Lemma listen_inv_insert s s' a qa arr c q slots l rest j rj r :
  listen_inv s a qa arr c q slots l rest -> slots !! j = Some rj -> req_sd rj < 0 ->
  cells (contexts s') !! a = Some c -> listen_table s' = listen_table s ->
  cells (listen_queues s') !! qa = Some (set_cur_len (used (<[j := r]> slots)) q) ->
  cells (requests s') !! arr = Some (<[j := r]> slots) -> completions s' = completions s ->
  listen_inv s' a qa arr c (set_cur_len (used (<[j := r]> slots)) q) (<[j := r]> slots) l rest.
Proof.
  intros [Hc Hf Htab Hq Harr Hsl Hmax Hcur Hch Hown Hreq Hnd] Hj Hrj Hc' Ht' Hq' Hr' Hco'.
  split; try done.
  - by rewrite Ht'.
  - by rewrite length_insert.
  - by rewrite Hco'.
  - eapply Forall_impl; [exact Hreq|]. intros x (k & rk & Hx & Hk & Hrk & Hu).
    exists k, rk. split_and!; try done. rewrite list_lookup_insert_ne; [done|]. intros ->.
    assert (rk = rj) as -> by congruence. lia.
Qed.

Lemma first_empty_inv slots j : first_empty slots = Some j ->
  exists r, slots !! j = Some r /\ req_sd r < 0 /\
    forall i ri, (i < j)%nat -> slots !! i = Some ri -> 0 <= req_sd ri.
Proof.
  unfold first_empty. destruct (list_find _ slots) as [[k r]|] eqn:Hf; [|done]. cbn.
  intros [= ->]. apply list_find_Some in Hf as (Hj & Hr & Hb). exists r. split_and!; [done|done|].
  intros i ri Hi Hri. pose proof (Hb i ri Hri Hi). lia.
Qed.

(** The decisions taken before a slot is claimed. *)
Lemma enqueue_prefix s a qa arr c q slots l rest packet n addr alen ud :
  listen_inv s a qa arr c q slots l rest -> slots_ok slots alen -> 0 < alen <= 16 ->
  0 <= n <= zlen packet ->
  _mysock_enqueue_connection (Some a) packet n addr alen ud s
  = if negb (is_syn packet n) || known_peer slots addr alen || bool_decide (used slots = zlen slots)
    then if decide (sa_family addr = AF_INET) then Ok (false, s) else Crash Abort
    else match first_empty slots with
         | Some j => establish (Some a) (Some qa) (Some arr, Z.of_nat j) packet n addr alen ud
                       (set_listen_queues (heap_put qa (set_cur_len (cur_len q + 1) q) (listen_queues s)) s)
         | None => Crash Abort
         end.
Proof.
  intros I Hok Halen Hn. pose proof I as [Hc Hf Htab Hq Harr Hsl Hmax Hcur Hch Hown Hreq Hnd].
  unfold _mysock_enqueue_connection. m_step. m_step. m_step. m_step.
  m_use (syn_check packet n s Hn).
  destruct (negb (is_syn packet n)); [apply drop_eq|]. cbn [orb].
  m_use (get_queue_ok _ _ _ _ _ _ _ _ _ I). rewrite decide_False by done. m_step. rewrite Harr.
  destruct (retransmission_scan s arr slots addr alen (Z.to_nat (max_len q)))
    as (o & Ho & Hiff); [done|done|lia|lia|]. m_use Ho.
  destruct (known_peer slots addr alen).
  { rewrite decide_True by (by apply Hiff). apply drop_eq. }
  rewrite decide_False by (intros Ht; apply Hiff in Ht; done). cbn [orb].
  rewrite Hcur, Hmax. pose proof (used_le slots) as Hle.
  destruct (decide (used slots < zlen slots)) as [Hlt|Hge].
  - rewrite bool_decide_false by lia. rewrite <- Hmax.
    rewrite (m_bind_ok _ _ _ (Z.of_nat <$> first_empty slots) s)
      by (apply (empty_slot_scan s arr slots); [done|lia]).
    destruct (first_empty slots) as [j|] eqn:Hfe; cbn [fmap option_fmap option_map].
    + m_step. erewrite m_bind_ok by (apply update_lq_ok; exact Hq). cbn beta; by rewrite Hcur.
    + apply m_bind_crash. done.
  - rewrite bool_decide_true by lia. apply drop_eq.
Qed.

Lemma establish_emfile s qa q arr slots j rj packet n addr alen s2 p :
  cells (listen_queues s) !! qa = Some q -> cells (requests s) !! arr = Some slots ->
  slots !! j = Some rj -> req_sd rj = -1 -> _mysock_new_mysocket s = Ok (-1, s2) ->
  listen_queues s2 = listen_queues s -> requests s2 = requests s ->
  establish p (Some qa) (Some arr, Z.of_nat j) packet n addr alen false s
  = if decide (sa_family addr = AF_INET) then
      Ok (false,
        set_listen_queues (heap_put qa (set_cur_len (cur_len q - 1) q) (listen_queues s))
          (set_requests (heap_put arr (<[j := invalid_request]> slots) (requests s)) s2))
    else Crash Abort.
Proof.
  intros Hq Hreq Hj Hrj Hnew Hlq2 Hrq2. pose proof (lookup_lt_Some _ _ _ Hj) as Hjlt.
  unfold establish.
  rewrite m_bind_ok with (a := rj) (s' := s)
    by (apply (load_req_ok _ arr slots); [done|lia|by rewrite Nat2Z.id]).
  m_step. m_use Hnew.
  rewrite m_bind_ok with (a := rj) (s' := s2)
    by (apply (load_req_ok _ arr slots); [by rewrite Hrq2|lia|by rewrite Nat2Z.id]).
  erewrite m_bind_ok by (apply (store_req_ok _ arr slots); [by rewrite Hrq2|lia]).
  rewrite (decide_True (P := -1 < 0)) by lia. rewrite Nat2Z.id.
  case_decide as Hfam; [|apply m_bind_crash; by rewrite debug_print_eq, decide_False].
  erewrite m_bind_ok by (rewrite debug_print_eq, decide_True by done; reflexivity).
  set (slots1 := <[j := _]> slots).
  erewrite m_bind_ok by (apply (invalidate_ok _ arr slots1);
    [cbn; apply lookup_insert_eq|unfold slots1; rewrite length_insert; lia]).
  erewrite m_bind_ok by (apply update_lq_ok; cbn; rewrite Hlq2; exact Hq).
  cbn [requests set_requests listen_queues]. rewrite heap_put_put, Nat2Z.id, Hrq2, Hlq2.
  unfold slots1. by rewrite list_insert_insert_eq.
Qed.

Lemma accepted_table_ok s k c ix h (slots' : heap (list connect_request_t)) cs t e w q ai at' :
  table_ok s -> (k < 64)%nat -> my_sd c = Z.of_nat k -> is_Some (cells (impls s) !! ai) ->
  table_ok (State (heap_add c (contexts s)) (<[k := Some (brk (contexts s))]> (global_ctx s)) h
    (heap_put ai at' (heap_add ix (impls s))) q slots' cs t e w : state T W).
Proof.
  intros Ht Hk Hm [x Hai]. destruct (new_table_ok s k c ix (world s) Ht Hk Hm) as [H1 H2 H3 H4].
  split; [exact H1|exact H2| |exact H4].
  apply heap_wf_put; [exact H3|]. exists x. cbn. rewrite lookup_insert_ne; [done|]. intros Heq.
  rewrite <- Heq, heap_wf_fresh in Hai by apply Ht. done.
Qed.

(** A SYN of a new peer while there is room. *)
Section arriving.
Context (s : state T W) (a qa arr : positive) (c : mysock_context_t) (q : listen_queue_t).
Context (slots : list connect_request_t) (l : list (positive * completed_connect_t)).
Context (rest : gmap positive completed_connect_t).
Context (packet : list Z) (n : Z) (addr : sockaddr_in) (alen : Z) (fd : Z) (fds : Z * Z) (w : W).
Context (I : listen_inv s a qa arr c q slots l rest) (Hok : slots_ok slots alen) (Halen : 0 < alen <= 16).
Context (Hn : 0 <= n <= zlen packet) (Ht : table_ok s) (Hwq : heap_wf (queue_nodes s)).
Context (Hos : os_grants (world s) fd fds w).
Context (Hcond : negb (is_syn packet n) || known_peer slots addr alen || bool_decide (used slots = zlen slots) = false).

Let s1 : state T W := set_listen_queues (heap_put qa (set_cur_len (cur_len q + 1) q) (listen_queues s)) s.

Lemma arriving_prefix : exists j rj, first_empty slots = Some j /\ slots !! j = Some rj /\ req_sd rj = -1 /\
  _mysock_enqueue_connection (Some a) packet n addr alen false s
  = establish (Some a) (Some qa) (Some arr, Z.of_nat j) packet n addr alen false s1.
Proof using I Hok Halen Hn Hcond.
  pose proof (enqueue_prefix s a qa arr c q slots l rest packet n addr alen false I Hok Halen Hn) as Hpre.
  rewrite Hcond in Hpre. destruct (first_empty slots) as [j|] eqn:Hfe.
  - destruct (first_empty_inv _ _ Hfe) as (rj & Hj & Hneg & _). exists j, rj. split; [done|]. split; [done|].
    split; [|exact Hpre]. pose proof (Forall_lookup_1 _ _ _ _ Hok Hj). cbn in *. lia.
  - apply used_full in Hfe. rewrite !orb_false_iff, bool_decide_eq_false in Hcond. by destruct Hcond as [_ ?].
Qed.

(** Of another address family. *)
Lemma enqueue_aborts ai at' : impl_data (network_state c) = Some ai -> cells (impls s) !! ai = Some at' ->
  sa_family addr <> AF_INET -> _mysock_enqueue_connection (Some a) packet n addr alen false s = Crash Abort.
Proof.
  intros Hai Hat Hfam. destruct arriving_prefix as (j & rj & Hfe & Hj & Hrj & ->).
  pose proof I as [Hc Hf Htab Hq Harr Hsl Hmax Hcur Hch Hown Hreq Hnd].
  assert (table_ok s1) as Ht1 by (by destruct Ht).
  destruct (first_free (global_ctx s)) as [k|] eqn:Hff.
  - pose proof (establish_ok s1 a c qa arr slots j rj packet n addr alen fd fds w k ai at') as He.
    rewrite decide_False in He by done. by apply He.
  - destruct (new_mysocket_full s1 fd fds w Ht1 Hos Hff) as (hc & hi & w' & Hrun & Hcc & Hci & Hok2).
    assert (cells (listen_queues s1) !! qa = Some (set_cur_len (cur_len q + 1) q)) as Hq1
      by (cbn; apply lookup_insert_eq).
    rewrite (establish_emfile s1 qa _ arr slots j rj packet n addr alen _ (Some a)
      Hq1 Hsl Hj Hrj Hrun eq_refl eq_refl). by rewrite decide_False.
Qed.

Context (Hfam : sa_family addr = AF_INET).

(** There is a descriptor. *)
Lemma enqueue_opens ai at' k : impl_data (network_state c) = Some ai -> cells (impls s) !! ai = Some at' ->
  first_free (global_ctx s) = Some k ->
  let na := brk (contexts s) in
  exists j s' q', first_empty slots = Some j /\
    _mysock_enqueue_connection (Some a) packet n addr alen false s = Ok (true, s') /\ table_ok s' /\
    heap_wf (queue_nodes s') /\
    listen_inv s' a qa arr c q' (<[j := ConnectRequest addr alen (Z.of_nat k) false]> slots) l rest /\
    (exists pq, descriptor s' (Z.of_nat k) na
       (accepted_context (brk (impls s)) (Z.of_nat k) (my_sd c) addr alen pq) /\
       queue_rep (queue_nodes s') pq [take (Z.to_nat n) packet] (cells (queue_nodes s))) /\
    cells (impls s') !! brk (impls s) = Some (TcpCtx true (new_socket at') fds (Some na) (-1) true) /\
    cells (impls s') !! ai = Some (set_new_socket (-1) at') /\
    global_ctx s' = <[k := Some na]> (global_ctx s) /\
    (forall x, x <> na -> cells (contexts s') !! x = cells (contexts s) !! x).
Proof.
  intros Hai Hat Hff na. destruct arriving_prefix as (j & rj & Hfe & Hj & Hrj & Hpre).
  pose proof I as [Hc Hf Htab Hq Harr Hsl Hmax Hcur Hch Hown Hreq Hnd].
  assert (table_ok s1) as Ht1 by (by destruct Ht).
  pose proof (establish_ok s1 a c qa arr slots j rj packet n addr alen fd fds w k ai at') as Hest.
  rewrite decide_True in Hest by done. destruct Hest as (h' & pq' & Hest & Hrep); try done.
  rewrite Hest in Hpre. destruct (first_free_bound _ _ Hff) as [Hk _]. rewrite (table_len _ Ht) in Hk.
  set (r := ConnectRequest addr alen (Z.of_nat k) false) in *.
  eexists j, _, (set_cur_len (used (<[j := r]> slots)) q).
  split; [done|]. split; [exact Hpre|].
  split; [apply (accepted_table_ok s1); [done|lia|done|by exists at']|].
  split; [by destruct Hrep as (? & _ & [? _] & _)|].
  split_and!; [|exists pq'; split; [|exact Hrep]| | |done|].
  - eapply listen_inv_insert; [exact I|exact Hj|lia| |done| |cbn; apply lookup_insert_eq|done].
    + cbn. rewrite lookup_insert_ne; [done|]. intros Heq. rewrite <- Heq, heap_wf_fresh in Hc by apply Ht. done.
    + cbn. rewrite lookup_insert_eq, (used_insert _ _ _ _ Hj), decide_False, decide_True by (cbn; lia).
      do 2 f_equal. lia.
  - split_and!; cbn; [lia| |apply lookup_insert_eq|done]. rewrite Nat2Z.id. apply list_lookup_insert_eq.
    by rewrite (table_len _ Ht).
  - cbn. rewrite lookup_insert_ne; [apply lookup_insert_eq|]. intros Heq.
    rewrite Heq, heap_wf_fresh in Hat by apply Ht. done.
  - cbn. apply lookup_insert_eq.
  - intros x Hx. cbn. by rewrite lookup_insert_ne by done.
Qed.

(** There is none. *)
Lemma enqueue_emfile : first_free (global_ctx s) = None ->
  exists j s' q', first_empty slots = Some j /\
    _mysock_enqueue_connection (Some a) packet n addr alen false s = Ok (false, s') /\ table_ok s' /\
    heap_wf (queue_nodes s') /\ errno s' = EMFILE /\
    listen_inv s' a qa arr c q' (<[j := invalid_request]> slots) l rest /\
    cells (contexts s') = cells (contexts s) /\ cells (impls s') = cells (impls s) /\ global_ctx s' = global_ctx s.
Proof.
  intros Hff. destruct arriving_prefix as (j & rj & Hfe & Hj & Hrj & Hpre).
  pose proof I as [Hc Hf Htab Hq Harr Hsl Hmax Hcur Hch Hown Hreq Hnd].
  assert (table_ok s1) as Ht1 by (by destruct Ht).
  destruct (new_mysocket_full s1 fd fds w Ht1 Hos Hff) as (hc & hi & w' & Hrun & Hcc & Hci & Hok2).
  assert (cells (listen_queues s1) !! qa = Some (set_cur_len (cur_len q + 1) q)) as Hq1
    by (cbn; apply lookup_insert_eq).
  rewrite (establish_emfile s1 qa _ arr slots j rj packet n addr alen _ (Some a)
    Hq1 Hsl Hj Hrj Hrun eq_refl eq_refl), decide_True in Hpre by done.
  eexists j, _, (set_cur_len (used (<[j := invalid_request]> slots)) q).
  split; [done|]. split; [exact Hpre|]. split; [by destruct Hok2|]. split; [exact Hwq|].
  split_and!; [done| |done|done|done].
  eapply listen_inv_insert; [exact I|exact Hj|lia| |done| |cbn; apply lookup_insert_eq|done].
  - cbn. by rewrite Hcc.
  - cbn. rewrite lookup_insert_eq, (used_insert _ _ _ _ Hj), !decide_False by (cbn; lia).
    unfold set_cur_len. cbn. by replace (cur_len q + 1 - 1) with (used slots - 0 + 0) by lia.
Qed.
End arriving.

(** C4: [_mysock_enqueue_connection] on an arriving segment.  From a peer
    whose address is not an Internet address it fails an assertion on every
    path.  Otherwise the segment opens a connection exactly when it is a SYN from
    an unknown peer and the listen queue has room: then the first empty slot
    records the peer and the least free descriptor, which names a fresh
    passive context of that listener whose receive queue holds the segment
    and whose network state took over the accepted TCP connection.  Every
    other segment is dropped without a change.  When no descriptor is left
    the slot is emptied again and the call fails with [EMFILE].  The
    descriptor table and the listen queue stay well formed throughout. *)
Theorem enqueue_connection_correct s a qa arr c q slots l rest packet n addr alen fd fds w ai at' :
  listen_inv s a qa arr c q slots l rest -> slots_ok slots alen -> 0 < alen <= 16 ->
  0 <= n <= zlen packet -> table_ok s -> heap_wf (queue_nodes s) ->
  impl_data (network_state c) = Some ai -> cells (impls s) !! ai = Some at' ->
  os_grants (world s) fd fds w ->
  if negb (bool_decide (sa_family addr = AF_INET))
  then _mysock_enqueue_connection (Some a) packet n addr alen false s = Crash Abort
  else if negb (is_syn packet n) || known_peer slots addr alen || bool_decide (used slots = zlen slots)
  then _mysock_enqueue_connection (Some a) packet n addr alen false s = Ok (false, s)
  else exists j s' q' b, first_empty slots = Some j /\
    _mysock_enqueue_connection (Some a) packet n addr alen false s = Ok (b, s') /\ table_ok s' /\ heap_wf (queue_nodes s') /\
    match first_free (global_ctx s) with
    | Some k => let na := brk (contexts s) in
        b = true /\
        listen_inv s' a qa arr c q' (<[j := ConnectRequest addr alen (Z.of_nat k) false]> slots) l rest /\
        (exists pq, descriptor s' (Z.of_nat k) na
           (accepted_context (brk (impls s)) (Z.of_nat k) (my_sd c) addr alen pq) /\
           queue_rep (queue_nodes s') pq [take (Z.to_nat n) packet] (cells (queue_nodes s))) /\
        cells (impls s') !! brk (impls s) = Some (TcpCtx true (new_socket at') fds (Some na) (-1) true) /\
        cells (impls s') !! ai = Some (set_new_socket (-1) at') /\
        global_ctx s' = <[k := Some na]> (global_ctx s) /\
        (forall x, x <> na -> cells (contexts s') !! x = cells (contexts s) !! x)
    | None =>
        b = false /\ errno s' = EMFILE /\ listen_inv s' a qa arr c q' (<[j := invalid_request]> slots) l rest /\
        cells (contexts s') = cells (contexts s) /\ cells (impls s') = cells (impls s) /\
        global_ctx s' = global_ctx s
    end.
Proof.
  intros I Hok Halen Hn Ht Hwq Hai Hat Hos.
  case_bool_decide as Hfam; cbn [negb].
  2: { destruct (negb (is_syn packet n) || known_peer slots addr alen || bool_decide (used slots = zlen slots)) eqn:Hcond.
       - by rewrite (enqueue_prefix s a qa arr c q slots l rest), Hcond, decide_False by done.
       - by apply (enqueue_aborts s a qa arr c q slots l rest packet n addr alen fd fds w I Hok Halen Hn Ht Hwq Hos Hcond ai at'). }
  destruct (_ || _) eqn:Hcond.
  - by rewrite (enqueue_prefix s a qa arr c q slots l rest), Hcond, decide_True by done.
  - destruct (first_free (global_ctx s)) as [k|] eqn:Hff.
    + destruct (enqueue_opens s a qa arr c q slots l rest packet n addr alen fd fds w I Hok Halen Hn Ht Hwq Hos Hcond Hfam
        ai at' k Hai Hat Hff) as (j & s' & q' & Hj & Hrun & Ht' & Hwn & Hrest).
      exists j, s', q', true. split; [exact Hj|]. split; [exact Hrun|]. split; [exact Ht'|]. split; [exact Hwn|].
      split; [reflexivity|exact Hrest].
    + destruct (enqueue_emfile s a qa arr c q slots l rest packet n addr alen fd fds w I Hok Halen Hn Ht Hwq Hos Hcond Hfam
        Hff) as (j & s' & q' & Hj & Hrun & Ht' & Hwn & Hrest).
      exists j, s', q', false. split; [exact Hj|]. split; [exact Hrun|]. split; [exact Ht'|]. split; [exact Hwn|]. split; [reflexivity|exact Hrest].
Qed.
End queues.

(** ** A listening socket with one completed and one waiting connection *)

#[local] Instance demux_table : KeyedTable (table Z positive) Z positive :=
  int_table positive 64 ltac:(lia).

Definition sample_listen_table : table Z positive :=
  Table (Heap {[1%positive := Entry 0 1%positive NULL]} 2) (Some 1%positive :: replicate 63 NULL).

Definition sample_ctx (sd : Z) (listener : bool) : mysock_context_t :=
  set_my_sd sd (set_listen_sd (if listener then -1 else 0) (sample_context listener)).

Definition sample_slots : list connect_request_t :=
  [ConnectRequest (Sockaddr AF_INET 0x1111 0x0200007f) 16 1 false;
   ConnectRequest (Sockaddr AF_INET 0x2222 0x0200007f) 16 2 false; invalid_request].

Definition demux_state : state (table Z positive) pipes :=
  State (Heap {[1 := sample_ctx 0 true; 2 := sample_ctx 1 false; 3 := sample_ctx 2 false]}%positive 4)
    (Some 1%positive :: Some 2%positive :: Some 3%positive :: replicate 61 NULL) empty_heap
    (Heap {[1%positive := TcpCtx true 4 (8, 9) (Some 1%positive) 6 false]} 2)
    (Heap {[1%positive := ListenQueue 0x1f90 3 2 (Some 1%positive) (Some 1%positive)]} 2)
    (Heap {[1%positive := sample_slots]} 2)
    (Heap {[1%positive := CompletedConnect (Some 1%positive, 0) NULL]} 2)
    sample_listen_table 0 ∅.

Definition sample_queue : listen_queue_t :=
  ListenQueue 0x1f90 3 2 (Some 1%positive) (Some 1%positive).
Definition sample_done : list (positive * completed_connect_t) :=
  [(1%positive, CompletedConnect (Some 1%positive, 0) NULL)].

Lemma demux_listen_inv :
  listen_inv demux_state 1 1 1 (sample_ctx 0 true) sample_queue sample_slots sample_done ∅.
Proof.
  split; try done.
  - destruct (table_insert_spec (KeyedTable := demux_table) table_new (fun _ => []) 0 1%positive
      table_new_rep) as (t & Ht & Hrep); [done|].
    assert (t = sample_listen_table) as -> by (vm_compute in Ht; by injection Ht as <-).
    eexists. split; [exact Hrep|]. done.
  - split_and!; [|by apply NoDup_singleton|apply map_disjoint_empty_r|done].
    intros x [y Hx]. cbn in Hx. apply lookup_singleton_Some in Hx as [<- _]. done.
  - apply Forall_singleton. by eexists 0, _.
  - by apply NoDup_singleton.
Qed.

Lemma demux_descriptor k : (k < 3)%nat ->
  descriptor demux_state (Z.of_nat k) (Pos.of_succ_nat k)
    (sample_ctx (Z.of_nat k) (bool_decide (k = 0%nat))).
Proof.
  intros Hk. destruct k as [|[|[|k]]]; [| | |lia]; split_and!; vm_compute; done.
Qed.

Lemma demux_table_ok : table_ok demux_state.
Proof.
  split.
  - done.
  - intros x [y Hx]. cbn in Hx. rewrite !lookup_insert_Some, lookup_singleton_Some in Hx.
    cbn. intuition (subst; try lia; congruence).
  - intros x [y Hx]. cbn in Hx. apply lookup_singleton_Some in Hx as [<- _]. done.
  - intros k a Hk. destruct (decide (k < 3)%nat) as [Hlt|Hge].
    + destruct (demux_descriptor k Hlt) as (_ & Hg & Hc & Hm). rewrite Nat2Z.id in Hg.
      rewrite Hk in Hg. injection Hg as ->. eexists. by split.
    + exfalso. replace k with (3 + (k - 3))%nat in Hk by lia.
      change ((replicate 61 NULL) !! (k - 3)%nat = Some (Some a)) in Hk.
      apply lookup_replicate in Hk as [Hk _]. done.
Qed.

(** Accept, complete the waiting connection, accept it. *)
Lemma accept_queue_fifo_witness :
  exists ps s' q' slots' l',
    run_accepts 1 [Accept; Complete 3; Accept] demux_state = Ok (ps, s') /\
    listen_inv s' 1 1 1 (sample_ctx 0 true) q' slots' l' ∅ /\ contexts s' = contexts demux_state /\
    ps ++ (ctx_of demux_state <$> completed_sds slots' l') = [Some 2%positive; Some 3%positive].
Proof.
  apply (accept_queue_fifo 1 1 1 (sample_ctx 0 true) ∅ [Accept; Complete 3; Accept] demux_state
    sample_queue sample_slots sample_done).
  split.
  - exact demux_listen_inv.
  - intros i j ri rj Hi Hj Hp Heq.
    destruct i as [|[|[|i]]], j as [|[|[|j]]]; try done; cbn in Hi, Hj; simplify_eq; cbn in Heq, Hp; lia.
  - exact (demux_descriptor 0 ltac:(lia)).
  - apply Forall_singleton. eexists _, _. exact (demux_descriptor 1 ltac:(lia)).
  - by apply NoDup_singleton.
  - apply Forall_singleton. eexists _, 1%nat, _. split_and!.
    + vm_compute. reflexivity.
    + exact (demux_descriptor 2 ltac:(lia)).
    + reflexivity.
    + reflexivity.
    + reflexivity.
    + cbn. by rewrite list_elem_of_singleton.
Defined.

(** A SYN from a third peer: descriptor 3 and slot 2. *)
Definition sample_syn : list Z := replicate 13 0 ++ [TH_SYN] ++ replicate 6 0.

Lemma enqueue_connection_correct_witness :
  exists j s' q' b, first_empty sample_slots = Some j /\
    _mysock_enqueue_connection (Some 1%positive) sample_syn 20 pipe_addr 16 false demux_state = Ok (b, s') /\
    b = true /\ exists c', descriptor s' 3 4 c' /\
    listen_inv s' 1 1 1 (sample_ctx 0 true) q'
      (<[j := ConnectRequest pipe_addr 16 3 false]> sample_slots) sample_done ∅.
Proof.
  destruct (enqueue_connection_correct demux_state 1 1 1 (sample_ctx 0 true) sample_queue sample_slots
    sample_done ∅ sample_syn 20 pipe_addr 16 4 (8, 9) ∅ 1
    (TcpCtx true 4 (8, 9) (Some 1%positive) 6 false) demux_listen_inv)
    as (j & s' & q' & b & Hj & Hrun & _ & _ & Hb & Hli & (pq & Hd & _) & _).
  - apply Forall_cons_2; [right; cbn; lia|]. apply Forall_cons_2; [right; cbn; lia|].
    apply Forall_cons_2; [left; done|]. apply Forall_nil_2.
  - lia.
  - cbn. lia.
  - exact demux_table_ok.
  - apply heap_wf_empty.
  - reflexivity.
  - reflexivity.
  - exists ∅, 0. repeat split; lia.
  - exists j, s', q', b. split; [exact Hj|]. split; [exact Hrun|]. split; [exact Hb|].
    eexists. split; [exact Hd|exact Hli].
Defined.
