(* ===== verification/Backlog.v ===== *)
(** * The backlog of a listening mysocket

    What [_mysock_set_backlog] of [Assignment3/src/connection_demux.c] (its
    definition is in [Demux]) establishes: the first call creates the listen
    queue, in the invariant [listen_inv] on which [myaccept], the arriving SYN
    packets and the completed handshakes rely; a later call keeps the
    invariant only while no completed connection waits to be accepted. *)

From S2P Require Import Prelude Heap HashTable PacketQueue MysockTypes TcpIo Mysock Demux.

(** The slots the backlog adds. *)
Definition empty_slots (n : Z) : list connect_request_t := replicate (Z.to_nat n) invalid_request.

Lemma used_app l k : used (l ++ k) = used l + used k.
Proof. unfold used. rewrite filter_app, length_app. lia. Qed.

Lemma used_empty_slots n : used (empty_slots n) = 0.
Proof.
  unfold used, empty_slots. induction (Z.to_nat n) as [|m IH]; [done|].
  cbn [replicate]. rewrite filter_cons, decide_False by (cbn; lia). exact IH.
Qed.

Section backlog.
Context {T W : Type} `{KT : KeyedTable T Z positive} `{OS W}.
Implicit Types s : state T W.

(** The fresh array of [old_len] requests followed by [n - old_len] zeroed
    ones, and the old array gone. *)
Definition grown_heap (h : heap (list connect_request_t)) (arr : ptr)
    (slots : list connect_request_t) : heap (list connect_request_t) :=
  Heap (<[brk h := slots]> (match arr with Some a => delete a (cells h) | None => cells h end))
    (Pos.succ (brk h)).

Lemma grow_requests_ok s arr slots n :
  match arr with Some a => cells (requests s) !! a = Some slots | None => slots = [] end ->
  grow_requests arr (zlen slots) n s
  = Ok (Some (brk (requests s)),
        set_requests (grown_heap (requests s) arr
          (slots ++ replicate (Z.to_nat (n - zlen slots)) zero_request)) s).
Proof.
  intros Ha. unfold grow_requests, grown_heap, hload, hfree, halloc. destruct arr as [a|].
  - rewrite Ha. cbn [need mbind run_bind cells brk]. by rewrite Nat2Z.id, firstn_all.
  - subst slots. by cbn [need mbind run_bind].
Qed.

(** The loop that marks the zeroed requests as empty. *)
Lemma invalidate_loop arr m : forall s pre h,
  requests s = grown_heap h arr (pre ++ replicate m zero_request) ->
  m_for m (zlen pre) (invalidate_from (Some (brk h))) s
  = Ok (None, set_requests (grown_heap h arr (pre ++ replicate m invalid_request)) s).
Proof.
  induction m as [|m IH]; intros s pre h Hs.
  - cbn [m_for replicate]. cbn [replicate] in Hs. rewrite <- Hs. by destruct s.
  - cbn [m_for replicate].
    assert (cells (requests s) !! brk h = Some (pre ++ zero_request :: replicate m zero_request)) as Hc
      by (rewrite Hs; apply lookup_insert_eq).
    rewrite m_bind_ok with (a := None)
      (s' := set_requests (grown_heap h arr ((pre ++ [invalid_request]) ++ replicate m zero_request)) s).
    + replace (zlen pre + 1) with (zlen (pre ++ [invalid_request])) by (rewrite length_app; cbn; lia).
      rewrite (IH _ (pre ++ [invalid_request]) h) by reflexivity. by rewrite <- app_assoc.
    + unfold invalidate_from.
      erewrite m_bind_ok
        by (apply (load_req_ok _ _ _ _ zero_request Hc); [lia|by rewrite Nat2Z.id, list_lookup_middle]).
      erewrite m_bind_ok by (apply (store_req_ok _ _ _ _ _ Hc); rewrite length_app; cbn; lia).
      unfold mret, M_ret. do 2 f_equal. rewrite Hs, Nat2Z.id. unfold heap_put, grown_heap. cbn.
      rewrite insert_insert_eq. do 3 f_equal.
      rewrite <- (Nat.add_0_r (length pre)), insert_app_r. cbn. by rewrite <- app_assoc.
Qed.

(** The queue [q] at [qa], whose array holds [slots], is resized. *)
Lemma resize_queue_ok s qa q slots n :
  cells (listen_queues s) !! qa = Some q -> max_len q = zlen slots ->
  match connection_queue q with
  | Some arr => cells (requests s) !! arr = Some slots
  | None => slots = []
  end ->
  resize_queue (Some qa) (local_port q) n s
  = Ok (tt, if decide (max_len q < n) then
              set_requests (grown_heap (requests s) (connection_queue q)
                              (slots ++ empty_slots (n - max_len q)))
                (set_listen_queues (heap_put qa (set_max_len n
                  (set_connection_queue (Some (brk (requests s))) q)) (listen_queues s)) s)
            else set_listen_queues (heap_put qa (set_max_len n q) (listen_queues s)) s).
Proof.
  intros Hq Hmax Harr. unfold resize_queue. m_step. m_step.
  case_decide as Hlt.
  - rewrite Hmax in Hlt |- *. erewrite m_bind_ok.
    2:{ erewrite m_bind_ok by (apply grow_requests_ok; exact Harr). apply update_lq_ok. exact Hq. }
    erewrite m_bind_ok by (apply load_lq_ok; cbn; apply lookup_insert_eq).
    cbn [connection_queue set_connection_queue max_len]. rewrite Hmax.
    erewrite m_bind_ok by (apply (invalidate_loop (connection_queue q)); reflexivity).
    erewrite update_lq_ok by (cbn; apply lookup_insert_eq).
    cbn [listen_queues set_listen_queues set_requests]. by rewrite heap_put_put.
  - m_step. m_step.
    replace (Z.to_nat (n - max_len q)) with 0%nat by lia.
    rewrite (m_bind_ok _ _ _ None s) by reflexivity.
    by apply update_lq_ok.
Qed.

Lemma first_backlog_ok s a c cont backlog p :
  cells (contexts s) !! a = Some c -> listening c && bound c = true ->
  table_rep (listen_table s) cont -> table_valid (my_sd c) -> cont (my_sd c) = [] ->
  _network_get_port (Some a) s = Ok (p, s) -> 0 < ntohs (u16 p) ->
  heap_wf (completions s) ->
  let n := u32 (u32 backlog + 1) in
  exists s' q, _mysock_set_backlog (Some a) backlog s = Ok (tt, s') /\
    max_len q = n /\ cur_len q = 0 /\ local_port q = ntohs (u16 p) /\
    same_tables s s' /\
    if decide (0 < n) then
      listen_inv s' a (brk (listen_queues s)) (brk (requests s)) c q (empty_slots n) []
        (cells (completions s))
    else cells (listen_queues s') !! brk (listen_queues s) = Some q /\
      connection_queue q = NULL /\ requests s' = requests s.
Proof.
  intros Hc Hf Hrep Hv Hnil Hp Hport Hwf n.
  destruct (table_insert_spec _ _ (my_sd c) (brk (listen_queues s)) Hrep Hv) as (t & Ht & Hrep').
  set (q0 := ListenQueue (ntohs (u16 p)) 0 0 NULL NULL).
  set (s1 := set_listen_table t (set_listen_queues (halloc (listen_queues s) q0).2 s)).
  assert (_mysock_set_backlog (Some a) backlog s
    = resize_queue (Some (brk (listen_queues s))) (local_port q0) n s1) as ->.
  { unfold _mysock_set_backlog. m_step. m_step. m_step. m_use Hp. m_step.
    rewrite m_bind_ok with (a := NULL) (s' := s).
    2:{ unfold _get_connection_queue. m_step. m_step. m_step. unfold listen_lookup.
        by rewrite (table_lookup_spec _ _ _ Hrep Hv), Hnil. }
    rewrite m_bind_ok with (a := Some (brk (listen_queues s))) (s' := s1); [done|].
    erewrite m_bind_ok by reflexivity. rewrite m_bind_ok with (a := tt) (s' := s1); [done|].
    unfold listen_insert. cbn [listen_table set_listen_queues]. by rewrite Ht. }
  rewrite (resize_queue_ok s1 _ q0 [] n) by (apply lookup_insert_eq || done).
  cbn [max_len q0]. case_decide as Hn.
  - eexists _, (set_max_len n (set_connection_queue (Some (brk (requests s))) q0)). split; [reflexivity|]. do 3 (split; [reflexivity|]). split; [by split|].
    split; cbn [contexts listen_table listen_queues requests completions set_listen_queues
      set_requests set_listen_table heap_put cells s1 app]; try done.
    + eexists. split; [exact Hrep'|]. split; [exact Hv|]. cbn beta. by rewrite decide_True.
    + apply lookup_insert_eq.
    + rewrite Z.sub_0_r. apply lookup_insert_eq.
    + cbn. unfold empty_slots. rewrite length_replicate. lia.
    + cbn. by rewrite used_empty_slots.
    + by apply owning_empty.
    + by apply NoDup_nil_2.
  - eexists _, (set_max_len n q0). split; [reflexivity|]. do 3 (split; [reflexivity|]). split; [by split|].
    split_and!; [apply lookup_insert_eq|done|done].
Qed.

(** The first backlog given to a listening socket creates its queue:
    [backlog + 1] empty slots, and the invariant that accepting, arriving SYN
    packets and completed handshakes rely on; with the greatest backlog the
    count wraps to no slots at all. *)
Theorem first_backlog_correct s a c cont backlog p :
  cells (contexts s) !! a = Some c -> listening c && bound c = true ->
  table_rep (listen_table s) cont -> table_valid (my_sd c) -> cont (my_sd c) = [] ->
  _network_get_port (Some a) s = Ok (p, s) -> 0 < ntohs (u16 p) ->
  heap_wf (completions s) ->
  let n := u32 (u32 backlog + 1) in
  exists s' q, _mysock_set_backlog (Some a) backlog s = Ok (tt, s') /\
    max_len q = n /\ cur_len q = 0 /\ local_port q = ntohs (u16 p) /\
    contexts s' = contexts s /\ global_ctx s' = global_ctx s /\
    if decide (0 < n) then
      listen_inv s' a (brk (listen_queues s)) (brk (requests s)) c q (empty_slots n) []
        (cells (completions s))
    else cells (listen_queues s') !! brk (listen_queues s) = Some q /\
      connection_queue q = NULL /\ requests s' = requests s.
Proof.
  intros Hc Hf Hrep Hv Hnil Hp Hport Hwf n.
  destruct (first_backlog_ok s a c cont backlog p Hc Hf Hrep Hv Hnil Hp Hport Hwf)
    as (s' & q & Hrun & H1 & H2 & H3 & [Hctx Hg _ _ _] & Hcase).
  exists s', q. by split_and!.
Qed.

(** C22: a later backlog moves the requests to a longer array, every slot and
    its count kept; with no completed connection waiting the invariant holds
    again, with the added slots empty. A completed connection that waits to
    be accepted still points into the array just freed: the next accept
    reads it. A smaller backlog only lowers the bound. *)
Theorem backlog_growth s a qa arr c q slots l rest backlog p :
  listen_inv s a qa arr c q slots l rest -> heap_wf (requests s) ->
  _network_get_port (Some a) s = Ok (p, s) -> ntohs (u16 p) = local_port q -> 0 < local_port q ->
  let n := u32 (u32 backlog + 1) in
  exists s' q', _mysock_set_backlog (Some a) backlog s = Ok (tt, s') /\
    cells (listen_queues s') !! qa = Some q' /\ max_len q' = n /\ cur_len q' = cur_len q /\
    contexts s' = contexts s /\ global_ctx s' = global_ctx s /\
    if decide (max_len q < n) then
      match l with
      | [] => listen_inv s' a qa (brk (requests s)) c q' (slots ++ empty_slots (n - max_len q)) [] rest
      | _ :: _ => _mysock_dequeue_connection (Some a) s' = Crash Dangling
      end
    else requests s' = requests s /\ completed_queue q' = completed_queue q /\
      (n = max_len q -> listen_inv s' a qa arr c q' slots l rest).
Proof.
  intros I Hwf Hp Hport Hpos n.
  pose proof I as [Hc Hf (cont & Hrep & Hv & Hhd) Hq Harr Hsl Hmax Hcur Hch Hown Hreq Hnd].
  assert (_mysock_set_backlog (Some a) backlog s = resize_queue (Some qa) (local_port q) n s) as ->.
  { unfold _mysock_set_backlog. m_step. m_step. m_step. m_use Hp. rewrite Hport. m_step.
    m_use (get_queue_ok _ _ _ _ _ _ _ _ _ I). by m_step. }
  rewrite (resize_queue_ok s qa q slots n) by (first [done|by rewrite Harr]).
  rewrite Harr. case_decide as Hn.
  - eexists _, (set_max_len n (set_connection_queue (Some (brk (requests s))) q)).
    split; [reflexivity|]. split; [cbn; apply lookup_insert_eq|]. do 4 (split; [reflexivity|]).
    assert (brk (requests s) <> arr) as Hne.
    { intros <-. by rewrite (heap_wf_fresh _ Hwf) in Hsl. }
    destruct l as [|[ra x] l].
    + split; cbn [contexts listen_table listen_queues requests completions set_listen_queues
        set_requests heap_put cells grown_heap]; try done.
      * by exists cont.
      * apply lookup_insert_eq.
      * apply lookup_insert_eq.
      * cbn. rewrite length_app. unfold empty_slots. rewrite length_replicate. lia.
      * cbn. rewrite used_app, used_empty_slots. lia.
    + cbn in Hch. destruct Hch as [Hcq _].
      apply Forall_cons in Hreq as [(k & r & Hx & _) _]. cbn in Hx.
      unfold _mysock_dequeue_connection. m_step.
      erewrite m_bind_ok by (by apply load_ctx_ok). m_step.
      erewrite (m_bind_ok _ _ _ (Some qa)).
      2:{ unfold _get_connection_queue. m_step. erewrite m_bind_ok by (by apply load_ctx_ok). m_step.
          unfold listen_lookup. cbn [listen_table set_requests set_listen_queues].
          rewrite (table_lookup_spec _ _ _ Hrep Hv), <- Hhd. reflexivity. }
      m_step. erewrite m_bind_ok by (apply load_lq_ok; cbn; apply lookup_insert_eq).
      cbn [completed_queue set_max_len set_connection_queue]. rewrite Hcq, decide_False by done.
      erewrite (m_bind_ok _ _ _ x)
        by (unfold load_comp; cbn [completions set_requests set_listen_queues];
            by rewrite (owning_load _ _ _ ra x Hown) by (by left)).
      erewrite m_bind_ok by (apply update_lq_ok; cbn; apply lookup_insert_eq).
      rewrite Hx. m_step. apply m_bind_crash. unfold load_req, hload. cbn.
      by rewrite lookup_insert_ne, lookup_delete_eq.
  - eexists _, (set_max_len n q).
    split; [reflexivity|]. split; [cbn; apply lookup_insert_eq|]. do 4 (split; [reflexivity|]).
    split_and!; [done|done|]. intros Heq.
    split; cbn [contexts listen_table listen_queues requests completions set_listen_queues
      heap_put cells]; try done.
    + by exists cont.
    + apply lookup_insert_eq.
    + cbn. lia.
Qed.
End backlog.

(** ** Samples *)

#[local] Existing Instance demux_table.

Definition fresh_listen_state : state (table Z positive) pipes :=
  set_listen_table table_new (set_listen_queues empty_heap (set_requests empty_heap
    (set_completions empty_heap demux_state))).

(** [mylisten] with a backlog of five on a new listening socket. *)
Lemma first_backlog_correct_witness : exists s' q,
  _mysock_set_backlog (Some 1%positive) 5 fresh_listen_state = Ok (tt, s') /\
  listen_inv s' 1 1 1 (sample_ctx 0 true) q (empty_slots 6) [] ∅.
Proof.
  destruct (first_backlog_correct fresh_listen_state 1 (sample_ctx 0 true) (fun _ => []) 5
    0x901f) as (s' & q & Hrun & _ & _ & _ & _ & _ & I); try done.
  - exact table_new_rep.
  - apply heap_wf_empty.
  - exists s', q. split; [exact Hrun|exact I].
Defined.

(** A longer backlog while a completed connection waits to be accepted. *)
Lemma backlog_growth_witness : exists s',
  _mysock_set_backlog (Some 1%positive) 7 demux_state = Ok (tt, s') /\
  _mysock_dequeue_connection (Some 1%positive) s' = Crash Dangling.
Proof.
  destruct (backlog_growth demux_state 1 1 1 (sample_ctx 0 true) sample_queue sample_slots
    sample_done ∅ 7 0x901f demux_listen_inv) as (s' & q' & Hrun & _ & _ & _ & _ & _ & Hacc); try done.
  - intros x [y Hx]. cbn in Hx. apply lookup_singleton_Some in Hx as [<- _]. done.
  - exists s'. split; [exact Hrun|exact Hacc].
Defined.
