(* ===== verification/Lifecycle.v ===== *)
(** * The life of the connections of a listening mysocket

    The three things that happen to the listen queue of
    [Assignment3/src/connection_demux.c], in any order and number: the
    receive thread of [network_io_socket.c] runs one turn, in which it accepts
    a TCP connection, reads a segment from it and hands it to
    [_mysock_enqueue_connection]; the transport layer reports a completed
    handshake; the application accepts.  An abstract [listener] says what they
    amount to: a bounded set of half-open connections, a queue of completed
    ones, and whether a dropped segment has left its TCP descriptor behind,
    after which the next turn of the receive thread fails an assertion.
    Proved: the code refines it, whatever the schedule of events, each event
    run to its end before the next; and what becomes of an event that arrives
    in the middle of an accept. *)

From S2P Require Import Prelude Heap HashTable PacketQueue MysockTypes TcpIo Mysock Demux Backlog.

(** ** Specification *)

(** A connection: its descriptor, its peer, and the context it names. *)
Record conn : Type := Conn { c_sd : Z; c_peer : sockaddr_in; c_ctx : positive }.

(** A socket that listens: how many connections it holds at most, those whose
    handshake is going on, those to be accepted, oldest first, the number of
    descriptors the process has left, and whether the TCP descriptor of a
    dropped segment is still held by the receive thread. *)
Record listener : Type := Listener {
  capacity : Z;
  pending : list conn;
  ready : list conn;
  free_sds : nat;
  stuck : bool
}.

Definition conns (L : listener) : list conn := pending L ++ ready L.

Inductive event : Type :=
| Arrives (packet : list Z) (peer : sockaddr_in)
| Completes (sd : Z)
| Accepts.

Inductive answer : Type :=
| Opened (b : bool)   (* whether the TCP connection was taken over *)
| Completed
| Accepted (p : ptr).

Definition same_peer (a b : sockaddr_in) : bool :=
  bool_decide (take 16 (sockaddr_bytes a) = take 16 (sockaddr_bytes b)).

(** A segment that opens a connection while there are descriptors. *)
Definition wanted (L : listener) (packet : list Z) (peer : sockaddr_in) : bool :=
  is_syn packet (zlen packet) && negb (existsb (fun x => same_peer (c_peer x) peer) (conns L)) &&
  bool_decide (zlen (conns L) < capacity L).

(** A listener that is [stuck] has no step for a segment. *)
Inductive lstep : listener -> event -> answer -> listener -> Prop :=
| step_drop L packet peer : stuck L = false -> wanted L packet peer = false \/ free_sds L = 0%nat ->
    lstep L (Arrives packet peer) (Opened false)
      (Listener (capacity L) (pending L) (ready L) (free_sds L) true)
| step_open L packet peer sd b k : stuck L = false -> wanted L packet peer = true -> free_sds L = S k ->
    sd ∉ (c_sd <$> conns L) ->
    lstep L (Arrives packet peer) (Opened true)
      (Listener (capacity L) (Conn sd peer b :: pending L) (ready L) k false)
| step_complete L p1 x p2 : pending L = p1 ++ x :: p2 ->
    lstep L (Completes (c_sd x)) Completed
      (Listener (capacity L) (p1 ++ p2) (ready L ++ [x]) (free_sds L) (stuck L))
| step_accept L x r : ready L = x :: r ->
    lstep L Accepts (Accepted (Some (c_ctx x)))
      (Listener (capacity L) (pending L) r (free_sds L) (stuck L)).

Inductive lsteps : listener -> list event -> list answer -> listener -> Prop :=
| lsteps_nil L : lsteps L [] [] L
| lsteps_cons L e x L1 es xs L2 : lstep L e x L1 -> lsteps L1 es xs L2 -> lsteps L (e :: es) (x :: xs) L2.

(** ** What every run of the specification satisfies *)

Definition accepted (xs : list answer) : list ptr :=
  omap (fun x => match x with Accepted p => Some p | _ => None end) xs.
Definition completed (es : list event) : list Z :=
  omap (fun e => match e with Completes sd => Some sd | _ => None end) es.
(** The peers of the segments that opened a connection. *)
Fixpoint opened (es : list event) (xs : list answer) : list sockaddr_in :=
  match es, xs with
  | Arrives _ peer :: es, Opened true :: xs => peer :: opened es xs
  | _ :: es, _ :: xs => opened es xs
  | _, _ => []
  end.

(** From [L] to [L'] by [es] with the answers [xs]: the bound holds; completed
    connections are accepted in the order of completion; the connections
    accepted and those still held are those held at first and those opened,
    each once. *)
Definition orderly (L : listener) (es : list event) (xs : list answer) (L' : listener) : Prop :=
  capacity L' = capacity L /\ zlen (conns L') <= capacity L /\
  exists taken new, accepted xs = (fun x => Some (c_ctx x)) <$> taken /\
    c_peer <$> new = opened es xs /\
    c_sd <$> (taken ++ ready L') = (c_sd <$> ready L) ++ completed es /\
    taken ++ conns L' ≡ₚ new ++ conns L.

Lemma orderly_refl L : zlen (conns L) <= capacity L -> orderly L [] [] L.
Proof. intros Hb. split; [done|]. split; [done|]. exists [], []. by rewrite app_nil_r. Qed.

Lemma lstep_orderly L e x L1 es xs L2 : zlen (conns L) <= capacity L -> lstep L e x L1 ->
  (zlen (conns L1) <= capacity L1 -> orderly L1 es xs L2) -> orderly L (e :: es) (x :: xs) L2.
Proof.
  intros Hb Hst Ho. destruct Hst as [L packet peer _ Hno|L packet peer sd b k _ Hw Hk Hsd|L p1 y p2 Hp|L y r Hr];
    cbn [capacity] in Ho.
  - destruct (Ho Hb) as (Hc & Hb' & taken & new & H1 & H2 & H3 & H4). split; [done|]. split; [done|].
    by exists taken, new.
  - destruct Ho as (Hc & Hb' & taken & new & H1 & H2 & H3 & H4).
    { unfold wanted in Hw. rewrite !andb_true_iff, bool_decide_eq_true in Hw. destruct Hw as [_ Hw].
      unfold conns in *. cbn. lia. }
    split; [done|]. split; [done|]. exists taken, (Conn sd peer b :: new). split; [done|].
    split; [cbn; by rewrite H2|]. split; [done|]. rewrite H4. unfold conns. cbn. solve_Permutation.
  - destruct Ho as (Hc & Hb' & taken & new & H1 & H2 & H3 & H4).
    { unfold conns in *. cbn. rewrite Hp in Hb. rewrite !length_app in Hb. rewrite !length_app. cbn [length] in *. lia. }
    split; [done|]. split; [done|]. exists taken, new. split; [done|]. split; [done|]. split.
    + rewrite H3. cbn. by rewrite fmap_app, <- app_assoc.
    + rewrite H4. unfold conns. cbn. rewrite Hp. solve_Permutation.
  - destruct Ho as (Hc & Hb' & taken & new & H1 & H2 & H3 & H4).
    { unfold conns in *. cbn. rewrite Hr in Hb. rewrite !length_app in Hb. rewrite !length_app. cbn [length] in *. lia. }
    split; [done|]. split; [done|]. exists (y :: taken), new. split.
    { rewrite fmap_cons, <- H1. done. }
    split; [done|]. split.
    + cbn. rewrite H3, Hr. done.
    + cbn. rewrite H4. unfold conns. cbn. rewrite Hr. solve_Permutation.
Qed.

Lemma lsteps_orderly L es xs L' : zlen (conns L) <= capacity L -> lsteps L es xs L' -> orderly L es xs L'.
Proof.
  intros Hb Hst. induction Hst as [L|L e x L1 es xs L2 Hst _ IH]; [by apply orderly_refl|].
  by eapply lstep_orderly.
Qed.

(** ** The slots *)

(** The connections the slots hold. *)
Definition held (r : connect_request_t) : option (Z * sockaddr_in) :=
  if decide (0 <= req_sd r) then Some (req_sd r, req_peer_addr r) else None.
Definition slot_conns (slots : list connect_request_t) : list (Z * sockaddr_in) := omap held slots.
Definition sd_peer (x : conn) : Z * sockaddr_in := (c_sd x, c_peer x).

(** An empty slot is as the code leaves it. *)
Definition slot_ok (r : connect_request_t) : Prop :=
  r = invalid_request \/ 0 <= req_sd r /\ req_peer_addr_len r = 16.

Lemma held_used r : 0 <= req_sd r -> held r = Some (req_sd r, req_peer_addr r).
Proof. intros Hr. unfold held. by rewrite decide_True. Qed.
Lemma held_empty r : req_sd r < 0 -> held r = None.
Proof. intros Hr. unfold held. by rewrite decide_False by lia. Qed.

Lemma slot_conns_split slots k r : slots !! k = Some r -> forall r',
  slot_conns (<[k := r']> slots)
  = slot_conns (take k slots) ++ option_list (held r') ++ slot_conns (drop (S k) slots).
Proof.
  intros Hk r'. pose proof (lookup_lt_Some _ _ _ Hk). rewrite insert_take_drop by done. unfold slot_conns.
  rewrite omap_app. cbn. by destruct (held r').
Qed.

Lemma slot_conns_swap slots k r r' : slots !! k = Some r ->
  option_list (held r) ++ slot_conns (<[k := r']> slots) ≡ₚ option_list (held r') ++ slot_conns slots.
Proof.
  intros Hk. rewrite (slot_conns_split _ _ _ Hk r').
  rewrite <- (list_insert_id slots k r Hk) at 3. rewrite (slot_conns_split _ _ _ Hk r). solve_Permutation.
Qed.

Lemma used_conns slots : used slots = zlen (slot_conns slots).
Proof.
  unfold used, slot_conns. induction slots as [|r slots IH]; [done|].
  rewrite filter_cons. cbn [omap list_omap]. unfold held at 1. case_decide; cbn [length]; lia.
Qed.

Lemma slot_conns_elem slots x : x ∈ slot_conns slots <->
  exists k r, slots !! k = Some r /\ 0 <= req_sd r /\ x = (req_sd r, req_peer_addr r).
Proof.
  unfold slot_conns. rewrite list_elem_of_omap. split.
  - intros (r & [k Hk]%list_elem_of_lookup & Hx). unfold held in Hx. case_decide; [|done].
    injection Hx as <-. by exists k, r.
  - intros (k & r & Hk & Hr & ->). exists r. split; [by eapply list_elem_of_lookup_2|by apply held_used].
Qed.

(** Descriptors differ, so a slot is known by its descriptor. *)
Lemma slot_unique slots : NoDup (slot_conns slots).*1 -> distinct_sds slots.
Proof.
  induction slots as [|r slots IH]; intros Hnd i j ri rj Hi Hj Hp Heq; [done|].
  assert (forall k r', slots !! k = Some r' -> 0 <= req_sd r -> req_sd r' = req_sd r -> False) as Hne.
  { intros k r' Hk Hr Hr'. unfold slot_conns in Hnd. cbn [omap list_omap] in Hnd. rewrite held_used in Hnd by done.
    cbn in Hnd. apply NoDup_cons in Hnd as [Hnd _]. apply Hnd. apply list_elem_of_fmap.
    exists (req_sd r', req_peer_addr r'). split; [done|]. apply slot_conns_elem. exists k, r'. by rewrite Hr'. }
  assert (NoDup (slot_conns slots).*1) as Hnd'.
  { unfold slot_conns in Hnd. cbn [omap list_omap] in Hnd. unfold held at 1 in Hnd. case_decide; [|done].
    by apply NoDup_cons in Hnd as [_ Hnd]. }
  destruct i as [|i], j as [|j]; [done| | |]; cbn in Hi, Hj.
  - injection Hi as ->. exfalso. by apply (Hne j rj).
  - injection Hj as ->. exfalso. by apply (Hne i ri); [|rewrite <- Heq|].
  - f_equal. by apply (IH Hnd' i j ri rj).
Qed.

Lemma known_conns slots addr : Forall slot_ok slots -> sa_family addr = AF_INET ->
  known_peer slots addr 16 = existsb (fun x => same_peer x.2 addr) (slot_conns slots).
Proof.
  intros Hok Hfam. unfold known_peer, slot_conns. induction Hok as [|r slots Hr _ IH]; [done|].
  cbn [existsb omap list_omap]. rewrite IH. destruct Hr as [->|[Hr _]].
  - rewrite held_empty by (cbn; lia). rewrite bool_decide_false; [done|]. cbn. destruct addr as [f p a].
    cbn in Hfam. subst f. discriminate.
  - by rewrite held_used by done.
Qed.

Lemma existsb_perm {A} (P : A -> bool) l k : l ≡ₚ k -> existsb P l = existsb P k.
Proof.
  induction 1 as [|x l k _ IH|x y l|l k m _ IH1 _ IH2]; [done|cbn; by rewrite IH| |congruence].
  cbn. by destruct (P x), (P y).
Qed.

(** ** Descriptors *)

Definition free_count (g : list ptr) : nat := length (filter (fun e => e = NULL) g).

Lemma free_count_none g : first_free g = None <-> free_count g = 0%nat.
Proof.
  unfold first_free, free_count. induction g as [|e g IH]; [done|].
  cbn [list_find]. rewrite filter_cons. destruct (decide (e = NULL)); [done|].
  rewrite <- IH. by destruct (list_find _ g) as [[? ?]|].
Qed.

Lemma free_count_take g k b : g !! k = Some NULL -> free_count g = S (free_count (<[k := Some b]> g)).
Proof.
  unfold free_count. revert k. induction g as [|e g IH]; intros [|k] Hk; [done|done| |]; cbn in Hk.
  - injection Hk as ->. cbn [insert list_insert]. by rewrite !filter_cons.
  - cbn [insert list_insert]. rewrite !filter_cons. destruct (decide (e = NULL)); cbn [length]; by rewrite (IH k Hk).
Qed.

(** ** What the listener stands for *)
Section refinement.
Context {T W : Type} `{KT : KeyedTable T Z positive} `{StreamOS W}.
Implicit Types s : state T W.

(** The descriptor of [x] names its context, a connection of the listener. *)
Definition live s (c : mysock_context_t) (x : conn) : Prop :=
  exists cb, descriptor s (c_sd x) (c_ctx x) cb /\ listen_sd cb = my_sd c.

Record represents s (a qa arr : positive) (c : mysock_context_t) (q : listen_queue_t)
    (slots : list connect_request_t) (l : list (positive * completed_connect_t))
    (rest : gmap positive completed_connect_t) (L : listener) : Prop := {
  rp_inv : listen_inv s a qa arr c q slots l rest;
  rp_slots : Forall slot_ok slots;
  rp_table : table_ok s;
  rp_nodes : heap_wf (queue_nodes s);
  rp_self : descriptor s (my_sd c) a c;
  rp_impl : exists ai at', impl_data (network_state c) = Some ai /\ cells (impls s) !! ai = Some at' /\
    sock_ctx at' = Some a /\ 0 <= socket at' /\ stuck L = negb (bool_decide (new_socket at' = -1));
  rp_passive : is_active c = false;
  rp_conns : slot_conns slots ≡ₚ sd_peer <$> conns L;
  rp_nodup : NoDup (c_sd <$> conns L);
  rp_live : Forall (live s c) (conns L);
  rp_ready : completed_sds slots l = c_sd <$> ready L;
  rp_cap : capacity L = zlen slots;
  rp_free : free_sds L = free_count (global_ctx s)
}.

(** The context at [a], of descriptor [sd], is the listener [L]. *)
Definition listening_as s (a : positive) (sd : Z) (L : listener) : Prop :=
  exists c qa arr q slots l rest, my_sd c = sd /\ represents s a qa arr c q slots l rest L.

Lemma conns_sds L : (sd_peer <$> conns L).*1 = c_sd <$> conns L.
Proof. by rewrite <- list_fmap_compose. Qed.

Lemma represents_nodup s a qa arr c q slots l rest L :
  represents s a qa arr c q slots l rest L -> NoDup (slot_conns slots).*1.
Proof. intros R. rewrite (rp_conns _ _ _ _ _ _ _ _ _ _ R), conns_sds. apply R. Qed.

Lemma represents_bound s a qa arr c q slots l rest L :
  represents s a qa arr c q slots l rest L -> zlen (conns L) = used slots /\ used slots <= capacity L.
Proof.
  intros R. rewrite (rp_cap _ _ _ _ _ _ _ _ _ _ R). split; [|apply used_le].
  rewrite used_conns. pose proof (Permutation_length (rp_conns _ _ _ _ _ _ _ _ _ _ R)) as Hl.
  rewrite length_fmap in Hl. lia.
Qed.

(** The slot of a connection. *)
Lemma represents_slot s a qa arr c q slots l rest L x :
  represents s a qa arr c q slots l rest L -> x ∈ conns L ->
  exists k r, slots !! k = Some r /\ req_sd r = c_sd x /\ req_peer_addr r = c_peer x /\ 0 <= req_sd r.
Proof.
  intros R Hx. assert (sd_peer x ∈ slot_conns slots) as Hin.
  { rewrite (rp_conns _ _ _ _ _ _ _ _ _ _ R). apply list_elem_of_fmap. by exists x. }
  apply slot_conns_elem in Hin as (k & r & Hk & Hr & [= Hsd Hp]). by exists k, r.
Qed.

Lemma live_same s s' c x : same_tables s s' -> live s c x -> live s' c x.
Proof. intros [Hc Hg _ _ _] (cb & Hd & Hl). exists cb. split; [|done]. by eapply descriptor_same. Qed.

Lemma table_ok_same s s' : same_tables s s' -> table_ok s -> table_ok s'.
Proof.
  intros [Hc Hg _ Hi _] [H1 H2 H3 H4]. split; [by rewrite Hg|by rewrite Hc|by rewrite Hi|].
  intros k a. rewrite Hg, Hc. apply H4.
Qed.

(** What a step that leaves the tables alone must show. *)
Lemma represents_same s s' a qa arr c q q' slots slots' l l' rest L L' :
  represents s a qa arr c q slots l rest L -> same_tables s s' ->
  listen_inv s' a qa arr c q' slots' l' rest -> Forall slot_ok slots' -> zlen slots' = zlen slots ->
  slot_conns slots' ≡ₚ sd_peer <$> conns L' -> (forall x, x ∈ conns L' -> x ∈ conns L) ->
  NoDup (c_sd <$> conns L') -> completed_sds slots' l' = c_sd <$> ready L' ->
  capacity L' = capacity L -> free_sds L' = free_sds L -> stuck L' = stuck L ->
  represents s' a qa arr c q' slots' l' rest L'.
Proof.
  intros [I Hok Ht Hn Hd Hi Hact Hcs Hnd Hl Hr Hcap Hfree] St I' Hok' Hlen Hcs' Hsub Hnd' Hr' Hcap' Hfree' Hst'.
  pose proof St as [Hctx Hg Hqn Him _]. split; try done.
  - by eapply table_ok_same.
  - by rewrite Hqn.
  - by eapply descriptor_same.
  - by rewrite Him, Hst'.
  - rewrite Forall_forall in Hl |- *. intros x Hx. eapply live_same; [done|]. by apply Hl, Hsub.
  - by rewrite Hcap', Hlen.
  - by rewrite Hfree', Hg.
Qed.

(** ** The steps *)

Lemma completes_ok s a sd L p1 x p2 : listening_as s a sd L -> pending L = p1 ++ x :: p2 ->
  exists s', (p ← _mysock_get_context (c_sd x); _mysock_passive_connection_complete p) s = Ok (tt, s') /\
    listening_as s' a sd (Listener (capacity L) (p1 ++ p2) (ready L ++ [x]) (free_sds L) (stuck L)).
Proof.
  intros (c & qa & arr & q & slots & l & rest & Hsd0 & R) Hp.
  assert (x ∈ conns L) as Hx by (unfold conns; rewrite Hp; set_solver).
  assert (conns L ≡ₚ (p1 ++ p2) ++ ready L ++ [x]) as Hperm by (unfold conns; rewrite Hp; solve_Permutation).
  pose proof R as [I Hok Ht Hn Hd Hi Hact Hcs Hnd Hl Hr Hcap Hfree].
  rewrite Forall_forall in Hl. destruct (Hl x Hx) as (cb & Hdb & Hlsd).
  destruct (represents_slot _ _ _ _ _ _ _ _ _ _ x R Hx) as (k & r & Hk & Hsd & _ & Hpos).
  pose proof Hdb as (Hdb0 & Hdb1 & Hdb2 & Hdb3).
  assert (my_sd cb ∉ completed_sds slots l) as Hnew.
  { rewrite Hr, Hdb3. rewrite Hperm, !fmap_app in Hnd. rewrite app_assoc in Hnd. cbn in Hnd.
    apply NoDup_app in Hnd as (_ & Hdis & _). intros Hin.
    apply (Hdis (c_sd x)); [rewrite elem_of_app; by right|by apply list_elem_of_singleton]. }
  destruct (complete_ok s a qa arr c q slots l rest (c_ctx x) cb (Z.of_nat k) r I)
    as (s' & q' & l' & Hrun & I' & Hsds & St); try done.
  - rewrite Hlsd. apply Hd.
  - by rewrite Hlsd.
  - lia.
  - by rewrite Nat2Z.id.
  - by rewrite Hdb3.
  - by rewrite Hdb3.
  - intros j r' Hj Hr' Hsd'. assert (Z.to_nat j = k); [|lia].
    apply (slot_unique _ (represents_nodup _ _ _ _ _ _ _ _ _ _ R) _ _ r' r); [done|done|lia|lia].
  - exists s'. split.
    + erewrite m_bind_ok by (eapply get_context_ok; by split_and!). exact Hrun.
    + exists c, qa, arr, q', slots, l', rest. split; [exact Hsd0|]. eapply represents_same; try done.
      * rewrite Hcs. by rewrite Hperm.
      * intros y. unfold conns at 1. cbn. by rewrite Hperm.
      * unfold conns. cbn. by rewrite <- Hperm.
      * rewrite Hsds, Hr, Hdb3. cbn. by rewrite fmap_app.
Qed.

Lemma accept_ok s a sd L x r : listening_as s a sd L -> ready L = x :: r ->
  exists s', _mysock_dequeue_connection (Some a) s = Ok (Some (c_ctx x), s') /\
    listening_as s' a sd (Listener (capacity L) (pending L) r (free_sds L) (stuck L)).
Proof.
  intros (c & qa & arr & q & slots & l & rest & Hsd0 & R) Hx.
  assert (conns L ≡ₚ x :: pending L ++ r) as Hperm by (unfold conns; rewrite Hx; solve_Permutation).
  pose proof R as [I Hok Ht Hn Hd Hi Hact Hcs Hnd Hl Hr Hcap Hfree].
  destruct l as [|[ra y] l]; [by rewrite Hx in Hr|].
  pose proof (li_req _ _ _ _ _ _ _ _ _ I) as [(k & rk & Hy & Hk & Hrk & Hpos) Hreq]%Forall_cons. cbn in Hy.
  pose proof (li_nodup _ _ _ _ _ _ _ _ _ I) as [Hkn _]%NoDup_cons. cbn in Hkn. rewrite Hy in Hkn. cbn in Hkn.
  rewrite Hx in Hr. unfold completed_sds in Hr. cbn in Hr. rewrite Hy in Hr. cbn in Hr. rewrite Hrk in Hr.
  cbn in Hr. injection Hr as Hsd Hr. fold (completed_sds slots l) in Hr.
  rewrite Forall_forall in Hl. destruct (Hl x ltac:(rewrite Hperm; by left)) as (cb & Hdb & _).
  rewrite <- Hsd in Hdb.
  destruct (dequeue_connection_ok s a qa arr c q slots ra y l rest k rk (c_ctx x) cb I Hy Hrk Hdb)
    as (s' & q' & Hrun & I' & St).
  pose proof (slot_conns_swap slots _ _ invalid_request Hrk) as Hswap.
  rewrite held_used, (held_empty invalid_request) in Hswap by (done || cbn; lia). cbn in Hswap.
  exists s'. split; [exact Hrun|].
  exists c, qa, arr, q', (<[Z.to_nat k := invalid_request]> slots), l, rest. split; [exact Hsd0|].
  eapply represents_same; try done.
  - apply Forall_insert; [done|]. by left.
  - by rewrite length_insert.
  - rewrite Hcs, Hperm in Hswap. cbn in Hswap. unfold conns. cbn.
    destruct (represents_slot _ _ _ _ _ _ _ _ _ _ x R ltac:(rewrite Hperm; by left)) as (k' & r' & Hk' & Hsd' & Hp' & Hpos').
    assert (k' = Z.to_nat k) as -> by
      (apply (slot_unique _ (represents_nodup _ _ _ _ _ _ _ _ _ _ R) _ _ r' rk); [done|done|done|congruence]).
    rewrite Hrk in Hk'. injection Hk' as <-. unfold sd_peer at 1 in Hswap. rewrite <- Hsd, <- Hp' in Hswap.
    by apply Permutation_cons_inv in Hswap.
  - intros z. rewrite Hperm. unfold conns. cbn. by right.
  - rewrite Hperm in Hnd. cbn in Hnd. by apply NoDup_cons in Hnd as [_ Hnd].
  - cbn. rewrite <- Hr. apply completed_sds_invalidate; [done| |done].
    eapply Forall_impl; [exact Hreq|]. intros z (k' & r' & Hz & Hk' & _). by rewrite Hz.
Qed.

Lemma accept_waits s a sd L : listening_as s a sd L -> ready L = [] ->
  _mysock_dequeue_connection (Some a) s = Crash Blocks.
Proof.
  intros (c & qa & arr & q & slots & l & rest & Hsd0 & R) Hx. pose proof (rp_ready _ _ _ _ _ _ _ _ _ _ R) as Hr.
  rewrite Hx in Hr. destruct l; [|done]. eapply accept_blocks. apply R.
Qed.

(** The operating system has sockets and pipes for every connection. *)
Context (grants : forall w : W, exists fd fds w', os_grants w fd fds w').

Lemma wanted_ok s a qa arr c q slots l rest L packet peer :
  represents s a qa arr c q slots l rest L -> sa_family peer = AF_INET ->
  wanted L packet peer
  = negb (negb (is_syn packet (zlen packet)) || known_peer slots peer 16 || bool_decide (used slots = zlen slots)).
Proof.
  intros R Hfam. destruct (represents_bound _ _ _ _ _ _ _ _ _ _ R) as [Hused Hle].
  unfold wanted. rewrite (known_conns _ _ (rp_slots _ _ _ _ _ _ _ _ _ _ R) Hfam).
  rewrite (existsb_perm _ _ _ (rp_conns _ _ _ _ _ _ _ _ _ _ R)).
  assert (existsb (fun x : Z * sockaddr_in => same_peer x.2 peer) (sd_peer <$> conns L)
    = existsb (fun x => same_peer (c_peer x) peer) (conns L)) as ->.
  { generalize (conns L). intros k. induction k as [|x k IH]; [done|]. cbn [fmap list_fmap existsb]. by rewrite <- IH. }
  rewrite (rp_cap _ _ _ _ _ _ _ _ _ _ R) in Hle |- *.
  assert (bool_decide (zlen (conns L) < zlen slots) = negb (bool_decide (used slots = zlen slots))) as ->.
  { rewrite <- bool_decide_not. apply bool_decide_ext. lia. }
  rewrite !negb_orb, negb_involutive. f_equal.
Qed.

(** A slot is filled with a new connection. *)
Lemma represents_open s s' a qa arr c q q' slots l rest L j k na cb peer n :
  represents s a qa arr c q slots l rest L -> first_empty slots = Some j ->
  first_free (global_ctx s) = Some k -> free_sds L = S n ->
  listen_inv s' a qa arr c q' (<[j := ConnectRequest peer 16 (Z.of_nat k) false]> slots) l rest ->
  table_ok s' -> heap_wf (queue_nodes s') ->
  descriptor s' (Z.of_nat k) na cb -> listen_sd cb = my_sd c -> na = brk (contexts s) ->
  global_ctx s' = <[k := Some na]> (global_ctx s) ->
  (forall x, x <> na -> cells (contexts s') !! x = cells (contexts s) !! x) ->
  (exists ai at', impl_data (network_state c) = Some ai /\ cells (impls s') !! ai = Some at' /\
     sock_ctx at' = Some a /\ 0 <= socket at' /\ new_socket at' = -1) ->
  (Z.of_nat k ∉ (c_sd <$> conns L)) /\
  represents s' a qa arr c q' (<[j := ConnectRequest peer 16 (Z.of_nat k) false]> slots) l rest
    (Listener (capacity L) (Conn (Z.of_nat k) peer na :: pending L) (ready L) n false).
Proof.
  intros R Hj Hff Hfree' I' Ht' Hwn' Hd' Hls Hna Hg Hctx Hi'.
  pose proof R as [I Hok Ht Hwn Hd Hi Hact Hcs Hnd Hl Hr Hcap Hfree].
  destruct (first_empty_inv _ _ Hj) as (rj & Hrj & Hneg & _). destruct (first_free_bound _ _ Hff) as [Hk Hnull].
  assert (forall sd b cb', descriptor s sd b cb' -> descriptor s' sd b cb' /\ sd <> Z.of_nat k) as Hkeep.
  { intros sd b cb' (H1 & H2 & H3 & H4). assert (Z.to_nat sd <> k) as Hne by (intros Heq; rewrite Heq in H2; congruence).
    split; [|lia]. split; [done|]. rewrite Hg, list_lookup_insert_ne, Hctx; [done| |done].
    intros ->. rewrite Hna, (heap_wf_fresh _ (table_heap _ Ht)) in H3. done. }
  assert (Z.of_nat k ∉ (c_sd <$> conns L)) as Hnew.
  { intros (x & Hx & Hin)%list_elem_of_fmap. rewrite Forall_forall in Hl. destruct (Hl x Hin) as (cb' & Hdx & _).
    by destruct (Hkeep _ _ _ Hdx). }
  split; [exact Hnew|].
  split; try done.
  - apply Forall_insert; [done|]. right. cbn. split; [lia|done].
  - by apply Hkeep.
  - destruct Hi' as (ai & at' & H1 & H2 & H3 & H4 & H5). exists ai, at'. rewrite bool_decide_true by done. by split_and!.
  - pose proof (slot_conns_swap slots j rj (ConnectRequest peer 16 (Z.of_nat k) false) Hrj) as Hswap.
    rewrite (held_empty rj), held_used in Hswap by (done || cbn; lia). cbn in Hswap. rewrite Hswap, Hcs. done.
  - apply NoDup_cons. by split.
  - apply Forall_cons. split; [by exists cb|]. eapply Forall_impl; [exact Hl|].
    intros x (cb' & Hdx & Hlx). exists cb'. split; [|done]. by apply Hkeep.
  - cbn. rewrite <- Hr. unfold completed_sds. apply list_fmap_ext. intros i x Hx.
    rewrite list_lookup_insert_ne; [done|]. intros Heq.
    pose proof (Forall_lookup_1 _ _ _ _ (li_req _ _ _ _ _ _ _ _ _ I) Hx) as (k2 & r2 & Hx2 & _ & Hr2 & Hp2).
    rewrite Hx2 in Heq. cbn in Heq. rewrite <- Heq, Hrj in Hr2. injection Hr2 as ->. lia.
  - cbn. by rewrite length_insert.
  - cbn. rewrite Hg. pose proof (free_count_take _ _ na Hnull). lia.
Qed.

(** No descriptor was left: the slot is emptied again. *)
Lemma represents_emfile s s' a qa arr c q q' slots l rest L j :
  represents s a qa arr c q slots l rest L -> first_empty slots = Some j ->
  listen_inv s' a qa arr c q' (<[j := invalid_request]> slots) l rest ->
  table_ok s' -> heap_wf (queue_nodes s') -> global_ctx s' = global_ctx s ->
  cells (contexts s') = cells (contexts s) -> cells (impls s') = cells (impls s) ->
  represents s' a qa arr c q' (<[j := invalid_request]> slots) l rest L.
Proof.
  intros R Hj I' Ht' Hwn' Hg Hc Hi'. pose proof R as [I Hok Ht Hwn Hd Hi Hact Hcs Hnd Hl Hr Hcap Hfree].
  destruct (first_empty_inv _ _ Hj) as (rj & Hrj & Hneg & _).
  assert (forall sd b cb', descriptor s sd b cb' -> descriptor s' sd b cb') as Hkeep
    by (intros sd b cb'; unfold descriptor; by rewrite Hg, Hc).
  assert (rj = invalid_request) as ->.
  { destruct (Forall_lookup_1 _ _ _ _ Hok Hrj) as [->|[Hr' _]]; [done|lia]. }
  rewrite list_insert_id in * by done. split; try done.
  - by apply Hkeep.
  - by rewrite Hi'.
  - eapply Forall_impl; [exact Hl|]. intros x (cb' & Hdx & Hlx). exists cb'. split; [by apply Hkeep|done].
  - by rewrite Hg.
Qed.

(** A segment from [peer], to a listener whose TCP descriptor the receive
    thread holds. *)
Lemma arrives_ok s a qa arr c q slots l rest L packet peer :
  represents s a qa arr c q slots l rest L -> sa_family peer = AF_INET ->
  exists b s' q' slots' L', _mysock_enqueue_connection (Some a) packet (zlen packet) peer 16 false s = Ok (b, s') /\
    represents s' a qa arr c q' slots' l rest L' /\
    if b : bool then
      wanted L packet peer = true /\ exists sd cx k, free_sds L = S k /\ (sd ∉ (c_sd <$> conns L)) /\
        L' = Listener (capacity L) (Conn sd peer cx :: pending L) (ready L) k false
    else (wanted L packet peer = false \/ free_sds L = 0%nat) /\ L' = L.
Proof.
  intros R Hfam.
  pose proof R as [I Hok Ht Hwn Hd (ai & at' & Hai & Hat & Hsc & Hso & Hstk) Hact Hcs Hnd Hl Hr Hcap Hfree].
  destruct (grants (world s)) as (fd & fds & w & Hos).
  pose proof (wanted_ok _ _ _ _ _ _ _ _ _ _ packet peer R Hfam) as Hw.
  assert (slots_ok slots 16) as Hsl by (eapply Forall_impl; [exact Hok|]; intros r [->|Hr']; [by left|by right]).
  assert (0 <= zlen packet <= zlen packet) as Hn by lia.
  pose proof (enqueue_prefix s a qa arr c q slots l rest packet _ peer 16 false I Hsl ltac:(lia) Hn) as Hpre.
  destruct (_ || _ || _) eqn:Hcond in Hpre, Hw.
  { rewrite decide_True in Hpre by done. exists false, s, q, slots, L. split_and!; [done|done|by left|done]. }
  cbn [negb] in Hw. destruct (first_free (global_ctx s)) as [k|] eqn:Hff.
  - destruct (enqueue_opens s a qa arr c q slots l rest packet _ peer 16 fd fds w I Hsl ltac:(lia) Hn Ht Hwn Hos Hcond Hfam
      ai at' k Hai Hat Hff) as (j & s' & q' & Hj & Hrun & Ht' & Hwn' & I' & (pq & Hd' & _) & _ & Hat' & Hg & Hctx).
    destruct (free_sds L) as [|m] eqn:Hm.
    { symmetry in Hfree. apply free_count_none in Hfree. congruence. }
    destruct (represents_open s s' a qa arr c q q' slots l rest L j k (brk (contexts s)) _ peer m R Hj Hff Hm I' Ht' Hwn'
      Hd' eq_refl eq_refl Hg Hctx ltac:(by eexists _, _)) as [Hnew R'].
    exists true, s', q'. eexists _, _. split; [exact Hrun|]. split; [exact R'|]. split; [done|]. by eexists _, _, m.
  - destruct (enqueue_emfile s a qa arr c q slots l rest packet _ peer 16 fd fds w I Hsl ltac:(lia) Hn Ht Hwn Hos Hcond Hfam
      Hff) as (j & s' & q' & Hj & Hrun & Ht' & Hwn' & _ & I' & Hc' & Hi' & Hg).
    exists false, s', q'. eexists _, L. split; [exact Hrun|]. split; [by eapply represents_emfile|].
    split; [|done]. right. by rewrite Hfree; apply free_count_none.
Qed.

(** The receive thread accepts a TCP connection for the listener. *)
Lemma represents_accept s a qa arr c q slots l rest L i t fd' peer w :
  represents s a qa arr c q slots l rest L -> impl_data (network_state c) = Some i ->
  cells (impls s) !! i = Some t -> 0 <= fd' ->
  represents (set_world w (set_impls (heap_put i (set_new_socket fd' t) (impls s))
      (set_contexts (heap_put a (accepted_from peer 16 c) (contexts s)) s)))
    a qa arr (accepted_from peer 16 c) q slots l rest
    (Listener (capacity L) (pending L) (ready L) (free_sds L) true).
Proof.
  intros R Hi Ht' Hfd.
  destruct R as [[Hc Hf Htab Hq Harr Hsl Hmax Hcur Hch Hown Hreq Hndp] Hok Ht Hwn Hd
    (ai & at' & Hai & Hat & Hsc & Hso & Hstk) Hact Hcs Hnd Hl Hr Hcap Hfree].
  assert (ai = i) as -> by congruence. assert (at' = t) as -> by congruence.
  assert (forall sd b cb, descriptor s sd b cb -> exists cb', descriptor (set_world w
    (set_impls (heap_put i (set_new_socket fd' t) (impls s))
      (set_contexts (heap_put a (accepted_from peer 16 c) (contexts s)) s))) sd b cb' /\ listen_sd cb' = listen_sd cb /\
      (b = a -> cb' = accepted_from peer 16 c)) as Hkeep.
  { intros sd b cb (H1 & H2 & H3 & H4). destruct (decide (b = a)) as [->|Hne].
    - exists (accepted_from peer 16 c). assert (cb = c) as -> by congruence.
      split; [|done]. split_and!; [done|exact H2|cbn; apply lookup_insert_eq|exact H4].
    - exists cb. split; [|done]. split_and!; [done|exact H2|cbn; by rewrite lookup_insert_ne|exact H4]. }
  split; try done.
  - split; try done. cbn. apply lookup_insert_eq.
  - destruct Ht as [H1 H2 H3 H4]. split; [exact H1|apply heap_wf_put; [done|by eexists]|apply heap_wf_put; [done|by eexists]|].
    intros k b Hk. destruct (H4 k b Hk) as (cb & Hb1 & Hb2). destruct (decide (b = a)) as [->|Hne].
    + exists (accepted_from peer 16 c). split; [cbn; apply lookup_insert_eq|]. assert (cb = c) as -> by congruence. exact Hb2.
    + exists cb. split; [cbn; by rewrite lookup_insert_ne|done].
  - destruct (Hkeep _ _ _ Hd) as (cb' & Hd' & _ & Heq). by rewrite Heq in Hd'.
  - exists i, (set_new_socket fd' t). cbn. rewrite bool_decide_false by lia. split_and!; try done. apply lookup_insert_eq.
  - eapply Forall_impl; [exact Hl|]. intros x (cb & Hdx & Hlx). destruct (Hkeep _ _ _ Hdx) as (cb' & Hd' & Hl' & _).
    exists cb'. split; [done|]. by rewrite Hl'.
Qed.

(** ** Any schedule *)

(** The event on the listening context [a].  A segment is a turn of the
    receive thread; its answer tells whether the descriptor it accepted was
    taken over.  A handshake is reported for a descriptor. *)
Definition perform (a : positive) (e : event) : M T W answer :=
  match e with
  | Arrives _ _ =>
      _ ← network_recv_thread_turn (Some a) false;
      i ← impl_of (Some a); t ← load_impl i;
      mret (Opened (bool_decide (new_socket t = -1)))
  | Completes sd => (p ← _mysock_get_context sd; _mysock_passive_connection_complete p);; mret Completed
  | Accepts => p ← _mysock_dequeue_connection (Some a); mret (Accepted p)
  end.

(** [accept] gives the listener of [a] a connection from [peer] on which
    [packet], of at most [MAX_IP_PAYLOAD_LEN] bytes, comes first. *)
Definition delivered (a : positive) s (packet : list Z) (peer : sockaddr_in) : Prop :=
  exists c i t fd' w1 rest, cells (contexts s) !! a = Some c /\ impl_data (network_state c) = Some i /\
    cells (impls s) !! i = Some t /\ os_accept (socket t) (world s) = (fd', peer, 16, w1) /\ 0 <= fd' /\
    stream fd' w1 = frame packet ++ rest /\ 0 < zlen packet <= MAX_IP_PAYLOAD_LEN /\ sa_family peer = AF_INET.

(** The operating system lets the event happen. *)
Definition enabled (a : positive) s (e : event) : Prop :=
  match e with Arrives packet peer => delivered a s packet peer | _ => True end.

Inductive execs (a : positive) : state T W -> list event -> list answer -> state T W -> Prop :=
| execs_nil s : execs a s [] [] s
| execs_cons s e x s1 es xs s2 : enabled a s e -> perform a e s = Ok (x, s1) ->
    execs a s1 es xs s2 -> execs a s (e :: es) (x :: xs) s2.

Lemma turn_ok s a sd L packet peer : listening_as s a sd L -> delivered a s packet peer ->
  if stuck L then network_recv_thread_turn (Some a) false s = Crash Abort
  else exists b s' L', perform a (Arrives packet peer) s = Ok (Opened b, s') /\
    lstep L (Arrives packet peer) (Opened b) L' /\ listening_as s' a sd L'.
Proof.
  intros (c & qa & arr & q & slots & l & rest & <- & R)
    (c' & i & t & fd' & w1 & more & Hc & Hi & Ht & Hacc & Hfd & Hstr & Hlen & Hfam).
  pose proof (li_ctx _ _ _ _ _ _ _ _ _ (rp_inv _ _ _ _ _ _ _ _ _ _ R)) as Hc'. rewrite Hc in Hc'. injection Hc' as ->.
  destruct (rp_impl _ _ _ _ _ _ _ _ _ _ R) as (i' & t' & Hi' & Ht' & Hsc & Hso & Hstk).
  assert (i' = i) as -> by congruence. assert (t' = t) as -> by congruence.
  pose proof (li_flags _ _ _ _ _ _ _ _ _ (rp_inv _ _ _ _ _ _ _ _ _ _ R)) as Hfl.
  apply andb_true_iff in Hfl as [Hlis _].
  pose proof (recv_packet_listening s a c i t fd' peer 16 w1 MAX_IP_PAYLOAD_LEN Hc Hi Ht Hsc Hso Hlis
    (rp_passive _ _ _ _ _ _ _ _ _ _ R) Hacc Hfd) as Hrecv.
  unfold MAX_IP_PAYLOAD_LEN in Hlen, Hrecv.
  rewrite Hstk. destruct (decide (new_socket t = -1)) as [Hnew|Hnew].
  2: { rewrite bool_decide_false by done. cbn [negb]. unfold network_recv_thread_turn. by apply m_bind_crash. }
  rewrite bool_decide_true in Hstk |- * by done. cbn [negb]. pose proof Hstk as Hs0. cbn [negb] in Hs0.
  set (s1 := set_impls _ _) in Hrecv.
  destruct (recv_frame_ok s1 fd' packet more 1500) as (w2 & Hfr & _); [lia|lia|exact Hstr|].
  rewrite take_ge in Hfr by lia. rewrite Hfr in Hrecv.
  pose proof (represents_accept s a qa arr c q slots l rest L i t fd' peer w2 R Hi Ht Hfd) as R1.
  change (set_world w2 (set_impls _ _)) with (set_world w2 s1) in R1.
  destruct (arrives_ok _ _ _ _ _ _ _ _ _ _ packet peer R1 Hfam) as (b & s' & q' & slots' & L' & Hrun & R' & Hb).
  destruct (rp_impl _ _ _ _ _ _ _ _ _ _ R') as (i2 & t2 & Hi2 & Ht2 & _ & _ & Hstk2).
  assert (b = negb (stuck L')) as Hbs.
  { destruct b; [destruct Hb as (_ & ? & ? & ? & _ & _ & ->); done|by destruct Hb as [_ ->]]. }
  exists b, s', L'. split; [|split; [|by exists (accepted_from peer 16 c), qa, arr, q', slots', l, rest]].
  - assert (network_recv_thread_turn (Some a) false s = Ok (true, s')) as Hturn.
    { unfold network_recv_thread_turn. m_use Hrecv. rewrite decide_False by lia.
      erewrite m_bind_ok by (apply m_assert_dec; unfold MAX_IP_PAYLOAD_LEN; lia).
      erewrite m_bind_ok by (apply load_ctx_ok; cbn; apply lookup_insert_eq).
      cbn [accepted_from listening set_network_state network_state peer_addr peer_addr_len set_peer_addr_len set_peer_addr].
      rewrite Hlis. rewrite m_bind_ok with (a := tt) (s' := s'); [done|]. by m_use Hrun. }
    cbn [perform]. m_use Hturn.
    rewrite m_bind_ok with (a := Some i2) (s' := s').
    2: { unfold impl_of. erewrite m_bind_ok by (apply load_ctx_ok; apply (rp_inv _ _ _ _ _ _ _ _ _ _ R')). by rewrite Hi2. }
    m_step. by rewrite Hbs, Hstk2, negb_involutive.
  - assert (wanted (Listener (capacity L) (pending L) (ready L) (free_sds L) true) packet peer = wanted L packet peer)
      as Hw by done. rewrite Hw in Hb. destruct b.
    + destruct Hb as (Hwt & x & cx & k & Hk & Hx & ->). exact (step_open L packet peer x cx k Hs0 Hwt Hk Hx).
    + destruct Hb as [Hno ->]. exact (step_drop L packet peer Hs0 Hno).
Qed.

(** What the code does with the next event is what the listener says. *)
Definition does_step (a : positive) (sd : Z) s (L : listener) (e : event) : Prop :=
  exists x s' L', perform a e s = Ok (x, s') /\ lstep L e x L' /\ listening_as s' a sd L'.

Definition does_next (a : positive) (sd : Z) s (L : listener) (e : event) : Prop :=
  match e with
  | Arrives _ _ => if stuck L then perform a e s = Crash Abort else does_step a sd s L e
  | Completes sd' => sd' ∈ (c_sd <$> pending L) -> does_step a sd s L e
  | Accepts => if decide (ready L = []) then perform a e s = Crash Blocks else does_step a sd s L e
  end.

Lemma next_ok s a sd L e : listening_as s a sd L -> enabled a s e -> does_next a sd s L e.
Proof.
  intros HL He. destruct e as [packet peer|sd'|]; cbn [does_next].
  - pose proof (turn_ok s a sd L packet peer HL He) as Ht. destruct (stuck L).
    + cbn [perform]. by apply m_bind_crash.
    + destruct Ht as (b & s' & L' & Ht). by exists (Opened b), s', L'.
  - intros (x & -> & (p1 & p2 & Hp)%list_elem_of_split)%list_elem_of_fmap.
    destruct (completes_ok s a sd L p1 x p2 HL Hp) as (s' & Hrun & HL').
    eexists Completed, s', _. cbn [perform]. rewrite (m_bind_ok _ _ _ _ _ Hrun).
    split; [done|]. split; [by constructor|done].
  - destruct (ready L) as [|x r] eqn:Hr.
    + rewrite decide_True by done. apply m_bind_crash. by eapply accept_waits.
    + rewrite decide_False by done. destruct (accept_ok s a sd L x r HL Hr) as (s' & Hrun & HL').
      eexists (Accepted (Some (c_ctx x))), s', _. cbn [perform]. rewrite (m_bind_ok _ _ _ _ _ Hrun).
      split; [done|]. split; [by constructor|done].
Qed.

(** [es] reports a handshake that was not going on. *)
Definition strays (L : listener) (es : list event) : Prop :=
  exists pre sd post xs L', es = pre ++ Completes sd :: post /\ lsteps L pre xs L' /\ (sd ∉ (c_sd <$> pending L')).

Lemma execs_ok a sd s es xs s' : execs a s es xs s' -> forall L, listening_as s a sd L ->
  strays L es \/ exists L', lsteps L es xs L' /\ listening_as s' a sd L'.
Proof.
  induction 1 as [s|s e x s1 es xs s2 He Hrun _ IH]; intros L HL.
  { right. exists L. by split; [constructor|]. }
  assert (does_step a sd s L e \/ exists sd', e = Completes sd' /\ sd' ∉ (c_sd <$> pending L)) as [Hd|(sd' & -> & Hsd')].
  { pose proof (next_ok s a sd L e HL He) as Hn. destruct e as [packet peer|sd'|]; cbn [does_next] in Hn.
    - destruct (stuck L); [congruence|by left].
    - destruct (decide (sd' ∈ c_sd <$> pending L)) as [Hin|Hout]; [left; by apply Hn|right; by exists sd'].
    - case_decide; [congruence|by left]. }
  - destruct Hd as (x' & s1' & L1 & Hrun' & Hst & HL1). rewrite Hrun in Hrun'. injection Hrun' as <- <-.
    destruct (IH L1 HL1) as [(pre & sd' & post & ys & L' & -> & Hs & Hn)|(L' & Hs & HL')].
    + left. exists (e :: pre), sd', post, (x :: ys), L'. by split_and!; [|econstructor|].
    + right. exists L'. by split; [econstructor|].
  - left. exists [], sd', es, [], L. by split_and!; [|constructor|].
Qed.

Lemma listening_bound s a sd L : listening_as s a sd L -> zlen (conns L) <= capacity L.
Proof. intros (c & qa & arr & q & slots & l & rest & _ & R). destruct (represents_bound _ _ _ _ _ _ _ _ _ _ R). lia. Qed.

(** C5: a listening socket is a bounded queue of connections.  In any
    execution of turns of the receive thread, completed handshakes and
    accepts, one after the other, the code does what the abstract [listener]
    does: a SYN of a new peer opens a connection exactly while there is room
    and a descriptor, completed connections are accepted in the order of
    completion, each connection opened is held or accepted exactly once, and
    no more are held than the queue has slots, one more than the backlog.  A
    dropped segment leaves its TCP descriptor in [new_socket], and the next
    turn that accepts a connection fails the assertion of
    [_network_recv_packet]; an accept with nothing to accept blocks; every
    other event that the operating system allows next is served as the
    listener says.  The one thing supposed of the transport layer is that it
    reports only handshakes that are going on (otherwise the execution
    [strays]). *)
Theorem listener_refines a sd s L es xs s' : listening_as s a sd L -> execs a s es xs s' ->
  strays L es \/
  exists L', lsteps L es xs L' /\ orderly L es xs L' /\ listening_as s' a sd L' /\
    forall e, enabled a s' e -> does_next a sd s' L' e.
Proof.
  intros HL He. pose proof (listening_bound _ _ _ _ HL) as Hb.
  destruct (execs_ok a sd s es xs s' He L HL) as [Hs|(L' & Hs & HL')]; [by left|right].
  exists L'. split_and!; [done|by apply lsteps_orderly|done|]. intros e. by apply next_ok.
Qed.

(** After its first backlog a socket listens, with nothing in its queue. *)
Lemma fresh_listener s a c cont backlog p :
  table_ok s -> heap_wf (queue_nodes s) -> descriptor s (my_sd c) a c ->
  (exists ai at', impl_data (network_state c) = Some ai /\ cells (impls s) !! ai = Some at' /\
     sock_ctx at' = Some a /\ 0 <= socket at' /\ new_socket at' = -1) ->
  is_active c = false -> listening c && bound c = true ->
  table_rep (listen_table s) cont -> table_valid (my_sd c) -> cont (my_sd c) = [] ->
  _network_get_port (Some a) s = Ok (p, s) -> 0 < ntohs (u16 p) -> heap_wf (completions s) ->
  let n := u32 (u32 backlog + 1) in 0 < n ->
  exists s', _mysock_set_backlog (Some a) backlog s = Ok (tt, s') /\
    listening_as s' a (my_sd c) (Listener n [] [] (free_count (global_ctx s)) false).
Proof.
  intros Ht Hwn Hd Hi Hact Hf Hrep Hv Hnil Hp Hport Hwf n Hn.
  destruct (first_backlog_ok s a c cont backlog p) as (s' & q & Hrun & Hmax & _ & _ & St & I); try done; [by apply Hd|].
  fold n in Hmax, I. rewrite decide_True in I by done. exists s'. split; [exact Hrun|].
  exists c, (brk (listen_queues s)), (brk (requests s)), q, (empty_slots n), [], (cells (completions s)).
  split; [done|]. pose proof St as [Hctx Hg Hqn Him _]. split; try done.
  - apply Forall_replicate. by left.
  - by eapply table_ok_same.
  - by rewrite Hqn.
  - by eapply descriptor_same.
  - destruct Hi as (ai & at' & H1 & H2 & H3 & H4 & H5). exists ai, at'. rewrite Him, bool_decide_true by done. by split_and!.
  - unfold slot_conns, empty_slots. induction (Z.to_nat n) as [|m IH]; [done|exact IH].
  - by apply NoDup_nil_2.
  - pose proof (li_max _ _ _ _ _ _ _ _ _ I) as Hm. cbn [capacity]. congruence.
  - cbn. by rewrite Hg.
Qed.

(** C6: a socket from [mylisten] on.  Its first backlog makes it a bounded
    queue of [backlog + 1] connections, empty at first.  In every execution
    of turns of the receive thread, handshakes and accepts from there the
    connections accepted and held are, each once, those of the segments the
    listener opened; the accepted ones followed by those ready are in the
    order of completion; never are more than [backlog + 1] held; and the next
    event is served, blocks or, after a dropped segment, fails the receive
    thread's assertion, as the listener says. *)
Theorem listening_socket_correct s a c cont backlog p :
  table_ok s -> heap_wf (queue_nodes s) -> descriptor s (my_sd c) a c ->
  (exists ai at', impl_data (network_state c) = Some ai /\ cells (impls s) !! ai = Some at' /\
     sock_ctx at' = Some a /\ 0 <= socket at' /\ new_socket at' = -1) ->
  is_active c = false -> listening c && bound c = true ->
  table_rep (listen_table s) cont -> table_valid (my_sd c) -> cont (my_sd c) = [] ->
  _network_get_port (Some a) s = Ok (p, s) -> 0 < ntohs (u16 p) -> heap_wf (completions s) ->
  0 <= backlog < 2 ^ 32 - 1 ->
  let L := Listener (backlog + 1) [] [] (free_count (global_ctx s)) false in
  exists s0, _mysock_set_backlog (Some a) backlog s = Ok (tt, s0) /\
    forall es xs s', execs a s0 es xs s' -> strays L es \/
    exists L' taken, lsteps L es xs L' /\ zlen (conns L') <= backlog + 1 /\
       accepted xs = (fun x => Some (c_ctx x)) <$> taken /\
       c_sd <$> (taken ++ ready L') = completed es /\
       c_peer <$> (taken ++ conns L') ≡ₚ opened es xs /\
       forall e, enabled a s' e -> does_next a (my_sd c) s' L' e.
Proof.
  intros Ht Hwn Hd Hi Hact Hf Hrep Hv Hnil Hp Hport Hwf Hb L.
  assert (u32 (u32 backlog + 1) = backlog + 1) as Hn by (rewrite (u32_small backlog), u32_small by lia; done).
  destruct (fresh_listener s a c cont backlog p Ht Hwn Hd Hi Hact Hf Hrep Hv Hnil Hp Hport Hwf) as (s0 & Hrun & HL); [lia|].
  rewrite Hn in HL. fold L in HL. exists s0. split; [exact Hrun|]. intros es xs s' He.
  destruct (execs_ok a _ s0 es xs s' He L HL) as [Hs|(L' & Hs & HL')]; [by left|right].
  destruct (lsteps_orderly L es xs L' ltac:(cbn; lia) Hs) as (_ & Hcap & taken & new & H1 & H2 & H3 & H4).
  exists L', taken. split; [done|]. split; [exact Hcap|]. split; [done|]. split; [exact H3|].
  split; [|intros e; by apply next_ok].
  rewrite H4, <- H2, fmap_app. cbn. by rewrite app_nil_r.
Qed.

(** A loop whose body leaves the state alone for [k] turns and then fails. *)
Lemma m_for_crash {A} n lo k (body : Z -> M T W (option A)) s f :
  (forall j, lo <= j < lo + Z.of_nat k -> body j s = Ok (None, s)) -> (k < n)%nat ->
  body (lo + Z.of_nat k) s = Crash f -> m_for n lo body s = Crash f.
Proof.
  revert n lo. induction k as [|k IH]; intros [|n] lo Hb Hk Hf; try lia; cbn [m_for].
  - rewrite Z.add_0_r in Hf. by apply m_bind_crash.
  - rewrite (m_bind_ok _ _ _ None s) by (apply Hb; lia). apply IH; [|lia|].
    + intros j Hj. apply Hb. lia.
    + by replace (lo + 1 + Z.of_nat k) with (lo + Z.of_nat (S k)) by lia.
Qed.

(** The operations are not kept apart by their lock: [myaccept] invalidates
    a slot with a [memset] and then a store of the descriptor -1.  If the
    receive thread looks for a retransmission in between, it finds the
    descriptor 0 with an address of length 0, and unless the peer is found in
    a slot before, an arriving SYN fails the assertion on the lengths. *)
Theorem accept_overlap_aborts s a qa arr c q slots l rest packet peer k r :
  listen_inv s a qa arr c q slots l rest -> slots_ok slots 16 ->
  slots !! k = Some r -> is_syn packet (zlen packet) = true ->
  known_peer (take k slots) peer 16 = false ->
  (store_req (Some arr, Z.of_nat k) zero_request;;
   _mysock_enqueue_connection (Some a) packet (zlen packet) peer 16 false) s = Crash Abort.
Proof.
  intros I Hok Hr Hsyn Hnew. pose proof I as [Hc Hf Htab Hq Harr Hsl Hmax Hcur Hch Hown Hreq Hnd].
  pose proof (lookup_lt_Some _ _ _ Hr) as Hk.
  m_use (store_req_ok s arr slots (Z.of_nat k) zero_request Hsl ltac:(lia)). rewrite Nat2Z.id.
  set (s1 := set_requests _ _).
  assert (_get_connection_queue (Some a) s1 = Ok (Some qa, s1)) as Hqa.
  { unfold _get_connection_queue. m_step. rewrite (m_bind_ok _ _ _ c s1) by (by apply load_ctx_ok). m_step.
    destruct Htab as (cont & Hrep & Hv & Hhd). unfold listen_lookup. cbn [listen_table set_requests].
    rewrite (table_lookup_spec _ cont) by done. by rewrite Hhd. }
  unfold _mysock_enqueue_connection. m_step. rewrite (m_bind_ok _ _ _ c s1) by (by apply load_ctx_ok). m_step.
  rewrite (m_bind_ok _ _ _ tt s1) by (by apply m_assert_dec).
  m_use (syn_check packet (zlen packet) s1 ltac:(lia)). rewrite Hsyn. cbn [negb].
  m_use Hqa. rewrite decide_False by done. rewrite (m_bind_ok _ _ _ q s1) by (by apply load_lq_ok).
  apply m_bind_crash. rewrite Hmax, Nat2Z.id, Harr.
  assert (cells (requests s1) !! arr = Some (<[k := zero_request]> slots)) as Hs1 by (cbn; apply lookup_insert_eq).
  apply (m_for_crash _ _ k); [|done|].
  - intros j Hj. destruct (lookup_lt_is_Some_2 slots (Z.to_nat j)) as [rj Hrj]; [lia|].
    pose proof (Forall_lookup_1 _ _ _ _ Hok Hrj) as Hrok. unfold retransmission_at.
    rewrite (m_bind_ok _ _ _ rj s1)
      by (apply (load_req_ok _ arr (<[k := zero_request]> slots)); [done|lia|by rewrite list_lookup_insert_ne by lia]).
    rewrite (m_bind_ok _ _ _ tt s1) by (apply m_assert_dec; cbn in Hrok; intuition lia).
    unfold same_addr. rewrite decide_True by lia.
    rewrite bool_decide_false; [by rewrite (m_bind_ok _ _ _ false s1)|]. intros Heq.
    assert (known_peer (take k slots) peer 16 = true) as Hkn; [|congruence].
    apply existsb_exists. exists rj. split; [|by apply bool_decide_true].
    apply list_elem_of_In, list_elem_of_lookup. exists (Z.to_nat j). by rewrite lookup_take_lt by lia.
  - unfold retransmission_at. rewrite (m_bind_ok _ _ _ zero_request s1)
      by (apply (load_req_ok _ arr (<[k := zero_request]> slots)); [done|lia|];
          replace (Z.to_nat (0 + Z.of_nat k)) with k by lia; by apply list_lookup_insert_eq).
    apply m_bind_crash. unfold m_assert. rewrite bool_decide_false by (cbn; lia). done.
Qed.
End refinement.

(** ** A socket with one completed and one waiting connection *)

#[local] Existing Instance demux_table.

Definition sample_listener : listener :=
  Listener 3 [Conn 2 (Sockaddr AF_INET 0x2222 0x0200007f) 3] [Conn 1 (Sockaddr AF_INET 0x1111 0x0200007f) 2] 61 false.

(** No descriptor is held by the receive thread, and three connections from one
    peer wait for it, each with a SYN. *)
Definition three_syns : list Z := concat (replicate 3 (frame sample_syn)).
Definition idle (s : state (table Z positive) pipes) : state (table Z positive) pipes :=
  set_world {[6 := three_syns]}
    (set_impls (Heap {[1%positive := TcpCtx true 4 (8, 9) (Some 1%positive) (-1) false]} 2) s).

Lemma idle_table_ok s : table_ok s -> table_ok (idle s).
Proof.
  intros [H1 H2 H3 H4]. split; [done|done| |done].
  intros x [y Hx]. cbn in Hx. apply lookup_singleton_Some in Hx as [<- _]. done.
Qed.

Lemma sample_listening : listening_as (idle demux_state) 1 0 sample_listener.
Proof.
  exists (sample_ctx 0 true), 1%positive, 1%positive, sample_queue, sample_slots, sample_done, ∅. split; [done|]. split.
  - by destruct demux_listen_inv.
  - repeat (apply Forall_cons_2; [first [by left|right; split; [cbn; lia|done]]|]). apply Forall_nil_2.
  - apply idle_table_ok, demux_table_ok.
  - apply heap_wf_empty.
  - exact (demux_descriptor 0 ltac:(lia)).
  - by eexists _, _.
  - done.
  - apply Permutation_swap.
  - apply (bool_decide_unpack _). vm_compute. exact I.
  - apply Forall_cons_2; [eexists; split; [exact (demux_descriptor 2 ltac:(lia))|reflexivity]|].
    apply Forall_cons_2; [eexists; split; [exact (demux_descriptor 1 ltac:(lia))|reflexivity]|]. apply Forall_nil_2.
  - reflexivity.
  - reflexivity.
  - reflexivity.
Qed.

(** The state after an event. *)
Definition after (a : positive) (e : event) (s : state (table Z positive) pipes) : state (table Z positive) pipes :=
  match perform a e s with Ok (_, s') => s' | Crash _ => s end.

(** The peer's next segment. *)
Ltac deliver := eexists _, _, _, _, _, _; split; [vm_compute; reflexivity|]; split; [vm_compute; reflexivity|];
  split; [vm_compute; reflexivity|]; split; [reflexivity|]; split; [lia|]; split; [vm_compute; reflexivity|];
  split; [cbn; unfold MAX_IP_PAYLOAD_LEN; lia|reflexivity].
Ltac run_event := eapply execs_cons; [first [exact I|deliver]|vm_compute; reflexivity|].

(** The waiting connection completes, both are accepted; a new peer's SYN is
    taken, its second one is dropped as a retransmission, and the third one
    finds the descriptor of the second. *)
Lemma listener_refines_witness :
  let syn := Arrives sample_syn pipe_addr in
  exists s' L', execs 1 (idle demux_state) [Completes 2; Accepts; Accepts; syn; syn]
      [Completed; Accepted (Some 2%positive); Accepted (Some 3%positive); Opened true; Opened false] s' /\
    listening_as s' 1 0 L' /\ zlen (conns L') <= 3 /\ perform 1 syn s' = Crash Abort.
Proof.
  intros syn.
  assert (forall w : pipes, exists fd fds w', os_grants w fd fds w') as Hgr
    by (intros w; exists 4, (8, 9), w, w, 0; by repeat split).
  assert (exists s', execs 1 (idle demux_state) [Completes 2; Accepts; Accepts; syn; syn]
      [Completed; Accepted (Some 2%positive); Accepted (Some 3%positive); Opened true; Opened false] s' /\
      delivered 1 s' sample_syn pipe_addr) as (s' & He & Hd).
  { eexists. split; [do 5 run_event; apply execs_nil|deliver]. }
  destruct (listener_refines Hgr 1 0 _ sample_listener _ _ s' sample_listening He)
    as [(pre & sd & post & xs & L' & Heq & Hst & Hsd)|(L' & Hst & (_ & Hb & _) & HL & Hnext)].
  - exfalso. destruct pre as [|e0 pre]; cbn in Heq; [|by destruct pre as [|? [|? [|? [|? [|? ?]]]]]; simplify_eq].
    injection Heq as <- _. inversion Hst; subst. apply Hsd. cbn. by left.
  - exists s', L'. split; [exact He|]. split; [exact HL|]. split; [exact Hb|].
    specialize (Hnext syn Hd). cbn [does_next syn] in Hnext.
    assert (stuck L' = true) as Hs; [|by rewrite Hs in Hnext].
    repeat match goal with H : lsteps _ (_ :: _) _ _ |- _ => inversion H; subst; clear H end.
    match goal with H : lsteps _ [] _ _ |- _ => inversion H; subst; clear H end.
    match goal with H : lstep _ syn (Opened false) _ |- _ => inversion H; subst; clear H end. done.
Defined.

Definition quiet_state : state (table Z positive) pipes := idle fresh_listen_state.

Lemma quiet_table_ok : table_ok quiet_state.
Proof. apply idle_table_ok. by destruct demux_table_ok. Qed.

(** A backlog of 0: the peer is let in once; after its next SYN the receive
    thread is at its assertion. *)
Lemma listening_socket_correct_witness :
  let syn := Arrives sample_syn pipe_addr in
  exists s0 s' L', _mysock_set_backlog (Some 1%positive) 0 quiet_state = Ok (tt, s0) /\
    execs 1 s0 [syn; syn] [Opened true; Opened false] s' /\
    c_peer <$> conns L' ≡ₚ [pipe_addr] /\ does_next 1 0 s' L' syn.
Proof.
  intros syn.
  assert (forall w : pipes, exists fd fds w', os_grants w fd fds w') as Hgr
    by (intros w; exists 4, (8, 9), w, w, 0; by repeat split).
  destruct (listening_socket_correct Hgr quiet_state 1 (sample_ctx 0 true) (fun _ => []) 0 0x901f)
    as (s0 & Hs0 & Hex).
  - exact quiet_table_ok.
  - apply heap_wf_empty.
  - exact (demux_descriptor 0 ltac:(lia)).
  - by eexists _, _.
  - reflexivity.
  - reflexivity.
  - exact table_new_rep.
  - done.
  - reflexivity.
  - reflexivity.
  - vm_compute. reflexivity.
  - apply heap_wf_empty.
  - lia.
  - assert (exists s', execs 1 s0 [syn; syn] [Opened true; Opened false] s' /\
      delivered 1 s' sample_syn pipe_addr) as (s' & He & Hd).
    { vm_compute in Hs0. injection Hs0 as <-. eexists. split; [do 2 run_event; apply execs_nil|deliver]. }
    exists s0, s'. destruct (Hex _ _ _ He) as [(pre & sd & post & xs & L' & Heq & _)|(L' & taken & _ & _ & Ht & _ & Hp & Hn)].
    + exfalso. by destruct pre as [|? [|? [|? ?]]]; simplify_eq.
    + exists L'. split; [exact Hs0|]. split; [exact He|]. split; [destruct taken; [exact Hp|discriminate Ht]|].
      exact (Hn syn Hd).
Defined.

(** The connection in the first slot is being accepted when a new peer's SYN
    arrives. *)
Lemma accept_overlap_aborts_witness :
  (store_req (Some 1%positive, 0) zero_request;;
   _mysock_enqueue_connection (Some 1%positive) sample_syn 20 pipe_addr 16 false) demux_state = Crash Abort.
Proof.
  eapply (accept_overlap_aborts demux_state 1 1 1 (sample_ctx 0 true) sample_queue sample_slots sample_done ∅
    sample_syn pipe_addr 0).
  - exact demux_listen_inv.
  - apply Forall_cons_2; [right; cbn; lia|]. apply Forall_cons_2; [right; cbn; lia|].
    apply Forall_cons_2; [left; done|]. apply Forall_nil_2.
  - reflexivity.
  - reflexivity.
  - reflexivity.
Defined.
