(* ===== verification/StcpApi.v ===== *)
(** * The transport layer's interface, and the transport layer

    Models [Assignment3/src/stcp_api.c] and [transport.c]: unblocking the
    application, waiting for events, exchanging segments with the network and
    data with the application, and the (skeleton) control loop. *)

From S2P Require Import Prelude Heap HashTable PacketQueue MysockTypes Checksum TcpSum TcpIo Mysock Demux.

Definition TIMEOUT : Z := 0.
Definition APP_DATA : Z := 1.
Definition NETWORK_DATA : Z := 2.
Definition APP_CLOSE_REQUESTED : Z := 4.
Definition ANY_EVENT : Z := Z.lor (Z.lor APP_DATA NETWORK_DATA) APP_CLOSE_REQUESTED.

Section code.
Context {T W : Type} `{KT : KeyedTable T Z positive} `{OS W}.
Abbreviation M := (M T W).

Definition stcp_unblock_application (sd : Z) : M unit :=
  p ← _mysock_get_context sd;
  stcp_errno_arg ← gets errno;
  c ← load_ctx p;
  m_assert (blocking c);;
  update_ctx p (set_blocking false);;
  update_ctx p (set_stcp_errno stcp_errno_arg);;
  (if decide (stcp_errno_arg = EINTR) then update_ctx p (set_stcp_errno 0) else mret tt);;
  if is_active c then mret tt else _mysock_passive_connection_complete p.

(** The events ready now, for the flags asked. *)
Definition ready_events (flags : Z) (c : mysock_context_t) : Z :=
  let app := bool_decide (head (app_recv_queue c) <> NULL) in
  Z.lor (Z.lor
    (if bool_decide (Z.land flags APP_DATA <> 0) && app then APP_DATA else 0)
    (if bool_decide (Z.land flags NETWORK_DATA <> 0)
        && bool_decide (head (network_recv_queue c) <> NULL) then NETWORK_DATA else 0))
    (if close_requested c && negb app then APP_CLOSE_REQUESTED else 0).

(** [abstime]: whether a timeout is given; when nothing is ready the call
    waits, and with a timeout may also return [TIMEOUT]: [timed_out] says
    whether the wait ended so. *)
Definition stcp_wait_for_event (sd flags : Z) (timed_out : bool) : M Z :=
  p ← _mysock_get_context sd;
  c ← load_ctx p;
  let rc := ready_events flags c in
  (if close_requested c && bool_decide (head (app_recv_queue c) = NULL)
   then update_ctx p (set_close_requested false) else mret tt);;
  if decide (rc <> 0) then mret rc
  else if timed_out then mret TIMEOUT else lift (Crash Blocks).

Definition stcp_set_context (sd : Z) (stcp_state_arg : Z) : M unit :=
  p ← _mysock_get_context sd; update_ctx p (set_stcp_state stcp_state_arg).
Definition stcp_get_context (sd : Z) : M Z :=
  p ← _mysock_get_context sd; c ← load_ctx p; mret (stcp_state c).

(** [dst_addr] is the address of the caller's buffer. *)
Definition stcp_network_recv (sd dst_addr : Z) (dst : list Z) (max_len_arg : Z) : M (Z * list Z) :=
  '(len, dst) ← _network_recv sd dst max_len_arg;
  (if decide (len <= 0) then mret tt else
   p ← _mysock_get_context sd;
   c ← load_ctx p;
   ok ← lift (_mysock_verify_checksum os_resolver (network_state c) dst_addr dst len);
   m_assert ok);;
  mret (len, dst).

(** Gathering the buffers into [packet], which has [MAX_IP_PAYLOAD_LEN]
    bytes. *)
Fixpoint gather (packet : list Z) (bufs : list (list Z * Z)) : run (list Z) :=
  match bufs with
  | [] => Ok packet
  | (next_buf, next_len) :: bufs =>
      c_assert (bool_decide (zlen packet + next_len <= MAX_IP_PAYLOAD_LEN));;
      bytes ← mem_read next_buf next_len;
      gather (packet ++ bytes) bufs
  end.

Definition store_u16 (packet : list Z) (off v : Z) : run (list Z) :=
  packet ← arr_set packet off (v mod 256);
  arr_set packet (off + 1) (v / 256).

(** The variadic arguments after [src], [src_len] are [bufs];
    [packet_addr] is the address of the local array [packet]. *)
Definition stcp_network_send (packet_addr : Z) (sd : Z) (src : list Z) (src_len : Z)
    (bufs : list (list Z * Z)) : M Z :=
  p ← _mysock_get_context sd;
  m_assert (bool_decide (p <> NULL));;
  packet ← lift (gather [] ((src, src_len) :: bufs));
  let packet_len := zlen packet in
  m_assert (bool_decide (sizeof_tcphdr <= packet_len));;
  port ← _network_get_port p;
  packet ← lift (store_u16 packet 0 (u16 port));
  c ← load_ctx p;
  let peer := peer_addr (network_state c) in
  m_assert (bool_decide (sa_family peer = AF_INET));;
  packet ← lift (store_u16 packet 2 (sin_port peer));
  m_assert (bool_decide (0 < sin_port peer));;
  packet ← lift (store_u16 packet 16 0);
  packet ← lift (store_u16 packet 18 0);
  packet ← lift (_mysock_set_checksum os_resolver (network_state c) packet_addr packet packet_len);
  _network_send sd packet packet_len.

Definition stcp_app_recv (sd : Z) (dst : list Z) (max_len_arg : Z) : M (Z * list Z) :=
  p ← _mysock_get_context sd;
  m_assert (bool_decide (p <> NULL));;
  m_dequeue p app_recv_queue set_app_recv_queue dst max_len_arg true.

Definition stcp_app_send (sd : Z) (src : list Z) (src_len : Z) : M unit :=
  p ← _mysock_get_context sd;
  m_assert (bool_decide (p <> NULL));;
  if decide (0 < src_len)
  then m_enqueue p app_send_queue set_app_send_queue (Some src) src_len
  else mret tt.

Definition stcp_fin_received (sd : Z) : M unit :=
  p ← _mysock_get_context sd;
  m_assert (bool_decide (p <> NULL));;
  m_enqueue p app_send_queue set_app_send_queue None 0.

(** ** [transport.c] *)

Definition CSTATE_ESTABLISHED : Z := 0.

Record context_t : Type := TransportCtx {
  done : bool;
  connection_state : Z;
  initial_sequence_num : Z
}.

(** With [FIXED_INITNUM] the number is 1; otherwise the skeleton leaves the
    zero of [calloc]. *)
Definition generate_initial_seq_num (fixed_initnum : bool) (ctx : context_t) : context_t :=
  if fixed_initnum then TransportCtx (done ctx) (connection_state ctx) 1 else ctx.

(** The loop of [control_loop]; the three event branches are empty in the
    source. *)
Fixpoint control_loop (fuel : nat) (sd : Z) (ctx : context_t) : M context_t :=
  if done ctx then mret ctx else
  match fuel with
  | O => lift (Crash Fuel)
  | S fuel =>
      event ← stcp_wait_for_event sd ANY_EVENT false;
      control_loop fuel sd ctx
  end.

Definition transport_init (fuel : nat) (fixed_initnum : bool) (sd : Z) (is_active_arg : bool)
    : M unit :=
  let ctx := generate_initial_seq_num fixed_initnum (TransportCtx false 0 0) in
  let ctx := TransportCtx (done ctx) CSTATE_ESTABLISHED (initial_sequence_num ctx) in
  stcp_unblock_application sd;;
  _ ← control_loop fuel sd ctx;
  mret tt.

(** [transport_thread_func] of [mysock.c]. *)
Definition transport_thread_func (fuel : nat) (fixed_initnum : bool) (p : ptr) : M unit :=
  m_assert (bool_decide (p <> NULL));;
  c ← load_ctx p;
  verify_mysocket_descriptor p (my_sd c);;
  transport_init fuel fixed_initnum (my_sd c) (is_active c);;
  c ← load_ctx p;
  (if blocking c then
     e ← gets errno;
     (if decide (e = 0 \/ e = EINTR)
      then modify (set_errno (if is_active c then ECONNREFUSED else ECONNABORTED)) else mret tt);;
     stcp_unblock_application (my_sd c)
   else mret tt);;
  m_enqueue p app_send_queue set_app_send_queue (Some [0]) 0.
End code.

Section proofs.
Context {T W : Type} `{KT : KeyedTable T Z positive} `{OS W}.
Implicit Types s : state T W.

(** ** Events *)

Lemma ready_events_bits flags c :
  Z.testbit (ready_events flags c) 0
    = bool_decide (Z.land flags APP_DATA <> 0) && bool_decide (head (app_recv_queue c) <> NULL) /\
  Z.testbit (ready_events flags c) 1
    = bool_decide (Z.land flags NETWORK_DATA <> 0)
      && bool_decide (head (network_recv_queue c) <> NULL) /\
  Z.testbit (ready_events flags c) 2
    = close_requested c && bool_decide (head (app_recv_queue c) = NULL).
Proof.
  unfold ready_events. rewrite <- bool_decide_not.
  assert (bool_decide (~ head (app_recv_queue c) <> NULL) = bool_decide (head (app_recv_queue c) = NULL))
    as -> by (apply bool_decide_ext; destruct (head (app_recv_queue c)); naive_solver).
  repeat case_bool_decide; destruct (close_requested c); split_and!; reflexivity.
Qed.

Lemma land_flag flags k : 0 <= k -> Z.land flags (2 ^ k) <> 0 <-> Z.testbit flags k = true.
Proof.
  intros Hk. split.
  - intros Hne. apply not_false_iff_true. intros Hf. apply Hne. apply Z.bits_inj'. intros n Hn.
    rewrite Z.land_spec, Z.bits_0. destruct (decide (n = k)) as [->|Hd]; [by rewrite Hf|].
    by rewrite Z.pow2_bits_false, andb_false_r by done.
  - intros Ht Hz. pose proof (f_equal (fun z => Z.testbit z k) Hz) as Hb. cbn beta in Hb.
    by rewrite Z.land_spec, Z.pow2_bits_true, Ht, Z.bits_0 in Hb by done.
Qed.

Lemma queue_head h pq msgs rest : queue_rep h pq msgs rest -> head pq <> NULL <-> msgs <> [].
Proof.
  intros (l & (Hlk & _ & _) & _ & ->). destruct l as [|[a x] l]; cbn in Hlk; rewrite ?Hlk; [done|].
  destruct Hlk as [-> _]. done.
Qed.

Lemma ready_events_range flags c : 0 <= ready_events flags c < 8.
Proof. unfold ready_events. repeat case_match; vm_compute; split; congruence. Qed.

(** One call, by the events that are ready. *)
Lemma wait_step s sd a c flags timed_out : descriptor s sd a c ->
  let rc := ready_events flags c in
  stcp_wait_for_event sd flags timed_out s
  = if decide (rc <> 0)
    then Ok (rc, if close_requested c && bool_decide (head (app_recv_queue c) = NULL)
                 then set_contexts (heap_put a (set_close_requested false c) (contexts s)) s else s)
    else if timed_out then Ok (TIMEOUT, s) else Crash Blocks.
Proof.
  intros Hd rc. set (close_now := close_requested c && _).
  set (s' := if close_now then set_contexts (heap_put a (set_close_requested false c) (contexts s)) s else s).
  unfold stcp_wait_for_event. erewrite m_bind_ok by (eapply get_context_ok; exact Hd).
  destruct Hd as (_ & _ & Hc & _). m_step. cbn zeta. fold rc close_now.
  assert ((if close_now then update_ctx (Some a) (set_close_requested false) else mret tt) s = Ok (tt, s')) as E.
  { unfold s'. destruct close_now; [by apply update_ctx_ok|done]. }
  m_use E. case_decide as Hrc; [done|].
  assert (close_now = false) as Hcl.
  { destruct close_now eqn:Hcn; [|done]. exfalso.
    destruct (ready_events_bits flags c) as (_ & _ & Hb). fold rc in Hb.
    rewrite Hrc in Hb. unfold close_now in Hcn. rewrite Hcn in Hb. done. }
  unfold s'. rewrite Hcl. by destruct timed_out.
Qed.

(** C32: what [stcp_wait_for_event] reports, in terms of the messages in the
    two queues the transport layer reads.  The result has bit 0 exactly when
    [APP_DATA] is asked for and the application has sent something not yet
    read, bit 1 exactly when [NETWORK_DATA] is asked for and a segment
    waits, and bit 2, asked for or not, exactly when the application has
    closed the socket and all it had sent has been read.  In that last case
    the call takes the request back, so that no later call on the state it
    leaves reports it again; it changes nothing else.  With nothing to report
    the call waits or, given a time, returns [TIMEOUT] once it has passed. *)
Theorem wait_for_event_correct s sd a c flags timed_out amsgs arest nmsgs nrest :
  descriptor s sd a c ->
  queue_rep (queue_nodes s) (app_recv_queue c) amsgs arest ->
  queue_rep (queue_nodes s) (network_recv_queue c) nmsgs nrest ->
  exists rc, 0 <= rc < 8 /\
    (Z.testbit rc 0 = true <-> Z.testbit flags 0 = true /\ amsgs <> []) /\
    (Z.testbit rc 1 = true <-> Z.testbit flags 1 = true /\ nmsgs <> []) /\
    (Z.testbit rc 2 = true <-> close_requested c = true /\ amsgs = []) /\
    (rc = 0 -> stcp_wait_for_event sd flags timed_out s = if timed_out then Ok (0, s) else Crash Blocks) /\
    (rc <> 0 -> Z.testbit rc 2 = false -> stcp_wait_for_event sd flags timed_out s = Ok (rc, s)) /\
    (Z.testbit rc 2 = true ->
       let s' := set_contexts (heap_put a (set_close_requested false c) (contexts s)) s in
       stcp_wait_for_event sd flags timed_out s = Ok (rc, s') /\
       forall flags' timed_out' rc' s'',
         stcp_wait_for_event sd flags' timed_out' s' = Ok (rc', s'') -> Z.testbit rc' 2 = false /\ s'' = s').
Proof.
  intros Hd Ha Hn. apply queue_head in Ha, Hn.
  destruct (ready_events_bits flags c) as (H0 & H1 & H2).
  pose proof (land_flag flags 0 ltac:(lia)) as L0. pose proof (land_flag flags 1 ltac:(lia)) as L1.
  change (2 ^ 0) with APP_DATA in L0. change (2 ^ 1) with NETWORK_DATA in L1.
  assert (close_requested c && bool_decide (head (app_recv_queue c) = NULL) = Z.testbit (ready_events flags c) 2)
    as Hcl by (by rewrite H2).
  exists (ready_events flags c). split; [apply ready_events_range|]. split_and!.
  - rewrite H0, andb_true_iff, !bool_decide_eq_true. tauto.
  - rewrite H1, andb_true_iff, !bool_decide_eq_true. tauto.
  - rewrite H2, andb_true_iff, bool_decide_eq_true. destruct (decide (head (app_recv_queue c) = NULL)), (decide (amsgs = []));
      tauto.
  - intros Hz. rewrite (wait_step s sd a c) by done. by rewrite decide_False by (intros Hne; exact (Hne Hz)).
  - intros Hz Hb. rewrite (wait_step s sd a c) by done. by rewrite decide_True, Hcl, Hb by done.
  - intros Hb s'. assert (ready_events flags c <> 0) as Hz by (intros Hz; by rewrite Hz in Hb).
    split; [rewrite (wait_step s sd a c) by done; by rewrite decide_True, Hcl, Hb by done|].
    intros flags' timed_out' rc' s''.
    assert (descriptor s' sd a (set_close_requested false c)) as Hd' 
      by (destruct Hd as (Hsd & Hg & Hc & Hmy); split_and!; [done|done|by apply lookup_insert_eq|done]).
    rewrite (wait_step s' sd a (set_close_requested false c)) by done. cbn [close_requested set_close_requested andb].
    destruct (ready_events_bits flags' (set_close_requested false c)) as (_ & _ & Hb').
    destruct (decide (ready_events flags' (set_close_requested false c) <> 0)); [|destruct timed_out'; [|intros He; discriminate He]]; intros [= <- <-]; (split; [|reflexivity]);
      [exact Hb'|reflexivity].
Qed.

(** The transport layer of this repository is the unfinished skeleton:
    once [transport_init] has unblocked the application it never returns.
    However many events arrive, [control_loop] neither consumes data nor
    sets [done], so the thread is only ever waiting or turning; hence a
    [myclose] joining that thread cannot return. *)
Theorem control_loop_never_returns fuel sd ctx fixed_initnum is_active_arg s :
  (done ctx = false -> forall r, control_loop fuel sd ctx s <> Ok r) /\
  (forall r, transport_init fuel fixed_initnum sd is_active_arg s <> Ok r).
Proof.
  assert (forall fuel ctx s, done ctx = false -> forall r, control_loop fuel sd ctx s <> Ok r) as Hc.
  { clear. intros fuel. induction fuel as [|fuel IH]; intros ctx s Hd [r s'];
      cbn [control_loop]; rewrite Hd; [done|].
    intros Hr. apply m_bind_inv in Hr as (e & s1 & _ & Hr). by apply (IH _ _ Hd) in Hr. }
  split; [by apply Hc|]. intros [r s']. unfold transport_init. intros Hr.
  apply m_bind_inv in Hr as (u & s1 & _ & Hr). apply m_bind_inv in Hr as (c2 & s2 & Hr & _).
  revert Hr. apply Hc. by destruct fixed_initnum.
Qed.
End proofs.

(** ** Segments on the wire *)
Section segments.
Context {T W : Type} `{KT : KeyedTable T Z positive} `{StreamOS W}.
Implicit Types s : state T W.

Lemma gather_ok packet bufs :
  Forall (fun b => b.2 = zlen b.1) bufs -> zlen packet + zlen (concat bufs.*1) <= MAX_IP_PAYLOAD_LEN ->
  gather packet bufs = Ok (packet ++ concat bufs.*1).
Proof.
  intros Hb. revert packet. induction Hb as [|[b n] bufs Hn _ IH]; intros packet Hlen; cbn [gather].
  - by rewrite app_nil_r.
  - cbn in Hn. subst n. cbn [fmap list_fmap concat fst] in Hlen |- *. rewrite length_app in Hlen.
    rewrite bool_decide_true by lia. cbn [c_assert mbind run_bind].
    rewrite mem_read_ok by lia. cbn [mbind run_bind]. rewrite Nat2Z.id, take_ge by lia.
    rewrite IH by (rewrite length_app; lia). by rewrite <- app_assoc.
Qed.

Lemma store_u16_ok p off v : (off + 2 <= length p)%nat -> 0 <= v < 65536 ->
  store_u16 p (Z.of_nat off) v = Ok (put2 off v p).
Proof. intros. exact (store2_ok p off v ltac:(done) ltac:(done)). Qed.

(** The segment [stcp_network_send] puts on the wire, before its checksum:
    ports filled in, urgent pointer cleared. *)
Definition stamped (sport dport : Z) (seg : list Z) : list Z :=
  put2 18 0 (put2 16 0 (put2 2 dport (put2 0 sport seg))).

Lemma stamped_ok sport dport seg : (20 <= length seg)%nat -> Forall is_byte seg ->
  length (stamped sport dport seg) = length seg /\ Forall is_byte (stamped sport dport seg).
Proof.
  intros Hl HF. unfold stamped. split.
  - len_put2.
  - by repeat apply put2_bytes.
Qed.

(** Stores into the header leave the payload alone. *)
Lemma put2_payload off v p : (off + 2 <= 20)%nat -> (20 <= length p)%nat -> drop 20 (put2 off v p) = drop 20 p.
Proof.
  intros Ho Hp. unfold put2. rewrite app_assoc.
  rewrite drop_app_ge by (rewrite length_app, length_take, length_le_bytes; lia).
  rewrite length_app, length_take_le, length_le_bytes, drop_drop by lia. f_equal. lia.
Qed.

Lemma stamped_payload sport dport seg : (20 <= length seg)%nat ->
  drop 20 (stamped sport dport seg) = drop 20 seg.
Proof. intros Hl. unfold stamped. by rewrite !put2_payload by len_put2. Qed.

(** What is written: the ports, the checksum and the urgent pointer are stored
    over the buffers' bytes. *)
Lemma network_send_ok s sd a c fd packet_addr src bufs sport rctx local peer addr' rhost :
  descriptor s sd a c -> connected_on s a fd ->
  addressed os_resolver (network_state c) local peer ->
  addressed rhost rctx peer local ->
  os_getsockname fd (world s) = (0, Sockaddr AF_INET sport local) ->
  0 < sin_port (peer_addr (network_state c)) < 65536 ->
  Forall (fun b => b.2 = zlen b.1) ((src, zlen src) :: bufs) ->
  Forall is_byte (src ++ concat bufs.*1) ->
  20 <= zlen (src ++ concat bufs.*1) <= MAX_IP_PAYLOAD_LEN ->
  packet_addr <> 0 -> Z.land packet_addr 2 = 0 -> addr' <> 0 -> Z.land addr' 2 = 0 ->
  exists seg w' v, stcp_network_send packet_addr sd src (zlen src) bufs s = Ok (zlen seg, set_world w' s) /\
    stream (peer_of fd) w' = stream (peer_of fd) (world s) ++ frame seg /\ 0 <= v < 65536 /\
    seg = put2 16 v (stamped (u16 sport) (sin_port (peer_addr (network_state c))) (src ++ concat bufs.*1)) /\
    _mysock_verify_checksum rhost rctx addr' seg (zlen seg) = Ok true.
Proof.
  intros Hd Hcn Had Had' Hname Hport Hbufs HF Hlen Hpa Hal Hpa' Hal'.
  set (seg0 := src ++ concat bufs.*1) in *.
  pose proof Hd as (_ & _ & Hc & _).
  set (dport := sin_port (peer_addr (network_state c))) in *.
  unfold stcp_network_send. erewrite m_bind_ok by (eapply get_context_ok; exact Hd). m_step.
  assert (gather [] ((src, zlen src) :: bufs) = Ok seg0) as Hg.
  { rewrite gather_ok; [done|done|]. cbn [fmap list_fmap concat fst app length]. fold seg0. lia. }
  rewrite Hg. m_step. cbn zeta.
  erewrite m_bind_ok by (apply m_assert_dec; unfold sizeof_tcphdr; lia).
  assert (_network_get_port (Some a) s = Ok (sport, s)) as Hgp.
  { unfold _network_get_port. erewrite m_bind_ok by (by eapply verify_socket_ok).
    erewrite m_bind_ok by (by eapply get_socket_ok). m_step. rewrite Hname. cbn beta iota.
    m_step. m_step. done. }
  m_use Hgp.
  pose proof (u16_range sport) as Hsr.
  assert (zlen seg0 <= 1500 /\ (20 <= length seg0)%nat) as [Hmax Hmin] by (unfold MAX_IP_PAYLOAD_LEN in Hlen; lia).
  rewrite (store_u16_ok seg0 0) by lia. m_step. m_step.
  destruct Had as (Hv & Hl & Hf & Hp & Hi & Hlp & Hpp). m_step.
  rewrite (store_u16_ok _ 2) by len_put2. m_step. m_step.
  rewrite (store_u16_ok _ 16) by len_put2.
  m_step.
  rewrite (store_u16_ok _ 18) by len_put2.
  m_step. fold dport. fold (stamped (u16 sport) dport seg0).
  destruct (stamped_ok (u16 sport) dport seg0 Hmin HF) as [Hsl HsF].
  rewrite <- Hsl.
  set (p := stamped (u16 sport) dport seg0) in *.
  assert (segment_at packet_addr p /\ segment_at addr' p) as [Hat Hat'] by (split; split_and!; (done || lia)).
  destruct (checksum_roundtrip os_resolver rhost (network_state c) rctx local peer packet_addr addr' p)
    as (seg & Hset & Hsegl & _ & _ & Hver); [done..|].
  rewrite Hset. m_step. rewrite <- Hsegl.
  destruct (send_packet_ok s a fd seg Hcn) as (w' & Hsend & Hw'); [lia|].
  exists seg, w', (65535 - oc_norm (segment_sum local peer p)). split_and!.
  - unfold _network_send. erewrite m_bind_ok by (eapply get_context_ok; exact Hd). m_step.
    exact Hsend.
  - exact Hw'.
  - pose proof (oc_norm_range (segment_sum local peer p)
      ltac:(pose proof (segment_sum_pos local peer p HsF); lia)). lia.
  - pose proof (oc_norm_range (segment_sum local peer p)
      ltac:(pose proof (segment_sum_pos local peer p HsF); lia)). lia.
  - rewrite (set_value _ _ local peer) in Hset by done. by injection Hset as <-.
  - exact Hver.
Qed.

(** C10: a segment sent by [stcp_network_send] arrives intact and verifies.
    On a connected mysocket, the buffers given are concatenated into one
    packet (20 to 1500 bytes), whose ports, checksum and urgent pointer are
    filled in; exactly that one frame is written to the peer, the payload
    after the TCP header unchanged, and the peer, seeing the sender's
    address as its peer, accepts the checksum. *)
Theorem network_send_verifies s sd a c fd packet_addr src bufs sport rctx local peer addr' rhost :
  descriptor s sd a c -> connected_on s a fd ->
  addressed os_resolver (network_state c) local peer ->
  addressed rhost rctx peer local ->
  os_getsockname fd (world s) = (0, Sockaddr AF_INET sport local) ->
  0 < sin_port (peer_addr (network_state c)) < 65536 ->
  Forall (fun b => b.2 = zlen b.1) ((src, zlen src) :: bufs) ->
  Forall is_byte (src ++ concat bufs.*1) ->
  20 <= zlen (src ++ concat bufs.*1) <= MAX_IP_PAYLOAD_LEN ->
  packet_addr <> 0 -> Z.land packet_addr 2 = 0 -> addr' <> 0 -> Z.land addr' 2 = 0 ->
  exists seg w', stcp_network_send packet_addr sd src (zlen src) bufs s = Ok (zlen seg, set_world w' s) /\
    zlen seg = zlen (src ++ concat bufs.*1) /\
    stream (peer_of fd) w' = stream (peer_of fd) (world s) ++ frame seg /\
    drop 20 seg = drop 20 (src ++ concat bufs.*1) /\
    _mysock_verify_checksum rhost rctx addr' seg (zlen seg) = Ok true.
Proof.
  intros Hd Hcn Had Had' Hname Hport Hbufs HF Hlen Hpa Hal Hpa' Hal'.
  destruct (network_send_ok s sd a c fd packet_addr src bufs sport rctx local peer addr' rhost)
    as (seg & w' & v & Hsend & Hw & Hv & Hseg & Hver); try done.
  destruct (stamped_ok (u16 sport) (sin_port (peer_addr (network_state c))) (src ++ concat bufs.*1)) as [Hl _]; [lia|done|].
  exists seg, w'. split_and!; [done|by rewrite Hseg, length_put2, Hl by lia|done| |done].
  rewrite Hseg, put2_payload, stamped_payload by lia. done.
Qed.
End segments.

(** ** Witnesses: the descriptor 0 of a one-socket state *)
Lemma sample_descriptor fd l pending w :
  descriptor (sample_state fd l pending w) 0 1 (sample_context l).
Proof. split_and!; [lia|done|cbn [contexts cells sample_state]; apply lookup_singleton_eq|done]. Qed.

(** The application has closed the socket and sent nothing. *)
Definition closing_state : state unit pipes :=
  set_contexts (heap_put 1 (set_close_requested true (sample_context false)) (contexts (sample_state 4 false (-1) ∅)))
    (sample_state 4 false (-1) ∅).

Lemma wait_for_event_correct_witness :
  exists rc, Z.testbit rc 2 = true /\
    stcp_wait_for_event 0 ANY_EVENT false closing_state
    = Ok (rc, set_contexts (heap_put 1 (sample_context false) (contexts closing_state)) closing_state).
Proof.
  assert (queue_rep (queue_nodes closing_state) empty_queue [] ∅) as Hq by (apply (queue_rep_empty empty_heap heap_wf_empty)).
  destruct (wait_for_event_correct closing_state 0 1 (set_close_requested true (sample_context false))
    ANY_EVENT false [] ∅ [] ∅) as (rc & _ & _ & _ & H2 & _ & _ & Hw); [by split_and!|exact Hq|exact Hq|].
  assert (Z.testbit rc 2 = true) as Hb by (by apply H2). exists rc. split; [done|]. by destruct (Hw Hb).
Defined.

Lemma network_send_verifies_witness :
  exists seg w', stcp_network_send 4 0 (replicate 20 7) (zlen (replicate 20 7)) [(bytes_of "data", 4)]
      (sample_state 4 false (-1) ∅) = Ok (zlen seg, set_world w' (sample_state 4 false (-1) ∅)) /\
    zlen seg = zlen (replicate 20 7 ++ concat [(bytes_of "data", 4)].*1) /\
    stream (peer_of 4) w' = stream (peer_of 4) (world (sample_state 4 false (-1) ∅)) ++ frame seg /\
    drop 20 seg = drop 20 (replicate 20 7 ++ concat [(bytes_of "data", 4)].*1) /\
    _mysock_verify_checksum (one_address 0x0100007f) (network_state (sample_context false)) 8 seg (zlen seg)
      = Ok true.
Proof.
  apply (network_send_verifies _ 0 1 (sample_context false) 4 4 (replicate 20 7) [(bytes_of "data", 4)]
    0x901f _ 0x0100007f 0x0100007f).
  - apply sample_descriptor.
  - apply sample_connected. lia.
  - repeat split; cbn; lia.
  - repeat split; cbn; lia.
  - reflexivity.
  - split; vm_compute; reflexivity.
  - by repeat constructor.
  - apply Forall_app_2; [apply Forall_replicate; done|]. cbn [fmap list_fmap concat fst].
    rewrite app_nil_r. apply bytes_of_is_byte.
  - split; vm_compute; discriminate.
  - lia.
  - reflexivity.
  - lia.
  - reflexivity.
Defined.
