(* ===== verification/MysockApi.v ===== *)
(** * The application's socket calls

    Models [Assignment3/src/mysock_api.c].  [myclose] blocks in
    [pthread_join] until the transport thread has returned; it is therefore
    split there into [myclose_request] and [myclose_finish], and
    [myclose_now] is the whole call on a socket whose transport thread, if
    any, has returned; [myclose] is the call with the transport layer as it is,
    whose thread does not return.  Its nesting is bounded by a depth: closing a listening
    socket closes the connections waiting on it. *)

From S2P Require Import Prelude Heap HashTable PacketQueue MysockTypes TcpSum TcpIo Mysock Demux StcpApi.

Section code.
Context {T W : Type} `{KT : KeyedTable T Z positive} `{OS W}.
Abbreviation M := (M T W).

(** [MYSOCK_CHECK(cond, rc)]: [errno = rc; return -1;] *)
Definition MYSOCK_ERROR_EXIT (rc : Z) : M Z := modify (set_errno rc);; mret (-1).
Definition MYSOCK_CHECK (cond : bool) (rc : Z) (k : M Z) : M Z :=
  if cond then k else MYSOCK_ERROR_EXIT rc.

Definition mysocket : M Z := _mysock_new_mysocket.

Definition mybind (sd : Z) (addr : sockaddr_in) : M Z :=
  p ← _mysock_get_context sd;
  MYSOCK_CHECK (bool_decide (p <> NULL)) EBADF (
  MYSOCK_CHECK (bool_decide (sa_family addr = AF_INET)) EADDRNOTAVAIL (
  c ← load_ctx p;
  m_assert (negb (listening c));;
  update_ctx p (set_bound true);;
  update_net p (set_local_addr addr);;
  _network_bind p addr)).

(** Up to the wait for the connection. *)
Definition myconnect (sd : Z) (name : sockaddr_in) (namelen : Z) : M Z :=
  p ← _mysock_get_context sd;
  MYSOCK_CHECK (bool_decide (p <> NULL)) EINVAL (
  c ← load_ctx p;
  MYSOCK_CHECK (bool_decide (peer_addr_len (network_state c) = 0)) EISCONN (
  update_net p (set_peer_addr name);;
  update_net p (set_peer_addr_len namelen);;
  update_net p (set_peer_addr_valid true);;
  rc ← (if bound c then mret 0 else _mysock_bind_ephemeral p);
  if decide (rc < 0) then mret rc else
  _mysock_transport_init sd true;;
  mret 0)).
(** After the transport thread has unblocked the application. *)
Definition myconnect_finish (sd : Z) : M Z :=
  p ← _mysock_get_context sd; _mysock_wait_for_connection p.

(** The descriptor, with the peer's address and its length when known. *)
Definition myaccept (sd : Z) : M (Z * option (sockaddr_in * Z)) :=
  accept_p ← _mysock_get_context sd;
  if decide (accept_p = NULL) then rc ← MYSOCK_ERROR_EXIT EBADF; mret (rc, None) else
  ac ← load_ctx accept_p;
  if negb (listening ac) then rc ← MYSOCK_ERROR_EXIT EINVAL; mret (rc, None) else
  p ← _mysock_dequeue_connection accept_p;
  m_assert (bool_decide (p <> NULL));;
  c ← load_ctx p;
  addr ← (if decide (stcp_errno c = 0) then
            m_assert (bool_decide (0 < peer_addr_len (network_state c)));;
            mret (Some (peer_addr (network_state c), peer_addr_len (network_state c)))
          else mret None);
  m_assert (bool_decide (listen_sd c = sd));;
  modify (set_errno (stcp_errno c));;
  mret (if decide (stcp_errno c <> 0) then -1 else my_sd c, addr).

Definition mylisten (sd backlog : Z) : M Z :=
  p ← _mysock_get_context sd;
  c ← load_ctx p;
  m_assert (bound c);;
  MYSOCK_CHECK (bool_decide (p <> NULL)) EBADF (
  MYSOCK_CHECK (bound c) EINVAL (
  update_ctx p (set_listening true);;
  _mysock_set_backlog p backlog;;
  rc ← _network_listen p backlog;
  if decide (rc < 0) then mret (-1) else
  rc ← _network_start_recv_thread p;
  m_assert (bool_decide (0 <= rc));;
  mret 0)).

(** ** [myclose] *)

(** Up to [pthread_join]. *)
Definition myclose_request (p : ptr) : M unit :=
  update_ctx p (set_close_requested true);;
  c ← load_ctx p;
  if transport_thread_started c then
    m_assert (negb (listening c));;
    m_assert (is_active c || bool_decide (listen_sd c <> -1))
  else mret tt.

(** After [pthread_join] has returned. *)
Definition myclose_finish (myclose : Z -> M Z) (p : ptr) : M Z :=
  update_ctx p (set_transport_thread_started false);;
  _network_stop_recv_thread p;;
  c ← load_ctx p;
  (if listening c then _mysock_close_passive_socket myclose p else mret tt);;
  _mysock_free_context p;;
  mret 0.

Fixpoint myclose_now (depth : nat) (sd : Z) : M Z :=
  match depth with
  | O => lift (Crash Fuel)
  | S depth =>
      p ← _mysock_get_context sd;
      MYSOCK_CHECK (bool_decide (p <> NULL)) EBADF (
      myclose_request p;;
      myclose_finish (myclose_now depth) p)
  end.

(** [myclose] with the transport layer of this repository, whose threads never
    return ([control_loop]): [pthread_join] on a started one waits forever. *)
Fixpoint myclose (depth : nat) (sd : Z) : M Z :=
  match depth with
  | O => lift (Crash Fuel)
  | S depth =>
      p ← _mysock_get_context sd;
      MYSOCK_CHECK (bool_decide (p <> NULL)) EBADF (
      myclose_request p;;
      c ← load_ctx p;
      if transport_thread_started c then lift (Crash Blocks) else
      myclose_finish (myclose depth) p)
  end.

(** ** Data *)

Definition mywrite (sd : Z) (buf : list Z) (buf_len : Z) : M Z :=
  p ← _mysock_get_context sd;
  MYSOCK_CHECK (bool_decide (p <> NULL)) EBADF (
  c ← load_ctx p;
  MYSOCK_CHECK (negb (listening c)) EINVAL (
  m_assert (negb (close_requested c));;
  m_enqueue p app_recv_queue set_app_recv_queue (Some buf) buf_len;;
  mret buf_len)).

(** The C result and the caller's buffer. *)
Definition myread (sd : Z) (buf : list Z) (buf_len : Z) : M (Z * list Z) :=
  p ← _mysock_get_context sd;
  if decide (p = NULL) then rc ← MYSOCK_ERROR_EXIT EBADF; mret (rc, buf) else
  c ← load_ctx p;
  if listening c then rc ← MYSOCK_ERROR_EXIT EINVAL; mret (rc, buf) else
  m_assert (negb (close_requested c));;
  if eof c then mret (0, buf) else
  '(len, buf) ← m_dequeue p app_send_queue set_app_send_queue buf buf_len true;
  (if decide (len = 0) then update_ctx p (set_eof true) else mret tt);;
  mret (len, buf).

(** ** Addresses *)

Definition mygetsockname (sd : Z) : M sockaddr_in :=
  p ← _mysock_get_context sd;
  c ← load_ctx p;
  let net := network_state c in
  m_assert (bool_decide (sa_family (local_addr net) = 0 \/ sa_family (local_addr net) = AF_INET));;
  port ← _network_get_port p;
  if peer_addr_valid net then
    ip ← lift (_network_get_local_addr os_resolver net);
    mret (Sockaddr AF_INET (u16 port) ip)
  else mret (Sockaddr AF_INET (u16 port) (sin_addr (local_addr net))).

(** The bytes written to [name], at most [namelen], and the new [*namelen];
    [MYSOCK_CHECK] fails with [ENOTCONN] when there is no peer. *)
Definition mygetpeername (sd : Z) (namelen : Z) : M (Z * list Z * Z) :=
  p ← _mysock_get_context sd;
  c ← load_ctx p;
  let net := network_state c in
  let bytes := take (Z.to_nat (Z.min namelen (peer_addr_len net))) (sockaddr_bytes (peer_addr net)) in
  rc ← MYSOCK_CHECK (bool_decide (0 < peer_addr_len net)) ENOTCONN (mret 0);
  mret (rc, bytes, peer_addr_len net).

Definition mylocalip (peer : Z) : M Z := lift (_network_get_interface_ip os_resolver peer).
End code.

(** ** Queues through descriptors *)
Section proofs.
Context {T W : Type} `{KT : KeyedTable T Z positive} `{OS W}.
Implicit Types s : state T W.

Lemma m_enqueue_ok s a c get put msgs rest p len :
  cells (contexts s) !! a = Some c -> queue_rep (queue_nodes s) (get c) msgs rest ->
  0 <= len <= zlen p ->
  exists h q, m_enqueue (Some a) get put (Some p) len s
    = Ok (tt, set_queue_nodes h (set_contexts (heap_put a (put q c) (contexts s)) s)) /\
    queue_rep h q (msgs ++ [take (Z.to_nat len) p]) rest.
Proof.
  intros Hc Hq Hl. destruct (enqueue_ok _ _ _ _ p len Hq Hl) as (h & q & He & Hq').
  exists h, q. split; [|done]. by apply m_enqueue_eq.
Qed.

Lemma m_dequeue_ok s a c get put msgs rest dst max_len_arg partial :
  cells (contexts s) !! a = Some c -> queue_rep (queue_nodes s) (get c) msgs rest ->
  0 <= max_len_arg <= zlen dst ->
  match spec_dequeue msgs max_len_arg partial with
  | Waits => m_dequeue (Some a) get put dst max_len_arg partial s = Crash Blocks
  | Undefined => m_dequeue (Some a) get put dst max_len_arg partial s = Crash Overlap
  | Got n bytes msgs' =>
      exists h q, m_dequeue (Some a) get put dst max_len_arg partial s
        = Ok ((n, bytes ++ drop (length bytes) dst),
              set_queue_nodes h (set_contexts (heap_put a (put q c) (contexts s)) s)) /\
        queue_rep h q msgs' rest
  end.
Proof.
  intros Hc Hq Hl. pose proof (dequeue_ok _ _ _ _ dst max_len_arg partial Hq Hl) as Hget.
  unfold m_dequeue, hload, hstore. rewrite Hc. cbn [need mbind run_bind].
  destruct (spec_dequeue msgs max_len_arg partial) as [| |n bytes msgs'].
  - by rewrite Hget.
  - by rewrite Hget.
  - destruct Hget as (h & q & -> & Hq'). by exists h, q.
Qed.

(** A descriptor the application may read and write. *)
Definition app_socket s (sd : Z) (a : positive) (c : mysock_context_t) : Prop :=
  descriptor s sd a c /\ listening c = false /\ close_requested c = false.

(** Replacing the queues and the end-of-file flag of its context keeps it so. *)
Lemma app_socket_update s sd a c c' h :
  app_socket s sd a c -> my_sd c' = my_sd c -> listening c' = listening c ->
  close_requested c' = close_requested c ->
  app_socket (set_queue_nodes h (set_contexts (heap_put a c' (contexts s)) s)) sd a c'.
Proof.
  intros ((Hsd & Hg & Hc & Hm) & Hl & Hcr) H1 H2 H3.
  split; [|split; congruence].
  split_and!; [done|exact Hg|cbn; apply lookup_insert_eq|congruence].
Qed.

Lemma myread_step s sd a c m msgs rest buf :
  app_socket s sd a c -> eof c = false ->
  queue_rep (queue_nodes s) (app_send_queue c) (m :: msgs) rest -> zlen m <= zlen buf ->
  exists s' c', myread sd buf (zlen buf) s = Ok ((zlen m, m ++ drop (length m) buf), s') /\
    app_socket s' sd a c' /\ eof c' = bool_decide (m = []) /\
    queue_rep (queue_nodes s') (app_send_queue c') msgs rest.
Proof.
  intros Ha He Hq Hm. pose proof Ha as (Hd & Hl & Hcr). unfold myread.
  erewrite m_bind_ok by (eapply get_context_ok; exact Hd). rewrite decide_False by done.
  pose proof Hd as (_ & _ & Hc & _). m_step. rewrite Hl, Hcr. m_step. rewrite He.
  pose proof (m_dequeue_ok s a c app_send_queue set_app_send_queue (m :: msgs) rest buf (zlen buf) true
    Hc Hq ltac:(lia)) as Hdq.
  cbn [spec_dequeue] in Hdq. rewrite bool_decide_false in Hdq by lia. cbn [andb] in Hdq.
  destruct Hdq as (h & q & Hdq & Hq'). rewrite take_ge in Hdq by lia. m_use Hdq.
  set (s1 := set_queue_nodes _ _).
  assert (app_socket s1 sd a (set_app_send_queue q c)) as Ha1 by (by eapply app_socket_update).
  case_decide as Hz.
  - assert (m = []) as -> by (destruct m; [done|cbn in Hz; lia]).
    erewrite m_bind_ok by (apply update_ctx_ok; apply Ha1).
    eexists (set_contexts _ s1), (set_eof true (set_app_send_queue q c)).
    split; [reflexivity|]. split_and!; [|done|done].
    apply (app_socket_update s1 sd a _ (set_eof true (set_app_send_queue q c)) (queue_nodes s1) Ha1);
      done.
  - exists s1, (set_app_send_queue q c). split_and!; [done|done| |done].
    cbn. rewrite He. symmetry. apply bool_decide_eq_false. by intros ->.
Qed.

Lemma myread_after_eof s sd a c buf :
  app_socket s sd a c -> eof c = true -> myread sd buf (zlen buf) s = Ok ((0, buf), s).
Proof.
  intros (Hd & Hl & Hcr) He. unfold myread.
  erewrite m_bind_ok by (eapply get_context_ok; exact Hd). rewrite decide_False by done.
  pose proof Hd as (_ & _ & Hc & _). m_step. rewrite Hl, Hcr. m_step. by rewrite He.
Qed.

(** [n] calls of [myread] into the buffer [buf]: results and bytes read. *)
Fixpoint myreads (sd : Z) (buf : list Z) (n : nat) : MysockTypes.M T W (list (Z * list Z)) :=
  match n with
  | O => mret []
  | S n =>
      '(len, b) ← myread sd buf (zlen buf);
      r ← myreads sd buf n;
      mret ((len, take (Z.to_nat len) b) :: r)
  end.

Lemma myreads_eof s sd a c buf n :
  app_socket s sd a c -> eof c = true -> myreads sd buf n s = Ok (replicate n (0, []), s).
Proof.
  intros Ha He. induction n as [|n IH]; [done|]. cbn [myreads].
  m_use (myread_after_eof s sd a c buf Ha He). by m_use IH.
Qed.

(** C31: what the transport layer passed up before [stcp_fin_received] is
    what the application reads: with a buffer that takes the longest message,
    the [n]-th call of [myread] returns the length and the bytes of the [n]-th
    message, whole, and the one after the last message returns 0; from then on
    every [myread] returns 0 without touching the queue, even if data was
    queued after the end-of-file marker. *)
Theorem myread_stream_then_eof s sd a c ms more rest buf k :
  app_socket s sd a c -> eof c = false ->
  queue_rep (queue_nodes s) (app_send_queue c) (ms ++ [] :: more) rest ->
  Forall (fun m => 0 < zlen m <= zlen buf) ms ->
  exists s' c', myreads sd buf (length ms + (1 + k)) s
      = Ok (((fun m => (zlen m, m)) <$> ms) ++ replicate (1 + k) (0, []), s') /\
    app_socket s' sd a c' /\ eof c' = true /\
    queue_rep (queue_nodes s') (app_send_queue c') more rest.
Proof.
  intros Ha He Hq Hms. revert s c Ha He Hq.
  induction Hms as [|m ms Hm _ IH]; intros s c Ha He Hq; cbn [length Nat.add].
  - destruct (myread_step s sd a c [] more rest buf Ha He Hq) as (s' & c' & Hr & Ha' & He' & Hq');
      [cbn; lia|]. cbn [myreads]. m_use Hr. m_use (myreads_eof s' sd a c' buf k Ha' He').
    by exists s', c'.
  - destruct (myread_step s sd a c m (ms ++ [] :: more) rest buf Ha He Hq)
      as (s1 & c1 & Hr & Ha1 & He1 & Hq1); [lia|].
    rewrite bool_decide_false in He1 by (intros ->; cbn in Hm; lia).
    destruct (IH s1 c1 Ha1 He1 Hq1) as (s2 & c2 & Hr2 & Ha2 & He2 & Hq2).
    cbn [myreads]. m_use Hr. cbn [Nat.add] in Hr2. m_use Hr2.
    exists s2, c2. split; [|done]. cbn. rewrite Nat2Z.id.
    by rewrite take_app_length' by done.
Qed.

(** ** From [mywrite] to the transport layer *)
Inductive app_op : Type := Write (bytes : list Z) | Recv (max_len : Z).

(** One call, by the application or by the transport thread; a
    [stcp_app_recv] with nothing queued waits and the schedule goes on. *)
Definition app_step (sd : Z) (op : app_op) : MysockTypes.M T W (list Z) := fun s =>
  match op with
  | Write b => (_ ← mywrite sd b (zlen b); mret []) s
  | Recv n =>
      match stcp_app_recv sd (replicate (Z.to_nat n) 0) n s with
      | Crash Blocks => Ok ([], s)
      | Crash f => Crash f
      | Ok ((k, dst), s) => Ok (take (Z.to_nat k) dst, s)
      end
  end.

Fixpoint app_run (sd : Z) (ops : list app_op) : MysockTypes.M T W (list Z) :=
  match ops with
  | [] => mret []
  | op :: ops => out ← app_step sd op; out' ← app_run sd ops; mret (out ++ out')
  end.

Definition app_written (ops : list app_op) : list Z :=
  concat ((fun op => match op with Write b => b | Recv _ => [] end) <$> ops).
Definition app_op_ok (B : Z) (op : app_op) : Prop :=
  match op with Write b => zlen b <= B | Recv n => 0 <= n /\ B <= 2 * n end.

Lemma app_step_ok B s sd a c msgs rest op :
  app_socket s sd a c -> queue_rep (queue_nodes s) (app_recv_queue c) msgs rest ->
  Forall (fun m => zlen m <= B) msgs -> app_op_ok B op ->
  exists out s' c' msgs', app_step sd op s = Ok (out, s') /\ app_socket s' sd a c' /\
    queue_rep (queue_nodes s') (app_recv_queue c') msgs' rest /\
    Forall (fun m => zlen m <= B) msgs' /\
    concat msgs ++ app_written [op] = out ++ concat msgs'.
Proof.
  intros Ha Hq HB Hop. pose proof Ha as (Hd & Hl & Hcr). pose proof Hd as (_ & _ & Hc & _).
  destruct op as [b|n]; cbn [app_step].
  - destruct (m_enqueue_ok s a c app_recv_queue set_app_recv_queue msgs rest b (zlen b) Hc Hq)
      as (h & q & Heq & Hq'); [lia|]. rewrite Nat2Z.id, firstn_all in Hq'.
    eexists [], (set_queue_nodes h (set_contexts _ s)), (set_app_recv_queue q c), (msgs ++ [b]).
    split; [|split; [by eapply app_socket_update|split; [exact Hq'|split]]].
    + rewrite m_bind_ok with (a := zlen b)
        (s' := set_queue_nodes h (set_contexts (heap_put a (set_app_recv_queue q c) (contexts s)) s));
        [reflexivity|]. unfold mywrite.
      erewrite m_bind_ok by (eapply get_context_ok; exact Hd).
      unfold MYSOCK_CHECK. rewrite bool_decide_true by done. m_step. rewrite Hl, Hcr. cbn [negb].
      m_step. by m_use Heq.
    + apply Forall_app. split; [done|by apply Forall_singleton].
    + rewrite concat_app. done.
  - destruct Hop as [Hn0 Hn].
    pose proof (m_dequeue_ok s a c app_recv_queue set_app_recv_queue msgs rest
      (replicate (Z.to_nat n) 0) n true Hc Hq ltac:(rewrite length_replicate; lia)) as Hdq.
    assert (stcp_app_recv sd (replicate (Z.to_nat n) 0) n s
      = m_dequeue (Some a) app_recv_queue set_app_recv_queue (replicate (Z.to_nat n) 0) n true s) as ->.
    { unfold stcp_app_recv. erewrite m_bind_ok by (eapply get_context_ok; exact Hd). by m_step. }
    unfold app_written; cbn [fmap list_fmap concat app]. rewrite !app_nil_r.
    destruct msgs as [|m msgs]; cbn [spec_dequeue] in Hdq.
    { rewrite Hdq. by exists [], s, c, []. }
    apply Forall_cons in HB as [Hm HB].
    case_bool_decide as Hlt; cbn [andb] in Hdq.
    + rewrite decide_True in Hdq by lia. destruct Hdq as (h & q & -> & Hq').
      eexists _, _, (set_app_recv_queue q c), (drop (Z.to_nat n) m :: msgs).
      split; [reflexivity|]. split; [by eapply app_socket_update|]. split; [exact Hq'|]. split.
      * apply Forall_cons. split; [rewrite length_drop; lia|done].
      * rewrite take_app_length' by (rewrite length_take; lia).
        cbn [concat]. by rewrite app_assoc, take_drop.
    + destruct Hdq as (h & q & -> & Hq').
      eexists _, _, (set_app_recv_queue q c), msgs.
      split; [reflexivity|]. split; [by eapply app_socket_update|]. split; [exact Hq'|]. split; [done|].
      rewrite (take_ge m) by lia. by rewrite take_app_length' by lia.
Qed.

(** What the application writes with [mywrite] reaches the transport layer
    through [stcp_app_recv] as one byte stream, in every interleaving of the
    two threads' calls in which each receive has room for at least half of the
    longest write, so that the overlapping copy of a partial read is never
    reached: nothing is lost, duplicated or reordered, and what is not yet
    received is still queued. *)
Theorem app_data_stream B s sd a c msgs rest ops :
  app_socket s sd a c -> queue_rep (queue_nodes s) (app_recv_queue c) msgs rest ->
  Forall (fun m => zlen m <= B) msgs -> Forall (app_op_ok B) ops ->
  exists out s' c' msgs', app_run sd ops s = Ok (out, s') /\ app_socket s' sd a c' /\
    queue_rep (queue_nodes s') (app_recv_queue c') msgs' rest /\
    concat msgs ++ app_written ops = out ++ concat msgs'.
Proof.
  intros Ha Hq HB Hops. revert s c msgs Ha Hq HB.
  induction Hops as [|op ops Hop _ IH]; intros s c msgs Ha Hq HB.
  { exists [], s, c, msgs. split_and!; try done. by rewrite app_nil_r. }
  destruct (app_step_ok B s sd a c msgs rest op Ha Hq HB Hop)
    as (out & s1 & c1 & msgs1 & E1 & Ha1 & Hq1 & HB1 & He1).
  destruct (IH s1 c1 msgs1 Ha1 Hq1 HB1) as (out2 & s2 & c2 & msgs2 & E2 & Ha2 & Hq2 & He2).
  exists (out ++ out2), s2, c2, msgs2. split; [cbn [app_run]; m_use E1; by m_use E2|].
  split; [done|]. split; [done|]. rewrite <- app_assoc, <- He2, app_assoc, <- He1, <- app_assoc.
  f_equal. unfold app_written. cbn [fmap list_fmap concat]. by rewrite app_nil_r.
Qed.

(** The error returns of the socket calls.  On a listening socket
    [mywrite] and [myread] return -1 with [EINVAL]; [myconnect] on a socket
    that already has a peer returns -1 with [EISCONN]; [mybind] to another
    address family returns -1 with [EADDRNOTAVAIL]; [mygetpeername] without a
    peer returns -1 with [ENOTCONN].  None of them changes anything but
    [errno].  Reading or writing after [myclose] was called fails an
    assertion. *)
Theorem api_errors s sd a c :
  descriptor s sd a c ->
  (listening c = true -> forall buf len,
     mywrite sd buf len s = Ok (-1, set_errno EINVAL s) /\
     myread sd buf len s = Ok ((-1, buf), set_errno EINVAL s)) /\
  (peer_addr_len (network_state c) <> 0 -> forall name namelen,
     myconnect sd name namelen s = Ok (-1, set_errno EISCONN s)) /\
  (forall addr, sa_family addr <> AF_INET ->
     mybind sd addr s = Ok (-1, set_errno EADDRNOTAVAIL s)) /\
  (peer_addr_len (network_state c) = 0 -> forall namelen,
     mygetpeername sd namelen s = Ok ((-1, [], 0), set_errno ENOTCONN s)) /\
  (listening c = false -> close_requested c = true -> forall buf len,
     mywrite sd buf len s = Crash Abort /\ myread sd buf len s = Crash Abort).
Proof.
  intros Hd. pose proof Hd as (_ & _ & Hc & _).
  split_and!.
  - intros Hl buf len. split; [unfold mywrite|unfold myread];
      erewrite m_bind_ok by (eapply get_context_ok; exact Hd).
    + unfold MYSOCK_CHECK. rewrite bool_decide_true by done. m_step. by rewrite Hl.
    + rewrite decide_False by done. m_step. by rewrite Hl.
  - intros Hp name namelen. unfold myconnect, MYSOCK_CHECK.
    erewrite m_bind_ok by (eapply get_context_ok; exact Hd). rewrite bool_decide_true by done.
    m_step. by rewrite bool_decide_false by done.
  - intros addr Hf. unfold mybind, MYSOCK_CHECK.
    erewrite m_bind_ok by (eapply get_context_ok; exact Hd). rewrite bool_decide_true by done.
    by rewrite bool_decide_false by done.
  - intros Hp namelen. unfold mygetpeername, MYSOCK_CHECK.
    erewrite m_bind_ok by (eapply get_context_ok; exact Hd). m_step.
    rewrite bool_decide_false, Hp by lia.
    rewrite m_bind_ok with (a := -1) (s' := set_errno ENOTCONN s) by done.
    replace (Z.to_nat (Z.min namelen 0)) with 0%nat by lia. done.
  - intros Hl Hcr buf len. split; [unfold mywrite|unfold myread];
      erewrite m_bind_ok by (eapply get_context_ok; exact Hd).
    + unfold MYSOCK_CHECK. rewrite bool_decide_true by done. m_step. rewrite Hl, Hcr. done.
    + rewrite decide_False by done. m_step. rewrite Hl, Hcr. done.
Qed.
End proofs.

(** ** Witnesses *)

Lemma sample_app_socket fd pending w :
  app_socket (sample_state fd false pending w) 0 1 (sample_context false).
Proof. split; [apply sample_descriptor|done]. Qed.

Lemma sample_queue_rep fd pending w :
  queue_rep (queue_nodes (sample_state fd false pending w)) empty_queue [] ∅.
Proof. exact (queue_rep_empty empty_heap heap_wf_empty). Qed.

Lemma myread_stream_then_eof_witness :
  exists s s' : state unit pipes,
    myreads 0 (replicate 8 0) 3 s = Ok ([(5, bytes_of "hello"); (0, []); (0, [])], s').
Proof.
  destruct (enqueue_ok _ _ _ _ (bytes_of "hello") 5 (sample_queue_rep 4 (-1) ∅)) as (h1 & q1 & _ & Q1);
    [cbn; lia|].
  destruct (enqueue_ok _ _ _ _ [] 0 Q1) as (h2 & q2 & _ & Q2); [cbn; lia|].
  pose proof (app_socket_update _ _ _ _ (set_app_send_queue q2 (sample_context false)) h2
    (sample_app_socket 4 (-1) ∅) eq_refl eq_refl eq_refl) as Ha.
  destruct (myread_stream_then_eof _ 0 1 _ [bytes_of "hello"] [] ∅ (replicate 8 0) 1 Ha eq_refl Q2)
    as (s' & c' & Hr & _).
  - apply Forall_cons_2; [cbn; lia|by apply Forall_nil_2].
  - eexists _, s'. exact Hr.
Defined.

Lemma app_data_stream_witness :
  exists out s' c' msgs',
    app_run 0 [Recv 4; Write (bytes_of "hello"); Write (bytes_of "net"); Recv 4; Recv 4]
      (sample_state 4 false (-1) ∅) = Ok (out, s') /\ app_socket s' 0 1 c' /\
    queue_rep (queue_nodes s') (app_recv_queue c') msgs' ∅ /\
    bytes_of "hellonet" = out ++ concat msgs'.
Proof.
  apply (app_data_stream 5 _ 0 1 (sample_context false) [] ∅).
  - apply sample_app_socket.
  - exact (sample_queue_rep 4 (-1) ∅).
  - by apply Forall_nil_2.
  - repeat (apply Forall_cons_2; [cbn; lia|]). by apply Forall_nil_2.
Defined.

Lemma api_errors_witness :
  mywrite 0 [1; 2] 2 (sample_state 4 true (-1) ∅)
    = Ok (-1, set_errno EINVAL (sample_state 4 true (-1) ∅)).
Proof.
  destruct (api_errors (sample_state 4 true (-1) ∅) 0 1 (sample_context true)
    (sample_descriptor 4 true (-1) ∅)) as (Hl & _).
  exact (proj1 (Hl eq_refl [1; 2] 2)).
Defined.
