(* ===== verification/CString.v ===== *)
(** * C strings

    A [char] array is a list of bytes; the string it holds ends at the first
    zero byte.  The comparison and copy functions of [string.h] the sources
    use, with the facts about them the components share. *)

From S2P Require Import Prelude.

(** The string in an array: the bytes before the first zero, or all of them. *)
Fixpoint c_str (a : list Z) : list Z :=
  match a with
  | [] => []
  | b :: a => if decide (b = 0) then [] else b :: c_str a
  end.

(** A string has no zero byte. *)
Definition is_str (s : list Z) : Prop := Forall (fun b => b <> 0) s.
#[global] Instance is_str_dec s : Decision (is_str s).
Proof. unfold is_str. apply _. Defined.

(** [strncpy(dst, src, n)]: what the first [n] bytes of [dst] become. *)
Definition strncpy (src : list Z) (n : Z) : list Z :=
  take (Z.to_nat n) (c_str src ++ replicate (Z.to_nat n) 0).

(** [strncmp(a, b, n) == 0] *)
Definition strncmp_eq (a b : list Z) (n : Z) : bool :=
  bool_decide (take (Z.to_nat n) (c_str a) = take (Z.to_nat n) (c_str b)).

Lemma c_str_id s : is_str s -> c_str s = s.
Proof.
  induction 1 as [|b s Hb Hs IH]; [done|]. cbn. rewrite decide_False by done. by rewrite IH.
Qed.

Lemma c_str_is_str a : is_str (c_str a).
Proof.
  induction a as [|b a IH]; [by apply Forall_nil|]. cbn. case_decide; [by apply Forall_nil|].
  by apply Forall_cons.
Qed.

Lemma c_str_app_zero s a : is_str s -> c_str (s ++ 0 :: a) = s.
Proof.
  induction 1 as [|b s Hb Hs IH]; [done|]. cbn. rewrite decide_False by done. by rewrite IH.
Qed.

Lemma c_str_take n s : is_str s -> c_str (take n s) = take n s.
Proof. intros Hs. apply c_str_id. by apply Forall_take. Qed.

Lemma length_strncpy s n : length (strncpy s n) = Z.to_nat n.
Proof. unfold strncpy. rewrite length_take, length_app, length_replicate. lia. Qed.

(** Reading back what [strncpy] stored: the string, cut at [n] bytes. *)
Lemma c_str_strncpy s n : is_str s -> c_str (strncpy s n) = take (Z.to_nat n) s.
Proof.
  intros Hs. unfold strncpy. rewrite (c_str_id s) by done.
  destruct (decide (Z.to_nat n <= length s)%nat) as [Hle|Hgt].
  - rewrite take_app_le by done. by apply c_str_take.
  - rewrite take_app_ge, (take_ge s) by lia.
    destruct (Z.to_nat n - length s)%nat as [|k] eqn:Hk; [lia|].
    destruct (Z.to_nat n) as [|m]; [lia|]. cbn. by apply c_str_app_zero.
Qed.

(** ** Strings in buffers of a known size *)

(** The string at the start of an array; reading past the array is an error. *)
Fixpoint str_of (a : list Z) : run (list Z) :=
  match a with
  | [] => Crash OutOfRange
  | b :: a => if decide (b = 0) then Ok [] else s ← str_of a; Ok (b :: s)
  end.

Lemma str_of_ok s a : is_str s -> str_of (s ++ 0 :: a) = Ok s.
Proof.
  induction 1 as [|b s Hb Hs IH]; [done|]. cbn. rewrite decide_False by done. by rewrite IH.
Qed.

(** An array longer than the string it holds. *)
Lemma str_of_short a : (length (c_str a) < length a)%nat -> str_of a = Ok (c_str a).
Proof.
  induction a as [|b a IH]; cbn; [lia|]. case_decide; [done|]. cbn. intros Hl. by rewrite IH by lia.
Qed.

(** With a zero byte it has an end, without one it has none. *)
Lemma c_str_shorter a : 0 ∈ a -> (length (c_str a) < length a)%nat.
Proof.
  induction a as [|b a IH]; [by intros ?%not_elem_of_nil|]. cbn. intros Hin. case_decide; cbn; [lia|].
  apply elem_of_cons in Hin as [<-|Hin]; [done|]. specialize (IH Hin). lia.
Qed.

Lemma str_of_terminated a : 0 ∈ a -> str_of a = Ok (c_str a).
Proof. intros Hin. by apply str_of_short, c_str_shorter. Qed.

Lemma str_of_unterminated a : 0 ∉ a -> str_of a = Crash OutOfRange.
Proof.
  induction a as [|b a IH]; [done|]. rewrite not_elem_of_cons. intros [Hb Ha]. cbn.
  rewrite decide_False by done. by rewrite IH.
Qed.

(** [n] bytes at offset [off] of a buffer. *)
Definition slice (p : list Z) (off n : nat) : run (list Z) :=
  if decide (off + n <= length p)%nat then Ok (take n (drop off p)) else Crash OutOfRange.

(** Storing bytes at an offset. *)
Definition patch (p : list Z) (off : nat) (bytes : list Z) : run (list Z) :=
  if decide (off + length bytes <= length p)%nat
  then Ok (take off p ++ bytes ++ drop (off + length bytes) p) else Crash OutOfRange.

Lemma slice_ok p off n : (off + n <= length p)%nat -> slice p off n = Ok (take n (drop off p)).
Proof. intros H. unfold slice. by rewrite decide_True. Qed.

Lemma patch_ok p off bytes : (off + length bytes <= length p)%nat ->
  patch p off bytes = Ok (take off p ++ bytes ++ drop (off + length bytes) p).
Proof. intros H'. unfold patch. by rewrite decide_True. Qed.

(** Writing behind what has been written. *)
Lemma patch_append done p bytes : (length done + length bytes <= length p)%nat ->
  patch (done ++ drop (length done) p) (length done) bytes
  = Ok ((done ++ bytes) ++ drop (length (done ++ bytes)) p).
Proof.
  intros Hl. rewrite patch_ok by (rewrite length_app, length_drop; lia).
  rewrite take_app_length, drop_app_ge by lia.
  replace (length done + length bytes - length done)%nat with (length bytes) by lia.
  by rewrite drop_drop, length_app, <- app_assoc.
Qed.

Lemma str_of_is_str a s : str_of a = Ok s -> is_str s.
Proof.
  revert s. induction a as [|b a IH]; intros s Hs; cbn in Hs; [done|].
  case_decide; [injection Hs as <-; by apply Forall_nil|].
  run_inv. apply Forall_cons. split; [done|]. by apply IH.
Qed.

(** ** Searching and numbers *)

(** [index], [strchr]. *)
Fixpoint index (s : list Z) (c : Z) : option nat :=
  match s with
  | [] => None
  | b :: s => if decide (b = c) then Some O else S <$> index s c
  end.

(** The length of the longest prefix whose characters pass the test:
    [strspn] and [strcspn]. *)
Fixpoint span (P : Z -> bool) (s : list Z) : nat :=
  match s with [] => O | b :: s => if P b then S (span P s) else O end.

Definition isspace (c : Z) : bool := bool_decide (c = 32 \/ 9 <= c <= 13).
Definition is_digit (b : Z) : bool := bool_decide (48 <= b <= 57).

(** The number at the start of a string, 0 when there is none. *)
Definition digits_val (s : list Z) : Z := foldl (fun acc b => acc * 10 + (b - 48)) 0 (take (span is_digit s) s).

(** What [%d] and [strtol] read: spaces, a sign, digits. *)
Definition scan_int (s : list Z) : option Z :=
  let s := drop (span isspace s) s in
  let number d := if decide (span is_digit d = 0%nat) then None else Some (digits_val d) in
  match s with
  | 45 :: d => Z.opp <$> number d
  | 43 :: d => number d
  | d => number d
  end.

(** [strtol(s, NULL, 10)] on a 64-bit [long]: saturation at the limits. *)
Definition strtol (s : list Z) : Z := Z.max (- 2 ^ 63) (Z.min (2 ^ 63 - 1) (default 0 (scan_int s))).

(** [atoi] *)
Definition atoi (s : list Z) : Z := to_int (strtol s).

(** What [%lu] and [%u] print. *)
Fixpoint print_digits (fuel : nat) (n : Z) : list Z :=
  match fuel with
  | O => []
  | S fuel => (if decide (n < 10) then [] else print_digits fuel (n / 10)) ++ [48 + n mod 10]
  end.
Definition print_dec (n : Z) : list Z := print_digits (S (Z.to_nat (Z.log2 n))) n.

Lemma span_app P a s : Forall (fun b => P b = true) a -> span P (a ++ s) = (length a + span P s)%nat.
Proof. induction 1 as [|b a Hb _ IH]; [done|]. cbn. by rewrite Hb, IH. Qed.

Lemma span_all P a : Forall (fun b => P b = true) a -> span P a = length a.
Proof. intros Ha. rewrite <- (app_nil_r a) at 1. rewrite span_app by done. cbn. lia. Qed.


(** Reading back a printed number. *)
Lemma print_digits_ok fuel : forall n, 0 <= n < 2 ^ Z.of_nat fuel ->
  Forall (fun b => is_digit b = true) (print_digits fuel n) /\
  (fuel <> O -> print_digits fuel n <> []) /\
  foldl (fun acc b => acc * 10 + (b - 48)) 0 (print_digits fuel n) = n.
Proof.
  induction fuel as [|fuel IH]; intros n Hn; [cbn in Hn |- *; split_and!; [by apply Forall_nil|done|lia]|].
  cbn [print_digits]. pose proof (Z.mod_pos_bound n 10 ltac:(lia)) as Hm.
  pose proof (Z.div_mod n 10 ltac:(lia)) as Hd.
  assert (is_digit (48 + n mod 10) = true) as Hdig by (apply bool_decide_eq_true; lia).
  rewrite foldl_app. cbn [foldl]. case_decide as Hlt.
  - cbn [app foldl]. split_and!; [by apply Forall_singleton|done|]. rewrite Z.mod_small by lia. lia.
  - destruct (IH (n / 10)) as (H1 & _ & H3).
    { rewrite Nat2Z.inj_succ, Z.pow_succ_r in Hn by lia. split; [apply Z.div_pos; lia|].
      apply Z.div_lt_upper_bound; lia. }
    split_and!; [apply Forall_app_2; [done|by apply Forall_singleton]|by destruct (print_digits fuel (n / 10))|].
    rewrite H3. lia.
Qed.

Lemma print_dec_ok n : 0 <= n ->
  Forall (fun b => is_digit b = true) (print_dec n) /\ print_dec n <> [] /\
  foldl (fun acc b => acc * 10 + (b - 48)) 0 (print_dec n) = n.
Proof.
  intros Hn. destruct (print_digits_ok (S (Z.to_nat (Z.log2 n))) n) as (H1 & H2 & H3).
  - split; [done|]. rewrite Nat2Z.inj_succ, Z2Nat.id by apply Z.log2_nonneg.
    destruct (decide (n = 0)) as [->|]; [done|]. apply Z.log2_spec. lia.
  - split; [done|]. split; [by apply H2|done].
Qed.

(** [sscanf(s, "%d", &n)] on a printed number and what follows it. *)
Lemma scan_print_dec n s : 0 <= n -> match s with [] => True | b :: _ => is_digit b = false end ->
  scan_int (print_dec n ++ s) = Some n.
Proof.
  intros Hn Hs. destruct (print_dec_ok n Hn) as (Hd & Hne & Hv). unfold scan_int.
  destruct (print_dec n) as [|d ds] eqn:Hp; [done|].
  assert (is_digit d = true) as Hd0 by (by inversion Hd). unfold is_digit in Hd0. apply bool_decide_eq_true in Hd0.
  assert (isspace d = false) as Hsp by (apply bool_decide_eq_false; lia).
  cbn [app span]. rewrite Hsp, drop_0.
  assert (span is_digit (d :: ds ++ s) = length (d :: ds)) as Hspan.
  { rewrite (app_comm_cons ds s d), (span_app is_digit (d :: ds)) by exact Hd.
    destruct s as [|b s]; cbn [span]; [lia|]. rewrite Hs. lia. }
  assert (digits_val (d :: ds ++ s) = n) as Hval.
  { unfold digits_val. rewrite Hspan, (app_comm_cons ds s d), take_app_length. exact Hv. }
  assert (d <> 45 /\ d <> 43) as [H1 H2] by lia.
  assert ((if decide (span is_digit (d :: ds ++ s) = 0%nat) then None else Some (digits_val (d :: ds ++ s))) = Some n) as E
    by (rewrite decide_False by (rewrite Hspan; done); by rewrite Hval).
  destruct d as [|p|p]; [exact E| |lia]. 
  repeat (destruct p as [p|p|]; try exact E; try lia).
Qed.
