(* ===== verification/Layout.v ===== *)
(** * Memory layouts of packed structures

    The structures the programs send, receive and store are packed: their
    image in memory is the images of their fields, one after the other.  A
    [layout] describes such an image by what it holds ([fits]), how it is
    written ([enc]) and how it is read ([dec]); the class [LayoutLaws] says that
    the two are inverse to each other and stay within the size.  Layouts are
    built from integers in the byte order of the machine and arrays of bytes
    by sequence and by renaming of fields, and each construction has its
    instance of the laws. *)

From S2P Require Import Prelude CString.

Record layout (A : Type) : Type := Layout {
  size_of : nat;
  enc : A -> list Z;
  dec : list Z -> A;
  fits : A -> Prop
}.
Arguments Layout {A}.
Arguments size_of {A} _.
Arguments enc {A} _ _.
Arguments dec {A} _ _.
Arguments fits {A} _ _.

Class LayoutLaws {A} (l : layout A) : Prop := {
  enc_length a : fits l a -> length (enc l a) = size_of l;
  enc_bytes a : fits l a -> Forall is_byte (enc l a);
  dec_enc a rest : fits l a -> dec l (enc l a ++ rest) = a;
  enc_dec bs rest : length bs = size_of l -> Forall is_byte bs ->
    fits l (dec l (bs ++ rest)) /\ enc l (dec l (bs ++ rest)) = bs
}.

(** ** Fields *)

(** An unsigned integer of [n] bytes. *)
Definition uint (n : nat) : layout Z :=
  Layout n (le_bytes n) (fun bs => le_val (take n bs)) (fun z => 0 <= z < 256 ^ Z.of_nat n).

(** A 32-bit [int], in two's complement. *)
Definition int32 : layout Z :=
  Layout 4 (le_bytes 4) (fun bs => to_int (le_val (take 4 bs))) (fun z => - 2 ^ 31 <= z < 2 ^ 31).

(** An array of [n] bytes. *)
Definition octets (n : nat) : layout (list Z) :=
  Layout n (fun b => b) (take n) (fun b => length b = n /\ Forall is_byte b).

(** One field after another. *)
Definition pair_of {A B} (l1 : layout A) (l2 : layout B) : layout (A * B) :=
  Layout (size_of l1 + size_of l2) (fun x => enc l1 x.1 ++ enc l2 x.2)
    (fun bs => (dec l1 bs, dec l2 (drop (size_of l1) bs))) (fun x => fits l1 x.1 /\ fits l2 x.2).

(** The same image under other names; [g] undoes [f] on what fits. *)
Definition as_record {A B} (f : A -> B) (g : B -> A) (l : layout A) : layout B :=
  Layout (size_of l) (fun b => enc l (g b)) (fun bs => f (dec l bs)) (fun b => fits l (g b)).

(** [n] elements. *)
Fixpoint array_of {A} (n : nat) (l : layout A) : layout (list A) :=
  match n with
  | O => Layout 0 (fun _ => []) (fun _ => []) (fun xs => xs = [])
  | S n =>
      let r := array_of n l in
      Layout (size_of l + size_of r) (fun xs => match xs with [] => [] | x :: xs => enc l x ++ enc r xs end)
        (fun bs => dec l bs :: dec r (drop (size_of l) bs))
        (fun xs => match xs with [] => False | x :: xs => fits l x /\ fits r xs end)
  end.

#[export] Instance uint_laws n : LayoutLaws (uint n).
Proof.
  split; cbn [size_of enc dec fits uint].
  - intros a _. apply length_le_bytes.
  - intros a _. apply le_bytes_is_byte.
  - intros a rest Ha. rewrite take_app_length' by (by rewrite length_le_bytes).
    rewrite le_val_bytes. by apply Z.mod_small.
  - intros bs rest Hl Hb. rewrite take_app_length' by done. split.
    + rewrite <- Hl. by apply le_val_range.
    + rewrite <- Hl. by apply le_bytes_val.
Qed.

Lemma to_int_range z : - 2 ^ 31 <= to_int z < 2 ^ 31.
Proof. unfold to_int. pose proof (Z.mod_pos_bound (z + 2 ^ 31) (2 ^ 32) ltac:(lia)). lia. Qed.

Lemma to_int_le_bytes z : to_int (le_val (le_bytes 4 z)) = to_int z.
Proof.
  rewrite le_val_bytes. unfold to_int. change (256 ^ Z.of_nat 4) with (2 ^ 32).
  by rewrite Zplus_mod_idemp_l.
Qed.

Lemma to_int_id z : - 2 ^ 31 <= z < 2 ^ 31 -> to_int z = z.
Proof. intros Hz. unfold to_int. rewrite Z.mod_small by lia. lia. Qed.

Lemma le_bytes_to_int z : le_bytes 4 (to_int z) = le_bytes 4 z.
Proof.
  rewrite <- (le_bytes_mod 4 (to_int z)), <- (le_bytes_mod 4 z). f_equal. unfold to_int.
  change (256 ^ Z.of_nat 4) with (2 ^ 32). rewrite Zminus_mod_idemp_l. f_equal. lia.
Qed.

#[export] Instance int32_laws : LayoutLaws int32.
Proof.
  split; cbn [size_of enc dec fits int32].
  - intros a _. apply length_le_bytes.
  - intros a _. apply le_bytes_is_byte.
  - intros a rest Ha. rewrite take_app_length' by (by rewrite length_le_bytes).
    rewrite to_int_le_bytes. by apply to_int_id.
  - intros bs rest Hl Hb. rewrite take_app_length' by done. split; [apply to_int_range|].
    rewrite le_bytes_to_int, <- Hl. by apply le_bytes_val.
Qed.

#[export] Instance octets_laws n : LayoutLaws (octets n).
Proof.
  split; cbn [size_of enc dec fits octets].
  - by intros a [Ha _].
  - by intros a [_ Ha].
  - intros a rest [Ha _]. by apply take_app_length'.
  - intros bs rest Hl Hb. by rewrite take_app_length'.
Qed.

(** Splitting bytes between two layouts. *)
Lemma split_bytes n m (bs : list Z) : length bs = (n + m)%nat -> Forall is_byte bs ->
  exists b1 b2, bs = b1 ++ b2 /\ length b1 = n /\ length b2 = m /\ Forall is_byte b1 /\ Forall is_byte b2.
Proof.
  intros Hl Hb. exists (take n bs), (drop n bs). rewrite take_drop, length_take, length_drop.
  split_and!; [done|lia|lia|by apply Forall_take|by apply Forall_drop].
Qed.

#[export] Instance pair_laws {A B} (l1 : layout A) (l2 : layout B) :
  LayoutLaws l1 -> LayoutLaws l2 -> LayoutLaws (pair_of l1 l2).
Proof.
  intros L1 L2. split; cbn [size_of enc dec fits pair_of].
  - intros a [H1 H2]. by rewrite length_app, !enc_length.
  - intros a [H1 H2]. by apply Forall_app_2; apply enc_bytes.
  - intros [a b] rest [H1 H2]. cbn [fst snd] in *. rewrite <- app_assoc, dec_enc by done.
    by rewrite drop_app_length', dec_enc by (done || by rewrite enc_length).
  - intros bs rest Hl Hb. destruct (split_bytes _ _ _ Hl Hb) as (b1 & b2 & -> & Hl1 & Hl2 & Hb1 & Hb2).
    rewrite <- app_assoc, drop_app_length' by done. cbn [fst snd].
    destruct (enc_dec b1 (b2 ++ rest) Hl1 Hb1) as [? ->]. by destruct (enc_dec b2 rest Hl2 Hb2) as [? ->].
Qed.

(** The field names of a structure: [f] and [g] are inverse. *)
Lemma as_record_laws {A B} (f : A -> B) (g : B -> A) (l : layout A) : LayoutLaws l ->
  (forall b, fits l (g b) -> f (g b) = b) -> (forall a, fits l a -> g (f a) = a) -> LayoutLaws (as_record f g l).
Proof.
  intros L Hfg Hgf. split; cbn [size_of enc dec fits as_record].
  - intros a Ha. by apply enc_length.
  - intros a Ha. by apply enc_bytes.
  - intros a rest Ha. rewrite dec_enc by done. by apply Hfg.
  - intros bs rest Hl Hb. destruct (enc_dec bs rest Hl Hb) as [Hf He]. by rewrite Hgf.
Qed.

#[export] Instance array_laws {A} n (l : layout A) : LayoutLaws l -> LayoutLaws (array_of n l).
Proof.
  intros L. induction n as [|n IH]; split; cbn [size_of enc dec fits array_of].
  - by intros a ->.
  - intros a ->. by apply Forall_nil.
  - by intros a rest ->.
  - intros bs rest Hl _. by destruct bs.
  - intros [|x xs]; [done|]. intros [H1 H2]. by rewrite length_app, !enc_length.
  - intros [|x xs]; [done|]. intros [H1 H2]. by apply Forall_app_2; apply enc_bytes.
  - intros [|x xs] rest; [done|]. intros [H1 H2]. rewrite <- app_assoc, dec_enc by done.
    by rewrite drop_app_length', dec_enc by (done || by rewrite enc_length).
  - intros bs rest Hl Hb. destruct (split_bytes _ _ _ Hl Hb) as (b1 & b2 & -> & Hl1 & Hl2 & Hb1 & Hb2).
    rewrite <- app_assoc, drop_app_length' by done.
    destruct (enc_dec b1 (b2 ++ rest) Hl1 Hb1) as [? ->]. by destruct (enc_dec b2 rest Hl2 Hb2) as [? ->].
Qed.

(** Two bit fields of four bits in a byte; on a little-endian machine the
    first has the low bits. *)
Definition nibbles : layout (Z * Z) :=
  Layout 1 (fun x => [Z.lor (Z.shiftl x.2 4) x.1])
    (fun bs => match bs with [] => (0, 0) | b :: _ => (Z.land b 15, Z.shiftr b 4) end)
    (fun x => 0 <= x.1 < 16 /\ 0 <= x.2 < 16).

#[export] Instance nibbles_laws : LayoutLaws nibbles.
Proof.
  assert (forall b, Z.land b 15 = b mod 16 /\ Z.shiftr b 4 = b / 16) as Hb.
  { intros b. change 15 with (Z.ones 4). rewrite Z.land_ones, Z.shiftr_div_pow2 by lia. done. }
  assert (forall lo hi, 0 <= lo < 16 -> Z.lor (Z.shiftl hi 4) lo = hi * 16 + lo) as Hor.
  { intros lo hi Hlo. rewrite lor_shiftl_add by lia. done. }
  split; cbn [size_of enc dec fits nibbles].
  - done.
  - intros [lo hi] [Hl Hh]. cbn [fst snd] in *. rewrite Hor by done. apply Forall_singleton. unfold is_byte. lia.
  - intros [lo hi] rest [Hl Hh]. cbn [fst snd app] in *. rewrite Hor by done. destruct (Hb (hi * 16 + lo)) as [-> ->].
    f_equal; Z.div_mod_to_equations; lia.
  - intros [|b [|? ?]] rest Hl HF; [done| |done]. apply Forall_cons in HF as [HF _]. unfold is_byte in HF.
    cbn [app fst snd]. destruct (Hb b) as [-> ->]. rewrite Hor by (apply Z.mod_pos_bound; lia).
    split; [|f_equal]; Z.div_mod_to_equations; lia.
Qed.

(** The laws of a structure, from those of its fields. *)
Ltac layout_laws :=
  apply as_record_laws;
  [apply _
  |intros [] _; reflexivity
  |let x := fresh in intros x _; repeat match goal with y : (_ * _)%type |- _ => destruct y end; reflexivity].

(** ** Reading through a pointer *)

(** [*(T* )(buf + off)], which the buffer must contain. *)
Definition read_at {A} (l : layout A) (buf : list Z) (off : nat) : run A :=
  b ← slice buf off (size_of l); Ok (dec l b).

Section read_at.
Context {A : Type} (l : layout A) `{LayoutLaws A l}.

Lemma read_at_ok buf off : (off + size_of l <= length buf)%nat ->
  read_at l buf off = Ok (dec l (take (size_of l) (drop off buf))).
Proof. intros Hl. unfold read_at. by rewrite slice_ok. Qed.

Lemma read_at_enc pre a rest : fits l a -> read_at l (pre ++ enc l a ++ rest) (length pre) = Ok a.
Proof.
  intros Ha. pose proof (enc_length a Ha) as Hl.
  rewrite read_at_ok by (rewrite !length_app, Hl; lia). rewrite drop_app_length, take_app_length' by done.
  rewrite <- (app_nil_r (enc l a)). by rewrite dec_enc.
Qed.

Lemma read_at_fits buf off a : Forall is_byte buf -> read_at l buf off = Ok a ->
  fits l a /\ enc l a = take (size_of l) (drop off buf).
Proof.
  unfold read_at, slice. intros Hb Hr. case_decide; [|done]. cbn in Hr. injection Hr as <-.
  destruct (enc_dec (take (size_of l) (drop off buf)) []) as [H1 H2].
  - rewrite length_take, length_drop. lia.
  - by apply Forall_take, Forall_drop.
  - by rewrite app_nil_r in H1, H2.
Qed.
End read_at.

(** ** Types of fields, and structures whose values are all their images *)

Definition u8_ok (z : Z) : Prop := 0 <= z < 2 ^ 8.
Definition u16_ok (z : Z) : Prop := 0 <= z < 2 ^ 16.
Definition u32_ok (z : Z) : Prop := 0 <= z < 2 ^ 32.
Definition u4_ok (z : Z) : Prop := 0 <= z < 2 ^ 4.
Definition octets_ok (n : nat) (b : list Z) : Prop := length b = n /\ Forall is_byte b.

(** A structure [A] whose values [ok] are exactly the images of [n] bytes. *)
Definition images {A} (l : layout A) (n : nat) (ok : A -> Prop) : Prop :=
  (forall bs, length bs = n -> Forall is_byte bs -> ok (dec l bs) /\ enc l (dec l bs) = bs) /\
  (forall a, ok a -> length (enc l a) = n /\ Forall is_byte (enc l a) /\ dec l (enc l a) = a).

Lemma images_intro {A} (l : layout A) `{!LayoutLaws l} n (ok : A -> Prop) :
  size_of l = n -> (forall a, fits l a <-> ok a) -> images l n ok.
Proof.
  intros <- Hok. split.
  - intros bs Hl Hb. destruct (enc_dec bs [] Hl Hb) as [Hf He]. rewrite app_nil_r in *. by rewrite <- Hok.
  - intros a Ha. apply Hok in Ha. pose proof (dec_enc a [] Ha) as Hd. rewrite app_nil_r in Hd.
    split_and!; [by apply enc_length|by apply enc_bytes|done].
Qed.
