(* ===== verification/Inet.v ===== *)
(** * Numbers and addresses as text

    The conversions of [printf] the programs use besides decimal numbers
    ([%x] with a width), and the dotted-decimal text of an IPv4 address, as
    [inet_ntoa] and [inet_ntop] write it, with a reader of such text.  Proved:
    the reader inverts the writer, and the longest text of an address has 15
    characters. *)

From S2P Require Import Prelude CString.

(** ** Hexadecimal *)

Definition hex_digit (upper : bool) (d : Z) : Z :=
  if decide (d < 10) then 48 + d else (if upper then 55 else 87) + d.

Fixpoint hex_digits (upper : bool) (n : nat) (z : Z) : list Z :=
  match n with
  | O => []
  | S n => hex_digits upper n (z / 16) ++ [hex_digit upper (z mod 16)]
  end.

(** [%0<width>x] or [%0<width>X]: as many digits as there are, at least
    [width]. *)
Definition print_hex (upper : bool) (width : nat) (z : Z) : list Z :=
  hex_digits upper (Nat.max width (S (Z.to_nat (Z.log2 z / 4)))) z.

Example print_hex_sample : print_hex false 4 0x8abc = bytes_of "8abc" /\ print_hex true 2 10 = bytes_of "0A".
Proof. split; vm_compute; reflexivity. Qed.

(** ** Addresses *)

(** Four numbers with points between them. *)
Fixpoint dotted (bs : list Z) : list Z :=
  match bs with
  | [] => []
  | [b] => print_dec b
  | b :: bs => print_dec b ++ 46 :: dotted bs
  end.

(** [inet_ntoa], and [inet_ntop] for [AF_INET]: the address is an integer
    whose bytes in memory are those of the address. *)
Definition inet_ntoa (s_addr : Z) : list Z := dotted (le_bytes 4 s_addr).

(** [INET_ADDRSTRLEN]: room for every such text with its end. *)
Definition INET_ADDRSTRLEN : Z := 16.

(** A decimal number below 256 and what follows it. *)
Definition read_octet (s : list Z) : option (Z * list Z) :=
  if decide (span is_digit s = 0%nat \/ 256 <= digits_val s) then None
  else Some (digits_val s, drop (span is_digit s) s).

Definition read_point (s : list Z) : option (list Z) :=
  match s with 46 :: s => Some s | _ => None end.

(** What [inet_aton] reads of four decimal parts. *)
Definition read_dotted (s : list Z) : option Z :=
  '(a, s) ← read_octet s; s ← read_point s;
  '(b, s) ← read_octet s; s ← read_point s;
  '(c, s) ← read_octet s; s ← read_point s;
  '(d, s) ← read_octet s;
  match s with [] => Some (le_val [a; b; c; d]) | _ => None end.

Lemma read_octet_ok b s : 0 <= b < 256 -> match s with [] => True | c :: _ => is_digit c = false end ->
  read_octet (print_dec b ++ s) = Some (b, s).
Proof.
  intros Hb Hs. destruct (print_dec_ok b) as (Hd & Hne & Hv); [lia|].
  assert (span is_digit (print_dec b ++ s) = length (print_dec b)) as Hsp.
  { rewrite span_app by done. destruct s as [|c s]; cbn; [lia|]. rewrite Hs. lia. }
  unfold read_octet, digits_val. rewrite Hsp, take_app_length, drop_app_length, Hv.
  rewrite decide_False; [done|]. intros [H|H]; [|lia]. by destruct (print_dec b).
Qed.

Lemma address_bytes a : 0 <= a < 2 ^ 32 ->
  exists b0 b1 b2 b3, le_bytes 4 a = [b0; b1; b2; b3] /\ Forall is_byte [b0; b1; b2; b3] /\ a = le_val [b0; b1; b2; b3].
Proof.
  intros Ha. pose proof (le_val_bytes 4 a) as Hv. pose proof (le_bytes_is_byte 4 a) as Hb.
  pose proof (length_le_bytes 4 a) as Hl. destruct (le_bytes 4 a) as [|b0 [|b1 [|b2 [|b3 [|? ?]]]]]; try done.
  exists b0, b1, b2, b3. rewrite Hv. split_and!; [done|done|]. symmetry. by apply Z.mod_small.
Qed.

Lemma read_inet_ntoa a : 0 <= a < 2 ^ 32 -> read_dotted (inet_ntoa a) = Some a.
Proof.
  intros Ha. unfold inet_ntoa. destruct (address_bytes a Ha) as (b0 & b1 & b2 & b3 & -> & Hb & ->).
  rewrite !Forall_cons in Hb. unfold is_byte in Hb. destruct Hb as (H0 & H1 & H2 & H3 & _).
  unfold read_dotted. cbn [dotted]. rewrite read_octet_ok by done. cbn [mbind option_bind read_point].
  rewrite read_octet_ok by done. cbn [mbind option_bind read_point].
  rewrite read_octet_ok by done. cbn [mbind option_bind read_point].
  rewrite <- (app_nil_r (print_dec b3)). by rewrite read_octet_ok.
Qed.

(** Numbers below 256 have at most three digits. *)
Lemma length_print_octet b : 0 <= b < 256 -> (length (print_dec b) <= 3)%nat.
Proof.
  intros Hb. assert (Forall (fun n => (length (print_dec (Z.of_nat n)) <= 3)%nat) (seq 0 256)) as Hall
    by (apply (bool_decide_unpack _); vm_compute; exact I).
  rewrite Forall_forall in Hall. replace b with (Z.of_nat (Z.to_nat b)) by lia. apply Hall.
  apply elem_of_seq. lia.
Qed.

Lemma length_dotted bs : Forall is_byte bs -> (length (dotted bs) <= 4 * length bs - 1)%nat.
Proof.
  induction 1 as [|b bs Hb Hbs IH]; [done|]. pose proof (length_print_octet b Hb).
  destruct bs as [|c bs]; [cbn [dotted length]; lia|]. change (dotted (b :: c :: bs)) with (print_dec b ++ 46 :: dotted (c :: bs)).
  rewrite length_app. cbn [length] in *. lia.
Qed.

Lemma inet_ntoa_fits a : zlen (inet_ntoa a) < INET_ADDRSTRLEN.
Proof.
  pose proof (length_dotted _ (le_bytes_is_byte 4 a)) as Hl. rewrite length_le_bytes in Hl.
  unfold inet_ntoa, INET_ADDRSTRLEN. lia.
Qed.

(** Digits and points. *)
Lemma dotted_chars bs : Forall is_byte bs -> Forall (fun c => c = 46 \/ 48 <= c <= 57) (dotted bs).
Proof.
  assert (forall b, is_byte b -> Forall (fun c => c = 46 \/ 48 <= c <= 57) (print_dec b)) as Hd.
  { intros b Hb. destruct (print_dec_ok b) as (H & _); [unfold is_byte in Hb; lia|].
    eapply Forall_impl; [exact H|]. intros c Hc. apply bool_decide_eq_true in Hc. by right. }
  induction 1 as [|b bs Hb Hbs IH]; [by apply Forall_nil|].
  destruct bs as [|c bs]; [by apply Hd|]. change (dotted (b :: c :: bs)) with (print_dec b ++ 46 :: dotted (c :: bs)).
  apply Forall_app_2; [by apply Hd|]. apply Forall_cons. by split; [left|].
Qed.

Lemma dotted_nonempty b bs : is_byte b -> dotted (b :: bs) <> [].
Proof.
  intros Hb. destruct (print_dec_ok b) as (_ & Hne & _); [unfold is_byte in Hb; lia|].
  destruct bs as [|c bs]; [done|]. change (dotted (b :: c :: bs)) with (print_dec b ++ 46 :: dotted (c :: bs)).
  by destruct (print_dec b).
Qed.
