(* ===== verification/TcpHeader.v ===== *)
(** * The transport header

    Models [Assignment3/src/transport.h]: [struct tcphdr] with its packed
    layout, its flags and the macros that read it.  Proved: the layout is a
    bijection, and a segment that the transport layer hands to
    [stcp_network_send] reaches the wire with the fields it wrote, except the
    four the library fills in; the demultiplexer of the peer looks at the flag
    the sender set. *)

From S2P Require Import Prelude Checksum MysockTypes TcpSum TcpIo Mysock Demux StcpApi CString Layout.

Record tcphdr : Type := Tcphdr {
  th_sport : Z;   (* uint16_t *)
  th_dport : Z;   (* uint16_t *)
  th_seq : Z;   (* tcp_seq *)
  th_ack : Z;   (* tcp_seq *)
  th_x2 : Z;   (* uint8_t : 4 *)
  th_off : Z;   (* uint8_t : 4 *)
  th_flags : Z;   (* uint8_t *)
  th_win : Z;   (* uint16_t *)
  th_sum : Z;   (* uint16_t *)
  th_urp : Z   (* uint16_t *)
}.

Definition TH_FIN : Z := 0x01.
Definition TH_RST : Z := 0x04.
Definition TH_PUSH : Z := 0x08.
Definition TH_ACK : Z := 0x10.
Definition TH_URG : Z := 0x20.

Definition STCP_MSS : Z := 536.

Definition tcp_layout : layout tcphdr :=
  as_record (fun '(sp, (dp, (sq, (ak, ((x, off), (fl, (w, (sm, u)))))))) => Tcphdr sp dp sq ak x off fl w sm u)
    (fun h => (th_sport h, (th_dport h, (th_seq h, (th_ack h, ((th_x2 h, th_off h), (th_flags h, (th_win h,
      (th_sum h, th_urp h)))))))))
    (pair_of (uint 2) (pair_of (uint 2) (pair_of (uint 4) (pair_of (uint 4) (pair_of nibbles (pair_of (uint 1)
      (pair_of (uint 2) (pair_of (uint 2) (uint 2))))))))).

#[export] Instance tcp_laws : LayoutLaws tcp_layout.
Proof. layout_laws. Qed.

(** [((STCPHeader * ) p)->th_off * sizeof(uint32_t)]. *)
Definition TCP_DATA_START (p : list Z) : run Z := h ← read_at tcp_layout p 0; Ok (u64 (th_off h * 4)).

(** The difference is one of [size_t]s. *)
Definition TCP_OPTIONS_LEN (p : list Z) : run Z := d ← TCP_DATA_START p; Ok (u64 (d - sizeof_tcphdr)).

Definition MIN (x y : Z) : Z := if decide (x <= y) then x else y.
Definition MAX (x y : Z) : Z := if decide (x >= y) then x else y.

(** ** Well-typed headers *)

Definition tcphdr_ok (h : tcphdr) : Prop :=
  u16_ok (th_sport h) /\ u16_ok (th_dport h) /\ u32_ok (th_seq h) /\ u32_ok (th_ack h) /\
  (u4_ok (th_x2 h) /\ u4_ok (th_off h)) /\ u8_ok (th_flags h) /\ u16_ok (th_win h) /\ u16_ok (th_sum h) /\
  u16_ok (th_urp h).

Lemma tcp_images : images tcp_layout 20 tcphdr_ok.
Proof. apply images_intro; [apply _|reflexivity|reflexivity]. Qed.

(** What the library makes of a header: [stamped], then the checksum. *)
Definition sent_header (h : tcphdr) (sport dport sum : Z) : tcphdr :=
  Tcphdr sport dport (th_seq h) (th_ack h) (th_x2 h) (th_off h) (th_flags h) (th_win h) sum 0.

(** The offsets the library stores at are those of the fields. *)
Lemma stamped_header h sport dport sum body :
  put2 16 sum (stamped sport dport (enc tcp_layout h ++ body)) = enc tcp_layout (sent_header h sport dport sum) ++ body.
Proof. reflexivity. Qed.

Lemma header_fields h body : tcphdr_ok h ->
  let seg := enc tcp_layout h ++ body in
  length seg = (20 + length body)%nat /\ read_at tcp_layout seg 0 = Ok h /\
  arr_get seg offsetof_th_flags = Ok (th_flags h) /\
  is_syn seg (zlen seg) = negb (bool_decide (Z.land (th_flags h) TH_SYN = 0)) /\
  TCP_DATA_START seg = Ok (th_off h * 4) /\
  (20 <= th_off h * 4 -> TCP_OPTIONS_LEN seg = Ok (th_off h * 4 - 20)).
Proof.
  intros Hok seg. assert (fits tcp_layout h) as Hf by exact Hok.
  assert (length seg = (20 + length body)%nat) as Hl by (unfold seg; by rewrite length_app, enc_length).
  assert (read_at tcp_layout seg 0 = Ok h) as Hr by exact (read_at_enc tcp_layout [] h body Hf).
  destruct Hok as (_ & _ & _ & _ & [_ Ho] & Hfl & _). unfold u4_ok, u8_ok in *.
  assert (seg !! 13%nat = Some (th_flags h)) as H13.
  { change (seg !! 13%nat) with (Some (th_flags h mod 256)). by rewrite Z.mod_small. }
  assert (TCP_DATA_START seg = Ok (th_off h * 4)) as Hd.
  { unfold TCP_DATA_START. rewrite Hr. run_step. unfold u64. by rewrite Z.mod_small by lia. }
  split_and!; [done|done|by apply arr_get_ok| |done|].
  - unfold is_syn. by rewrite H13, bool_decide_true by (unfold sizeof_tcphdr; lia).
  - intros H5. unfold TCP_OPTIONS_LEN. rewrite Hd. run_step. unfold u64, sizeof_tcphdr. by rewrite Z.mod_small by lia.
Qed.

Section sending.
Context {T W : Type} `{KT : KeyedTable T Z positive} `{StreamOS W}.
Implicit Types s : state T W.

(** C11: headers on the wire.  On a connected mysocket, a segment given to
    [stcp_network_send] as a well-typed header, options that its data offset
    counts and data goes out as one frame in which the sequence and
    acknowledgement numbers, offset, flags and window are the ones given, the
    ports are the socket's and the peer's, the urgent pointer is 0 and the
    checksum verifies at the peer.  [TCP_DATA_START] and [TCP_OPTIONS_LEN] find
    the options and the data there, and the peer's demultiplexer takes the
    segment for a connection request exactly if [TH_SYN] was set. *)
Theorem segment_header_sent s sd a c fd packet_addr h options data sport rctx local peer addr' rhost :
  descriptor s sd a c -> connected_on s a fd ->
  addressed os_resolver (network_state c) local peer ->
  addressed rhost rctx peer local ->
  os_getsockname fd (world s) = (0, Sockaddr AF_INET sport local) ->
  0 < sin_port (peer_addr (network_state c)) < 65536 ->
  tcphdr_ok h -> th_off h * 4 = 20 + zlen options -> Forall is_byte (options ++ data) ->
  20 + zlen (options ++ data) <= MAX_IP_PAYLOAD_LEN ->
  packet_addr <> 0 -> Z.land packet_addr 2 = 0 -> addr' <> 0 -> Z.land addr' 2 = 0 ->
  exists seg w' sum,
    stcp_network_send packet_addr sd (enc tcp_layout h) 20 [(options, zlen options); (data, zlen data)] s
    = Ok (zlen seg, set_world w' s) /\
    stream (peer_of fd) w' = stream (peer_of fd) (world s) ++ frame seg /\
    let h' := sent_header h (u16 sport) (sin_port (peer_addr (network_state c))) sum in
    tcphdr_ok h' /\ read_at tcp_layout seg 0 = Ok h' /\
    TCP_DATA_START seg = Ok (20 + zlen options) /\ TCP_OPTIONS_LEN seg = Ok (zlen options) /\
    drop 20 seg = options ++ data /\
    is_syn seg (zlen seg) = negb (bool_decide (Z.land (th_flags h) TH_SYN = 0)) /\
    _mysock_verify_checksum rhost rctx addr' seg (zlen seg) = Ok true.
Proof.
  intros Hd Hcn Had Had' Hname Hport Hok Hoff HF Hlen Hpa Hal Hpa' Hal'.
  assert (zlen (enc tcp_layout h) = 20) as Hz by (by rewrite (enc_length h) by exact Hok).
  pose proof (enc_bytes h Hok) as Hb. rewrite <- Hz.
  destruct (network_send_ok s sd a c fd packet_addr (enc tcp_layout h) [(options, zlen options); (data, zlen data)]
    sport rctx local peer addr' rhost) as (seg & w' & sum & Hsend & Hw & Hsum & Hseg & Hver); try done.
  { by repeat apply Forall_cons_2; [..|apply Forall_nil_2]. }
  { cbn [fmap list_fmap concat fst]. rewrite app_nil_r. by apply Forall_app_2. }
  { cbn [fmap list_fmap concat fst]. rewrite app_nil_r, length_app. lia. }
  exists seg, w', sum. split; [done|]. split; [done|]. intros h'.
  rewrite stamped_header in Hseg. fold h' in Hseg. cbn [fmap list_fmap concat fst] in Hseg. rewrite app_nil_r in Hseg.
  assert (tcphdr_ok h') as Hok'.
  { pose proof (u16_range sport). destruct Hok as (_ & _ & ? & ? & [? ?] & ? & ? & _). unfold h', tcphdr_ok, u16_ok in *.
    unfold sent_header. cbn [th_sport th_dport th_seq th_ack th_x2 th_off th_flags th_win th_sum th_urp].
    split_and!; (done || lia). }
  destruct (header_fields h' (options ++ data) Hok') as (_ & Hr & _ & Hsyn & Hds & Hol). rewrite <- Hseg in *.
  change (th_off h') with (th_off h) in *. rewrite Hoff in *.
  split_and!; [done..|rewrite Hol by lia; f_equal; lia| |done|done].
  rewrite Hseg. by rewrite drop_app_length' by (by rewrite enc_length).
Qed.
End sending.

(** A connection request with one option, and 4 bytes of data. *)
Definition syn_header : tcphdr := Tcphdr 7 7 1 0 0 6 TH_SYN 3072 7 7.

Lemma segment_header_sent_witness :
  let options := [2; 4; 2; 24] in
  exists seg w', stcp_network_send 4 0 (enc tcp_layout syn_header) 20 [(options, 4); (bytes_of "data", 4)]
      (sample_state 4 false (-1) ∅) = Ok (zlen seg, set_world w' (sample_state 4 false (-1) ∅)) /\
    TCP_OPTIONS_LEN seg = Ok 4 /\ drop 24 seg = bytes_of "data" /\ is_syn seg (zlen seg) = true.
Proof.
  intros options.
  destruct (segment_header_sent (sample_state 4 false (-1) ∅) 0 1 (sample_context false) 4 4 syn_header options
    (bytes_of "data") 0x901f (network_state (sample_context false)) 0x0100007f 0x0100007f 8 (one_address 0x0100007f))
    as (seg & w' & sum & Hsend & _ & _ & _ & _ & Hol & Hdrop & Hsyn & _).
  - apply sample_descriptor.
  - apply sample_connected. lia.
  - repeat split; cbn; lia.
  - repeat split; cbn; lia.
  - reflexivity.
  - split; vm_compute; reflexivity.
  - repeat split; cbn; unfold TH_SYN; lia.
  - reflexivity.
  - apply Forall_app_2; [|apply bytes_of_is_byte]. apply (bool_decide_unpack (Forall is_byte options)). vm_compute. exact I.
  - vm_compute. discriminate.
  - lia.
  - reflexivity.
  - lia.
  - reflexivity.
  - exists seg, w'. split; [exact Hsend|]. split; [exact Hol|].
    split; [change 24%nat with (20 + 4)%nat; rewrite <- drop_drop, Hdrop; reflexivity|exact Hsyn].
Defined.
