(* ===== verification/ArpCache.v ===== *)
(** * The router's ARP cache

    Models [Assignment2/src/router/sr_arpcache.c]: the table of 100 cached
    mappings and the queue of pending requests, each with the packets that
    wait for it.  A [struct sr_arpcache] comes with the two heaps its
    pointers point into; the two buffers a packet node owns ([buf], [iface]) are
    part of the node, so that they cannot be seen to leak apart from it.
    The cache's mutex makes every operation atomic.  Proved: what lookups
    return after insertions and timeouts, and that the operations on the
    request queue implement a list of requests without leaking memory. *)

From S2P Require Import Prelude Heap CString.

Definition SR_ARPCACHE_SZ : Z := 100.
Definition SR_ARPCACHE_TO : Z := 15.
Definition sr_IFACE_NAMELEN : Z := 32.

Record sr_packet : Type := SrPacket {
  buf : list Z;
  pkt_len : Z;   (* len *)
  iface : list Z;
  pkt_next : ptr   (* next *)
}.

Record sr_arpentry : Type := ArpEntry {
  mac : list Z;
  ent_ip : Z;   (* ip *)
  added : Z;
  valid : bool
}.

Record sr_arpreq : Type := ArpReq {
  req_ip : Z;   (* ip *)
  sent : Z;
  times_sent : Z;
  packets : ptr;   (* sr_packet * *)
  req_next : ptr   (* next *)
}.

Record sr_arpcache : Type := ArpCache {
  entries : list sr_arpentry;
  requests : ptr;   (* sr_arpreq * *)
  reqs : heap sr_arpreq;
  pkts : heap sr_packet
}.

Definition set_entries (e : list sr_arpentry) (c : sr_arpcache) : sr_arpcache :=
  ArpCache e (requests c) (reqs c) (pkts c).
Definition set_requests (p : ptr) (c : sr_arpcache) : sr_arpcache :=
  ArpCache (entries c) p (reqs c) (pkts c).
Definition set_reqs (h : heap sr_arpreq) (c : sr_arpcache) : sr_arpcache :=
  ArpCache (entries c) (requests c) h (pkts c).
Definition set_pkts (h : heap sr_packet) (c : sr_arpcache) : sr_arpcache :=
  ArpCache (entries c) (requests c) (reqs c) h.

Definition set_next (n : ptr) (r : sr_arpreq) : sr_arpreq :=
  ArpReq (req_ip r) (sent r) (times_sent r) (packets r) n.
Definition set_packets (p : ptr) (r : sr_arpreq) : sr_arpreq :=
  ArpReq (req_ip r) (sent r) (times_sent r) p (req_next r).
Definition set_sent (t n : Z) (r : sr_arpreq) : sr_arpreq :=
  ArpReq (req_ip r) t n (packets r) (req_next r).

(** ** The table of mappings *)

(** Every slot is examined: the last matching one wins. *)
Definition sr_arpcache_lookup (c : sr_arpcache) (ip : Z) : run (option sr_arpentry) :=
  for_from (Z.to_nat SR_ARPCACHE_SZ) 0 (fun i entry =>
    e ← arr_get (entries c) i;
    Ok (if valid e && bool_decide (ent_ip e = ip) then Some e else entry)) None.

(** [for (i = 0; i < SR_ARPCACHE_SZ; i++) if (!entries[i].valid) break;] *)
Fixpoint first_invalid (n : nat) (es : list sr_arpentry) (i : Z) : run Z :=
  match n with
  | O => Ok i
  | S n => e ← arr_get es i; if valid e then first_invalid n es (i + 1) else Ok i
  end.

(** ** The request queue *)

(** Walk the request list and take out the first request [here] holds for;
    [prev] is the request before [p]. *)
Fixpoint unlink_req (here : positive -> sr_arpreq -> bool) (fuel : nat) (prev p : ptr)
    (c : sr_arpcache) : run (ptr * sr_arpcache) :=
  match p with
  | None => Ok (NULL, c)
  | Some a =>
      match fuel with
      | O => Crash Fuel
      | S fuel =>
          req ← hload (reqs c) p;
          if here a req then
            match prev with
            | Some _ =>
                x ← hload (reqs c) prev;
                h ← hstore (reqs c) prev (set_next (req_next req) x);
                Ok (p, set_reqs h c)
            | None => Ok (p, set_requests (req_next req) c)
            end
          else unlink_req here fuel p (req_next req) c
      end
  end.

Definition walk_fuel {A} (h : heap A) : nat := base.size (cells h).

Definition sr_arpcache_insert (c : sr_arpcache) (mac_arg : list Z) (ip now : Z)
    : run (ptr * sr_arpcache) :=
  '(req, c) ← unlink_req (fun _ r => bool_decide (req_ip r = ip)) (walk_fuel (reqs c))
                NULL (requests c) c;
  i ← first_invalid (Z.to_nat SR_ARPCACHE_SZ) (entries c) 0;
  if decide (i <> SR_ARPCACHE_SZ) then
    if decide (length mac_arg < 6)%nat then Crash OutOfRange else
    es ← arr_set (entries c) i (ArpEntry (take 6 mac_arg) ip now true);
    Ok (req, set_entries es c)
  else Ok (req, c).

Fixpoint find_req (fuel : nat) (h : heap sr_arpreq) (ip : Z) (p : ptr) : run ptr :=
  match p with
  | None => Ok NULL
  | Some _ =>
      match fuel with
      | O => Crash Fuel
      | S fuel =>
          req ← hload h p;
          if decide (req_ip req = ip) then Ok p else find_req fuel h ip (req_next req)
      end
  end.

Definition new_request (c : sr_arpcache) (ip : Z) : ptr * sr_arpcache :=
  let '(a, h) := halloc (reqs c) (ArpReq ip 0 0 NULL (requests c)) in
  (Some a, set_requests (Some a) (set_reqs h c)).

Definition add_packet (c : sr_arpcache) (req : ptr) (packet : list Z) (packet_len : Z)
    (ifc : list Z) : run sr_arpcache :=
  if decide (0 <= packet_len <= zlen packet) then
    r ← hload (reqs c) req;
    let '(a, hp) := halloc (pkts c)
      (SrPacket (take (Z.to_nat packet_len) packet) packet_len (strncpy ifc sr_IFACE_NAMELEN) (packets r)) in
    h ← hstore (reqs c) req (set_packets (Some a) r);
    Ok (set_reqs h (set_pkts hp c))
  else Crash OutOfRange.

Definition sr_arpcache_queuereq (c : sr_arpcache) (ip : Z) (packet : option (list Z))
    (packet_len : Z) (ifc : option (list Z)) : run (ptr * sr_arpcache) :=
  req ← find_req (walk_fuel (reqs c)) (reqs c) ip (requests c);
  let '(req, c) := match req with None => new_request c ip | Some a => (Some a, c) end in
  match packet, ifc with
  | Some packet, Some ifc =>
      if decide (packet_len <> 0) then
        c ← add_packet c req packet packet_len ifc; Ok (req, c)
      else Ok (req, c)
  | _, _ => Ok (req, c)
  end.

Fixpoint free_packets (fuel : nat) (h : heap sr_packet) (p : ptr) : run (heap sr_packet) :=
  match p with
  | None => Ok h
  | Some _ =>
      match fuel with
      | O => Crash Fuel
      | S fuel => x ← hload h p; h ← hfree h p; free_packets fuel h (pkt_next x)
      end
  end.

Definition sr_arpreq_destroy (c : sr_arpcache) (ent : ptr) : run sr_arpcache :=
  match ent with
  | None => Ok c
  | Some a =>
      '(_, c) ← unlink_req (fun b _ => bool_decide (b = a)) (walk_fuel (reqs c)) NULL (requests c) c;
      x ← hload (reqs c) ent;
      hp ← free_packets (walk_fuel (pkts c)) (pkts c) (packets x);
      h ← hfree (reqs c) ent;
      Ok (set_reqs h (set_pkts hp c))
  end.

(** ** The timeout thread *)

(** Following [next] to the end of a packet list. *)
Fixpoint walk_packets (fuel : nat) (h : heap sr_packet) (p : ptr) : run unit :=
  match p with
  | None => Ok tt
  | Some _ =>
      match fuel with
      | O => Crash Fuel
      | S fuel => x ← hload h p; walk_packets fuel h (pkt_next x)
      end
  end.

Definition handle_arpreq (c : sr_arpcache) (request : ptr) (now : Z) : run sr_arpcache :=
  r ← hload (reqs c) request;
  if decide (now - sent r > 1) then
    if decide (times_sent r >= 5) then
      _ ← walk_packets (walk_fuel (pkts c)) (pkts c) (packets r); Ok c
    else
      h ← hstore (reqs c) request
            (if decide (sent r = 0) then set_sent now 1 r
             else set_sent now (u32 (times_sent r + 1)) r);
      Ok (set_reqs h c)
  else Ok c.

(** The next pointer is read after the request may have been destroyed. *)
Fixpoint sweep_from (fuel : nat) (c : sr_arpcache) (now : Z) (curr : ptr) : run sr_arpcache :=
  match curr with
  | None => Ok c
  | Some _ =>
      match fuel with
      | O => Crash Fuel
      | S fuel =>
          c ← handle_arpreq c curr now;
          r ← hload (reqs c) curr;
          c ← (if decide (times_sent r >= 5) then sr_arpreq_destroy c curr else Ok c);
          r ← hload (reqs c) curr;
          sweep_from fuel c now (req_next r)
      end
  end.
Definition sr_arpcache_sweepreqs (c : sr_arpcache) (now : Z) : run sr_arpcache :=
  sweep_from (walk_fuel (reqs c)) c now (requests c).

Definition expire (curtime : Z) (i : Z) (es : list sr_arpentry) : run (list sr_arpentry) :=
  e ← arr_get es i;
  if valid e && bool_decide (curtime - added e > SR_ARPCACHE_TO)
  then arr_set es i (ArpEntry (mac e) (ent_ip e) (added e) false)
  else Ok es.

(** One second of the thread [sr_arpcache_timeout]; the sweep reads the clock
    again, at [now]. *)
Definition sr_arpcache_timeout_turn (c : sr_arpcache) (curtime now : Z) : run sr_arpcache :=
  es ← for_from (Z.to_nat SR_ARPCACHE_SZ) 0 (expire curtime) (entries c);
  sr_arpcache_sweepreqs (set_entries es c) now.

(** [memset] to zero, no request. *)
Definition sr_arpcache_init (c : sr_arpcache) : sr_arpcache :=
  set_requests NULL (set_entries
    (replicate (Z.to_nat SR_ARPCACHE_SZ) (ArpEntry (replicate 6 0) 0 0 false)) c).

(** ** Mappings *)

Definition matches (ip : Z) (e : sr_arpentry) : bool := valid e && bool_decide (ent_ip e = ip).

(** The entry a lookup returns. *)
Definition cached (es : list sr_arpentry) (ip : Z) : option sr_arpentry :=
  last (filter (fun e => matches ip e = true) es).

Definition free_slot (es : list sr_arpentry) : option nat :=
  fst <$> list_find (fun e => valid e = false) es.

Lemma lookup_ok c ip : zlen (entries c) = SR_ARPCACHE_SZ ->
  sr_arpcache_lookup c ip = Ok (cached (entries c) ip).
Proof.
  intros Hlen. unfold sr_arpcache_lookup.
  destruct (for_from_inv (fun i entry => entry = cached (take (Z.to_nat i) (entries c)) ip)
    (fun i entry => e ← arr_get (entries c) i;
      Ok (if valid e && bool_decide (ent_ip e = ip) then Some e else entry))
    (Z.to_nat SR_ARPCACHE_SZ) 0 None) as (r & Hr & Hi).
  - intros i entry Hi ->.
    destruct (lookup_lt_is_Some_2 (entries c) (Z.to_nat i)) as [e He]; [lia|].
    rewrite (arr_get_ok _ _ e) by (done || lia). eexists. split; [reflexivity|].
    replace (Z.to_nat (i + 1)) with (S (Z.to_nat i)) by lia.
    rewrite (take_S_r _ _ _ He). unfold cached. rewrite filter_app, filter_cons, filter_nil.
    fold (matches ip e). case_decide as Hm; [rewrite Hm, last_snoc; done|].
    destruct (matches ip e); [done|]. by rewrite app_nil_r.
  - done.
  - rewrite Hr, Hi. rewrite take_ge; [done|]. unfold SR_ARPCACHE_SZ in *. lia.
Qed.

Lemma first_invalid_ok pre es n : n = length es ->
  first_invalid n (pre ++ es) (zlen pre)
  = Ok (zlen pre + match free_slot es with Some k => Z.of_nat k | None => zlen es end).
Proof.
  revert pre n. induction es as [|e es IH]; intros pre n ->; cbn [first_invalid length].
  { cbn. f_equal. lia. }
  rewrite (arr_get_ok _ _ e); [|lia|rewrite Nat2Z.id; by rewrite list_lookup_middle].
  cbn [mbind run_bind]. unfold free_slot. cbn [list_find].
  destruct (valid e) eqn:Hv.
  - rewrite decide_False by done.
    specialize (IH (pre ++ [e]) _ eq_refl). rewrite <- app_assoc, length_app in IH. cbn in IH.
    replace (zlen pre + 1) with (Z.of_nat (length pre + 1)) by lia. rewrite IH. f_equal.
    unfold free_slot. destruct (list_find _ es) as [[k x]|]; cbn; lia.
  - rewrite decide_True by done. cbn. f_equal. lia.
Qed.

(** ** The request queue as a list *)

(** A pending request: address, bookkeeping, and the waiting packets, newest
    first, each with the interface it leaves by. *)
Record areq : Type := AReq {
  ar_ip : Z; ar_sent : Z; ar_times : Z; ar_packets : list (list Z * list Z)
}.

(** A request node with the packet nodes it owns. *)
Abbreviation item := ((positive * sr_arpreq) * list (positive * sr_packet))%type.

Definition packet_view (y : positive * sr_packet) : list Z * list Z := (buf y.2, iface y.2).
Definition item_view (t : item) : positive * areq :=
  (t.1.1, AReq (req_ip t.1.2) (sent t.1.2) (times_sent t.1.2) (packet_view <$> t.2)).
Definition item_ok (t : item) : Prop :=
  linked pkt_next (packets t.1.2) t.2 NULL /\ Forall (fun y => pkt_len y.2 = zlen (buf y.2)) t.2.

(** The queue holds [rs], in order; the requests [ds] have left the queue but
    still own their memory; [rr] and [rp] are the other live objects. *)
Definition arp_rep (c : sr_arpcache) (rs ds : list (positive * areq))
    (rr : gmap positive sr_arpreq) (rp : gmap positive sr_packet) : Prop :=
  exists L D : list item,
    rs = item_view <$> L /\ ds = item_view <$> D /\
    linked req_next (requests c) L.*1 NULL /\
    owning (reqs c) (L.*1 ++ D.*1) rr /\ owning (pkts c) (concat (L.*2 ++ D.*2)) rp /\
    Forall item_ok (L ++ D).

Lemma unlink_walk here fuel prev p c l1 a x l2 :
  linked req_next p (l1 ++ (a, x) :: l2) NULL ->
  (forall b y, (b, y) ∈ l1 ++ (a, x) :: l2 -> hload (reqs c) (Some b) = Ok y) ->
  Forall (fun y => here y.1 y.2 = false) l1 -> here a x = true -> (length l1 < fuel)%nat ->
  unlink_req here fuel prev p c
  = match (match last l1 with Some y => Some y.1 | None => prev end) with
    | Some b =>
        y ← hload (reqs c) (Some b);
        h ← hstore (reqs c) (Some b) (set_next (req_next x) y);
        Ok (Some a, set_reqs h c)
    | None => Ok (Some a, set_requests (req_next x) c)
    end.
Proof.
  revert fuel prev p. induction l1 as [|[b y] l1 IH]; intros fuel prev p Hlk Hld Hno Hyes Hf.
  - cbn in Hlk. destruct Hlk as [-> _]. destruct fuel as [|fuel]; [lia|]. cbn [unlink_req].
    rewrite (Hld a x) by (by left). cbn [mbind run_bind]. rewrite Hyes. by destruct prev.
  - cbn in Hlk. destruct Hlk as [-> Hlk]. destruct fuel as [|fuel]; [cbn in Hf; lia|].
    apply Forall_cons in Hno as [Hb Hno]. cbn in Hb. cbn [unlink_req].
    rewrite (Hld b y) by (by left). cbn [mbind run_bind]. rewrite Hb.
    rewrite (IH fuel (Some b) (req_next y)); [|done| |done|done|cbn in Hf; lia].
    + destruct l1 as [|z l1]; [done|]. rewrite last_cons_cons.
      by destruct (last_is_Some (z :: l1)) as [_ [w ->]].
    + intros b' y' Hin. apply Hld. by right.
Qed.

Lemma unlink_none here fuel prev p c l :
  linked req_next p l NULL -> (forall b y, (b, y) ∈ l -> hload (reqs c) (Some b) = Ok y) ->
  Forall (fun y => here y.1 y.2 = false) l -> (length l <= fuel)%nat ->
  unlink_req here fuel prev p c = Ok (NULL, c).
Proof.
  revert fuel prev p. induction l as [|[b y] l IH]; intros fuel prev p Hlk Hld Hno Hf.
  - cbn in Hlk. subst p. by destruct fuel.
  - cbn in Hlk. destruct Hlk as [-> Hlk]. destruct fuel as [|fuel]; [cbn in Hf; lia|].
    apply Forall_cons in Hno as [Hb Hno]. cbn in Hb. cbn [unlink_req].
    rewrite (Hld b y) by (by left). cbn [mbind run_bind]. rewrite Hb.
    apply IH; [done| |done|cbn in Hf; lia]. intros b' y' Hin. apply Hld. by right.
Qed.

Lemma find_req_ok fuel h ip p l :
  linked req_next p l NULL -> (forall b y, (b, y) ∈ l -> hload h (Some b) = Ok y) ->
  (length l <= fuel)%nat ->
  find_req fuel h ip p = Ok ((fun z => z.2.1) <$> list_find (fun y => req_ip y.2 = ip) l).
Proof.
  revert fuel p. induction l as [|[b y] l IH]; intros fuel p Hlk Hld Hf.
  - cbn in Hlk. subst p. by destruct fuel.
  - cbn in Hlk. destruct Hlk as [-> Hlk]. destruct fuel as [|fuel]; [cbn in Hf; lia|].
    cbn [find_req list_find]. rewrite (Hld b y) by (by left). cbn [mbind run_bind snd].
    case_decide; [done|]. rewrite (IH fuel (req_next y)); [|done| |cbn in Hf; lia].
    + by destruct (list_find _ l) as [[k z]|].
    + intros b' y' Hin. apply Hld. by right.
Qed.

Lemma unlink_rep here fuel c rs1 a r rs2 ds rr rp :
  arp_rep c (rs1 ++ (a, r) :: rs2) ds rr rp ->
  (forall t, item_view t ∈ rs1 -> here t.1.1 t.1.2 = false) ->
  (forall t, item_view t = (a, r) -> here t.1.1 t.1.2 = true) -> (length rs1 < fuel)%nat ->
  exists c', unlink_req here fuel NULL (requests c) c = Ok (Some a, c') /\
    arp_rep c' (rs1 ++ rs2) ((a, r) :: ds) rr rp /\ entries c' = entries c.
Proof.
  intros (L & D & HL & -> & Hlk & Hor & Hop & Hok) Hno Hyes Hf.
  symmetry in HL. apply fmap_app_inv in HL as (L1 & L2' & -> & HL2 & ->).
  symmetry in HL2. apply fmap_cons_inv in HL2 as ([[b x] ps] & L2 & HI & -> & ->).
  specialize (Hyes _ (eq_sym HI)). cbn in Hyes.
  assert (b = a) as -> by (by unfold item_view in HI; cbn in HI; injection HI).
  rewrite length_fmap in Hf. rewrite fmap_app, fmap_cons in Hlk, Hor. cbn [fst] in Hlk, Hor.
  rewrite (unlink_walk here fuel NULL (requests c) c L1.*1 a x L2.*1); first last.
  { by rewrite length_fmap. }
  { done. }
  { apply Forall_fmap, Forall_forall. intros t Ht. apply Hno. by apply list_elem_of_fmap_2. }
  { intros b' y Hin. apply (owning_load _ _ _ _ _ Hor). apply elem_of_app. by left. }
  { done. }
  rewrite HI.
  destruct L1 as [|[[b y] qs] L1 _] using rev_ind.
  - cbn in Hlk. destruct Hlk as [Hreq Hlk]. eexists. split; [reflexivity|]. split; [|done].
    exists L2, (((a, x), ps) :: D). split_and!; [done|done|done| | |].
    + eapply owning_perm; [|exact Hor]. cbn. by rewrite Permutation_middle.
    + eapply owning_perm; [|exact Hop]. cbn. rewrite !concat_app. cbn.
      rewrite Permutation_app_swap_app. done.
    + eapply Forall_Permutation; [reflexivity| |exact Hok]. symmetry; apply Permutation_middle.
  - rewrite fmap_app, last_app. cbn [last fmap list_fmap fst].
    rewrite fmap_app, <- !app_assoc in Hor. cbn [fmap list_fmap app fst] in Hor.
    rewrite (owning_load _ _ _ b y Hor) by (apply elem_of_app; right; by left).
    cbn [mbind run_bind].
    destruct (owning_store _ _ _ _ _ (set_next (req_next x) y) _ Hor) as (h & Hst & Hor').
    rewrite Hst. cbn [mbind run_bind]. eexists. split; [reflexivity|]. split; [|done].
    exists (L1 ++ ((b, set_next (req_next x) y), qs) :: L2), (((a, x), ps) :: D).
    split_and!; [| | | | |].
    + rewrite !fmap_app, <- !app_assoc. done.
    + done.
    + rewrite fmap_app in Hlk. rewrite <- app_assoc in Hlk.
      apply linked_app in Hlk as (p & Hlk1 & Hlk2). cbn in Hlk2. destruct Hlk2 as (-> & _ & Hlk2).
      rewrite fmap_app. apply linked_app. by exists (Some b).
    + eapply owning_perm; [|exact Hor']. rewrite fmap_app. cbn. rewrite <- app_assoc. cbn.
      apply Permutation_app_head, Permutation_skip. by rewrite Permutation_middle.
    + eapply owning_perm; [|exact Hop]. rewrite !fmap_app. cbn. rewrite !concat_app. cbn.
      rewrite app_nil_r. solve_Permutation.
    + rewrite !Forall_app in Hok |- *. rewrite !Forall_cons in Hok |- *.
      rewrite Forall_app in Hok. rewrite Forall_singleton in Hok. intuition.
Qed.

(** The packet a call passes, if it passes one. *)
Definition passed (packet : option (list Z)) (packet_len : Z) (ifc : option (list Z))
    : list (list Z * list Z) :=
  match packet, ifc with
  | Some p, Some f => if decide (packet_len <> 0)
                      then [(take (Z.to_nat packet_len) p, strncpy f sr_IFACE_NAMELEN)] else []
  | _, _ => []
  end.
Definition push (new : list (list Z * list Z)) (r : areq) : areq :=
  AReq (ar_ip r) (ar_sent r) (ar_times r) (new ++ ar_packets r).

Lemma add_packet_rep c rs ds rr rp i b r packet n ifc :
  arp_rep c rs ds rr rp -> rs !! i = Some (b, r) -> 0 <= n <= zlen packet ->
  exists c', add_packet c (Some b) packet n ifc = Ok c' /\ entries c' = entries c /\
    arp_rep c' (<[i := (b, push [(take (Z.to_nat n) packet, strncpy ifc sr_IFACE_NAMELEN)] r)]> rs) ds rr rp.
Proof.
  intros (L & D & -> & -> & Hlk & Hor & Hop & Hok) Hi Hn.
  apply list_lookup_fmap_Some in Hi as ([[b' x] ps] & Hv & Hi).
  unfold item_view in Hv. cbn in Hv. injection Hv as -> ->.
  assert (L.*1 !! i = Some (b', x)) as Hi1 by (by rewrite list_lookup_fmap, Hi).
  unfold add_packet. rewrite decide_True by done.
  rewrite (owning_load _ _ _ b' x Hor)
    by (apply elem_of_app; left; by eapply list_elem_of_lookup_2).
  cbn [mbind run_bind]. unfold halloc.
  set (pk := SrPacket _ _ _ _). set (new := brk (pkts c)).
  destruct (owning_insert _ _ i b' x (set_packets (Some new) x) rr Hor) as (h & Hst & Hor').
  { by apply lookup_app_l_Some. }
  rewrite Hst. cbn [mbind run_bind]. eexists. split; [reflexivity|]. split; [done|].
  pose proof (lookup_lt_Some _ _ _ Hi) as Hlt.
  exists (<[i := ((b', set_packets (Some new) x), (new, pk) :: ps)]> L), D.
  split_and!; [| | | | |].
  - rewrite list_fmap_insert. done.
  - done.
  - rewrite list_fmap_insert. by apply (linked_insert _ _ _ _ _ x).
  - rewrite list_fmap_insert. rewrite insert_app_l in Hor' by (by rewrite length_fmap). done.
  - eapply owning_perm; [|apply (owning_alloc _ _ _ pk Hop)]. fold new.
    rewrite insert_take_drop by done. rewrite <- (take_drop_middle _ _ _ Hi) at 1.
    rewrite !fmap_app. cbn. rewrite !concat_app. cbn. solve_Permutation.
  - rewrite Forall_app in Hok |- *. destruct Hok as [HokL HokD]. split; [|done].
    pose proof (Forall_lookup_1 _ _ _ _ HokL Hi) as [Hpl Hpn]. apply Forall_insert; [done|].
    split; [done|]. apply Forall_cons. split; [|done]. cbn. rewrite length_take. lia.
Qed.

Lemma new_request_rep c rs ds rr rp ip :
  arp_rep c rs ds rr rp ->
  (new_request c ip).1 = Some (brk (reqs c)) /\ entries (new_request c ip).2 = entries c /\
  arp_rep (new_request c ip).2 ((brk (reqs c), AReq ip 0 0 []) :: rs) ds rr rp.
Proof.
  intros (L & D & -> & -> & Hlk & Hor & Hop & Hok). split; [done|]. split; [done|].
  exists (((brk (reqs c), ArpReq ip 0 0 NULL (requests c)), []) :: L), D. split_and!; try done.
  - eapply owning_perm; [|apply (owning_alloc _ _ _ (ArpReq ip 0 0 NULL (requests c)) Hor)].
    cbn. solve_Permutation.
  - cbn. apply Forall_cons. split; [|done]. split; [done|by apply Forall_nil].
Qed.

Lemma arp_rep_find c rs ds rr rp ip : arp_rep c rs ds rr rp ->
  find_req (walk_fuel (reqs c)) (reqs c) ip (requests c)
  = Ok ((fun z => z.2.1) <$> list_find (fun x : positive * areq => ar_ip x.2 = ip) rs).
Proof.
  intros (L & D & -> & -> & Hlk & Hor & Hop & Hok).
  rewrite (find_req_ok _ _ ip _ L.*1); [|done| |].
  - f_equal. clear. induction L as [|[[b x] q] L IH]; [done|]. cbn [fmap list_fmap list_find item_view fst snd ar_ip].
    case_decide; [done|].
    destruct (list_find _ L.*1) as [[k z]|], (list_find _ (item_view <$> L)) as [[k' z']|]; done.
  - intros b y Hin. apply (owning_load _ _ _ _ _ Hor). apply elem_of_app. by left.
  - pose proof (owning_size _ _ _ Hor) as Hs. rewrite length_app in Hs. unfold walk_fuel. lia.
Qed.

Lemma free_packets_ok fuel h p l k rest :
  linked pkt_next p l NULL -> owning h (l ++ k) rest -> (length l <= fuel)%nat ->
  exists h', free_packets fuel h p = Ok h' /\ owning h' k rest.
Proof.
  revert fuel h p. induction l as [|[a x] l IH]; intros fuel h p Hlk Ho Hf.
  - cbn in Hlk. subst p. exists h. by destruct fuel.
  - cbn in Hlk. destruct Hlk as [-> Hlk]. destruct fuel as [|fuel]; [cbn in Hf; lia|].
    cbn [free_packets]. rewrite (owning_load _ _ _ a x Ho) by (by left). cbn [mbind run_bind].
    destruct (owning_free h [] (l ++ k) a x rest Ho) as (h' & -> & Ho'). cbn [mbind run_bind].
    apply IH; [done|done|cbn in Hf; lia].
Qed.

(** The nodes of one request leave the heap. *)
Lemma free_request c rs ds1 a r ds2 rr rp :
  arp_rep c rs (ds1 ++ (a, r) :: ds2) rr rp ->
  exists x hp h, hload (reqs c) (Some a) = Ok x /\
    free_packets (walk_fuel (pkts c)) (pkts c) (packets x) = Ok hp /\
    hfree (reqs c) (Some a) = Ok h /\ cells h !! a = None /\
    arp_rep (set_reqs h (set_pkts hp c)) rs (ds1 ++ ds2) rr rp.
Proof.
  intros (L & D & -> & HD & Hlk & Hor & Hop & Hok).
  symmetry in HD. apply fmap_app_inv in HD as (D1 & D2' & -> & HD2 & ->).
  symmetry in HD2. apply fmap_cons_inv in HD2 as ([[b x] ps] & D2 & HI & -> & ->).
  unfold item_view in HI. cbn in HI. injection HI as -> ->.
  rewrite fmap_app, fmap_cons, app_assoc in Hor. cbn [fst] in Hor.
  apply Forall_app in Hok as [HokL HokD]. apply Forall_app in HokD as [HokD1 HokD2].
  apply Forall_cons in HokD2 as [[Hpl Hpn] HokD2]. cbn in Hpl, Hpn.
  assert (owning (pkts c) (ps ++ concat (L.*2 ++ (D1 ++ D2).*2)) rp) as Hop'.
  { eapply owning_perm; [|exact Hop]. rewrite !fmap_app. cbn. rewrite !concat_app. cbn.
    solve_Permutation. }
  exists x. pose proof (owning_size _ _ _ Hop') as Hs. rewrite length_app in Hs.
  destruct (free_packets_ok (walk_fuel (pkts c)) _ _ _ _ _ Hpl Hop') as (hp & Hfp & Ho2).
  { unfold walk_fuel. lia. }
  destruct (owning_free _ _ _ _ _ _ Hor) as (h & Hfr & Ho3).
  exists hp, h. split_and!; [|done|done| |].
  - apply (owning_load _ _ _ _ _ Hor). rewrite elem_of_app. right. by left.
  - cbn in Hfr. destruct (cells (reqs c) !! b); [|done]. injection Hfr as <-. apply lookup_delete_eq.
  - exists L, (D1 ++ D2). split_and!; [done|by rewrite fmap_app|done| |done|].
    + by rewrite fmap_app, app_assoc.
    + rewrite !Forall_app. done.
Qed.

Lemma arp_rep_nodup c rs ds rr rp : arp_rep c rs ds rr rp -> NoDup (rs ++ ds).*1.
Proof.
  intros (L & D & -> & -> & Hlk & (_ & Hnd & _) & _).
  replace ((item_view <$> L) ++ (item_view <$> D)).*1 with (L.*1 ++ D.*1).*1; [done|].
  rewrite !fmap_app, <- !list_fmap_compose. done.
Qed.

Lemma arp_rep_size c rs ds rr rp : arp_rep c rs ds rr rp ->
  (length rs + length ds <= walk_fuel (reqs c))%nat.
Proof.
  intros (L & D & -> & -> & _ & Hor & _). pose proof (owning_size _ _ _ Hor) as Hs.
  rewrite length_app, !length_fmap in Hs. rewrite !length_fmap. unfold walk_fuel. lia.
Qed.

Lemma arp_rep_absent here c rs ds rr rp : arp_rep c rs ds rr rp ->
  (forall t, item_view t ∈ rs -> here t.1.1 t.1.2 = false) ->
  unlink_req here (walk_fuel (reqs c)) NULL (requests c) c = Ok (NULL, c).
Proof.
  intros Hrep Hno. pose proof (arp_rep_size _ _ _ _ _ Hrep) as Hs.
  destruct Hrep as (L & D & -> & -> & Hlk & Hor & Hop & Hok). rewrite !length_fmap in Hs.
  apply (unlink_none _ _ _ _ _ L.*1); [done| | |rewrite length_fmap; lia].
  - intros b y Hin. apply (owning_load _ _ _ _ _ Hor). apply elem_of_app. by left.
  - apply Forall_fmap, Forall_forall. intros t Ht. apply Hno. by apply list_elem_of_fmap_2.
Qed.

(** A request that already left the queue. *)
Lemma destroy_detached c rs ds1 a r ds2 rr rp :
  arp_rep c rs (ds1 ++ (a, r) :: ds2) rr rp ->
  exists c', sr_arpreq_destroy c (Some a) = Ok c' /\ arp_rep c' rs (ds1 ++ ds2) rr rp /\
    entries c' = entries c.
Proof.
  intros Hrep. unfold sr_arpreq_destroy.
  pose proof (arp_rep_nodup _ _ _ _ _ Hrep) as Hnd.
  rewrite (arp_rep_absent _ _ _ _ _ _ Hrep).
  - cbn [mbind run_bind].
    destruct (free_request _ _ _ _ _ _ _ _ Hrep) as (x & hp & h & -> & Hfp & Hfr & Hgone & Hrep').
    cbn [mbind run_bind]. rewrite Hfp. cbn [mbind run_bind]. rewrite Hfr. cbn [mbind run_bind].
    eauto.
  - intros t Ht. apply bool_decide_false. intros Heq.
    rewrite fmap_app in Hnd. apply NoDup_app in Hnd as (_ & Hdis & _).
    apply (Hdis a).
    + apply list_elem_of_fmap. exists (item_view t). by rewrite <- Heq.
    + rewrite fmap_app. apply elem_of_app. right. by left.
Qed.

(** A request still in the queue. *)
Lemma destroy_queued c rs1 a r rs2 ds rr rp :
  arp_rep c (rs1 ++ (a, r) :: rs2) ds rr rp ->
  exists c', sr_arpreq_destroy c (Some a) = Ok c' /\ arp_rep c' (rs1 ++ rs2) ds rr rp /\
    entries c' = entries c /\ cells (reqs c') !! a = None.
Proof.
  intros Hrep. unfold sr_arpreq_destroy.
  pose proof (arp_rep_nodup _ _ _ _ _ Hrep) as Hnd. pose proof (arp_rep_size _ _ _ _ _ Hrep) as Hs.
  rewrite length_app in Hs. cbn [length] in Hs.
  rewrite <- app_assoc, fmap_app in Hnd. apply NoDup_app in Hnd as (_ & Hdis & _).
  destruct (unlink_rep (fun b _ => bool_decide (b = a)) (walk_fuel (reqs c)) c rs1 a r rs2 ds rr rp)
    as (c1 & -> & Hrep1 & He1).
  - done.
  - intros t Ht. apply bool_decide_false. intros Heq. apply (Hdis a).
    + apply list_elem_of_fmap. exists (item_view t). by rewrite <- Heq.
    + by left.
  - intros t Ht. apply bool_decide_true. by apply (f_equal fst) in Ht.
  - lia.
  - cbn [mbind run_bind].
    destruct (free_request c1 (rs1 ++ rs2) [] a r ds rr rp Hrep1)
      as (x & hp & h & -> & Hfp & Hfr & Hgone & Hrep').
    cbn [mbind run_bind]. rewrite Hfp. cbn [mbind run_bind]. rewrite Hfr. cbn [mbind run_bind].
    eexists. split; [reflexivity|]. by split_and!.
Qed.

(** ** Theorems *)

Definition new_entry (m : list Z) (ip now : Z) : sr_arpentry := ArpEntry (take 6 m) ip now true.

Lemma insert_entries_ok c c1 q m ip now :
  unlink_req (fun _ r => bool_decide (req_ip r = ip)) (walk_fuel (reqs c)) NULL (requests c) c
    = Ok (q, c1) ->
  entries c1 = entries c -> zlen (entries c) = SR_ARPCACHE_SZ -> (6 <= length m)%nat ->
  sr_arpcache_insert c m ip now
  = Ok (q, set_entries (match free_slot (entries c) with
                        | Some k => <[k := new_entry m ip now]> (entries c)
                        | None => entries c end) c1).
Proof.
  intros Hun He Hlen Hm. unfold sr_arpcache_insert. rewrite Hun. cbn [mbind run_bind].
  rewrite He. pose proof (first_invalid_ok [] (entries c) (Z.to_nat SR_ARPCACHE_SZ)) as Hfi.
  cbn [app length] in Hfi. change (Z.of_nat 0) with 0 in Hfi. rewrite Hfi by lia.
  cbn [mbind run_bind]. rewrite Z.add_0_l.
  destruct (free_slot (entries c)) as [k|] eqn:Hfs.
  - unfold free_slot in Hfs. destruct (list_find _ (entries c)) as [[k' e]|] eqn:Hlf; [|done].
    cbn in Hfs. injection Hfs as ->. apply list_find_Some in Hlf as (Hk & _).
    apply lookup_lt_Some in Hk. rewrite decide_True by lia. rewrite decide_False by lia.
    rewrite arr_set_ok by lia. cbn [mbind run_bind]. by rewrite Nat2Z.id.
  - rewrite decide_False by (rewrite Hlen; lia). rewrite <- He. by destruct c1.
Qed.

(** [sr_arpcache_insert]'s search. *)
Lemma unlink_by_ip c rs ds rr rp ip : arp_rep c rs ds rr rp ->
  exists q c1, unlink_req (fun _ r => bool_decide (req_ip r = ip)) (walk_fuel (reqs c)) NULL
      (requests c) c = Ok (q, c1) /\ entries c1 = entries c /\
    match list_find (fun x : positive * areq => ar_ip x.2 = ip) rs with
    | Some (i, (b, r)) => q = Some b /\ arp_rep c1 (delete i rs) ((b, r) :: ds) rr rp
    | None => q = NULL /\ arp_rep c1 rs ds rr rp
    end.
Proof.
  intros Hrep.
  destruct (list_find _ rs) as [[i [b r]]|] eqn:Hfind.
  - pose proof (arp_rep_size _ _ _ _ _ Hrep) as Hs.
    apply list_find_Some in Hfind as (Hi & Hip & Hno).
    pose proof (lookup_lt_Some _ _ _ Hi) as Hlt.
    pose proof (take_drop_middle _ _ _ Hi) as Hsplit. rewrite <- Hsplit in Hrep.
    destruct (unlink_rep (fun _ r => bool_decide (req_ip r = ip)) (walk_fuel (reqs c)) c
      _ b r _ ds rr rp Hrep) as (c1 & Hun & Hr1 & He1).
    + intros t Ht. apply bool_decide_false. intros Heq.
      apply list_elem_of_lookup in Ht as [j Hj]. apply lookup_take_Some in Hj as [Hj Hji].
      apply (Hno j _ Hj Hji). exact Heq.
    + intros t Ht. apply bool_decide_true. apply (f_equal (fun x => ar_ip x.2)) in Ht. cbn in Ht.
      by rewrite Ht.
    + rewrite length_take. lia.
    + eexists _, _. split; [exact Hun|]. split; [done|]. split; [done|]. by rewrite delete_take_drop.
  - apply list_find_None in Hfind. exists NULL, c. split; [|done].
    apply (arp_rep_absent _ _ rs ds rr rp Hrep). intros t Ht. apply bool_decide_false.
    rewrite Forall_forall in Hfind. apply (Hfind _ Ht).
Qed.

(** C12: the request queue of the ARP cache implements a list of pending
    requests with pointers.  [sr_arpcache_queuereq] returns the request for
    the address, creating it at the front if there is none, and adds the
    packet to it; [sr_arpcache_insert] takes the first request for the
    address out of the queue and hands it over with its packets;
    [sr_arpreq_destroy] frees a request, queued or handed over, with all its
    packets and nothing else.  No operation fails, and nothing is leaked:
    the live objects are always those of the list plus the frame. *)
Theorem arp_requests_refine c rs ds rr rp :
  arp_rep c rs ds rr rp -> zlen (entries c) = SR_ARPCACHE_SZ ->
  (forall ip packet n ifc, (forall p, packet = Some p -> 0 <= n <= zlen p) ->
     exists c' a, sr_arpcache_queuereq c ip packet n ifc = Ok (Some a, c') /\ entries c' = entries c /\
       match list_find (fun x : positive * areq => ar_ip x.2 = ip) rs with
       | Some (i, (b, r)) => a = b /\ arp_rep c' (<[i := (b, push (passed packet n ifc) r)]> rs) ds rr rp
       | None => arp_rep c' ((a, AReq ip 0 0 (passed packet n ifc)) :: rs) ds rr rp
       end) /\
  (forall m ip now, (6 <= length m)%nat ->
     exists q c', sr_arpcache_insert c m ip now = Ok (q, c') /\
       match list_find (fun x : positive * areq => ar_ip x.2 = ip) rs with
       | Some (i, (b, r)) => q = Some b /\ arp_rep c' (delete i rs) ((b, r) :: ds) rr rp
       | None => q = NULL /\ arp_rep c' rs ds rr rp
       end) /\
  (forall a r l1 l2, ds = l1 ++ (a, r) :: l2 ->
     exists c', sr_arpreq_destroy c (Some a) = Ok c' /\ arp_rep c' rs (l1 ++ l2) rr rp) /\
  (forall a r l1 l2, rs = l1 ++ (a, r) :: l2 ->
     exists c', sr_arpreq_destroy c (Some a) = Ok c' /\ arp_rep c' (l1 ++ l2) ds rr rp).
Proof.
  intros Hrep Hlen. split_and!.
  - intros ip packet n ifc Hn. unfold sr_arpcache_queuereq.
    rewrite (arp_rep_find _ _ _ _ _ ip Hrep). cbn [mbind run_bind].
    destruct (list_find _ rs) as [[i [b r]]|] eqn:Hfind; cbn [fmap option_fmap option_map fst snd].
    + apply list_find_Some in Hfind as (Hi & _).
      assert (<[i := (b, push [] r)]> rs = rs) as Hid by (apply list_insert_id; by destruct r).
      destruct packet as [p|], ifc as [f|]; cbn [passed];
        try (exists c, b; rewrite Hid; done).
      case_decide; [|exists c, b; rewrite Hid; done].
      destruct (add_packet_rep c rs ds rr rp i b r p n f Hrep Hi (Hn p eq_refl))
        as (c' & -> & He & Hr'). cbn [mbind run_bind]. exists c', b. done.
    + destruct (new_request_rep c rs ds rr rp ip Hrep) as (Hp & He & Hr').
      destruct (new_request c ip) as [q c1]. cbn in Hp, He, Hr'. subst q.
      destruct packet as [p|], ifc as [f|]; cbn [passed];
        try (eexists c1, _; split; [reflexivity|done]).
      case_decide; [|eexists c1, _; split; [reflexivity|done]].
      destruct (add_packet_rep c1 _ ds rr rp 0 _ _ p n f Hr' eq_refl (Hn p eq_refl))
        as (c' & -> & He' & Hr2). cbn [mbind run_bind]. eexists c', _. split; [reflexivity|].
      split; [congruence|exact Hr2].
  - intros m ip now Hm. destruct (unlink_by_ip _ _ _ _ _ ip Hrep) as (q & c1 & Hun & He & Hq).
    rewrite (insert_entries_ok c c1 q m ip now) by done. eexists q, _. split; [reflexivity|].
    by destruct (list_find _ rs) as [[i [b r]]|].
  - intros a r l1 l2 ->. destruct (destroy_detached _ _ _ _ _ _ _ _ Hrep) as (c' & H1 & H2 & _). eauto.
  - intros a r l1 l2 ->. destruct (destroy_queued _ _ _ _ _ _ _ _ Hrep) as (c' & H1 & H2 & _). eauto.
Qed.

Lemma cached_app es1 es2 ip :
  cached (es1 ++ es2) ip = match cached es2 ip with Some e => Some e | None => cached es1 ip end.
Proof. unfold cached. rewrite filter_app, last_app. done. Qed.

Lemma cached_cons_no e es ip : matches ip e = false -> cached (e :: es) ip = cached es ip.
Proof. intros He. unfold cached. by rewrite filter_cons, decide_False by (by rewrite He). Qed.

(** Filling an empty slot: earlier entries are shadowed, later ones shadow. *)
Lemma cached_insert es k e0 e ip :
  es !! k = Some e0 -> valid e0 = false ->
  cached (<[k := e]> es) ip
  = if matches ip e
    then match cached (drop (S k) es) ip with Some e' => Some e' | None => Some e end
    else cached es ip.
Proof.
  intros Hk Hv. pose proof (lookup_lt_Some _ _ _ Hk).
  rewrite insert_take_drop by done. rewrite <- (take_drop_middle _ _ _ Hk) at 4.
  rewrite !cached_app, (cached_cons_no e0) by (unfold matches; by rewrite Hv).
  destruct (matches ip e) eqn:Hm; [|by rewrite cached_cons_no].
  unfold cached at 1. rewrite filter_cons, decide_True by done. fold (cached (drop (S k) es) ip).
  rewrite <- (app_nil_l (e :: _)). unfold cached.
  destruct (filter _ (drop (S k) es)) as [|y ys]; [done|].
  cbn [app]. rewrite last_cons_cons. by destruct (last_is_Some (y :: ys)) as [_ [w ->]].
Qed.

(** What [sr_arpcache_lookup] returns after [sr_arpcache_insert] of a
    mapping for [ip].  Other addresses are unaffected.  With a free slot, the
    lookup of [ip] returns the new mapping, unless a valid entry for [ip]
    lies beyond that slot: then the old one is still returned.  With all 100
    slots in use nothing is inserted, and lookups are unchanged. *)
Theorem arp_lookup_insert c rs ds rr rp m ip now q c' :
  arp_rep c rs ds rr rp -> zlen (entries c) = SR_ARPCACHE_SZ -> (6 <= length m)%nat ->
  sr_arpcache_insert c m ip now = Ok (q, c') ->
  (forall ip', ip' <> ip -> sr_arpcache_lookup c' ip' = sr_arpcache_lookup c ip') /\
  match free_slot (entries c) with
  | Some k =>
      sr_arpcache_lookup c' ip
      = Ok (match cached (drop (S k) (entries c)) ip with
            | Some old => Some old
            | None => Some (ArpEntry (take 6 m) ip now true) end)
  | None => sr_arpcache_lookup c' ip = sr_arpcache_lookup c ip
  end.
Proof.
  intros Hrep Hlen Hm Hins.
  destruct (unlink_by_ip _ _ _ _ _ ip Hrep) as (q1 & c1 & Hun & He & _).
  rewrite (insert_entries_ok c c1 q1 m ip now) in Hins by done. injection Hins as <- <-.
  destruct (free_slot (entries c)) as [k|] eqn:Hfs.
  - unfold free_slot in Hfs. destruct (list_find _ (entries c)) as [[k' e0]|] eqn:Hlf; [|done].
    cbn in Hfs. injection Hfs as ->. apply list_find_Some in Hlf as (Hk & Hv & _).
    split; intros; rewrite !lookup_ok by (cbn; rewrite ?length_insert; done); cbn [entries set_entries];
      rewrite (cached_insert _ _ _ _ _ Hk Hv); unfold matches, new_entry; cbn [valid ent_ip andb].
    + by rewrite bool_decide_false.
    + by rewrite bool_decide_true.
  - split; intros; rewrite !lookup_ok by done; done.
Qed.

(** ** The timeout thread *)

Definition expired (curtime : Z) (e : sr_arpentry) : sr_arpentry :=
  ArpEntry (mac e) (ent_ip e) (added e)
    (valid e && negb (bool_decide (curtime - added e > SR_ARPCACHE_TO))).

(** What [handle_arpreq] does to a request. *)
Definition handled (now : Z) (r : areq) : areq :=
  if decide (now - ar_sent r > 1 /\ ar_times r < 5)
  then AReq (ar_ip r) now (if decide (ar_sent r = 0) then 1 else u32 (ar_times r + 1)) (ar_packets r)
  else r.

Lemma walk_packets_ok fuel h p l :
  linked pkt_next p l NULL -> (forall b y, (b, y) ∈ l -> hload h (Some b) = Ok y) ->
  (length l <= fuel)%nat -> walk_packets fuel h p = Ok tt.
Proof.
  revert fuel p. induction l as [|[b y] l IH]; intros fuel p Hlk Hld Hf.
  - cbn in Hlk. subst p. by destruct fuel.
  - cbn in Hlk. destruct Hlk as [-> Hlk]. destruct fuel as [|fuel]; [cbn in Hf; lia|].
    cbn [walk_packets]. rewrite (Hld b y) by (by left). cbn [mbind run_bind].
    apply IH; [done| |cbn in Hf; lia]. intros b' y' Hin. apply Hld. by right.
Qed.

(** Reading a queued request. *)
Lemma arp_rep_load c rs1 a r rs2 ds rr rp : arp_rep c (rs1 ++ (a, r) :: rs2) ds rr rp ->
  exists x, hload (reqs c) (Some a) = Ok x /\ times_sent x = ar_times r /\ sent x = ar_sent r /\
    req_next x = fst <$> hd_error rs2.
Proof.
  intros (L & D & HL & -> & Hlk & Hor & Hop & Hok).
  symmetry in HL. apply fmap_app_inv in HL as (L1 & L2' & -> & HL2 & ->).
  symmetry in HL2. apply fmap_cons_inv in HL2 as ([[b x] ps] & L2 & HI & -> & ->).
  unfold item_view in HI. cbn in HI. injection HI as -> ->.
  rewrite fmap_app, fmap_cons in Hlk, Hor. cbn [fst] in Hlk, Hor.
  exists x. split_and!; [|done|done|].
  - apply (owning_load _ _ _ _ _ Hor). rewrite !elem_of_app. left. right. by left.
  - apply linked_app in Hlk as (p & _ & Hlk). cbn in Hlk. destruct Hlk as [_ Hlk].
    destruct L2 as [|[[b' x'] ps'] L2]; cbn in Hlk |- *; [done|]. by destruct Hlk as [-> _].
Qed.

Lemma handle_rep c rs1 a r rs2 ds rr rp now : arp_rep c (rs1 ++ (a, r) :: rs2) ds rr rp ->
  exists c', handle_arpreq c (Some a) now = Ok c' /\
    arp_rep c' (rs1 ++ (a, handled now r) :: rs2) ds rr rp /\ entries c' = entries c.
Proof.
  intros Hrep. pose proof Hrep as (L & D & HL & -> & Hlk & Hor & Hop & Hok).
  symmetry in HL. apply fmap_app_inv in HL as (L1 & L2' & -> & HL2 & ->).
  symmetry in HL2. apply fmap_cons_inv in HL2 as ([[b x] ps] & L2 & HI & -> & ->).
  unfold item_view in HI. cbn in HI. injection HI as -> ->.
  assert ((L1 ++ ((b, x), ps) :: L2) !! length L1 = Some ((b, x), ps)) as Hi
    by (by apply list_lookup_middle).
  assert ((L1 ++ ((b, x), ps) :: L2).*1 !! length L1 = Some (b, x)) as Hi1
    by (by rewrite list_lookup_fmap, Hi).
  unfold handle_arpreq, handled. cbn [ar_sent ar_times ar_ip ar_packets].
  rewrite (owning_load _ _ _ b x Hor)
    by (apply elem_of_app; left; by eapply list_elem_of_lookup_2).
  cbn [mbind run_bind]. destruct (decide (now - sent x > 1)) as [Hlate|Hearly].
  2:{ rewrite decide_False by lia. eauto. }
  destruct (decide (times_sent x >= 5)) as [Hmax|Hfew].
  - rewrite decide_False by lia.
    assert (item_ok ((b, x), ps)) as [Hpl _]
      by (apply (Forall_lookup_1 _ _ (length L1) _ Hok); by apply lookup_app_l_Some).
    assert (forall b' y, (b', y) ∈ ps -> (b', y) ∈ concat ((L1 ++ ((b, x), ps) :: L2).*2 ++ D.*2)) as Hin.
    { intros b' y Hy. apply (elem_of_concat _ ps); [|done]. apply elem_of_app. left.
      rewrite fmap_app. apply elem_of_app. right. by left. }
    rewrite (walk_packets_ok _ _ _ ps); [cbn [mbind run_bind]; eauto|done| |].
    + intros b' y Hy. apply (owning_load _ _ _ _ _ Hop). by apply Hin.
    + pose proof (owning_size _ _ _ Hop) as Hs.
      assert (ps ∈ (L1 ++ ((b, x), ps) :: L2).*2 ++ D.*2) as Hps
        by (rewrite fmap_app, !elem_of_app; left; right; by left).
      pose proof (concat_length_le _ _ Hps). unfold walk_fuel. lia.
  - rewrite (decide_True (P := now - sent x > 1 /\ times_sent x < 5)) by lia.
    set (x' := if decide (sent x = 0) then set_sent now 1 x else set_sent now (u32 (times_sent x + 1)) x).
    destruct (owning_insert _ _ (length L1) b x x' rr Hor) as (h & Hst & Hor').
    { by apply lookup_app_l_Some. }
    rewrite Hst. cbn [mbind run_bind]. eexists. split; [reflexivity|]. split; [|done].
    assert (req_next x' = req_next x /\ packets x' = packets x /\ req_ip x' = req_ip x) as (Hn & Hp & Hip)
      by (unfold x'; by case_decide).
    exists (<[length L1 := ((b, x'), ps)]> (L1 ++ ((b, x), ps) :: L2)), D.
    split_and!; [|done| | | |].
    + rewrite insert_app_r_alt, Nat.sub_diag, fmap_app by done. cbn. f_equal. f_equal.
      unfold item_view. cbn. rewrite Hip. unfold x'. by case_decide.
    + rewrite list_fmap_insert. by apply (linked_insert _ _ _ _ _ x).
    + rewrite list_fmap_insert. rewrite insert_app_l in Hor'; [done|].
      rewrite length_fmap, length_app. cbn. lia.
    + rewrite list_fmap_insert, list_insert_id; [done|]. by rewrite list_lookup_fmap, Hi.
    + rewrite Forall_app in Hok |- *. destruct Hok as [HokL HokD]. split; [|done].
      apply Forall_insert; [done|]. pose proof (Forall_lookup_1 _ _ _ _ HokL Hi) as [Hpl Hpn].
      split; [|done]. cbn in Hpl |- *. by rewrite Hp.
Qed.

Lemma sweep_from_ok now rs2 ds rr rp : forall fuel c rs1,
  arp_rep c (rs1 ++ rs2) ds rr rp -> (length rs2 <= fuel)%nat ->
  (Forall (fun x => ar_times (handled now x.2) < 5) rs2 ->
     exists c', sweep_from fuel c now (fst <$> hd_error rs2) = Ok c' /\
       arp_rep c' (rs1 ++ (prod_map id (handled now) <$> rs2)) ds rr rp /\ entries c' = entries c) /\
  (Exists (fun x => 5 <= ar_times (handled now x.2)) rs2 ->
     sweep_from fuel c now (fst <$> hd_error rs2) = Crash Dangling).
Proof.
  induction rs2 as [|[a r] rs2 IH]; intros fuel c rs1 Hrep Hf.
  { split; [|by rewrite Exists_nil]. intros _. exists c. destruct fuel; done. }
  destruct fuel as [|fuel]; [cbn in Hf; lia|]. cbn [hd_error fmap option_fmap option_map fst sweep_from].
  destruct (handle_rep _ _ _ _ _ _ _ _ now Hrep) as (c1 & -> & Hrep1 & He1). cbn [mbind run_bind].
  destruct (arp_rep_load _ _ _ _ _ _ _ _ Hrep1) as (x & Hld & Htimes & _ & Hnext).
  rewrite Hld. cbn [mbind run_bind]. rewrite Htimes.
  destruct (decide (ar_times (handled now r) >= 5)) as [Hmax|Hfew].
  - split; [rewrite Forall_cons; cbn; lia|]. intros _.
    destruct (destroy_queued _ _ _ _ _ _ _ _ Hrep1) as (c2 & -> & _ & _ & Hgone).
    cbn [mbind run_bind]. unfold hload. by rewrite Hgone.
  - cbn [mbind run_bind]. rewrite Hld. cbn [mbind run_bind]. rewrite Hnext.
    rewrite cons_middle, app_assoc in Hrep1.
    destruct (IH fuel c1 _ Hrep1) as [IH1 IH2]; [cbn in Hf; lia|]. split.
    + intros [_ Hall]%Forall_cons. destruct (IH1 Hall) as (c' & Hrun & Hrep' & He').
      exists c'. split; [exact Hrun|]. split; [|congruence]. by rewrite <- app_assoc in Hrep'.
    + intros Hex. apply IH2. rewrite Exists_cons in Hex. destruct Hex as [Hx|Hex]; [cbn in Hx; lia|done].
Qed.

Lemma expire_loop curtime es : zlen es = SR_ARPCACHE_SZ ->
  for_from (Z.to_nat SR_ARPCACHE_SZ) 0 (expire curtime) es = Ok (expired curtime <$> es).
Proof.
  intros Hlen.
  destruct (for_from_inv (fun i es' => 
      es' = (expired curtime <$> take (Z.to_nat i) es) ++ drop (Z.to_nat i) es)
    (expire curtime) (Z.to_nat SR_ARPCACHE_SZ) 0 es) as (es' & -> & ->).
  - intros i es' Hi ->.
    destruct (lookup_lt_is_Some_2 es (Z.to_nat i)) as [e He]; [lia|].
    assert (length (expired curtime <$> take (Z.to_nat i) es) = Z.to_nat i) as Hl
      by (rewrite length_fmap, length_take; lia).
    unfold expire. rewrite (arr_get_ok _ _ e); [|lia|].
    2:{ rewrite lookup_app_r, Hl, Nat.sub_diag, lookup_drop, Nat.add_0_r by lia. done. }
    cbn [mbind run_bind]. replace (Z.to_nat (i + 1)) with (S (Z.to_nat i)) by lia.
    rewrite (take_S_r _ _ _ He), fmap_app, <- app_assoc. cbn [fmap list_fmap app].
    pose proof (drop_S _ _ _ He) as Hd.
    destruct (valid e && bool_decide (curtime - added e > SR_ARPCACHE_TO)) eqn:Hexp.
    + rewrite arr_set_ok by (rewrite length_app, Hl, length_drop; lia).
      eexists. split; [reflexivity|]. rewrite insert_app_r_alt, Hl, Nat.sub_diag, Hd by lia. cbn.
      f_equal. f_equal. unfold expired. apply andb_true_iff in Hexp as [-> ->]. done.
    + eexists. split; [reflexivity|]. f_equal. rewrite Hd. f_equal. unfold expired.
      destruct e as [em ei ea [|]]; cbn in *; [by rewrite Hexp|done].
  - done.
  - rewrite take_ge, drop_ge, app_nil_r by (unfold SR_ARPCACHE_SZ in *; lia). done.
Qed.

(** C33: one second of the timeout thread.  Afterwards lookups see exactly the
    mappings that are at most 15 seconds old.  If no pending request reaches
    the count of five, every request whose time is more than a second old gets
    the present time and one more in its count of transmissions (one, if it
    had no time yet), and the queue is otherwise unchanged; nothing is transmitted, which the code leaves as a
    task.  As soon as one request reaches the count of five, the sweep reads
    the [next] pointer of the request it has just freed. *)
Theorem arp_timeout_turn c rs ds rr rp curtime now :
  arp_rep c rs ds rr rp -> zlen (entries c) = SR_ARPCACHE_SZ ->
  (Forall (fun x => ar_times (handled now x.2) < 5) rs ->
     exists c', sr_arpcache_timeout_turn c curtime now = Ok c' /\
       arp_rep c' (prod_map id (handled now) <$> rs) ds rr rp /\
       forall ip, sr_arpcache_lookup c' ip
         = Ok (last (filter (fun e => valid e = true /\ ent_ip e = ip /\ curtime - added e <= 15)
                      (entries c)))) /\
  (Exists (fun x => 5 <= ar_times (handled now x.2)) rs ->
     sr_arpcache_timeout_turn c curtime now = Crash Dangling).
Proof.
  intros Hrep Hlen. unfold sr_arpcache_timeout_turn, sr_arpcache_sweepreqs.
  rewrite (expire_loop curtime _ Hlen). cbn [mbind run_bind].
  set (c1 := set_entries _ c).
  assert (requests c1 = fst <$> hd_error rs) as ->.
  { destruct Hrep as (L & D & -> & _ & Hlk & _). unfold c1. cbn [requests set_entries].
    destruct L as [|[[a x] ps] L]; cbn in Hlk |- *; [done|]. by destruct Hlk as [-> _]. }
  pose proof (arp_rep_size _ _ _ _ _ Hrep) as Hs.
  destruct (sweep_from_ok now rs ds rr rp (walk_fuel (reqs c1)) c1 []) as [H1 H2];
    [exact Hrep|unfold c1; cbn [reqs set_entries]; lia|].
  split; [|exact H2]. intros Hall. destruct (H1 Hall) as (c' & Hrun & Hrep' & He').
  exists c'. split; [exact Hrun|]. split; [exact Hrep'|]. intros ip.
  rewrite lookup_ok by (rewrite He'; cbn; by rewrite length_fmap). f_equal. rewrite He'.
  unfold c1. cbn [entries set_entries]. unfold cached. clear.
  assert (filter (fun e => matches ip e = true) (expired curtime <$> entries c)
    = filter (fun e => valid e = true /\ ent_ip e = ip /\ curtime - added e <= 15) (entries c)) as ->; [|done].
  induction (entries c) as [|e es IH]; [done|]. cbn [fmap list_fmap].
  rewrite !filter_cons, IH. unfold matches, expired, SR_ARPCACHE_TO. destruct e as [em ei ea v].
  cbn [valid ent_ip added mac].
  destruct v; cbn [andb]; repeat case_decide; repeat case_bool_decide; try done; exfalso; naive_solver lia.
Qed.

(** ** A cache with one mapping and one pending request *)

Definition sample_cache : sr_arpcache :=
  ArpCache
    (<[1%nat := ArpEntry [2; 0; 0; 0; 0; 9] 9 100 true]>
       (entries (sr_arpcache_init (ArpCache [] NULL empty_heap empty_heap))))
    (Some 1%positive)
    (Heap {[1%positive := ArpReq 7 100 4 (Some 1%positive) NULL]} 2)
    (Heap {[1%positive := SrPacket [1; 2] 2 [101; 116; 104] NULL]} 2).

Definition sample_requests : list (positive * areq) :=
  [(1%positive, AReq 7 100 4 [([1; 2], [101; 116; 104])])].

Lemma sample_arp_rep : arp_rep sample_cache sample_requests [] ∅ ∅.
Proof.
  exists [((1%positive, ArpReq 7 100 4 (Some 1%positive) NULL),
           [(1%positive, SrPacket [1; 2] 2 [101; 116; 104] NULL)])], [].
  split_and!; [done|done|done| | |].
  - split_and!; [|by apply NoDup_singleton|apply map_disjoint_empty_r|done].
    intros x [y Hx]. cbn in Hx. apply lookup_singleton_Some in Hx as [<- _]. done.
  - split_and!; [|by apply NoDup_singleton|apply map_disjoint_empty_r|done].
    intros x [y Hx]. cbn in Hx. apply lookup_singleton_Some in Hx as [<- _]. done.
  - apply Forall_singleton. split; [done|]. by apply Forall_singleton.
Qed.

Lemma arp_requests_refine_witness :
  (exists c', sr_arpcache_queuereq sample_cache 7 (Some [3; 4; 5]) 2 (Some [101]) = Ok (Some 1%positive, c') /\
    arp_rep c' [(1%positive, AReq 7 100 4 [([3; 4], strncpy [101] 32); ([1; 2], [101; 116; 104])])] [] ∅ ∅) /\
  (exists c', sr_arpcache_insert sample_cache [2; 0; 0; 0; 0; 7] 7 200 = Ok (Some 1%positive, c') /\
    arp_rep c' [] sample_requests ∅ ∅).
Proof.
  destruct (arp_requests_refine sample_cache sample_requests [] ∅ ∅ sample_arp_rep)
    as (Hq & Hi & _); [reflexivity|]. split.
  - destruct (Hq 7 (Some [3; 4; 5]) 2 (Some [101])) as (c' & a & Hrun & _ & -> & Hrep).
    + intros p [= <-]. cbn. lia.
    + exists c'. split; [exact Hrun|exact Hrep].
  - destruct (Hi [2; 0; 0; 0; 0; 7] 7 200) as (q & c' & Hrun & -> & Hrep); [cbn; lia|].
    exists c'. split; [exact Hrun|exact Hrep].
Defined.

(** The mapping of 9 in slot 1 shadows a newer one put in slot 0. *)
Lemma arp_lookup_insert_witness :
  exists q c', sr_arpcache_insert sample_cache [2; 0; 0; 0; 0; 8] 9 200 = Ok (q, c') /\
    sr_arpcache_lookup c' 9 = Ok (Some (ArpEntry [2; 0; 0; 0; 0; 9] 9 100 true)).
Proof.
  destruct (sr_arpcache_insert sample_cache [2; 0; 0; 0; 0; 8] 9 200) as [[q c']|f] eqn:Hrun.
  - exists q, c'. split; [reflexivity|].
    exact (proj2 (arp_lookup_insert sample_cache sample_requests [] ∅ ∅ [2; 0; 0; 0; 0; 8] 9 200 q c'
      sample_arp_rep eq_refl ltac:(cbn; lia) Hrun)).
  - exfalso. vm_compute in Hrun. discriminate Hrun.
Defined.

(** At second 102 the pending request is sent for the fifth time. *)
Lemma arp_timeout_turn_witness :
  sr_arpcache_timeout_turn sample_cache 102 102 = Crash Dangling /\
  exists c', sr_arpcache_timeout_turn sample_cache 101 101 = Ok c' /\
    sr_arpcache_lookup c' 9 = Ok (Some (ArpEntry [2; 0; 0; 0; 0; 9] 9 100 true)).
Proof.
  split.
  - apply (proj2 (arp_timeout_turn sample_cache sample_requests [] ∅ ∅ 102 102 sample_arp_rep eq_refl)).
    apply Exists_cons_hd. vm_compute. discriminate.
  - destruct (proj1 (arp_timeout_turn sample_cache sample_requests [] ∅ ∅ 101 101 sample_arp_rep eq_refl))
      as (c' & Hrun & _ & Hl).
    + apply Forall_singleton. reflexivity.
    + exists c'. split; [exact Hrun|]. exact (Hl 9).
Defined.
