(* ===== verification/SrIf.v ===== *)
(** * The router's interface list

    Models [Assignment2/src/router/sr_if.c]: the list of interfaces the
    server announces, built by [sr_add_interface] and the two setters that
    apply to its last element, and searched by name, address and hardware
    address.  Fields the code has not assigned are [None].  Proved: the list
    of nodes implements a list of interfaces. *)

From S2P Require Import Prelude Heap CString.

Definition sr_IFACE_NAMELEN : Z := 32.
Definition ETHER_ADDR_LEN : Z := 6.

Record sr_if : Type := SrIf {
  name : list Z;   (* char[32] *)
  addr : option (list Z);   (* unsigned char[6] *)
  ip : option Z;
  speed : option Z;
  if_next : ptr   (* next *)
}.

(** [sr->if_list] with the heap of its nodes. *)
Record interfaces : Type := Interfaces { if_list : ptr; ifs : heap sr_if }.

Definition if_fuel (t : interfaces) : nat := base.size (cells (ifs t)).

(** [malloc] of a node, then its name and link. *)
Definition new_if (nm : list Z) : sr_if := SrIf (strncpy nm sr_IFACE_NAMELEN) None None None NULL.

Definition sr_get_interface (t : interfaces) (nm : list Z) : run ptr :=
  walk_find if_next (fun x => Ok (strncmp_eq (name x) nm sr_IFACE_NAMELEN)) (if_fuel t) (ifs t) (if_list t).

Definition get_interface_from_ip (t : interfaces) (ip_address : Z) : run ptr :=
  walk_find if_next (fun x => i ← need Uninit (ip x); Ok (bool_decide (ip_address = i)))
    (if_fuel t) (ifs t) (if_list t).

(** The inner loop: bytes are compared until one differs. *)
Fixpoint eth_match (n : nat) (i : Z) (a eth_address : list Z) : run bool :=
  match n with
  | O => Ok true
  | S n =>
      x ← arr_get a i; y ← arr_get eth_address i;
      if decide (x <> y) then Ok false else eth_match n (i + 1) a eth_address
  end.

Definition get_interface_from_eth (t : interfaces) (eth_address : list Z) : run ptr :=
  walk_find if_next (fun x => a ← need Uninit (addr x);
                              eth_match (Z.to_nat ETHER_ADDR_LEN) 0 a eth_address)
    (if_fuel t) (ifs t) (if_list t).

Definition sr_add_interface (t : interfaces) (nm : list Z) : run interfaces :=
  match if_list t with
  | None => let '(a, h) := halloc (ifs t) (new_if nm) in Ok (Interfaces (Some a) h)
  | Some _ =>
      w ← walk_last if_next (if_fuel t) (ifs t) (if_list t);
      let '(a, h) := halloc (ifs t) (new_if nm) in
      x ← hload h w;
      h ← hstore h w (SrIf (name x) (addr x) (ip x) (speed x) (Some a));
      Ok (Interfaces (if_list t) h)
  end.

Definition sr_set_ether_addr (t : interfaces) (a : list Z) : run interfaces :=
  c_assert (bool_decide (if_list t <> NULL));;
  w ← walk_last if_next (if_fuel t) (ifs t) (if_list t);
  if decide (zlen a < 6) then Crash OutOfRange else
  x ← hload (ifs t) w;
  h ← hstore (ifs t) w (SrIf (name x) (Some (take 6 a)) (ip x) (speed x) (if_next x));
  Ok (Interfaces (if_list t) h).

Definition sr_set_ether_ip (t : interfaces) (ip_nbo : Z) : run interfaces :=
  c_assert (bool_decide (if_list t <> NULL));;
  w ← walk_last if_next (if_fuel t) (ifs t) (if_list t);
  x ← hload (ifs t) w;
  h ← hstore (ifs t) w (SrIf (name x) (addr x) (Some ip_nbo) (speed x) (if_next x));
  Ok (Interfaces (if_list t) h).

(** ** The interfaces a list of nodes stands for *)

Record iface : Type := Iface { i_name : list Z; i_addr : option (list Z); i_ip : option Z }.

Definition if_view (y : positive * sr_if) : positive * iface :=
  (y.1, Iface (c_str (name y.2)) (addr y.2) (ip y.2)).

Definition if_rep (t : interfaces) (vs : list (positive * iface)) (rest : gmap positive sr_if) : Prop :=
  exists l, vs = if_view <$> l /\ linked if_next (if_list t) l NULL /\ owning (ifs t) l rest.

Lemma if_rep_walk t vs v rest : if_rep t (vs ++ [v]) rest ->
  exists l y, vs = if_view <$> l /\ v = if_view y /\ linked if_next (if_list t) (l ++ [y]) NULL /\
    owning (ifs t) (l ++ [y]) rest /\ if_list t <> NULL /\
    walk_last if_next (if_fuel t) (ifs t) (if_list t) = Ok (Some y.1) /\
    hload (ifs t) (Some y.1) = Ok y.2.
Proof.
  intros (l' & Hvs & Hlk & Ho). symmetry in Hvs. apply fmap_app_inv in Hvs as (l & k & -> & Hk & ->).
  symmetry in Hk. apply fmap_cons_inv in Hk as (y & k' & -> & Hk' & ->).
  symmetry in Hk'. apply fmap_nil_inv in Hk' as ->.
  exists l, y. destruct y as [a x]. split_and!; try done.
  - intros Hn. rewrite Hn in Hlk. apply linked_null_nil in Hlk as [Hlk _]. by destruct l.
  - rewrite (walk_last_ok _ _ _ _ (l ++ [(a, x)])).
    + by rewrite last_snoc.
    + done.
    + by destruct l.
    + intros b z Hin. by apply (owning_load _ _ _ _ _ Ho).
    + pose proof (owning_size _ _ _ Ho). unfold if_fuel. lia.
  - apply (owning_load _ _ _ _ _ Ho). apply elem_of_app. right. by left.
Qed.

Lemma add_interface_ok t vs rest nm : if_rep t vs rest -> is_str nm ->
  exists t' a, sr_add_interface t nm = Ok t' /\
    if_rep t' (vs ++ [(a, Iface (take 32 nm) None None)]) rest.
Proof.
  intros Hrep Hnm. exists (match sr_add_interface t nm with Ok t' => t' | _ => t end), (brk (ifs t)).
  unfold sr_add_interface. destruct vs as [|v vs _] using rev_ind.
  - destruct Hrep as (l & Hl & Hlk & Ho). symmetry in Hl. apply fmap_nil_inv in Hl as ->.
    cbn in Hlk. rewrite Hlk. split; [done|]. exists [(brk (ifs t), new_if nm)].
    split_and!; [|done|apply (owning_alloc _ [] rest _ Ho)].
    cbn. unfold if_view. cbn. by rewrite c_str_strncpy.
  - destruct (if_rep_walk _ _ _ _ Hrep) as (l & [b y] & -> & -> & Hlk & Ho & Hne & Hw & Hld).
    destruct (if_list t) as [p|] eqn:Hp; [|done]. rewrite Hw. cbn [mbind run_bind halloc fst].
    assert (hload (halloc (ifs t) (new_if nm)).2 (Some b) = Ok y) as Hld'.
    { apply (owning_load _ _ _ _ _ (owning_alloc _ _ _ (new_if nm) Ho)).
      rewrite !elem_of_app. left. right. by left. }
    cbn [halloc snd] in Hld'. rewrite Hld'. cbn [mbind run_bind].
    destruct (append_linked if_next (ifs t) (Some p) l b y
      (SrIf (name y) (addr y) (ip y) (speed y) (Some (brk (ifs t)))) (new_if nm) rest)
      as (h & Hst & Hlk' & Ho'); try done.
    cbn [halloc snd] in Hst. rewrite Hst. cbn [mbind run_bind]. split; [done|].
    eexists. split; [|split; [exact Hlk'|exact Ho']].
    rewrite fmap_app, <- app_assoc. cbn. unfold if_view. cbn. by rewrite c_str_strncpy.
Qed.

(** A setter that leaves the link alone updates the last interface. *)
Lemma set_last_ok t l y z rest : linked if_next (if_list t) (l ++ [y]) NULL ->
  owning (ifs t) (l ++ [y]) rest -> if_next z = if_next y.2 ->
  exists h, hstore (ifs t) (Some y.1) z = Ok h /\
    if_rep (Interfaces (if_list t) h) ((if_view <$> l) ++ [if_view (y.1, z)]) rest.
Proof.
  destruct y as [b y]. cbn [fst snd]. intros Hlk Ho Hz.
  destruct (owning_store _ _ _ _ _ z _ Ho) as (h & Hst & Ho'). exists h. split; [done|].
  exists (l ++ [(b, z)]). split_and!; [by rewrite fmap_app| |done].
  apply linked_app in Hlk as (r & Hl & Hr). cbn in Hr. destruct Hr as [-> Hr].
  apply linked_app. exists (Some b). split; [done|]. cbn. by rewrite Hz, Hr.
Qed.

Lemma set_ether_addr_ok t us a v rest m : if_rep t (us ++ [(a, v)]) rest -> 6 <= zlen m ->
  exists t', sr_set_ether_addr t m = Ok t' /\
    if_rep t' (us ++ [(a, Iface (i_name v) (Some (take 6 m)) (i_ip v))]) rest.
Proof.
  intros Hrep Hm.
  destruct (if_rep_walk _ _ _ _ Hrep) as (l & [b y] & -> & Hv & Hlk & Ho & Hne & Hw & Hld).
  unfold if_view in Hv. cbn [fst snd] in Hv, Hw, Hld. injection Hv as -> ->.
  unfold sr_set_ether_addr. rewrite bool_decide_true by done. cbn [c_assert mbind run_bind].
  rewrite Hw. cbn [mbind run_bind]. rewrite decide_False by lia. rewrite Hld. cbn [mbind run_bind].
  destruct (set_last_ok t l (b, y) (SrIf (name y) (Some (take 6 m)) (ip y) (speed y) (if_next y)) rest)
    as (h & Hst & Hrep'); [done|done|done|].
  cbn [fst] in Hst. rewrite Hst. eexists. split; [reflexivity|]. exact Hrep'.
Qed.

Lemma set_ether_ip_ok t us a v rest i : if_rep t (us ++ [(a, v)]) rest ->
  exists t', sr_set_ether_ip t i = Ok t' /\
    if_rep t' (us ++ [(a, Iface (i_name v) (i_addr v) (Some i))]) rest.
Proof.
  intros Hrep.
  destruct (if_rep_walk _ _ _ _ Hrep) as (l & [b y] & -> & Hv & Hlk & Ho & Hne & Hw & Hld).
  unfold if_view in Hv. cbn [fst snd] in Hv, Hw, Hld. injection Hv as -> ->.
  unfold sr_set_ether_ip. rewrite bool_decide_true by done. cbn [c_assert mbind run_bind].
  rewrite Hw. cbn [mbind run_bind]. rewrite Hld. cbn [mbind run_bind].
  destruct (set_last_ok t l (b, y) (SrIf (name y) (addr y) (Some i) (speed y) (if_next y)) rest)
    as (h & Hst & Hrep'); [done|done|done|].
  cbn [fst] in Hst. rewrite Hst. eexists. split; [reflexivity|]. exact Hrep'.
Qed.

(** The setters need an interface to set. *)
Lemma set_empty_ok t rest : if_rep t [] rest ->
  (forall a, sr_set_ether_addr t a = Crash Abort) /\ (forall i, sr_set_ether_ip t i = Crash Abort).
Proof.
  intros (l & Hl & Hlk & _). symmetry in Hl. apply fmap_nil_inv in Hl as ->.
  cbn in Hlk. unfold sr_set_ether_addr, sr_set_ether_ip. by rewrite Hlk.
Qed.

Lemma find_if_ok t vs rest test (P : iface -> bool) (Q : iface -> Prop) :
  if_rep t vs rest ->
  (forall x, Q (if_view (xH, x)).2 -> test x = Ok (P (if_view (xH, x)).2)) ->
  Forall (fun v => Q v.2) vs ->
  walk_find if_next test (if_fuel t) (ifs t) (if_list t)
  = Ok ((fun z => z.2.1) <$> list_find (fun v => P v.2 = true) vs).
Proof.
  intros (l & -> & Hlk & Ho) Ht HQ.
  rewrite (walk_find_ok if_next test (fun x => P (if_view (xH, x)).2) _ _ _ l Hlk).
  - f_equal. clear. induction l as [|[b y] l IH]; [done|].
    cbn [fmap list_fmap list_find if_view fst snd]. case_decide; [done|].
    destruct (list_find _ l) as [[k z]|], (list_find _ (if_view <$> l)) as [[k' z']|]; done.
  - intros b y Hin. by apply (owning_load _ _ _ _ _ Ho).
  - intros b y Hin. apply Ht. rewrite Forall_fmap, Forall_forall in HQ. apply (HQ _ Hin).
  - pose proof (owning_size _ _ _ Ho). done.
Qed.

Lemma eth_match_ok n i a e : 0 <= i -> i + Z.of_nat n = zlen a -> zlen e = zlen a ->
  eth_match n i a e = Ok (bool_decide (drop (Z.to_nat i) a = drop (Z.to_nat i) e)).
Proof.
  revert i. induction n as [|n IH]; intros i Hi Hn He.
  - cbn. rewrite !drop_ge by lia. done.
  - cbn [eth_match].
    destruct (lookup_lt_is_Some_2 a (Z.to_nat i)) as [x Hx]; [lia|].
    destruct (lookup_lt_is_Some_2 e (Z.to_nat i)) as [y Hy]; [lia|].
    rewrite (arr_get_ok a i x Hi Hx), (arr_get_ok e i y Hi Hy). cbn [mbind run_bind].
    rewrite (drop_S _ _ _ Hx), (drop_S _ _ _ Hy). case_decide as Hxy.
    + rewrite bool_decide_false; [done|]. intros Heq. by injection Heq.
    + rewrite IH by lia. replace (Z.to_nat (i + 1)) with (S (Z.to_nat i)) by lia. f_equal.
      apply bool_decide_ext. split; [intros ->|intros [=]; done]. f_equal. by destruct (decide (x = y)).
Qed.

Lemma if_rep_load t vs rest a v : if_rep t vs rest -> (a, v) ∈ vs ->
  exists x, hload (ifs t) (Some a) = Ok x /\ v = (if_view (a, x)).2.
Proof.
  intros (l & -> & Hlk & Ho) Hin. apply list_elem_of_fmap in Hin as ([b x] & Hv & Hin).
  unfold if_view in Hv. cbn in Hv. injection Hv as -> ->. exists x. split; [|done].
  by apply (owning_load _ _ _ _ _ Ho).
Qed.

Lemma get_interface_ok t vs rest nm : if_rep t vs rest -> is_str nm ->
  sr_get_interface t nm
  = Ok ((fun z => z.2.1) <$> list_find (fun v => bool_decide (take 32 (i_name v.2) = take 32 nm) = true) vs).
Proof.
  intros Hrep Hnm. unfold sr_get_interface.
  set (P v := bool_decide (take 32 (i_name v) = take 32 nm)).
  apply (find_if_ok _ _ rest _ P (fun _ => True) Hrep).
  - intros x _. cbn. unfold strncmp_eq. by rewrite (c_str_id nm).
  - by apply Forall_true.
Qed.

Lemma from_ip_ok t vs rest i : if_rep t vs rest -> Forall (fun v => is_Some (i_ip v.2)) vs ->
  get_interface_from_ip t i
  = Ok ((fun z => z.2.1) <$> list_find (fun v => bool_decide (i_ip v.2 = Some i) = true) vs).
Proof.
  intros Hrep Hall. unfold get_interface_from_ip.
  set (P v := bool_decide (i_ip v = Some i)).
  apply (find_if_ok _ _ rest _ P (fun v => is_Some (i_ip v)) Hrep); [|done].
  intros x [j Hj]. cbn in *. rewrite Hj. cbn. f_equal. apply bool_decide_ext. naive_solver.
Qed.

(** The interface list implements a list of interfaces: adding appends
    one with the name cut to 32 bytes and nothing else set, the setters
    change the last interface and abort on an empty list, and the three
    searches return the first interface with the name (to 32 bytes), the IP
    address, or the hardware address, or NULL. *)
Theorem interfaces_refine t vs rest :
  if_rep t vs rest ->
  (forall nm, is_str nm -> exists t' a, sr_add_interface t nm = Ok t' /\
     if_rep t' (vs ++ [(a, Iface (take 32 nm) None None)]) rest) /\
  (vs = [] -> (forall a, sr_set_ether_addr t a = Crash Abort) /\
              (forall i, sr_set_ether_ip t i = Crash Abort)) /\
  (forall us a v, vs = us ++ [(a, v)] ->
     (forall m, 6 <= zlen m -> exists t', sr_set_ether_addr t m = Ok t' /\
        if_rep t' (us ++ [(a, Iface (i_name v) (Some (take 6 m)) (i_ip v))]) rest) /\
     (forall i, exists t', sr_set_ether_ip t i = Ok t' /\
        if_rep t' (us ++ [(a, Iface (i_name v) (i_addr v) (Some i))]) rest)) /\
  (forall nm, is_str nm -> sr_get_interface t nm
     = Ok ((fun z => z.2.1) <$> list_find (fun v => bool_decide (take 32 (i_name v.2) = take 32 nm) = true) vs)) /\
  (forall i, Forall (fun v => is_Some (i_ip v.2)) vs -> get_interface_from_ip t i
     = Ok ((fun z => z.2.1) <$> list_find (fun v => bool_decide (i_ip v.2 = Some i) = true) vs)) /\
  (forall e, zlen e = 6 -> Forall (fun v => exists a, i_addr v.2 = Some a /\ zlen a = 6) vs ->
     get_interface_from_eth t e
     = Ok ((fun z => z.2.1) <$> list_find (fun v => bool_decide (i_addr v.2 = Some e) = true) vs)).
Proof.
  intros Hrep. split_and!.
  - intros nm Hnm. by apply add_interface_ok.
  - intros ->. by eapply set_empty_ok.
  - intros us a v ->. split; [intros m; by apply set_ether_addr_ok|intros i; by apply set_ether_ip_ok].
  - intros nm Hnm. by eapply get_interface_ok.
  - intros i Hall. by eapply from_ip_ok.
  - intros e He Hall. unfold get_interface_from_eth.
    set (P v := bool_decide (i_addr v = Some e)).
    apply (find_if_ok _ _ rest _ P
      (fun v => exists a, i_addr v = Some a /\ zlen a = 6) Hrep); [|done].
    intros x (a & Ha & Hlen). cbn in *. rewrite Ha. cbn [need mbind run_bind].
    rewrite eth_match_ok by (unfold ETHER_ADDR_LEN; lia). cbn. f_equal.
    apply bool_decide_ext. naive_solver.
Qed.

(** ** Two interfaces *)

Definition two_interfaces : run interfaces :=
  t ← sr_add_interface (Interfaces NULL empty_heap) (bytes_of "eth0");
  t ← sr_set_ether_ip t 0x0100a8c0;
  t ← sr_add_interface t (bytes_of "eth1");
  sr_set_ether_ip t 0x0200a8c0.

Lemma interfaces_refine_witness :
  exists t t' vs a, two_interfaces = Ok t /\ if_rep t vs ∅ /\
    sr_get_interface t (bytes_of "eth1") = Ok (Some 2%positive) /\
    get_interface_from_ip t 0x0300a8c0 = Ok NULL /\
    sr_add_interface t (bytes_of "eth2") = Ok t' /\
    if_rep t' (vs ++ [(a, Iface (bytes_of "eth2") None None)]) ∅.
Proof.
  destruct two_interfaces as [t|f] eqn:Ht; [|vm_compute in Ht; discriminate Ht].
  set (vs := [(1%positive, Iface (bytes_of "eth0") None (Some 0x0100a8c0));
              (2%positive, Iface (bytes_of "eth1") None (Some 0x0200a8c0))]).
  assert (Hrep : if_rep t vs ∅).
  { assert (two_interfaces = Ok (Interfaces (Some 1%positive) (Heap (<[1%positive :=
      SrIf (strncpy (bytes_of "eth0") 32) None (Some 0x0100a8c0) None (Some 2%positive)]>
      {[2%positive := SrIf (strncpy (bytes_of "eth1") 32) None (Some 0x0200a8c0) None NULL]}) 3))) as E
      by (vm_compute; reflexivity).
    rewrite E in Ht. injection Ht as <-.
    exists [(1%positive, SrIf (strncpy (bytes_of "eth0") 32) None (Some 0x0100a8c0) None (Some 2%positive));
            (2%positive, SrIf (strncpy (bytes_of "eth1") 32) None (Some 0x0200a8c0) None NULL)].
    split; [done|]. split; [done|]. split_and!.
    - intros x [y Hx]. cbn in Hx. rewrite lookup_insert_Some, lookup_singleton_Some in Hx. cbn.
      destruct Hx as [[<- _]|[_ [<- _]]]; lia.
    - apply NoDup_cons. split; [by rewrite list_elem_of_singleton|by apply NoDup_singleton].
    - apply map_disjoint_empty_r.
    - vm_compute. reflexivity. }
  destruct (interfaces_refine t vs ∅ Hrep) as (Hadd & _ & _ & Hget & Hip & _).
  destruct (Hadd (bytes_of "eth2")) as (t' & a & Hrun & Hrep').
  { vm_compute. repeat constructor; discriminate. }
  exists t, t', vs, a. split; [reflexivity|]. split; [exact Hrep|]. split.
  { rewrite Hget; [reflexivity|]. vm_compute. repeat constructor; discriminate. }
  split.
  { rewrite Hip; [reflexivity|]. apply Forall_cons_2; [by eexists|]. apply Forall_cons_2; [by eexists|].
    apply Forall_nil_2. }
  split; [exact Hrun|exact Hrep'].
Defined.
