(* ===== verification/SrRt.v ===== *)
(** * The router's routing table

    Models [Assignment2/src/router/sr_rt.c], the consistency check of
    [sr_main.c] and the longest-prefix search of [sr_router.c]: the list of
    routes, loading it from a text file, checking its interfaces against the
    interface list, and looking a destination up.  [inet_aton] is the C
    library's and a parameter.  Proved: the list of nodes implements a list
    of routes, loading a file inverts printing one, the check counts the
    routes without an interface, and the search never returns a route. *)

From S2P Require Import Prelude Heap CString SrIf.

Record sr_rt : Type := SrRt {
  dest : Z;
  gw : Z;
  mask : Z;
  interface : list Z;   (* char[32] *)
  rt_next : ptr   (* next *)
}.

(** [sr->routing_table] with the heap of its nodes. *)
Record rtable : Type := Rtable { routing_table : ptr; rts : heap sr_rt }.

Definition rt_fuel (t : rtable) : nat := base.size (cells (rts t)).

Definition sr_add_rt_entry (t : rtable) (d g m : Z) (if_name : list Z) : run rtable :=
  let node := SrRt d g m (strncpy if_name sr_IFACE_NAMELEN) NULL in
  match routing_table t with
  | None => let '(a, h) := halloc (rts t) node in Ok (Rtable (Some a) h)
  | Some _ =>
      w ← walk_last rt_next (rt_fuel t) (rts t) (routing_table t);
      let '(a, h) := halloc (rts t) node in
      x ← hload h w;
      h ← hstore h w (SrRt (dest x) (gw x) (mask x) (interface x) (Some a));
      Ok (Rtable (routing_table t) h)
  end.

(** ** Reading the file *)


(** [fgets(line, n + 1, fp)] on a non-empty rest of the file: up to [n] bytes,
    through the first newline. *)
Fixpoint fgets (n : nat) (data : list Z) : list Z * list Z :=
  match n, data with
  | S n, c :: data =>
      if decide (c = 10) then ([c], data)
      else let '(line, rest) := fgets n data in (c :: line, rest)
  | _, _ => ([], data)
  end.
Definition BUFSIZ : Z := 8192.

Fixpoint skip_spaces (s : list Z) : list Z :=
  match s with
  | c :: s' => if isspace c then skip_spaces s' else s
  | [] => []
  end.
Fixpoint word (s : list Z) : list Z * list Z :=
  match s with
  | c :: s' => if isspace c then ([], s) else let '(w, r) := word s' in (c :: w, r)
  | [] => ([], [])
  end.

(** [sscanf(line, "%s %s ...", buf1, buf2, ...)]: one word for each of the
    [char[32]] buffers, until the line ends; a buffer not reached keeps its
    contents, [None] if it was never written. *)
Fixpoint sscanf_words (line : list Z) (bufs : list (option (list Z))) : run (list (option (list Z))) :=
  match bufs with
  | [] => Ok []
  | b :: bufs' =>
      match word (skip_spaces line) with
      | ([], _) => Ok bufs
      | (w, line) =>
          if decide (32 <= zlen w) then Crash OutOfRange else
          r ← sscanf_words line bufs'; Ok (Some w :: r)
      end
  end.

Section load.
Context (inet_aton : list Z -> option Z).

Definition rt_buf (bufs : list (option (list Z))) (k : nat) : run (list Z) :=
  need Uninit (default None (bufs !! k)).

(** One line; [None] when it does not parse. *)
Definition load_line (line : list Z) (bufs : list (option (list Z))) (clear : bool) (t : rtable)
    : run (list (option (list Z)) * option rtable) :=
  bufs ← sscanf_words (c_str line) bufs;
  d ← rt_buf bufs 0;
  match inet_aton d with None => Ok (bufs, None) | Some dest_addr =>
  g ← rt_buf bufs 1;
  match inet_aton g with None => Ok (bufs, None) | Some gw_addr =>
  m ← rt_buf bufs 2;
  match inet_aton m with None => Ok (bufs, None) | Some mask_addr =>
  let t := if clear then t else Rtable NULL (rts t) in
  ifc ← rt_buf bufs 3;
  t ← sr_add_rt_entry t dest_addr gw_addr mask_addr ifc;
  Ok (bufs, Some t)
  end end end.

(** The [fgets] loop over the rest of the file. *)
Fixpoint load_lines (fuel : nat) (data : list Z) (bufs : list (option (list Z))) (clear : bool)
    (t : rtable) : run (Z * rtable) :=
  match data with
  | [] => Ok (0, t)
  | _ =>
      match fuel with
      | O => Crash Fuel
      | S fuel =>
          let '(line, data) := fgets (Z.to_nat (BUFSIZ - 1)) data in
          '(bufs, r) ← load_line line bufs clear t;
          match r with
          | None => Ok (-1, t)
          | Some t => load_lines fuel data bufs true t
          end
      end
  end.

(** [file] is the contents of the file, if it can be read. *)
Definition sr_load_rt (t : rtable) (file : option (list Z)) : run (Z * rtable) :=
  match file with
  | None => Ok (-1, t)
  | Some data => load_lines (length data) data (replicate 4 None) false t
  end.
End load.

(** ** The consistency check *)

Fixpoint count_missing (fuel : nat) (h : heap sr_rt) (rt_walker : ptr) (t : interfaces) (ret : Z) : run Z :=
  match rt_walker with
  | None => Ok ret
  | Some _ =>
      match fuel with
      | O => Crash Fuel
      | S fuel =>
          r ← hload h rt_walker;
          w ← walk_find if_next (fun x => Ok (strncmp_eq (name x) (interface r) sr_IFACE_NAMELEN))
                (if_fuel t) (ifs t) (if_list t);
          ret ← (if decide (w = NULL) then i32 (ret + 1) else Ok ret);
          count_missing fuel h (rt_next r) t ret
      end
  end.

Definition sr_verify_routing_table (t : interfaces) (rt : rtable) : run Z :=
  if decide (if_list t = NULL \/ routing_table rt = NULL) then Ok 999
  else count_missing (rt_fuel rt) (rts rt) (routing_table rt) t 0.

(** ** Longest-prefix match *)

(** The loop keeps the best mask so far and, once there is one, the route. *)
Fixpoint lpm_walk (fuel : nat) (h : heap sr_rt) (dest_ip : Z) (curr : ptr) (lpm_mask : Z)
    (longest : option ptr) : run (Z * option ptr) :=
  match curr with
  | None => Ok (lpm_mask, longest)
  | Some _ =>
      match fuel with
      | O => Crash Fuel
      | S fuel =>
          r ← hload h curr;
          if decide (dest_ip = Z.land (mask r) (dest r) /\ mask r > lpm_mask)
          then lpm_walk fuel h dest_ip (rt_next r) (mask r) (Some curr)
          else lpm_walk fuel h dest_ip (rt_next r) lpm_mask longest
      end
  end.

(** The caller dereferences the result, so an indeterminate pointer is an
    error. *)
Definition find_rt_dest (t : rtable) (dest_ip : Z) : run ptr :=
  '(lpm_mask, longest) ← lpm_walk (rt_fuel t) (rts t) dest_ip (routing_table t) 0 None;
  if decide (lpm_mask <> 0) then Ok NULL else need Uninit longest.

(** ** The routes a list of nodes stands for *)

Record route : Type := Route { r_dest : Z; r_gw : Z; r_mask : Z; r_if : list Z }.

Definition rt_view (y : positive * sr_rt) : route :=
  Route (dest y.2) (gw y.2) (mask y.2) (c_str (interface y.2)).

Definition rt_rep (t : rtable) (vs : list route) (rest : gmap positive sr_rt) : Prop :=
  exists l, vs = rt_view <$> l /\ linked rt_next (routing_table t) l NULL /\ owning (rts t) l rest.

Lemma add_rt_entry_ok t vs rest d g m nm : rt_rep t vs rest -> is_str nm ->
  exists t', sr_add_rt_entry t d g m nm = Ok t' /\ rt_rep t' (vs ++ [Route d g m (take 32 nm)]) rest.
Proof.
  intros (l & -> & Hlk & Ho) Hnm. unfold sr_add_rt_entry.
  set (node := SrRt d g m (strncpy nm sr_IFACE_NAMELEN) NULL).
  assert (forall a, rt_view (a, node) = Route d g m (take 32 nm)) as Hview.
  { intros a. unfold rt_view, node. cbn. by rewrite c_str_strncpy. }
  destruct l as [|[b y] l _] using rev_ind.
  - cbn in Hlk. rewrite Hlk. eexists. split; [reflexivity|]. exists [(brk (rts t), node)].
    split_and!; [cbn; by rewrite Hview|done|apply (owning_alloc _ [] rest _ Ho)].
  - destruct (routing_table t) as [p|] eqn:Hp.
    2:{ apply linked_null_nil in Hlk as [Hlk _]. by destruct l. }
    rewrite (walk_last_ok _ _ _ _ (l ++ [(b, y)])); [|done|by destruct l| |].
    + rewrite last_snoc. cbn [fmap option_fmap option_map fst mbind run_bind halloc].
      assert (hload (halloc (rts t) node).2 (Some b) = Ok y) as Hld.
      { apply (owning_load _ _ _ _ _ (owning_alloc _ _ _ node Ho)).
        rewrite !elem_of_app. left. right. by left. }
      cbn [halloc snd] in Hld. rewrite Hld. cbn [mbind run_bind].
      destruct (append_linked rt_next (rts t) (Some p) l b y
        (SrRt (dest y) (gw y) (mask y) (interface y) (Some (brk (rts t)))) node rest)
        as (h & Hst & Hlk' & Ho'); try done.
      cbn [halloc snd] in Hst. rewrite Hst. cbn [mbind run_bind]. eexists. split; [reflexivity|].
      eexists. split; [|split; [exact Hlk'|exact Ho']].
      rewrite fmap_app, fmap_app, <- app_assoc. cbn. by rewrite Hview.
    + intros b' z Hin. by apply (owning_load _ _ _ _ _ Ho).
    + pose proof (owning_size _ _ _ Ho). unfold rt_fuel. lia.
Qed.

(** ** Loading inverts printing *)

(** A row of the file: four words. *)
Record row : Type := Row { w_dest : list Z; w_gw : list Z; w_mask : list Z; w_if : list Z }.

Definition print_row (r : row) : list Z :=
  w_dest r ++ 32 :: w_gw r ++ 32 :: w_mask r ++ 32 :: w_if r ++ [10].

Definition word_ok (w : list Z) : Prop :=
  w <> [] /\ zlen w < 32 /\ Forall (fun c => c <> 0 /\ isspace c = false) w.
Definition row_ok (r : row) : Prop :=
  word_ok (w_dest r) /\ word_ok (w_gw r) /\ word_ok (w_mask r) /\ word_ok (w_if r).

Lemma word_app w c s : Forall (fun c => c <> 0 /\ isspace c = false) w -> isspace c = true ->
  word (w ++ c :: s) = (w, c :: s).
Proof.
  induction 1 as [|b w [_ Hb] Hw IH]; intros Hc; cbn; [by rewrite Hc|].
  rewrite Hb. by rewrite IH.
Qed.

Lemma skip_spaces_word w s : word_ok w -> skip_spaces (w ++ s) = w ++ s.
Proof.
  intros (Hne & _ & Hw). destruct w as [|b w]; [done|]. apply Forall_cons in Hw as [[_ Hb] _].
  cbn. by rewrite Hb.
Qed.

Lemma sscanf_step w c s b bufs : word_ok w -> isspace c = true ->
  sscanf_words (w ++ c :: s) (b :: bufs) = (r ← sscanf_words (c :: s) bufs; Ok (Some w :: r)).
Proof.
  intros Hw Hc. cbn [sscanf_words]. rewrite skip_spaces_word by done.
  pose proof Hw as (Hne & Hlen & Hall). rewrite word_app by done.
  destruct w as [|x w]; [done|]. by rewrite decide_False by lia.
Qed.

Lemma sscanf_space c s bufs : isspace c = true -> sscanf_words (c :: s) bufs = sscanf_words s bufs.
Proof. intros Hc. destruct bufs as [|b bufs]; [done|]. cbn [sscanf_words skip_spaces]. by rewrite Hc. Qed.

Lemma sscanf_row r bufs : row_ok r -> length bufs = 4%nat ->
  sscanf_words (print_row r) bufs = Ok [Some (w_dest r); Some (w_gw r); Some (w_mask r); Some (w_if r)].
Proof.
  intros (H1 & H2 & H3 & H4) Hlen. destruct bufs as [|b1 [|b2 [|b3 [|b4 [|]]]]]; try done.
  unfold print_row. repeat (rewrite sscanf_step by done; rewrite ?sscanf_space by done). done.
Qed.

(** A line of a file that holds the words of a row, whatever the spaces. *)
Definition row_line (r : row) (line : list Z) : Prop :=
  is_str line /\ zlen line < BUFSIZ /\ (exists s, line = s ++ [10] /\ Forall (fun c => c <> 10) s) /\
  word_ok (w_if r) /\
  forall bufs, length bufs = 4%nat ->
    sscanf_words line bufs = Ok [Some (w_dest r); Some (w_gw r); Some (w_mask r); Some (w_if r)].

Lemma word_no_newline w : word_ok w -> Forall (fun c => c <> 10) w.
Proof.
  intros (_ & _ & Hw). eapply Forall_impl; [exact Hw|]. intros c [_ Hc] ->. vm_compute in Hc. done.
Qed.
Lemma word_is_str w : word_ok w -> is_str w.
Proof. intros (_ & _ & Hw). eapply Forall_impl; [exact Hw|]. by intros c [Hc _]. Qed.

Lemma fgets_line n s rest : Forall (fun c => c <> 10) s -> (length s < n)%nat ->
  fgets n (s ++ 10 :: rest) = (s ++ [10], rest).
Proof.
  intros Hs. revert n. induction Hs as [|c s Hc Hs IH]; intros n Hn;
    (destruct n as [|n]; [cbn in Hn; lia|]); cbn [fgets app].
  - by rewrite decide_True by done.
  - rewrite decide_False by done. rewrite IH by (cbn in Hn; lia). done.
Qed.

Lemma fgets_row r line rest : row_line r line -> fgets (Z.to_nat (BUFSIZ - 1)) (line ++ rest) = (line, rest).
Proof.
  intros (_ & Hlen & (s & -> & Hs) & _). rewrite <- app_assoc. cbn [app].
  rewrite length_app in Hlen. cbn [length] in Hlen. apply fgets_line; [done|unfold BUFSIZ in *; lia].
Qed.

Lemma row_is_str r : row_ok r -> is_str (print_row r).
Proof.
  intros (H1 & H2 & H3 & H4). unfold print_row, is_str.
  rewrite Forall_app, Forall_cons, Forall_app, Forall_cons, Forall_app, Forall_cons, Forall_app.
  apply word_is_str in H1, H2, H3, H4. unfold is_str in *. split_and!; try done. by apply Forall_singleton.
Qed.

Lemma row_line_print r : row_ok r -> row_line r (print_row r).
Proof.
  intros Hr. split; [by apply row_is_str|]. pose proof Hr as (H1 & H2 & H3 & H4). split; [|split; [|split; [done|]]].
  - unfold print_row. repeat (rewrite length_app; cbn [length]).
    destruct H1 as (_ & ? & _), H2 as (_ & ? & _), H3 as (_ & ? & _), H4 as (_ & ? & _). unfold BUFSIZ. lia.
  - exists (w_dest r ++ 32 :: w_gw r ++ 32 :: w_mask r ++ 32 :: w_if r). split.
    + unfold print_row. by repeat (rewrite <- app_assoc; cbn [app]).
    + pose proof (word_no_newline _ H1). pose proof (word_no_newline _ H2).
      pose proof (word_no_newline _ H3). pose proof (word_no_newline _ H4).
      repeat (apply Forall_app_2; [done|]; apply Forall_cons; split; [done|]). done.
  - intros bufs Hb. by apply sscanf_row.
Qed.

Lemma print_row_lines rows : Forall row_ok rows -> Forall2 row_line rows (print_row <$> rows).
Proof. induction 1; cbn; constructor; [by apply row_line_print|done]. Qed.

Section loading.
Context (inet_aton : list Z -> option Z).

(** The route a row describes. *)
Definition row_route (r : row) : option route :=
  d ← inet_aton (w_dest r); g ← inet_aton (w_gw r); m ← inet_aton (w_mask r);
  Some (Route d g m (w_if r)).

(** The routes before the first row that does not parse, and the result. *)
Fixpoint parse_rows (rows : list row) : list route * Z :=
  match rows with
  | [] => ([], 0)
  | r :: rows =>
      match row_route r with
      | None => ([], -1)
      | Some v => let '(vs, code) := parse_rows rows in (v :: vs, code)
      end
  end.

Lemma load_line_ok r line bufs clear t vs rest :
  row_line r line -> length bufs = 4%nat -> rt_rep t vs rest ->
  exists bufs' o, load_line inet_aton line bufs clear t = Ok (bufs', o) /\ length bufs' = 4%nat /\
    match row_route r with
    | None => o = None
    | Some v => exists t', o = Some t' /\
        rt_rep t' ((if clear then vs else []) ++ [v]) (if clear then rest else cells (rts t))
    end.
Proof.
  intros (Hstr & _ & _ & H4 & Hscan) Hb Hrep. unfold load_line. rewrite c_str_id by done.
  rewrite Hscan by done. cbn [mbind run_bind]. unfold row_route, rt_buf.
  cbn [lookup list_lookup default id need mbind run_bind]. exists [Some (w_dest r); Some (w_gw r); Some (w_mask r); Some (w_if r)].
  destruct (inet_aton (w_dest r)) as [d|]; [|eexists; split; [reflexivity|done]].
  destruct (inet_aton (w_gw r)) as [g|]; [|eexists; split; [reflexivity|done]].
  destruct (inet_aton (w_mask r)) as [m|]; [|eexists; split; [reflexivity|done]].
  pose proof H4 as (_ & Hlen & _).
  set (t0 := if clear then t else Rtable NULL (rts t)).
  assert (rt_rep t0 (if clear then vs else []) (if clear then rest else cells (rts t))) as Hrep0.
  { unfold t0. destruct clear; [done|]. exists []. split; [done|]. split; [done|].
    apply owning_empty. by destruct Hrep as (l & _ & _ & Hwf & _). }
  destruct (add_rt_entry_ok t0 _ _ d g m (w_if r) Hrep0) as (t' & Ht' & Hrep'); [by apply word_is_str|].
  rewrite Ht'. cbn [mbind run_bind]. eexists. split; [reflexivity|]. split; [done|].
  exists t'. split; [done|]. cbn. rewrite (take_ge (w_if r)) in Hrep' by lia. exact Hrep'.
Qed.

Lemma load_text_ok rows lines : Forall2 row_line rows lines -> forall fuel bufs clear t vs rest,
  length bufs = 4%nat -> rt_rep t vs rest -> (length (concat lines) <= fuel)%nat ->
  exists t' rest', load_lines inet_aton fuel (concat lines) bufs clear t = Ok ((parse_rows rows).2, t') /\
    rt_rep t' (match (parse_rows rows).1 with
               | [] => vs
               | news => (if clear then vs else []) ++ news end) rest'.
Proof.
  induction 1 as [|r line rows lines Hr _ IH]; intros fuel bufs clear t vs rest Hb Hrep Hf.
  { exists t, rest. by destruct fuel. }
  cbn [concat] in Hf |- *. rewrite length_app in Hf.
  assert (1 <= length line)%nat as Hl1.
  { destruct Hr as (_ & _ & (s & -> & _) & _). rewrite length_app. cbn. lia. }
  destruct fuel as [|fuel]; [lia|].
  assert (exists c s, line ++ concat lines = c :: s) as (c & s & Hcs) by (destruct line; cbn in *; [lia|eauto]).
  cbn [load_lines]. rewrite Hcs, <- Hcs, (fgets_row r) by done.
  destruct (load_line_ok r line bufs clear t vs rest Hr Hb Hrep) as (bufs' & o & -> & Hb' & Ho).
  cbn [mbind run_bind parse_rows]. destruct (row_route r) as [v|].
  - destruct Ho as (t1 & -> & Hrep1).
    destruct (IH fuel bufs' true t1 _ _ Hb' Hrep1) as (t' & rest' & Hrun & Hrep'); [lia|].
    exists t', rest'. rewrite Hrun. destruct (parse_rows rows) as [news code]. cbn [fst snd] in *.
    split; [done|]. destruct news as [|n news]; [done|]. by rewrite <- app_assoc in Hrep'.
  - rewrite Ho. exists t, rest. done.
Qed.

Lemma load_lines_ok rows fuel bufs clear t vs rest :
  Forall row_ok rows -> length bufs = 4%nat -> rt_rep t vs rest ->
  (length (concat (print_row <$> rows)) <= fuel)%nat ->
  exists t' rest', load_lines inet_aton fuel (concat (print_row <$> rows)) bufs clear t
      = Ok ((parse_rows rows).2, t') /\
    rt_rep t' (match (parse_rows rows).1 with
               | [] => vs
               | news => (if clear then vs else []) ++ news end) rest'.
Proof. intros Hok. by apply load_text_ok, print_row_lines. Qed.

(** C13: loading a printed routing table.  For a file of rows of four words
    (shorter than 32 bytes, as the buffers require), [sr_load_rt] returns 0
    and replaces the table by exactly the routes of the rows, in order; if
    some row holds an address [inet_aton] rejects, it returns -1 and the
    table holds the routes before that row, or is unchanged if there are
    none.  A file that cannot be read returns -1. *)
Theorem load_rt_roundtrip t vs rest rows :
  rt_rep t vs rest -> Forall row_ok rows ->
  sr_load_rt inet_aton t None = Ok (-1, t) /\
  exists t' rest', sr_load_rt inet_aton t (Some (concat (print_row <$> rows)))
      = Ok ((parse_rows rows).2, t') /\
    rt_rep t' (match (parse_rows rows).1 with [] => vs | news => news end) rest'.
Proof.
  intros Hrep Hok. split; [done|].
  destruct (load_lines_ok rows (length (concat (print_row <$> rows))) (replicate 4 None) false t vs rest)
    as (t' & rest' & Hrun & Hrep'); [done|done|done|lia|].
  exists t', rest'. split; [exact Hrun|]. by destruct (parse_rows rows).1.
Qed.
End loading.

(** ** The consistency check *)

(** An interface with the route's interface name, to 32 bytes. *)
Definition has_iface (ifv : list (positive * iface)) (v : route) : bool :=
  existsb (fun i => bool_decide (take 32 (i_name i.2) = take 32 (r_if v))) ifv.

Lemma list_find_existsb {A} (P : A -> bool) (l : list A) :
  (exists z, list_find (fun x => P x = true) l = Some z) <-> existsb P l = true.
Proof.
  rewrite existsb_exists. split.
  - intros [[i x] Hf]. apply list_find_Some in Hf as (Hi & Hp & _). exists x.
    split; [|done]. apply list_elem_of_In. by eapply list_elem_of_lookup_2.
  - intros (x & Hin & Hp). apply list_elem_of_In in Hin.
    destruct (list_find_elem_of (fun x => P x = true) l x Hin Hp) as [z Hz]. by exists z.
Qed.

Lemma count_missing_ok t ifv irest fuel h p l ret :
  if_rep t ifv irest -> linked rt_next p l NULL ->
  (forall b y, (b, y) ∈ l -> hload h (Some b) = Ok y) -> (length l <= fuel)%nat ->
  0 <= ret -> ret + zlen l < 2 ^ 31 ->
  count_missing fuel h p t ret
  = Ok (ret + zlen (filter (fun v => has_iface ifv v = false) (rt_view <$> l))).
Proof.
  intros Hif. revert fuel p ret. induction l as [|[b y] l IH]; intros fuel p ret Hlk Hld Hf Hret Hmax.
  - cbn in Hlk. subst p. destruct fuel; cbn; by rewrite Z.add_0_r.
  - cbn in Hlk. destruct Hlk as [-> Hlk]. destruct fuel as [|fuel]; [cbn in Hf; lia|].
    cbn [count_missing]. rewrite (Hld b y) by (by left). cbn [mbind run_bind].
    set (P i := bool_decide (take 32 (i_name i) = take 32 (r_if (rt_view (b, y))))).
    rewrite (find_if_ok t ifv irest _ P (fun _ => True) Hif);
      [|by intros x _|by apply Forall_true].
    cbn [mbind run_bind fmap list_fmap]. rewrite filter_cons.
    pose proof (list_find_existsb (fun v => P v.2) ifv) as Hex. change (existsb _ ifv) with (has_iface ifv (rt_view (b, y))) in Hex.
    cbn [length] in Hmax, Hf.
    assert (forall c z, (c, z) ∈ l -> hload h (Some c) = Ok z) as Hld'
      by (intros c z Hin; apply Hld; by right).
    destruct (list_find (fun v => P v.2 = true) ifv) as [[i z]|] eqn:Hfind; cbn [fmap option_fmap option_map].
    + assert (has_iface ifv (rt_view (b, y)) = true) as -> by (apply Hex; by exists (i, z)).
      rewrite !decide_False by done. cbn [mbind run_bind]. apply IH; (done || lia).
    + destruct (has_iface ifv (rt_view (b, y))).
      { destruct (proj2 Hex eq_refl) as [w Hw]. done. }
      rewrite !decide_True by done. unfold i32. rewrite decide_True by lia. cbn [mbind run_bind].
      rewrite IH by (done || lia). f_equal. cbn [length]. lia.
Qed.

(** [sr_verify_routing_table] returns 999 when the interface list or the
    routing table is empty, and otherwise the number of routes whose
    interface is not in the list: 0 exactly when all of them are. *)
Theorem verify_routing_table_correct t ifv irest rt vs rest :
  if_rep t ifv irest -> rt_rep rt vs rest -> zlen vs < 2 ^ 31 ->
  sr_verify_routing_table t rt
    = Ok (if decide (ifv = [] \/ vs = []) then 999
          else zlen (filter (fun v => has_iface ifv v = false) vs)) /\
  (ifv <> [] -> vs <> [] ->
     (sr_verify_routing_table t rt = Ok 0 <-> Forall (fun v => has_iface ifv v = true) vs)).
Proof.
  intros Hif (l & -> & Hlk & Ho) Hmax. rewrite length_fmap in Hmax.
  assert (sr_verify_routing_table t rt
    = Ok (if decide (ifv = [] \/ rt_view <$> l = []) then 999
          else zlen (filter (fun v => has_iface ifv v = false) (rt_view <$> l)))) as Heq.
  { unfold sr_verify_routing_table.
    assert (if_list t = NULL <-> ifv = []) as Hi.
    { destruct Hif as (k & -> & Hk & _). destruct k as [|[a x] k]; cbn in Hk; [done|].
      destruct Hk as [-> _]. done. }
    assert (routing_table rt = NULL <-> rt_view <$> l = []) as Hr.
    { destruct l as [|[a x] k]; cbn in Hlk; [done|]. destruct Hlk as [-> _]. done. }
    rewrite (decide_ext _ (ifv = [] \/ rt_view <$> l = [])) by (by rewrite Hi, Hr).
    case_decide; [done|].
    rewrite (count_missing_ok t ifv irest _ _ _ l) ; [done|done|done| | |lia|lia].
    - intros b y Hin. by apply (owning_load _ _ _ _ _ Ho).
    - apply (owning_size _ _ _ Ho). }
  split; [done|]. intros Hne1 Hne2. rewrite Heq, decide_False by naive_solver.
  transitivity (filter (fun v => has_iface ifv v = false) (rt_view <$> l) = []).
  - split; [intros [= Hz]; by apply length_zero_iff_nil; lia|intros ->; done].
  - rewrite Forall_forall. split.
    + intros Hnil v Hv. destruct (has_iface ifv v) eqn:Hh; [done|]. exfalso.
      apply (not_elem_of_nil v). rewrite <- Hnil. apply list_elem_of_filter. done.
    + intros Hall. destruct (filter _ _) as [|v k] eqn:Hk; [done|]. exfalso.
      assert (v ∈ filter (fun v => has_iface ifv v = false) (rt_view <$> l)) as Hv
        by (rewrite Hk; by left).
      apply list_elem_of_filter in Hv as [Hv Hin]. rewrite (Hall v Hin) in Hv. done.
Qed.

(** ** Longest-prefix match *)

(** The condition the search tests, on a route. *)
Definition lpm_match (dest_ip : Z) (v : route) : bool :=
  bool_decide (dest_ip = Z.land (r_mask v) (r_dest v)) && bool_decide (r_mask v > 0).

Lemma lpm_walk_ok fuel h dest_ip p l m o :
  linked rt_next p l NULL -> (forall b y, (b, y) ∈ l -> hload h (Some b) = Ok y) ->
  (length l <= fuel)%nat -> 0 <= m ->
  exists m' o', lpm_walk fuel h dest_ip p m o = Ok (m', o') /\ m <= m' /\
    (m' > 0 <-> m > 0 \/ existsb (lpm_match dest_ip) (rt_view <$> l) = true) /\
    (m' = m -> o' = o).
Proof.
  revert fuel p m o. induction l as [|[b y] l IH]; intros fuel p m o Hlk Hld Hf Hm.
  - cbn in Hlk. subst p. exists m, o. split; [by destruct fuel|]. cbn. split; [lia|].
    split; [|done]. split; [by left|intros [?|?]; done].
  - cbn in Hlk. destruct Hlk as [-> Hlk]. destruct fuel as [|fuel]; [cbn in Hf; lia|].
    cbn [lpm_walk fmap list_fmap existsb]. rewrite (Hld b y) by (by left). cbn [mbind run_bind].
    assert (forall c z, (c, z) ∈ l -> hload h (Some c) = Ok z) as Hld'
      by (intros c z Hin; apply Hld; by right).
    cbn [length] in Hf.
    change (lpm_match dest_ip (rt_view (b, y)))
      with (bool_decide (dest_ip = Z.land (mask y) (dest y)) && bool_decide (mask y > 0)).
    case_decide as Hc.
    + destruct Hc as [Heq Hgt].
      destruct (IH fuel (rt_next y) (mask y) (Some (Some b)) Hlk Hld') as (m' & o' & -> & Hle & Hiff & Ho);
        [lia|lia|].
      exists m', o'. split; [done|]. split; [lia|]. rewrite bool_decide_true by done.
      rewrite bool_decide_true by lia. cbn. split; [|lia]. split; [by right|lia].
    + destruct (IH fuel (rt_next y) m o Hlk Hld') as (m' & o' & -> & Hle & Hiff & Ho); [lia|lia|].
      exists m', o'. split; [done|]. split; [done|]. split; [|done]. rewrite Hiff, orb_true_iff.
      rewrite andb_true_iff, !bool_decide_eq_true. intuition lia.
Qed.

(** [find_rt_dest] never returns a route.  If some route passes its test
    it returns NULL, since the final check is inverted; and if none does it
    returns a pointer it never initialised. *)
Theorem find_rt_dest_never_finds t vs rest dest_ip :
  rt_rep t vs rest ->
  find_rt_dest t dest_ip
  = if existsb (lpm_match dest_ip) vs then Ok NULL else Crash Uninit.
Proof.
  intros (l & -> & Hlk & Ho). unfold find_rt_dest.
  destruct (lpm_walk_ok (rt_fuel t) (rts t) dest_ip (routing_table t) l 0 None)
    as (m & o & -> & Hle & Hiff & Hnone); [done| | |lia|].
  - intros b y Hin. by apply (owning_load _ _ _ _ _ Ho).
  - apply (owning_size _ _ _ Ho).
  - cbn [mbind run_bind]. destruct (existsb (lpm_match dest_ip) (rt_view <$> l)).
    + rewrite decide_True by (assert (m > 0) by (apply Hiff; by right); lia). done.
    + assert (m = 0) as -> by (destruct (decide (m = 0)); [done|]; exfalso;
        assert (m > 0) as Hm by lia; apply Hiff in Hm as [Hm|Hm]; [lia|done]).
      rewrite decide_False by lia. by rewrite Hnone.
Qed.

(** ** Two routes *)

Definition sample_rows : list row :=
  [Row (bytes_of "10.0.0.0") (bytes_of "10.0.1.1") (bytes_of "255.0.0.0") (bytes_of "eth0");
   Row (bytes_of "10.1.0.0") (bytes_of "10.0.1.2") (bytes_of "255.255.0.0") (bytes_of "eth1")].

(** Enough of [inet_aton] for the sample. *)
Definition sample_aton (s : list Z) : option Z :=
  if decide (s = bytes_of "10.0.0.0") then Some 0x0000000a
  else if decide (s = bytes_of "10.0.1.1") then Some 0x0101000a
  else if decide (s = bytes_of "255.0.0.0") then Some 0x000000ff
  else if decide (s = bytes_of "10.1.0.0") then Some 0x0000010a
  else if decide (s = bytes_of "10.0.1.2") then Some 0x0201000a
  else if decide (s = bytes_of "255.255.0.0") then Some 0x0000ffff else None.

Definition sample_routes : list route :=
  [Route 0x0000000a 0x0101000a 0x000000ff (bytes_of "eth0");
   Route 0x0000010a 0x0201000a 0x0000ffff (bytes_of "eth1")].

Lemma empty_rt_rep : rt_rep (Rtable NULL empty_heap) [] ∅.
Proof. exists []. split; [done|]. split; [done|]. apply owning_empty, heap_wf_empty. Qed.

Definition sample_rt : rtable :=
  Rtable (Some 1%positive)
    (Heap (<[1%positive := SrRt 0x0000000a 0x0101000a 0x000000ff (strncpy (bytes_of "eth0") 32) (Some 2%positive)]>
           {[2%positive := SrRt 0x0000010a 0x0201000a 0x0000ffff (strncpy (bytes_of "eth1") 32) NULL]}) 3).

Lemma sample_rt_rep : rt_rep sample_rt sample_routes ∅.
Proof.
  exists [(1%positive, SrRt 0x0000000a 0x0101000a 0x000000ff (strncpy (bytes_of "eth0") 32) (Some 2%positive));
          (2%positive, SrRt 0x0000010a 0x0201000a 0x0000ffff (strncpy (bytes_of "eth1") 32) NULL)].
  split; [vm_compute; reflexivity|]. split; [done|]. split_and!.
  - intros x [y Hx]. cbn in Hx. rewrite lookup_insert_Some, lookup_singleton_Some in Hx. cbn.
    destruct Hx as [[<- _]|[_ [<- _]]]; lia.
  - apply NoDup_cons. split; [by rewrite list_elem_of_singleton|by apply NoDup_singleton].
  - apply map_disjoint_empty_r.
  - vm_compute. reflexivity.
Qed.

Lemma sample_word_ok w : bool_decide (w <> []) && bool_decide (zlen w < 32) &&
  forallb (fun c => negb (c =? 0) && negb (isspace c)) w = true -> word_ok w.
Proof.
  rewrite !andb_true_iff, !bool_decide_eq_true, forallb_forall. intros [[H1 H2] H3].
  split_and!; [done|done|]. apply Forall_forall. intros c Hc. apply list_elem_of_In in Hc.
  specialize (H3 c Hc). apply andb_true_iff in H3 as [H3 H4]. split.
  - intros ->. done.
  - by destruct (isspace c).
Qed.

Lemma load_rt_roundtrip_witness :
  exists t' rest', sr_load_rt sample_aton (Rtable NULL empty_heap)
      (Some (bytes_of "10.0.0.0 10.0.1.1 255.0.0.0 eth0" ++ [10] ++
             bytes_of "10.1.0.0 10.0.1.2 255.255.0.0 eth1" ++ [10])) = Ok (0, t') /\
    rt_rep t' sample_routes rest'.
Proof.
  apply (load_rt_roundtrip sample_aton (Rtable NULL empty_heap) [] ∅ sample_rows empty_rt_rep).
  repeat (apply Forall_cons_2; [split_and!; apply sample_word_ok; vm_compute; reflexivity|]).
  apply Forall_nil_2.
Defined.

(** The second route uses an interface the router does not have. *)
Lemma verify_routing_table_correct_witness :
  exists t, if_rep t [(1%positive, Iface (bytes_of "eth0") None None)] ∅ /\
    sr_verify_routing_table t sample_rt = Ok 1.
Proof.
  set (t := Interfaces (Some 1%positive)
    (Heap {[1%positive := SrIf (strncpy (bytes_of "eth0") 32) None None None NULL]} 2)).
  assert (Hif : if_rep t [(1%positive, Iface (bytes_of "eth0") None None)] ∅).
  { exists [(1%positive, SrIf (strncpy (bytes_of "eth0") 32) None None None NULL)].
    split; [done|]. split; [done|]. split_and!.
    - intros x [y Hx]. cbn in Hx. apply lookup_singleton_Some in Hx as [<- _]. done.
    - by apply NoDup_singleton.
    - apply map_disjoint_empty_r.
    - done. }
  exists t. split; [exact Hif|].
  rewrite (proj1 (verify_routing_table_correct t _ ∅ sample_rt sample_routes ∅ Hif sample_rt_rep
    ltac:(reflexivity))). reflexivity.
Defined.

Lemma find_rt_dest_never_finds_witness :
  find_rt_dest sample_rt 0x0000010a = Ok NULL /\ find_rt_dest sample_rt 0x0100010a = Crash Uninit.
Proof.
  split.
  - rewrite (find_rt_dest_never_finds sample_rt sample_routes ∅ _ sample_rt_rep). reflexivity.
  - rewrite (find_rt_dest_never_finds sample_rt sample_routes ∅ _ sample_rt_rep). reflexivity.
Defined.
