(* ===== verification/SrDumper.v ===== *)
(** * The packet log of the router

    Models [Assignment2/src/router/sr_dumper.c] and [sr_log_packet] of
    [sr_vns_comm.c], which store packets in the savefile format of libpcap.
    Proved: a reader of that format gets back from the file the first 1024
    bytes of every packet logged, in order, with the times of logging, whatever
    the rest of the router does between two packets. *)

From S2P Require Import Prelude CString Layout.

(** The calls of [stdio.h], and [gettimeofday]; a file handle is a number.
    [lg_fwrite] is [fwrite] with one item, which may fail. *)
Class LogOS (W : Type) := {
  lg_stdout : Z;
  lg_fopen : list Z -> W -> option Z * W;   (* for writing *)
  lg_fwrite : Z -> list Z -> W -> bool * W;
  lg_fflush : Z -> W -> W;
  lg_fclose : Z -> W -> W;
  lg_gettimeofday : W -> (Z * Z) * W
}.

Definition PCAP_VERSION_MAJOR : Z := 2.
Definition PCAP_VERSION_MINOR : Z := 4.
Definition TCPDUMP_MAGIC : Z := 0xa1b2c3d4.
Definition LINKTYPE_ETHERNET : Z := 1.
Definition PACKET_DUMP_SIZE : Z := 1024.

Record pcap_file_header : Type := PcapFileHeader {
  magic : Z;   (* uint32_t *)
  version_major : Z;   (* uint16_t *)
  version_minor : Z;   (* uint16_t *)
  thiszone : Z;   (* int *)
  sigfigs : Z;   (* uint32_t *)
  snaplen : Z;   (* uint32_t *)
  linktype : Z   (* uint32_t *)
}.

(** [wire_len] is the field [len]. *)
Record pcap_pkthdr : Type := PcapPkthdr { ts : Z * Z; caplen : Z; wire_len : Z }.

(** How it is stored: the parts of [ts] are [int]s there. *)
Record pcap_sf_pkthdr : Type := PcapSfPkthdr {
  sf_tv_sec : Z;   (* int *)
  sf_tv_usec : Z;   (* int *)
  sf_caplen : Z;   (* uint32_t *)
  sf_len : Z   (* uint32_t *)
}.

(** Neither structure has padding. *)
Definition file_header_layout : layout pcap_file_header :=
  as_record (fun '(m, (v1, (v2, (z, (f, (n, l)))))) => PcapFileHeader m v1 v2 z f n l)
    (fun h => (magic h, (version_major h, (version_minor h, (thiszone h, (sigfigs h, (snaplen h, linktype h)))))))
    (pair_of (uint 4) (pair_of (uint 2) (pair_of (uint 2) (pair_of int32
      (pair_of (uint 4) (pair_of (uint 4) (uint 4))))))).

Definition sf_pkthdr_layout : layout pcap_sf_pkthdr :=
  as_record (fun '(s, (u, (c, l))) => PcapSfPkthdr s u c l)
    (fun h => (sf_tv_sec h, (sf_tv_usec h, (sf_caplen h, sf_len h))))
    (pair_of int32 (pair_of int32 (pair_of (uint 4) (uint 4)))).

Section code.
Context {W : Type} `{LogOS W}.

(** A failed write is only reported. *)
Definition sf_write_header (fp linktype thiszone snaplen : Z) (w : W) : W :=
  let hdr := PcapFileHeader TCPDUMP_MAGIC PCAP_VERSION_MAJOR PCAP_VERSION_MINOR thiszone 0 (u32 snaplen) (u32 linktype) in
  (lg_fwrite fp (enc file_header_layout hdr) w).2.

Definition sr_dump_open (fname : list Z) (thiszone snaplen : Z) (w : W) : option Z * W :=
  let '(fp, w) := if decide (fname = bytes_of "-") then (Some lg_stdout, w) else lg_fopen fname w in
  match fp with
  | None => (None, w)
  | Some fp => (Some fp, sf_write_header fp LINKTYPE_ETHERNET thiszone snaplen w)
  end.

Definition sr_dump (fp : Z) (h : pcap_pkthdr) (sp : list Z) (w : W) : run W :=
  let sf_hdr := PcapSfPkthdr (to_int (ts h).1) (to_int (ts h).2) (caplen h) (wire_len h) in
  let w := (lg_fwrite fp (enc sf_pkthdr_layout sf_hdr) w).2 in
  bytes ← slice sp 0 (Z.to_nat (caplen h));
  Ok (lg_fwrite fp bytes w).2.

Definition sr_dump_close (fp : Z) (w : W) : W := lg_fclose fp w.

(** [logfile] is the field of the router; [len] is an [int]. *)
Definition sr_log_packet (logfile : option Z) (buf : list Z) (len : Z) (w : W) : run W :=
  match logfile with
  | None => Ok w
  | Some fp =>
      let size := Z.min PACKET_DUMP_SIZE len in
      let '(t, w) := lg_gettimeofday w in
      let h := PcapPkthdr t (u32 size) (u32 (if decide (size < PACKET_DUMP_SIZE) then size else PACKET_DUMP_SIZE)) in
      w ← sr_dump fp h buf w;
      Ok (lg_fflush fp w)
  end.

(** In [main]: the field [logfile] for the argument of [-l], if it was given;
    [None] is [exit(1)]. *)
Definition open_log (logfile : option (list Z)) (w : W) : option (option Z) * W :=
  match logfile with
  | None => (Some None, w)
  | Some logfile =>
      let '(fp, w) := sr_dump_open logfile 0 PACKET_DUMP_SIZE w in
      (match fp with None => None | Some fp => Some (Some fp) end, w)
  end.

Definition sr_destroy_instance (logfile : option Z) (w : W) : W :=
  match logfile with Some fp => sr_dump_close fp w | None => w end.
End code.

(** ** The savefile format *)

#[export] Instance file_header_laws : LayoutLaws file_header_layout.
Proof. layout_laws. Qed.
#[export] Instance sf_pkthdr_laws : LayoutLaws sf_pkthdr_layout.
Proof. layout_laws. Qed.

(** The packets of a file, as a reader of the format finds them: a header says
    how many bytes follow it.  [None]: the file is cut off. *)
Fixpoint read_packets (fuel : nat) (bs : list Z) : option (list (pcap_sf_pkthdr * list Z)) :=
  match bs, fuel with
  | [], _ => Some []
  | _, O => None
  | _, S fuel =>
      if decide (length bs < size_of sf_pkthdr_layout)%nat then None else
      let h := dec sf_pkthdr_layout bs in
      let bs := drop (size_of sf_pkthdr_layout) bs in
      if decide (zlen bs < sf_caplen h) then None else
      cons (h, take (Z.to_nat (sf_caplen h)) bs) <$> read_packets fuel (drop (Z.to_nat (sf_caplen h)) bs)
  end.

(** A file in the byte order of the machine, in version 2.4. *)
Definition read_savefile (bs : list Z) : option (pcap_file_header * list (pcap_sf_pkthdr * list Z)) :=
  if decide (length bs < size_of file_header_layout)%nat then None else
  let h := dec file_header_layout bs in
  if decide (magic h = TCPDUMP_MAGIC /\ version_major h = 2 /\ version_minor h = 4) then
    pair h <$> read_packets (length bs) (drop (size_of file_header_layout) bs)
  else None.

(** What is stored for a packet logged at time [t]. *)
Definition record_of (t : Z * Z) (packet : list Z) : pcap_sf_pkthdr * list Z :=
  let data := take (Z.to_nat PACKET_DUMP_SIZE) packet in
  (PcapSfPkthdr (to_int t.1) (to_int t.2) (zlen data) (zlen data), data).

Definition record_bytes (r : pcap_sf_pkthdr * list Z) : list Z := enc sf_pkthdr_layout r.1 ++ r.2.

Definition record_ok (r : pcap_sf_pkthdr * list Z) : Prop :=
  fits sf_pkthdr_layout r.1 /\ sf_caplen r.1 = zlen r.2.

Lemma read_packets_ok rs : forall fuel, Forall record_ok rs ->
  (length (concat (record_bytes <$> rs)) <= fuel)%nat -> read_packets fuel (concat (record_bytes <$> rs)) = Some rs.
Proof.
  induction rs as [|[h d] rs IH]; intros fuel Hok Hf; [by destruct fuel|].
  apply Forall_cons in Hok as [[Hfit Hcap] Hok]. cbn [fmap list_fmap concat fst snd] in *.
  unfold record_bytes at 1 in Hf. unfold record_bytes at 1. cbn [fst snd] in *.
  pose proof (enc_length h Hfit) as Hl. rewrite !length_app in Hf. rewrite <- !app_assoc.
  assert (size_of sf_pkthdr_layout = 16%nat) as Hsz by reflexivity.
  destruct fuel as [|fuel]; [lia|].
  destruct (enc sf_pkthdr_layout h) as [|b e] eqn:He; [cbn in Hl; lia|]. cbn [read_packets app].
  rewrite app_comm_cons, <- He in *. rewrite decide_False by (rewrite length_app; lia).
  rewrite dec_enc by done. rewrite drop_app_length' by done. rewrite Hcap.
  rewrite decide_False by (rewrite length_app; lia). rewrite Nat2Z.id, take_app_length, drop_app_length.
  by rewrite IH by (done || lia).
Qed.

Lemma record_of_ok t packet : record_ok (record_of t packet).
Proof.
  split; [|done]. cbn [record_of fst]. assert (zlen (take (Z.to_nat PACKET_DUMP_SIZE) packet) <= 1024).
  { rewrite length_take. unfold PACKET_DUMP_SIZE. lia. }
  pose proof (to_int_range t.1). pose proof (to_int_range t.2).
  cbn [fits sf_pkthdr_layout as_record pair_of int32 uint fst snd sf_tv_sec sf_tv_usec sf_caplen sf_len]. lia.
Qed.

Lemma records_ok stamps packets : Forall record_ok (zip_with record_of stamps packets).
Proof.
  revert packets. induction stamps as [|t stamps IH]; intros [|p packets]; try by apply Forall_nil.
  cbn. apply Forall_cons. split; [apply record_of_ok|apply IH].
Qed.

(** What logging a packet does to the world. *)
Definition log_effect {W} `{LogOS W} (logfile : option Z) (packet : list Z) (w : W) : W :=
  match logfile with
  | None => w
  | Some fp =>
      let '(t, w) := lg_gettimeofday w in
      let '(h, data) := record_of t packet in
      lg_fflush fp (lg_fwrite fp data (lg_fwrite fp (enc sf_pkthdr_layout h) w).2).2
  end.

(** A packet in memory is always logged. *)
Lemma sr_log_packet_ok {W} `{LogOS W} logfile buf len (w : W) : 0 <= len <= zlen buf ->
  sr_log_packet logfile buf len w = Ok (log_effect logfile (take (Z.to_nat len) buf) w).
Proof.
  intros Hl. destruct logfile as [fp|]; [|done]. unfold sr_log_packet, sr_dump, log_effect.
  destruct (lg_gettimeofday w) as [t w1].
  set (size := Z.min PACKET_DUMP_SIZE len). assert (0 <= size <= 1024) as Hs by (unfold size, PACKET_DUMP_SIZE; lia).
  cbn [ts caplen wire_len]. assert ((if decide (size < PACKET_DUMP_SIZE) then size else PACKET_DUMP_SIZE) = size) as ->.
  { case_decide; [done|]. unfold PACKET_DUMP_SIZE in *. lia. }
  rewrite !(u32_small size) by lia. rewrite slice_ok by (unfold size; lia). run_step.
  unfold record_of. rewrite take_take, drop_0.
  replace (Z.to_nat PACKET_DUMP_SIZE `min` Z.to_nat len)%nat with (Z.to_nat size) by (unfold size; lia).
  assert (zlen (take (Z.to_nat size) buf) = size) as ->; [|done].
  rewrite length_take_le by (unfold size; lia). by rewrite Z2Nat.id by lia.
Qed.

(** ** The log of a run *)

(** A file gets the bytes written to it, in order; flushing and
    closing, and looking at the clock, leave their contents alone. *)
Class LogFile (W : Type) `{LogOS W} (stored : Z -> W -> list Z) : Prop := {
  stored_open fname w fp w' : lg_fopen fname w = (Some fp, w') -> stored fp w' = [];
  stored_write fp bytes w : stored fp (lg_fwrite fp bytes w).2 = stored fp w ++ bytes;
  stored_flush fp q w : stored fp (lg_fflush q w) = stored fp w;
  stored_close fp q w : stored fp (lg_fclose q w) = stored fp w;
  stored_time fp w : stored fp (lg_gettimeofday w).2 = stored fp w
}.

(** The router logs a packet, or does something else. *)
Inductive log_step (W : Type) : Type :=
| Logs (buf : list Z) (len : Z)
| Elsewhere (f : W -> W).
Arguments Logs {W} _ _.
Arguments Elsewhere {W} _.

Section log.
Context {W : Type} `{LogFile W}.

(** The times at which packets were logged, and the state then. *)
Fixpoint run_steps (logfile : option Z) (steps : list (log_step W)) (w : W) : run (list (Z * Z) * W) :=
  match steps with
  | [] => Ok ([], w)
  | Logs buf len :: steps =>
      w' ← sr_log_packet logfile buf len w;
      '(stamps, w'') ← run_steps logfile steps w';
      Ok ((lg_gettimeofday w).1 :: stamps, w'')
  | Elsewhere f :: steps => run_steps logfile steps (f w)
  end.

Definition logged (steps : list (log_step W)) : list (list Z) :=
  omap (fun s => match s with Logs buf len => Some (take (Z.to_nat len) buf) | Elsewhere _ => None end) steps.

Definition step_ok (fp : Z) (s : log_step W) : Prop :=
  match s with
  | Logs buf len => 0 <= len <= zlen buf
  | Elsewhere f => forall w, stored fp (f w) = stored fp w
  end.

Lemma log_packet_ok fp buf len w : 0 <= len <= zlen buf ->
  exists w', sr_log_packet (Some fp) buf len w = Ok w' /\
    stored fp w' = stored fp w ++ record_bytes (record_of (lg_gettimeofday w).1 (take (Z.to_nat len) buf)).
Proof.
  intros Hl. eexists. split; [by apply sr_log_packet_ok|]. unfold log_effect.
  pose proof (stored_time fp w) as Ht. destruct (lg_gettimeofday w) as [t w1]. cbn [fst snd] in *.
  destruct (record_of t _) as [h d]. by rewrite stored_flush, !stored_write, Ht, <- app_assoc.
Qed.

Lemma run_steps_ok fp steps : forall w, Forall (step_ok fp) steps ->
  exists stamps w', run_steps (Some fp) steps w = Ok (stamps, w') /\ length stamps = length (logged steps) /\
    stored fp w' = stored fp w ++ concat (record_bytes <$> zip_with record_of stamps (logged steps)).
Proof.
  induction steps as [|[buf len|f] steps IH]; intros w Hok.
  { exists [], w. cbn. by rewrite app_nil_r. }
  - apply Forall_cons in Hok as [Hs Hok]. destruct (log_packet_ok fp buf len w Hs) as (w1 & Hr & Hw1).
    destruct (IH w1 Hok) as (stamps & w2 & Hrun & Hlen & Hw2).
    exists ((lg_gettimeofday w).1 :: stamps), w2. cbn [run_steps]. rewrite Hr. run_step. rewrite Hrun.
    split; [done|]. cbn [logged omap list_omap length zip_with fmap list_fmap concat].
    split; [by rewrite Hlen|]. rewrite Hw2, Hw1, <- app_assoc. done.
  - apply Forall_cons in Hok as [Hs Hok]. destruct (IH (f w) Hok) as (stamps & w2 & Hrun & Hlen & Hw2).
    exists stamps, w2. split; [done|]. split; [done|]. by rewrite Hw2, Hs.
Qed.

(** C23: the file that [-l] names can be read by any reader of the
    savefile format: after any sequence of [sr_log_packet]s of packets that are
    in memory, interleaved with anything that leaves the file alone, it holds
    a header for Ethernet frames cut at 1024 bytes and, in order, the first
    1024 bytes of every packet with the time it was logged, also after
    [sr_destroy_instance] has closed it; the length on the
    wire that is noted for it is the length stored.  No call fails.  Without a
    log file nothing is done; a negative length, which the [unsigned] lengths
    of the callers can turn into, reads outside the packet. *)
Theorem dump_readable fname steps w fp w1 :
  fname <> bytes_of "-" -> open_log (Some fname) w = (Some (Some fp), w1) -> Forall (step_ok fp) steps ->
  (exists stamps w2, run_steps (Some fp) steps w1 = Ok (stamps, w2) /\ length stamps = length (logged steps) /\
    read_savefile (stored fp (sr_destroy_instance (Some fp) w2))
    = Some (PcapFileHeader 0xa1b2c3d4 2 4 0 0 1024 1, zip_with record_of stamps (logged steps))) /\
  (forall buf len w, sr_log_packet None buf len w = Ok w) /\
  (forall buf len w, - 2 ^ 31 <= len < 0 -> zlen buf < 2 ^ 31 -> sr_log_packet (Some fp) buf len w = Crash OutOfRange).
Proof.
  intros Hname Hopen Hok. split; [|split; [done|]].
  - unfold open_log, sr_dump_open in Hopen. rewrite decide_False in Hopen by done.
    destruct (lg_fopen fname w) as [[q|] w0] eqn:Hf; [|done]. injection Hopen as -> <-.
    pose proof (stored_open _ _ _ _ Hf) as Hnew.
    set (hdr := PcapFileHeader 0xa1b2c3d4 2 4 0 0 1024 1).
    assert (stored fp (sf_write_header fp LINKTYPE_ETHERNET 0 PACKET_DUMP_SIZE w0) = enc file_header_layout hdr) as H1
      by (unfold sf_write_header; rewrite stored_write, Hnew; reflexivity).
    destruct (run_steps_ok fp steps (sf_write_header fp LINKTYPE_ETHERNET 0 PACKET_DUMP_SIZE w0) Hok)
      as (stamps & w2 & Hrun & Hlen & Hw2).
    exists stamps, w2. split; [done|]. split; [done|].
    unfold sr_destroy_instance, sr_dump_close. rewrite stored_close, Hw2, H1. unfold read_savefile.
    assert (fits file_header_layout hdr) as Hfit by (cbn; lia).
    pose proof (enc_length hdr Hfit) as Hl. rewrite decide_False by (rewrite length_app; lia).
    rewrite dec_enc by done. rewrite decide_True by done. rewrite drop_app_length' by done.
    rewrite read_packets_ok; [done| |rewrite length_app; lia].
    apply records_ok.
  - intros buf len w' Hneg Hb. unfold sr_log_packet, sr_dump. destruct (lg_gettimeofday w') as [t w''].
    cbn [ts caplen]. rewrite Z.min_r by (unfold PACKET_DUMP_SIZE; lia).
    assert (u32 len = len + 2 ^ 32) as -> by (unfold u32; rewrite <- (Z.mod_add len 1) by lia; apply Z.mod_small; lia).
    cbv zeta. set (w3 := (lg_fwrite fp _ w'').2). unfold slice. rewrite decide_False by lia. reflexivity.
Qed.
End log.

(** ** A file in memory and a clock that ticks *)

Record toy_log : Type := ToyLog { file_bytes : list Z; clock : Z }.

#[global] Instance toy_log_os : LogOS toy_log := {|
  lg_stdout := 1;
  lg_fopen _ w := (Some 3, ToyLog [] (clock w));
  lg_fwrite _ b w := (true, ToyLog (file_bytes w ++ b) (clock w));
  lg_fflush _ w := w;
  lg_fclose _ w := w;
  lg_gettimeofday w := ((clock w, 0), ToyLog (file_bytes w) (clock w + 1))
|}.

#[global] Instance toy_log_file : LogFile toy_log (fun _ w => file_bytes w).
Proof. split; [by intros ? ? ? ? [= <- <-]|done..]. Qed.

Lemma dump_readable_witness :
  exists stamps w2,
    run_steps (Some 3)
      [Logs [1; 2; 3] 2; Elsewhere (fun w => ToyLog (file_bytes w) 9); Logs (replicate 1100 7) 1100]
      (open_log (Some (bytes_of "log")) (ToyLog [5] 4)).2 = Ok (stamps, w2) /\
    read_savefile (file_bytes (sr_destroy_instance (Some 3) w2))
    = Some (PcapFileHeader 0xa1b2c3d4 2 4 0 0 1024 1,
            [(PcapSfPkthdr 4 0 2 2, [1; 2]); (PcapSfPkthdr 9 0 1024 1024, replicate 1024 7)]).
Proof.
  destruct (dump_readable (stored := fun _ w => file_bytes w) (bytes_of "log")
    [Logs [1; 2; 3] 2; Elsewhere (fun w => ToyLog (file_bytes w) 9); Logs (replicate 1100 7) 1100]
    (ToyLog [5] 4) 3 (open_log (Some (bytes_of "log")) (ToyLog [5] 4)).2) as ((stamps & w2 & Hrun & _ & Hread) & _).
  - discriminate.
  - reflexivity.
  - repeat (apply Forall_cons; split); try apply Forall_nil_2; cbn; try lia; done.
  - exists stamps, w2. split; [exact Hrun|]. vm_compute in Hrun. injection Hrun as <- <-. exact Hread.
Defined.
