(* ===== verification/SrInstance.v ===== *)
(** * The router instance and the frames it sends

    Models [struct sr_instance] of [Assignment2/src/router/sr_router.h], the
    packet accessors the router uses, and [sr_send_packet] with its sanity
    check from [sr_vns_comm.c].  The server's socket and the files are an
    abstract world, with [write] and the calls of the packet log.  Proved: what
    [sr_send_packet] writes, and that it only logs a frame it refuses. *)

From S2P Require Import Prelude Heap CString ArpCache SrIf SrRt SrDumper.

(** [write(fd, bytes, n)] on a blocking stream socket: the count written, or
    a negative error; and what the packet log calls. *)
Class Server (W : Type) := { srv_log :: LogOS W; os_send : Z -> list Z -> W -> Z * W }.

(** Without the address of the server and the attributes of the threads, which
    only the start-up code reads. *)
Record sr_instance (W : Type) : Type := Instance {
  sockfd : Z;
  user : list Z;   (* char[32] *)
  host : list Z;   (* char[32] *)
  template : list Z;   (* char[30] *)
  topo_id : Z;   (* unsigned short *)
  if_list_of : interfaces;   (* if_list *)
  routing_table_of : rtable;   (* routing_table *)
  cache : sr_arpcache;
  logfile : option Z;   (* FILE*; None is NULL *)
  server : W   (* the other end of sockfd, and the files *)
}.
Arguments Instance {W}.
Arguments sockfd {W} _.
Arguments user {W} _.
Arguments host {W} _.
Arguments template {W} _.
Arguments topo_id {W} _.
Arguments if_list_of {W} _.
Arguments routing_table_of {W} _.
Arguments cache {W} _.
Arguments logfile {W} _.
Arguments server {W} _.

Section setters.
Context {W : Type}.
Definition set_if_list (v : interfaces) (sr : sr_instance W) : sr_instance W :=
  Instance (sockfd sr) (user sr) (host sr) (template sr) (topo_id sr) v (routing_table_of sr) (cache sr) (logfile sr) (server sr).
Definition set_sockfd (v : Z) (sr : sr_instance W) : sr_instance W :=
  Instance v (user sr) (host sr) (template sr) (topo_id sr) (if_list_of sr) (routing_table_of sr) (cache sr) (logfile sr) (server sr).
Definition set_cache (v : sr_arpcache) (sr : sr_instance W) : sr_instance W :=
  Instance (sockfd sr) (user sr) (host sr) (template sr) (topo_id sr) (if_list_of sr) (routing_table_of sr) v (logfile sr) (server sr).
Definition set_server (v : W) (sr : sr_instance W) : sr_instance W :=
  Instance (sockfd sr) (user sr) (host sr) (template sr) (topo_id sr) (if_list_of sr) (routing_table_of sr) (cache sr) (logfile sr) v.
Definition set_user (v : list Z) (sr : sr_instance W) : sr_instance W :=
  Instance (sockfd sr) v (host sr) (template sr) (topo_id sr) (if_list_of sr) (routing_table_of sr) (cache sr) (logfile sr) (server sr).
Definition set_host (v : list Z) (sr : sr_instance W) : sr_instance W :=
  Instance (sockfd sr) (user sr) v (template sr) (topo_id sr) (if_list_of sr) (routing_table_of sr) (cache sr) (logfile sr) (server sr).
Definition set_template (v : list Z) (sr : sr_instance W) : sr_instance W :=
  Instance (sockfd sr) (user sr) (host sr) v (topo_id sr) (if_list_of sr) (routing_table_of sr) (cache sr) (logfile sr) (server sr).
Definition set_topo_id (v : Z) (sr : sr_instance W) : sr_instance W :=
  Instance (sockfd sr) (user sr) (host sr) (template sr) v (if_list_of sr) (routing_table_of sr) (cache sr) (logfile sr) (server sr).
Definition set_routing_table (v : rtable) (sr : sr_instance W) : sr_instance W :=
  Instance (sockfd sr) (user sr) (host sr) (template sr) (topo_id sr) (if_list_of sr) v (cache sr) (logfile sr) (server sr).
Definition set_logfile (v : option Z) (sr : sr_instance W) : sr_instance W :=
  Instance (sockfd sr) (user sr) (host sr) (template sr) (topo_id sr) (if_list_of sr) (routing_table_of sr) (cache sr) v (server sr).
End setters.

(** ** Packet buffers *)

(** An integer field in the byte order of the machine. *)
Definition get_field (p : list Z) (off n : nat) : run Z := b ← slice p off n; Ok (le_val b).

(** ** Ethernet and ARP headers ([sr_protocol.h]) *)

Definition sizeof_ethernet : nat := 14.
Definition sizeof_arp : nat := 28.
Definition sizeof_ip : nat := 20.
Definition ethertype_arp : Z := 0x0806.
Definition ethertype_ip : Z := 0x0800.

(** ** [sr_vns_comm.c]: sending *)
Section send.
Context {W : Type} `{Server W}.
Abbreviation sr_instance := (sr_instance W).

Definition VNSPACKET : Z := 4.
Definition sizeof_packet_header : Z := 24.

Definition sr_ether_addrs_match_interface (sr : sr_instance) (buf nm : list Z) : run Z :=
  i ← sr_get_interface (if_list_of sr) nm;
  match i with
  | None => Ok 0
  | Some _ =>
      x ← hload (ifs (if_list_of sr)) i;
      shost ← slice buf 6 6;
      a ← need Uninit (addr x);
      Ok (if decide (shost = a) then 1 else 0)
  end.

(** [nm] is the interface name, a C string. *)
Definition sr_send_packet (sr : sr_instance) (buf : list Z) (len : Z) (nm : list Z)
    : run (Z * sr_instance) :=
  let total_len := u32 (len + sizeof_packet_header) in
  if decide (len < Z.of_nat sizeof_ethernet) then Ok (-1, sr) else
  body ← slice buf 0 (Z.to_nat len);
  let sr_pkt := be_bytes 4 total_len ++ be_bytes 4 VNSPACKET ++ strncpy nm 16 ++ body in
  w ← sr_log_packet (logfile sr) buf (to_int len) (server sr);
  let sr := set_server w sr in
  ok ← sr_ether_addrs_match_interface sr buf nm;
  if decide (ok = 0) then Ok (-1, sr) else
  let '(n, w) := os_send (sockfd sr) sr_pkt (server sr) in
  if decide (n < total_len) then Ok (-1, set_server w sr) else Ok (0, set_server w sr).
End send.

(** ** What is sent *)

(** The message for a frame. *)
Definition vns_packet (len : Z) (nm body : list Z) : list Z :=
  be_bytes 4 (len + 24) ++ be_bytes 4 VNSPACKET ++ strncpy nm 16 ++ body.

Definition named (nm : list Z) (vs : list (positive * iface)) : option iface :=
  (fun z => z.2.2) <$> list_find (fun v => bool_decide (take 32 (i_name v.2) = take 32 nm) = true) vs.

Section theorems.
Context {W : Type} `{Server W}.
Implicit Types sr : sr_instance W.

(** The router after the packet has been logged. *)
Definition logged_in sr (packet : list Z) : sr_instance W :=
  set_server (log_effect (logfile sr) packet (server sr)) sr.

Lemma sr_send_packet_ok sr vs rest buf len nm :
  if_rep (if_list_of sr) vs rest -> is_str nm -> 14 <= len <= zlen buf -> len < 2 ^ 31 ->
  let packet := take (Z.to_nat len) buf in
  let sr1 := logged_in sr packet in
  match named nm vs with
  | None => sr_send_packet sr buf len nm = Ok (-1, sr1)
  | Some v => forall m, i_addr v = Some m ->
      sr_send_packet sr buf len nm
      = Ok (if decide (take 6 (drop 6 buf) = m) then
              let '(n, w) := os_send (sockfd sr) (vns_packet len nm packet) (server sr1) in
              (if decide (n < len + 24) then -1 else 0, set_server w sr)
            else (-1, sr1))
  end.
Proof.
  intros Hif Hnm Hlen Hmax packet sr1. unfold sr_send_packet, sizeof_packet_header, sizeof_ethernet.
  rewrite (u32_small (len + 24)) by lia. rewrite decide_False by lia.
  rewrite slice_ok by lia. run_step. rewrite (to_int_small len) by lia. rewrite sr_log_packet_ok by lia. run_step.
  fold packet. fold (logged_in sr packet). fold sr1. unfold sr_ether_addrs_match_interface.
  change (if_list_of sr1) with (if_list_of sr).
  rewrite (get_interface_ok _ _ _ nm Hif Hnm). unfold named. cbn [mbind run_bind].
  destruct (list_find _ vs) as [[i [a v]]|] eqn:Hf; cbn [fmap option_fmap option_map fst snd]; [|done].
  intros m Hm. apply list_find_Some in Hf as (Hi & _).
  destruct (if_rep_load _ _ _ a v Hif) as (x & Hx & Hv); [by eapply list_elem_of_lookup_2|].
  rewrite Hx. cbn [mbind run_bind]. rewrite slice_ok by lia. cbn [mbind run_bind].
  rewrite Hv in Hm. cbn in Hm. rewrite Hm. cbn [need mbind run_bind].
  rewrite drop_0. destruct (decide (take 6 (drop 6 buf) = m)) as [Heq|Hne].
  - rewrite decide_False by done. unfold vns_packet. destruct (os_send _ _ _) as [n w]. by case_decide.
  - by rewrite decide_True by done.
Qed.

(** [sr_send_packet] on a frame of [len] bytes for the interface [nm].
    A frame shorter than an Ethernet header is refused with -1; one for an
    unknown interface and one whose source is not the interface's hardware
    address are also refused, but logged; otherwise the frame is logged and
    one message goes to the server,
    made of its length and type in network order, the name padded to 16 bytes
    and the frame, and the result is 0 unless the write was short. *)
Theorem send_packet_correct sr vs rest buf len nm :
  if_rep (if_list_of sr) vs rest -> is_str nm -> 0 <= len <= zlen buf -> len < 2 ^ 31 ->
  let packet := take (Z.to_nat len) buf in
  (len < 14 -> sr_send_packet sr buf len nm = Ok (-1, sr)) /\
  (14 <= len -> named nm vs = None -> sr_send_packet sr buf len nm = Ok (-1, logged_in sr packet)) /\
  (forall v m, 14 <= len -> named nm vs = Some v -> i_addr v = Some m ->
     (take 6 (drop 6 buf) <> m -> sr_send_packet sr buf len nm = Ok (-1, logged_in sr packet)) /\
     (take 6 (drop 6 buf) = m -> forall n w,
        os_send (sockfd sr) (be_bytes 4 (len + 24) ++ be_bytes 4 4 ++ strncpy nm 16 ++ packet)
          (server (logged_in sr packet)) = (n, w) ->
        sr_send_packet sr buf len nm = Ok (if decide (n < len + 24) then -1 else 0, set_server w sr))).
Proof.
  intros Hif Hnm Hlen Hmax packet. split_and!.
  - intros Hs. unfold sr_send_packet, sizeof_ethernet. by rewrite decide_True by lia.
  - intros Hl Hn. pose proof (sr_send_packet_ok sr vs rest buf len nm Hif Hnm ltac:(lia) Hmax) as Hs.
    cbv zeta in Hs. by rewrite Hn in Hs.
  - intros v m Hl Hn Hm. pose proof (sr_send_packet_ok sr vs rest buf len nm Hif Hnm ltac:(lia) Hmax) as Hs.
    cbv zeta in Hs. rewrite Hn in Hs. rewrite (Hs m Hm). split; [intros Hne; by rewrite decide_False|].
    intros Heq n w Hw. rewrite decide_True by done. unfold vns_packet, VNSPACKET. fold packet. by rewrite Hw.
Qed.
End theorems.

(** ** A server that records what it receives *)

(** A disk that keeps nothing. *)
#[global] Instance recording_log : LogOS (list (list Z)) := {|
  lg_stdout := 1;
  lg_fopen _ w := (Some 3, w);
  lg_fwrite _ _ w := (true, w);
  lg_fflush _ w := w;
  lg_fclose _ w := w;
  lg_gettimeofday w := ((0, 0), w)
|}.

#[global] Instance recording_server : Server (list (list Z)) := {|
  os_send _ bytes w := (zlen bytes, w ++ [bytes])
|}.

Definition sample_mac : list Z := [0x02; 0; 0; 0; 0; 0x01].
Definition sample_ip : Z := 0x0100000a.

(** A router with one interface, [eth0]. *)
Definition sample_router (c : sr_arpcache) : sr_instance (list (list Z)) :=
  Instance 3 (bytes_of "user" ++ [0]) (bytes_of "vrhost" ++ [0]) [0] 0
    (Interfaces (Some 1%positive)
      (Heap {[1%positive := SrIf (strncpy (bytes_of "eth0") 32) (Some sample_mac) (Some sample_ip) None NULL]} 2))
    sample_rt c None [].

Definition sample_ifaces : list (positive * iface) :=
  [(1%positive, Iface (bytes_of "eth0") (Some sample_mac) (Some sample_ip))].

Lemma sample_if_rep c : if_rep (if_list_of (sample_router c)) sample_ifaces ∅.
Proof.
  exists [(1%positive, SrIf (strncpy (bytes_of "eth0") 32) (Some sample_mac) (Some sample_ip) None NULL)].
  split; [done|]. split; [done|]. split_and!.
  - intros x [y Hx]. cbn in Hx. apply lookup_singleton_Some in Hx as [<- _]. done.
  - by apply NoDup_singleton.
  - apply map_disjoint_empty_r.
  - done.
Qed.

Lemma eth0_is_str : is_str (bytes_of "eth0").
Proof. apply (bool_decide_unpack (is_str (bytes_of "eth0"))). vm_compute. exact I. Qed.

Definition empty_cache : sr_arpcache := sr_arpcache_init (ArpCache [] NULL empty_heap empty_heap).

Lemma send_packet_correct_witness :
  sr_send_packet (sample_router empty_cache) (replicate 6 255 ++ sample_mac ++ [8; 0; 69]) 15 (bytes_of "eth0")
  = Ok (0, set_server [[0; 0; 0; 39; 0; 0; 0; 4] ++ strncpy (bytes_of "eth0") 16 ++
                       replicate 6 255 ++ sample_mac ++ [8; 0; 69]] (sample_router empty_cache)).
Proof.
  destruct (send_packet_correct (sample_router empty_cache) sample_ifaces ∅
    (replicate 6 255 ++ sample_mac ++ [8; 0; 69]) 15 (bytes_of "eth0") (sample_if_rep _) eth0_is_str)
    as (_ & _ & Hs); [cbn; lia|lia|].
  destruct (Hs (Iface (bytes_of "eth0") (Some sample_mac) (Some sample_ip)) sample_mac) as [_ Hok];
    [lia|reflexivity|reflexivity|].
  exact (Hok eq_refl 39 _ eq_refl).
Defined.
