(* ===== verification/Protocol.v ===== *)
(** * Protocol headers

    Models the structures of [Assignment2/src/router/sr_protocol.h] with their
    packed layouts.  Proved: every header is a bijection between its images in
    memory and the records whose fields are within their types, its image is
    that of its fields in their order, and what the router reads of a frame are
    the fields it means. *)

From S2P Require Import Prelude CString Layout SrInstance.

Definition ICMP_DATA_SIZE : nat := 28.
Definition ETHER_ADDR_LEN : nat := 6.
Definition IP_RF : Z := 0x8000.
Definition IP_DF : Z := 0x4000.
Definition IP_MF : Z := 0x2000.
Definition IP_OFFMASK : Z := 0x1fff.

Record sr_icmp_hdr : Type := SrIcmpHdr {
  icmp_type : Z;   (* uint8_t *)
  icmp_code : Z;   (* uint8_t *)
  icmp_sum : Z;   (* uint16_t *)
  unused : Z;   (* uint32_t *)
  data : list Z   (* uint8_t[ICMP_DATA_SIZE] *)
}.

Record sr_icmp_t3_hdr : Type := SrIcmpT3Hdr {
  t3_icmp_type : Z;   (* uint8_t *)
  t3_icmp_code : Z;   (* uint8_t *)
  t3_icmp_sum : Z;   (* uint16_t *)
  t3_unused : Z;   (* uint16_t *)
  next_mtu : Z;   (* uint16_t *)
  t3_data : list Z   (* uint8_t[ICMP_DATA_SIZE] *)
}.

Record sr_ip_hdr : Type := SrIpHdr {
  ip_hl : Z;   (* unsigned int : 4 *)
  ip_v : Z;   (* unsigned int : 4 *)
  ip_tos : Z;   (* uint8_t *)
  ip_len : Z;   (* uint16_t *)
  ip_id : Z;   (* uint16_t *)
  ip_off : Z;   (* uint16_t *)
  ip_ttl : Z;   (* uint8_t *)
  ip_p : Z;   (* uint8_t *)
  ip_sum : Z;   (* uint16_t *)
  ip_src : Z;   (* uint32_t *)
  ip_dst : Z   (* uint32_t *)
}.

Record sr_ethernet_hdr : Type := SrEthernetHdr {
  ether_dhost : list Z;   (* uint8_t[ETHER_ADDR_LEN] *)
  ether_shost : list Z;   (* uint8_t[ETHER_ADDR_LEN] *)
  ether_type : Z   (* uint16_t *)
}.

Record sr_arp_hdr : Type := SrArpHdr {
  ar_hrd : Z;   (* unsigned short *)
  ar_pro : Z;   (* unsigned short *)
  ar_hln : Z;   (* unsigned char *)
  ar_pln : Z;   (* unsigned char *)
  ar_op : Z;   (* unsigned short *)
  ar_sha : list Z;   (* unsigned char[ETHER_ADDR_LEN] *)
  ar_sip : Z;   (* uint32_t *)
  ar_tha : list Z;   (* unsigned char[ETHER_ADDR_LEN] *)
  ar_tip : Z   (* uint32_t *)
}.

(** ** Layouts *)

Definition icmp_layout : layout sr_icmp_hdr :=
  as_record (fun '(t, (c, (s, (u, d)))) => SrIcmpHdr t c s u d)
    (fun h => (icmp_type h, (icmp_code h, (icmp_sum h, (unused h, data h)))))
    (pair_of (uint 1) (pair_of (uint 1) (pair_of (uint 2) (pair_of (uint 4) (octets ICMP_DATA_SIZE))))).

Definition icmp_t3_layout : layout sr_icmp_t3_hdr :=
  as_record (fun '(t, (c, (s, (u, (m, d))))) => SrIcmpT3Hdr t c s u m d)
    (fun h => (t3_icmp_type h, (t3_icmp_code h, (t3_icmp_sum h, (t3_unused h, (next_mtu h, t3_data h))))))
    (pair_of (uint 1) (pair_of (uint 1) (pair_of (uint 2) (pair_of (uint 2) (pair_of (uint 2)
      (octets ICMP_DATA_SIZE)))))).

Definition ip_layout : layout sr_ip_hdr :=
  as_record (fun '((hl, v), (tos, (l, (i, (off, (ttl, (p, (s, (src, dst))))))))) => SrIpHdr hl v tos l i off ttl p s src dst)
    (fun h => ((ip_hl h, ip_v h), (ip_tos h, (ip_len h, (ip_id h, (ip_off h, (ip_ttl h, (ip_p h, (ip_sum h,
      (ip_src h, ip_dst h))))))))))
    (pair_of nibbles (pair_of (uint 1) (pair_of (uint 2) (pair_of (uint 2) (pair_of (uint 2) (pair_of (uint 1)
      (pair_of (uint 1) (pair_of (uint 2) (pair_of (uint 4) (uint 4)))))))))).

Definition ethernet_layout : layout sr_ethernet_hdr :=
  as_record (fun '(d, (s, t)) => SrEthernetHdr d s t) (fun h => (ether_dhost h, (ether_shost h, ether_type h)))
    (pair_of (octets ETHER_ADDR_LEN) (pair_of (octets ETHER_ADDR_LEN) (uint 2))).

Definition arp_layout : layout sr_arp_hdr :=
  as_record (fun '(hrd, (pro, (hln, (pln, (op, (sha, (sip, (tha, tip)))))))) => SrArpHdr hrd pro hln pln op sha sip tha tip)
    (fun h => (ar_hrd h, (ar_pro h, (ar_hln h, (ar_pln h, (ar_op h, (ar_sha h, (ar_sip h, (ar_tha h, ar_tip h)))))))))
    (pair_of (uint 2) (pair_of (uint 2) (pair_of (uint 1) (pair_of (uint 1) (pair_of (uint 2)
      (pair_of (octets ETHER_ADDR_LEN) (pair_of (uint 4) (pair_of (octets ETHER_ADDR_LEN) (uint 4))))))))).

#[export] Instance icmp_laws : LayoutLaws icmp_layout.
Proof. layout_laws. Qed.
#[export] Instance icmp_t3_laws : LayoutLaws icmp_t3_layout.
Proof. layout_laws. Qed.
#[export] Instance ip_laws : LayoutLaws ip_layout.
Proof. layout_laws. Qed.
#[export] Instance ethernet_laws : LayoutLaws ethernet_layout.
Proof. layout_laws. Qed.
#[export] Instance arp_laws : LayoutLaws arp_layout.
Proof. layout_laws. Qed.

(** ** Well-typed headers *)

Definition ethernet_ok (h : sr_ethernet_hdr) : Prop :=
  octets_ok 6 (ether_dhost h) /\ octets_ok 6 (ether_shost h) /\ u16_ok (ether_type h).
Definition arp_ok (h : sr_arp_hdr) : Prop :=
  u16_ok (ar_hrd h) /\ u16_ok (ar_pro h) /\ u8_ok (ar_hln h) /\ u8_ok (ar_pln h) /\ u16_ok (ar_op h) /\
  octets_ok 6 (ar_sha h) /\ u32_ok (ar_sip h) /\ octets_ok 6 (ar_tha h) /\ u32_ok (ar_tip h).
Definition ip_ok (h : sr_ip_hdr) : Prop :=
  (u4_ok (ip_hl h) /\ u4_ok (ip_v h)) /\ u8_ok (ip_tos h) /\ u16_ok (ip_len h) /\ u16_ok (ip_id h) /\
  u16_ok (ip_off h) /\ u8_ok (ip_ttl h) /\ u8_ok (ip_p h) /\ u16_ok (ip_sum h) /\ u32_ok (ip_src h) /\ u32_ok (ip_dst h).
Definition icmp_ok (h : sr_icmp_hdr) : Prop :=
  u8_ok (icmp_type h) /\ u8_ok (icmp_code h) /\ u16_ok (icmp_sum h) /\ u32_ok (unused h) /\ octets_ok 28 (data h).
Definition icmp_t3_ok (h : sr_icmp_t3_hdr) : Prop :=
  u8_ok (t3_icmp_type h) /\ u8_ok (t3_icmp_code h) /\ u16_ok (t3_icmp_sum h) /\ u16_ok (t3_unused h) /\
  u16_ok (next_mtu h) /\ octets_ok 28 (t3_data h).

(** ** The fields the router reads *)

(** A frame is an Ethernet header and, behind it, an ARP or an IP header, read
    in place: [((sr_ethernet_hdr_t* )packet)->ether_type] and so on.  Addresses
    that the router only copies are read as bytes. *)
Definition frame_ether_shost (packet : list Z) : run (list Z) := slice packet 6 6.
Definition frame_ether_type (packet : list Z) : run Z := get_field packet 12 2.

Definition frame_ar_op (packet : list Z) : run Z := get_field packet 20 2.
Definition frame_ar_sip (packet : list Z) : run (list Z) := slice packet 28 4.
Definition frame_ar_tha (packet : list Z) : run (list Z) := slice packet 32 6.
Definition frame_ar_tip (packet : list Z) : run Z := get_field packet 38 4.

Definition frame_ip_len (packet : list Z) : run Z := get_field packet 16 2.
Definition frame_ip_ttl (packet : list Z) : run Z := get_field packet 22 1.
Definition frame_ip_p (packet : list Z) : run Z := get_field packet 23 1.
Definition frame_ip_sum (packet : list Z) : run Z := get_field packet 24 2.
Definition frame_ip_dst (packet : list Z) : run Z := get_field packet 30 4.

(** The ICMP header is looked for where the IP header is. *)
Definition frame_icmp_type (packet : list Z) : run Z := get_field packet 14 1.

(** ** Images *)

(** The bytes of each header, field by field. *)
Definition ethernet_image (h : sr_ethernet_hdr) : list Z :=
  ether_dhost h ++ ether_shost h ++ le_bytes 2 (ether_type h).
Definition arp_image (h : sr_arp_hdr) : list Z :=
  le_bytes 2 (ar_hrd h) ++ le_bytes 2 (ar_pro h) ++ le_bytes 1 (ar_hln h) ++ le_bytes 1 (ar_pln h) ++
  le_bytes 2 (ar_op h) ++ ar_sha h ++ le_bytes 4 (ar_sip h) ++ ar_tha h ++ le_bytes 4 (ar_tip h).
Definition ip_image (h : sr_ip_hdr) : list Z :=
  [ip_v h * 16 + ip_hl h] ++ le_bytes 1 (ip_tos h) ++ le_bytes 2 (ip_len h) ++ le_bytes 2 (ip_id h) ++
  le_bytes 2 (ip_off h) ++ le_bytes 1 (ip_ttl h) ++ le_bytes 1 (ip_p h) ++ le_bytes 2 (ip_sum h) ++
  le_bytes 4 (ip_src h) ++ le_bytes 4 (ip_dst h).
Definition icmp_image (h : sr_icmp_hdr) : list Z :=
  le_bytes 1 (icmp_type h) ++ le_bytes 1 (icmp_code h) ++ le_bytes 2 (icmp_sum h) ++ le_bytes 4 (unused h) ++ data h.
Definition icmp_t3_image (h : sr_icmp_t3_hdr) : list Z :=
  le_bytes 1 (t3_icmp_type h) ++ le_bytes 1 (t3_icmp_code h) ++ le_bytes 2 (t3_icmp_sum h) ++
  le_bytes 2 (t3_unused h) ++ le_bytes 2 (next_mtu h) ++ t3_data h.

Lemma ip_image_enc h : ip_ok h -> enc ip_layout h = ip_image h.
Proof.
  intros [[Hl _] _]. unfold ip_layout, ip_image, nibbles. cbn [enc as_record pair_of uint fst snd].
  rewrite lor_shiftl_add by (unfold u4_ok in Hl; lia). done.
Qed.

Lemma get_field_le packet off n v : slice packet off n = Ok (le_bytes n v) -> 0 <= v < 256 ^ Z.of_nat n ->
  get_field packet off n = Ok v.
Proof. unfold get_field. intros -> Hv. run_step. by rewrite le_val_bytes, Z.mod_small. Qed.

(** An array of a known length, byte by byte. *)
Ltac octets6 l :=
  destruct l as [|? [|? [|? [|? [|? [|? [|]]]]]]]; try discriminate.

(** What the router reads of an ARP frame. *)
Lemma arp_frame_fields e a rest : ethernet_ok e -> arp_ok a ->
  let packet := ethernet_image e ++ arp_image a ++ rest in
  frame_ether_shost packet = Ok (ether_shost e) /\
  frame_ether_type packet = Ok (ether_type e) /\ frame_ar_op packet = Ok (ar_op a) /\
  frame_ar_sip packet = Ok (le_bytes 4 (ar_sip a)) /\ frame_ar_tha packet = Ok (ar_tha a) /\
  frame_ar_tip packet = Ok (ar_tip a).
Proof.
  destruct e as [d s t], a as [hrd pro hln pln op sha sip tha tip].
  intros ([Hd _] & [Hs _] & Ht) (_ & _ & _ & _ & Ho & [Hsha _] & Hsip & [Htha _] & Htip) packet.
  cbn [ether_dhost ether_shost ether_type ar_sha ar_tha ar_op ar_sip ar_tip] in *. subst packet.
  octets6 d. octets6 s. octets6 sha. octets6 tha.
  split_and!; try reflexivity; (apply get_field_le; [reflexivity|assumption]).
Qed.

(** What the router reads of an IP packet. *)
Lemma ip_frame_fields e i rest : ethernet_ok e -> ip_ok i ->
  let packet := ethernet_image e ++ ip_image i ++ rest in
  frame_ether_shost packet = Ok (ether_shost e) /\ frame_ether_type packet = Ok (ether_type e) /\
  frame_ip_len packet = Ok (ip_len i) /\ frame_ip_ttl packet = Ok (ip_ttl i) /\ frame_ip_p packet = Ok (ip_p i) /\
  frame_ip_sum packet = Ok (ip_sum i) /\ frame_ip_dst packet = Ok (ip_dst i) /\
  frame_icmp_type packet = Ok (ip_v i * 16 + ip_hl i).
Proof.
  destruct e as [d s t], i as [hl v tos l id off ttl p sum src dst].
  intros ([Hd _] & [Hs _] & Ht) ([Hhl Hv] & _ & Hlen & _ & _ & Httl & Hp & Hsum & _ & Hdst) packet.
  cbn [ether_dhost ether_shost ether_type Protocol.ip_hl ip_v ip_len ip_ttl ip_p ip_sum ip_dst] in *. subst packet.
  octets6 d. octets6 s. split_and!; try reflexivity; try (apply get_field_le; [reflexivity|assumption]).
  unfold u4_ok in *. unfold frame_icmp_type, get_field.
  transitivity (Ok (le_val [v * 16 + hl])); [reflexivity|]. cbn. f_equal. lia.
Qed.

(** C21: the headers of [sr_protocol.h] are typed by their layouts: reading a
    header from any 14, 28, 20, 36 or 36 bytes gives a record whose fields
    are within the types of the structure (the bit fields of the IP header
    within four bits), writing it back gives the same bytes, and a record
    within its types is written to that many bytes and read back unchanged.
    The bytes are those of the fields in the order of the structure, integers
    least significant byte first and the version above the header length in
    the first byte of an IP header.  What the router and the code that
    screens ARP requests read in a frame made of an Ethernet header and an ARP
    or IP header are the fields of those headers; the ICMP type of an IP
    packet, read at the IP header, is the byte with the version and the header
    length. *)
Theorem headers_typed :
  (images ethernet_layout 14 ethernet_ok /\ images arp_layout 28 arp_ok /\ images ip_layout 20 ip_ok /\
   images icmp_layout 36 icmp_ok /\ images icmp_t3_layout 36 icmp_t3_ok) /\
  ((forall h, enc ethernet_layout h = ethernet_image h) /\ (forall h, enc arp_layout h = arp_image h) /\
   (forall h, ip_ok h -> enc ip_layout h = ip_image h) /\
   (forall h, enc icmp_layout h = icmp_image h) /\ (forall h, enc icmp_t3_layout h = icmp_t3_image h)) /\
  (forall e a rest, ethernet_ok e -> arp_ok a ->
     let packet := ethernet_image e ++ arp_image a ++ rest in
     frame_ether_shost packet = Ok (ether_shost e) /\
     frame_ether_type packet = Ok (ether_type e) /\ frame_ar_op packet = Ok (ar_op a) /\
     frame_ar_sip packet = Ok (le_bytes 4 (ar_sip a)) /\ frame_ar_tha packet = Ok (ar_tha a) /\
     frame_ar_tip packet = Ok (ar_tip a)) /\
  (forall e i rest, ethernet_ok e -> ip_ok i ->
     let packet := ethernet_image e ++ ip_image i ++ rest in
     frame_ether_shost packet = Ok (ether_shost e) /\ frame_ether_type packet = Ok (ether_type e) /\
     frame_ip_len packet = Ok (ip_len i) /\ frame_ip_ttl packet = Ok (ip_ttl i) /\ frame_ip_p packet = Ok (ip_p i) /\
     frame_ip_sum packet = Ok (ip_sum i) /\ frame_ip_dst packet = Ok (ip_dst i) /\
     frame_icmp_type packet = Ok (ip_v i * 16 + ip_hl i)).
Proof.
  split; [split_and!; (apply images_intro; [apply _|reflexivity|reflexivity])|].
  split; [split_and!; [done|done|apply ip_image_enc|done|done]|].
  split; [apply arp_frame_fields|apply ip_frame_fields].
Qed.

(** An ARP request as it arrives. *)
Definition sample_arp_request : list Z :=
  replicate 6 255 ++ [2; 0; 0; 0; 0; 1; 8; 6; 0; 1; 8; 0; 6; 4; 0; 1; 2; 0; 0; 0; 0; 1; 10; 0; 0; 1] ++
  replicate 6 0 ++ [10; 0; 0; 2].

Definition sample_ethernet : sr_ethernet_hdr := SrEthernetHdr (replicate 6 255) [2; 0; 0; 0; 0; 1] 1544.
Definition sample_arp : sr_arp_hdr := SrArpHdr 256 8 6 4 256 [2; 0; 0; 0; 0; 1] 16777226 (replicate 6 0) 33554442.

Lemma headers_typed_witness :
  dec arp_layout (enc arp_layout sample_arp) = sample_arp /\
  frame_ar_tip (ethernet_image sample_ethernet ++ arp_image sample_arp ++ []) = Ok 33554442.
Proof.
  assert (ethernet_ok sample_ethernet /\ arp_ok sample_arp) as [He Ha].
  { repeat split; try (cbn; lia); repeat (apply Forall_cons; split); try apply Forall_nil_2; unfold is_byte; lia. }
  destruct headers_typed as ((_ & [_ Hi] & _) & _ & Hf & _). split.
  - by apply Hi.
  - by apply (Hf sample_ethernet sample_arp []).
Defined.
