(* ===== verification/Router.v ===== *)
(** * Packet handling in the router

    Models [Assignment2/src/router/sr_router.c]: the packet dispatcher
    [sr_handlepacket].  ARP handling is modelled to the end; it falls through
    to IP handling on the packet it has just rewritten, as the [switch] does.
    Every IP path that builds a message does so through a header pointer it
    never initialised, so the model of such a path ends at that first write
    with [Uninit].  Proved: frames with a proper type field are rejected by an
    assertion, what the ARP paths do, which IP path each packet takes, and that
    no IP path sends. *)

From S2P Require Import Prelude Heap CString Checksum ArpCache SrIf SrRt SrInstance Layout Protocol.

Definition arp_op_request : Z := 1.
Definition arp_op_reply : Z := 2.
Definition arp_hrd_ethernet : Z := 1.
Definition ip_protocol_icmp : Z := 1.

(** The field is compared as the machine reads it, without [ntohs]. *)
Definition packet_type (packet : list Z) : run Z :=
  t ← frame_ether_type packet;
  Ok (if decide (t = ethertype_arp) then 1 else if decide (t = ethertype_ip) then 9 else 0).

Section code.
Context {W : Type} `{Server W}.
Abbreviation sr_instance := (sr_instance W).

(** ** ARP *)

(** A request for the interface [target].  [new_eth_hdr], [new_arp_hdr],
    [eth_hdr] and [arphdr] all point into [packet], which changes under them. *)
Definition answer_request (sr : sr_instance) (packet : list Z) (target : ptr)
    : run (sr_instance * list Z) :=
  x ← hload (ifs (if_list_of sr)) target;
  a ← need Uninit (addr x);
  i ← need Uninit (ip x);
  (* the Ethernet header *)
  shost ← frame_ether_shost packet;
  packet ← patch packet 0 shost;
  packet ← patch packet 6 a;
  packet ← patch packet 12 (le_bytes 2 (htons ethertype_arp));
  reply ← slice packet 0 sizeof_ethernet;
  (* the ARP header; hln and pln are assigned to themselves *)
  packet ← patch packet 14 (le_bytes 2 (htons arp_hrd_ethernet));
  packet ← patch packet 16 (le_bytes 2 (htons ethertype_ip));
  packet ← patch packet 20 (le_bytes 2 (htons arp_op_reply));
  packet ← patch packet 22 a;
  packet ← patch packet 28 (le_bytes 4 i);
  shost ← frame_ether_shost packet;
  packet ← patch packet 32 shost;
  sip ← frame_ar_sip packet;
  packet ← patch packet 38 sip;
  arp ← slice packet 14 sizeof_arp;
  '(_, sr) ← sr_send_packet sr (reply ++ arp) 42 (c_str (name x));
  Ok (sr, packet).

(** The packets waiting for a reply; only the first byte of the destination is
    replaced, and the copy of the header onto itself changes nothing. *)
Fixpoint send_waiting (fuel : nat) (sr : sr_instance) (mac0 : Z) (curr_pkt : ptr) : run sr_instance :=
  match curr_pkt with
  | None => Ok sr
  | Some _ =>
      match fuel with
      | O => Crash Fuel
      | S fuel =>
          x ← hload (pkts (cache sr)) curr_pkt;
          b ← patch (buf x) 0 [mac0];
          _ ← slice b 0 sizeof_ethernet;
          h ← hstore (pkts (cache sr)) curr_pkt (SrPacket b (pkt_len x) (ArpCache.iface x) (pkt_next x));
          let sr := set_cache (set_pkts h (cache sr)) sr in
          '(_, sr) ← sr_send_packet sr b 34 (c_str (ArpCache.iface x));
          send_waiting fuel sr mac0 (pkt_next x)
      end
  end.

(** A reply whose target address is that of the interface [target]: the
    mapping cached is from [ar_tha] and the interface's own address. *)
Definition learn_reply (sr : sr_instance) (packet : list Z) (target : ptr) (now : Z) : run sr_instance :=
  x ← hload (ifs (if_list_of sr)) target;
  tha ← frame_ar_tha packet;
  i ← need Uninit (ip x);
  '(in_cache, c) ← sr_arpcache_insert (cache sr) tha i now;
  let sr := set_cache c sr in
  match in_cache with
  | None => Ok sr
  | Some _ =>
      r ← hload (reqs (cache sr)) in_cache;
      mac0 ← arr_get tha 0;
      sr ← send_waiting (walk_fuel (pkts (cache sr))) sr mac0 (packets r);
      c ← sr_arpreq_destroy (cache sr) in_cache;
      Ok (set_cache c sr)
  end.

(** The flag tells whether control falls through to the IP case. *)
Definition handle_arp (sr : sr_instance) (packet : list Z) (now : Z)
    : run (sr_instance * list Z * bool) :=
  op ← frame_ar_op packet;
  if decide (op = arp_op_request) then
    tip ← frame_ar_tip packet;
    target ← get_interface_from_ip (if_list_of sr) tip;
    match target with
    | None => Ok (sr, packet, true)
    | Some _ => '(sr, packet) ← answer_request sr packet target; Ok (sr, packet, true)
    end
  else if decide (op = arp_op_reply) then
    tip ← frame_ar_tip packet;
    target ← get_interface_from_ip (if_list_of sr) tip;
    match target with
    | None => Ok (sr, packet, true)
    | Some _ => sr ← learn_reply sr packet target now; Ok (sr, packet, true)
    end
  else Ok (sr, packet, false).

(** ** IP *)

(** Where the [if]s of the IP case lead: the packet is dropped, one of four
    ICMP messages is built, or the packet is to be sent on at once, to join the
    packets that wait for an ARP reply, or to start a request. *)
Inductive ip_branch : Type :=
| Dropped
| EchoReply
| PortUnreachable
| TimeExceeded
| NetUnreachable
| SendNow
| JoinRequest
| NewRequest.

(** [while (curr_req != NULL) { if (curr_req->ip == match->dest) ... return; }]:
    the pointer is never advanced.  On a match the request is counted as sent
    again before the packet is built; [None] is the loop's end at NULL. *)
Fixpoint requests_loop (fuel : nat) (c : sr_arpcache) (dest_addr now : Z) (curr_req : ptr)
    : run (option sr_arpcache) :=
  match curr_req with
  | None => Ok None
  | Some _ =>
      match fuel with
      | O => Crash Fuel
      | S fuel =>
          r ← hload (reqs c) curr_req;
          if decide (req_ip r = dest_addr) then
            h ← hstore (reqs c) curr_req (ArpReq (req_ip r) now (u32 (times_sent r + 1)) (packets r) (req_next r));
            Ok (Some (set_reqs h c))
          else requests_loop fuel c dest_addr now curr_req
      end
  end.

(** A destination that is not the router's; the TTL is decremented in the
    packet. *)
Definition forward (fuel : nat) (sr : sr_instance) (packet : list Z) (now : Z)
    : run (sr_instance * list Z * ip_branch) :=
  ttl ← frame_ip_ttl packet;
  packet ← patch packet 22 [u8 (ttl - 1)];
  ttl ← frame_ip_ttl packet;
  if decide (ttl <= 0) then Ok (sr, packet, TimeExceeded) else
  dst ← frame_ip_dst packet;
  m ← find_rt_dest (routing_table_of sr) dst;
  match m with
  | None => Ok (sr, packet, NetUnreachable)
  | Some _ =>
      curr ← sr_arpcache_lookup (cache sr) dst;
      match curr with
      | Some _ => Ok (sr, packet, SendNow)
      | None =>
          r ← hload (rts (routing_table_of sr)) m;
          c ← requests_loop fuel (cache sr) (dest r) now (requests (cache sr));
          match c with
          | Some c => Ok (set_cache c sr, packet, JoinRequest)
          | None => Ok (sr, packet, NewRequest)
          end
      end
  end.

(** The checks of the IP case: the branch it takes, with the router and the
    packet as they are when it is taken. *)
Definition choose_branch (fuel : nat) (sr : sr_instance) (packet : list Z) (now : Z)
    : run (sr_instance * list Z * ip_branch) :=
  len ← frame_ip_len packet;
  c ← cksum (drop 14 packet) len;
  sum ← frame_ip_sum packet;
  c_assert (bool_decide (c = sum));;
  dst ← frame_ip_dst packet;
  interface ← get_interface_from_ip (if_list_of sr) dst;
  match interface with
  | Some _ =>
      p ← frame_ip_p packet;
      if decide (p = ip_protocol_icmp) then
        type ← frame_icmp_type packet;
        Ok (sr, packet, if decide (type = 8) then EchoReply else Dropped)
      else Ok (sr, packet, PortUnreachable)
  | None => forward fuel sr packet now
  end.

(** Each branch but the first goes on with a write through a header pointer
    that was declared and not assigned. *)
Definition take_branch (sr : sr_instance) (b : ip_branch) : run sr_instance :=
  match b with
  | Dropped => Ok sr
  | EchoReply => Crash Uninit         (* new_hdr_icmp->icmp_type = 0 *)
  | PortUnreachable => Crash Uninit   (* hdr_icmp->icmp_type = 3 *)
  | TimeExceeded => Crash Uninit      (* hdr_icmp->icmp_type = 11 *)
  | NetUnreachable => Crash Uninit    (* new_hdr_icmp->icmp_type = 3 *)
  | SendNow => Crash Uninit           (* memcpy(new_eth->ether_shost, eth_hdr->ether_dhost, 1) *)
  | JoinRequest => Crash Uninit       (* the same *)
  | NewRequest => Crash Uninit        (* the same *)
  end.

Definition handle_ip (fuel : nat) (sr : sr_instance) (packet : list Z) (now : Z) : run sr_instance :=
  '(sr, _, b) ← choose_branch fuel sr packet now;
  take_branch sr b.

Definition sr_handlepacket (fuel : nat) (sr : sr_instance) (packet : list Z) (now : Z) : run sr_instance :=
  result ← packet_type packet;
  c_assert (bool_decide (result <> 0));;
  if decide (result = 1) then
    '(sr, packet, fall_through) ← handle_arp sr packet now;
    if fall_through : bool then handle_ip fuel sr packet now else Ok sr
  else handle_ip fuel sr packet now.
End code.

(** ** Byte order *)

Lemma packet_type_ok packet : (14 <= length packet)%nat ->
  let t := le_val (take 2 (drop 12 packet)) in
  packet_type packet = Ok (if decide (t = ethertype_arp) then 1 else if decide (t = ethertype_ip) then 9 else 0).
Proof. intros Hlen t. unfold packet_type, frame_ether_type, get_field. by rewrite slice_ok by lia. Qed.

(** Frames as the network delivers them fail the assertion. *)
Lemma network_order_aborts {W} `{Server W} fuel (sr : sr_instance W) packet now :
  (14 <= length packet)%nat ->
  take 2 (drop 12 packet) = be_bytes 2 ethertype_arp \/ take 2 (drop 12 packet) = be_bytes 2 ethertype_ip ->
  sr_handlepacket fuel sr packet now = Crash Abort.
Proof.
  intros Hlen Ht. unfold sr_handlepacket. rewrite packet_type_ok by done. by destruct Ht as [-> | ->].
Qed.

(** With assertions compiled in, [sr_handlepacket] aborts on every frame
    whose type field holds ARP or IP in network order, which are the frames a
    network delivers: [packet_type] compares the field without [ntohs].  The
    frames it accepts are exactly those whose type field has its two bytes
    exchanged. *)
Theorem handlepacket_byte_order {W} `{Server W} fuel (sr : sr_instance W) packet now :
  (14 <= length packet)%nat -> Forall is_byte packet ->
  (take 2 (drop 12 packet) = be_bytes 2 ethertype_arp \/
   take 2 (drop 12 packet) = be_bytes 2 ethertype_ip ->
     sr_handlepacket fuel sr packet now = Crash Abort) /\
  (packet_type packet = Ok 1 <-> take 2 (drop 12 packet) = le_bytes 2 ethertype_arp) /\
  (packet_type packet = Ok 9 <-> take 2 (drop 12 packet) = le_bytes 2 ethertype_ip) /\
  (packet_type packet = Ok 0 <->
     take 2 (drop 12 packet) <> le_bytes 2 ethertype_arp /\
     take 2 (drop 12 packet) <> le_bytes 2 ethertype_ip).
Proof.
  intros Hlen HF. split; [by apply network_order_aborts|].
  set (t := take 2 (drop 12 packet)).
  assert (length t = 2%nat) as Ht by (unfold t; rewrite length_take, length_drop; lia).
  assert (Forall is_byte t) as HFt by (by apply Forall_take, Forall_drop).
  rewrite packet_type_ok by done. fold t.
  assert (forall v, 0 <= v < 65536 -> (le_val t = v <-> t = le_bytes 2 v)) as Hiff.
  { intros v Hv. split.
    - intros <-. rewrite <- Ht. by rewrite le_bytes_val.
    - intros ->. rewrite le_val_bytes. change (256 ^ Z.of_nat 2) with 65536. by apply Z.mod_small. }
  pose proof (Hiff ethertype_arp ltac:(unfold ethertype_arp; lia)) as Ha.
  pose proof (Hiff ethertype_ip ltac:(unfold ethertype_ip; lia)) as Hi.
  assert (ethertype_arp <> ethertype_ip) by done.
  rewrite <- Ha, <- Hi. split; [|split]; repeat case_decide; split; intros; (done || congruence || tauto).
Qed.

(** ** IP packets *)

(** The router owns the address. *)
Definition ours (vs : list (positive * SrIf.iface)) (dst : Z) : bool :=
  existsb (fun v => bool_decide (i_ip v.2 = Some dst)) vs.

Section theorems.
Context {W : Type} `{Server W}.
Implicit Types sr : sr_instance W.

Lemma from_ip_ours t vs rest dst : if_rep t vs rest -> Forall (fun v => is_Some (i_ip v.2)) vs ->
  exists p, get_interface_from_ip t dst = Ok p /\ (p <> NULL <-> ours vs dst = true).
Proof.
  intros Hrep Hall. rewrite (from_ip_ok t vs rest dst Hrep Hall). eexists. split; [reflexivity|].
  pose proof (list_find_existsb (fun v : positive * SrIf.iface => bool_decide (i_ip v.2 = Some dst)) vs) as Hex.
  unfold ours. rewrite <- Hex.
  destruct (list_find _ vs) as [z|]; cbn; split; [by exists z|done|done|by intros [w ?]].
Qed.

(** A header with another TTL. *)
Definition with_ttl (ttl : Z) (i : sr_ip_hdr) : sr_ip_hdr :=
  SrIpHdr (ip_hl i) (ip_v i) (ip_tos i) (ip_len i) (ip_id i) (ip_off i) ttl (ip_p i) (ip_sum i) (ip_src i) (ip_dst i).

Lemma patch_ttl e i payload t : ethernet_ok e -> u8_ok t ->
  patch (ethernet_image e ++ ip_image i ++ payload) 22 [t] = Ok (ethernet_image e ++ ip_image (with_ttl t i) ++ payload).
Proof.
  destruct e as [d s ty]. intros ([Hd _] & [Hs _] & _) Ht. cbn [ether_dhost ether_shost] in *.
  octets6 d. octets6 s. rewrite patch_ok by (cbn; lia).
  cbn. by rewrite (Z.mod_small t 256) by exact Ht.
Qed.

Lemma with_ttl_ok t i : ip_ok i -> u8_ok t -> ip_ok (with_ttl t i).
Proof. intros (H1 & H2 & H3 & H4 & H5 & H6 & H7 & H8 & H9 & H10) Ht. done. Qed.

(** A packet that is not for the router. *)
Lemma forward_ok fuel sr rts_of rrest e i payload now :
  rt_rep (routing_table_of sr) rts_of rrest -> ethernet_ok e -> ip_ok i ->
  let rest_ttl := if decide (ip_ttl i = 0) then 255 else ip_ttl i - 1 in
  let packet' := ethernet_image e ++ ip_image (with_ttl rest_ttl i) ++ payload in
  forward fuel sr (ethernet_image e ++ ip_image i ++ payload) now
  = if decide (ip_ttl i = 1) then Ok (sr, packet', TimeExceeded)
    else if existsb (lpm_match (ip_dst i)) rts_of then Ok (sr, packet', NetUnreachable) else Crash Uninit.
Proof.
  intros Hrt He Hi rest_ttl packet'. unfold forward.
  destruct (ip_frame_fields e i payload He Hi) as (_ & _ & _ & -> & _). run_step.
  assert (u8_ok (ip_ttl i)) as Httl by apply Hi.
  assert (u8 (ip_ttl i - 1) = rest_ttl /\ u8_ok rest_ttl) as [-> Hleft].
  { unfold u8_ok, u8, rest_ttl in *. change (2 ^ 8) with 256 in *. case_decide as Hz; [by rewrite Hz|].
    rewrite Z.mod_small by lia. lia. }
  rewrite patch_ttl by done. fold packet'. run_step.
  destruct (ip_frame_fields e (with_ttl rest_ttl i) payload He (with_ttl_ok _ _ Hi Hleft))
    as (_ & _ & _ & Ht & _ & _ & Hd & _). fold packet' in Ht, Hd. rewrite Ht. run_step. cbn [ip_ttl with_ttl].
  assert (rest_ttl <= 0 <-> ip_ttl i = 1) as Hz by (unfold rest_ttl, u8_ok in *; case_decide; lia).
  destruct (decide (ip_ttl i = 1)) as [H1|H1]; [by rewrite decide_True by tauto|rewrite decide_False by tauto].
  rewrite Hd. run_step. rewrite (find_rt_dest_never_finds _ _ _ _ Hrt). cbn [ip_dst with_ttl]. by destruct existsb.
Qed.

(** C40: which branch of the IP case each packet takes, and that none of them
    sends.  The checksum is computed over as many bytes as the length field
    holds when it is read in the order of the machine: more bytes than the
    packet has are read out of bounds, and a value other than the field's
    fails an assertion.  A packet that passes is, for one of the router's own
    addresses, dropped in peace, unless its protocol is not ICMP (port
    unreachable) or the first byte of its IP header is 8 (echo reply), which
    no packet of version 4 has.  For any other destination its TTL is
    decremented in place, from 0 to 255; when it was 1, time exceeded is
    chosen; otherwise a destination that the routing table covers is found
    unreachable, since the search returns NULL exactly for these, and for the
    others the search returns a pointer it never assigned.  So no packet is
    ever sent on or queued for an ARP reply, and each packet that is not
    dropped ends in an access through an uninitialised pointer, before
    anything is sent. *)
Theorem ip_packets_classified fuel sr vs rest rts_of rrest e i payload now :
  if_rep (if_list_of sr) vs rest -> Forall (fun v => is_Some (i_ip v.2)) vs ->
  rt_rep (routing_table_of sr) rts_of rrest -> ethernet_ok e -> ip_ok i -> Forall is_byte payload ->
  let body := ip_image i ++ payload in
  let packet := ethernet_image e ++ body in
  let sum := cksum_value (take (Z.to_nat (ip_len i)) body) in
  let rest_ttl := if decide (ip_ttl i = 0) then 255 else ip_ttl i - 1 in
  let packet' := ethernet_image e ++ ip_image (with_ttl rest_ttl i) ++ payload in
  (zlen body < ip_len i -> handle_ip fuel sr packet now = Crash OutOfRange) /\
  (ip_len i <= zlen body -> sum <> ip_sum i -> handle_ip fuel sr packet now = Crash Abort) /\
  (ip_len i <= zlen body -> sum = ip_sum i ->
     (ours vs (ip_dst i) = true ->
        choose_branch fuel sr packet now
        = Ok (sr, packet, if decide (ip_p i = 1)
                          then if decide (ip_v i * 16 + ip_hl i = 8) then EchoReply else Dropped
                          else PortUnreachable)) /\
     (ours vs (ip_dst i) = false ->
        choose_branch fuel sr packet now
        = if decide (ip_ttl i = 1) then Ok (sr, packet', TimeExceeded)
          else if existsb (lpm_match (ip_dst i)) rts_of then Ok (sr, packet', NetUnreachable) else Crash Uninit) /\
     handle_ip fuel sr packet now
     = if ours vs (ip_dst i) && bool_decide (ip_p i = 1) && negb (bool_decide (ip_v i * 16 + ip_hl i = 8))
       then Ok sr else Crash Uninit).
Proof.
  intros Hif Hips Hrt He Hi Hpay body packet sum rest_ttl packet'.
  destruct (ip_frame_fields e i payload He Hi) as (_ & _ & Hlen & _ & Hp & Hsum & Hdst & Hty).
  fold body in Hlen, Hp, Hsum, Hdst, Hty. fold packet in Hlen, Hp, Hsum, Hdst, Hty.
  assert (drop 14 packet = body) as Hdrop.
  { apply drop_app_length'. unfold ethernet_image. rewrite !length_app, length_le_bytes.
    destruct He as ([-> _] & [-> _] & _). done. }
  assert (u16_ok (ip_len i)) as Hl by apply Hi.
  assert (Forall is_byte body) as Hb.
  { apply Forall_app_2; [|done]. rewrite <- ip_image_enc by done. by apply enc_bytes. }
  assert (ip_len i <= zlen body -> cksum body (ip_len i) = Ok sum) as Hck.
  { intros Hle. unfold u16_ok in Hl. apply cksum_ok; [done|lia|lia]. }
  unfold handle_ip, choose_branch. rewrite Hlen, Hdrop, Hsum, Hdst. run_step.
  split_and!.
  - intros Hover. by rewrite cksum_overread.
  - intros Hle Hne. rewrite Hck by done. run_step. by rewrite bool_decide_false.
  - intros Hle Heq. rewrite Hck by done. run_step. rewrite bool_decide_true by done. cbn [c_assert]. run_step.
    destruct (from_ip_ours _ _ _ (ip_dst i) Hif Hips) as (p & -> & Hown). run_step.
    pose proof (forward_ok fuel sr rts_of rrest e i payload now Hrt He Hi) as Hfw. cbv zeta in Hfw.
    fold body packet rest_ttl packet' in Hfw. rewrite Hfw.
    destruct p as [a|].
    + rewrite (proj1 Hown) by done. rewrite Hp, Hty. run_step. unfold ip_protocol_icmp. cbn [andb].
      repeat (case_decide || case_bool_decide); done.
    + assert (ours vs (ip_dst i) = false) as ->
        by (destruct (ours vs (ip_dst i)); [exfalso; by apply (proj2 Hown)|done]). cbn [andb].
      repeat case_decide; try destruct existsb; done.
Qed.

(** ** ARP packets *)

(** An Ethernet frame with an ARP body, before [rest]. *)
Definition arp_frame (dh sh ty fixed op sha sip tha tip : list Z) : list Z :=
  dh ++ sh ++ ty ++ fixed ++ op ++ sha ++ sip ++ tha ++ tip.

(** Headers in memory, byte by byte: the evaluation of [answer_request]. *)
Lemma answer_request_ok sr packet target x a i d0 d1 d2 d3 d4 d5 s0 s1 s2 s3 s4 s5 t0 t1 h0 h1 p0 p1
    hln pln o0 o1 b0 b1 b2 b3 b4 b5 c0 c1 c2 c3 e0 e1 e2 e3 e4 e5 f0 f1 f2 f3 rest :
  packet = arp_frame [d0; d1; d2; d3; d4; d5] [s0; s1; s2; s3; s4; s5] [t0; t1] [h0; h1; p0; p1; hln; pln]
    [o0; o1] [b0; b1; b2; b3; b4; b5] [c0; c1; c2; c3] [e0; e1; e2; e3; e4; e5] [f0; f1; f2; f3] ++ rest ->
  hload (ifs (if_list_of sr)) target = Ok x -> addr x = Some a -> length a = 6%nat -> ip x = Some i ->
  let frame := arp_frame [s0; s1; s2; s3; s4; s5] a [8; 6] [0; 1; 8; 0; hln; pln] [0; 2]
    a (le_bytes 4 i) a (le_bytes 4 i) in
  answer_request sr packet target
  = ('(_, sr) ← sr_send_packet sr frame 42 (c_str (name x)); Ok (sr, frame ++ rest)).
Proof.
  intros -> Hx Ha Hla Hi frame. unfold answer_request.
  rewrite Hx. cbn [mbind run_bind]. rewrite Ha. cbn [need mbind run_bind].
  rewrite Hi. cbn [need mbind run_bind].
  by destruct a as [|a0 [|a1 [|a2 [|a3 [|a4 [|a5 [|]]]]]]].
Qed.
(** The first interface with an address. *)
Definition owner (vs : list (positive * SrIf.iface)) (i : Z) : option (positive * SrIf.iface) :=
  snd <$> list_find (fun v => bool_decide (i_ip v.2 = Some i) = true) vs.

Lemma owner_ok t vs rest i : if_rep t vs rest -> Forall (fun v => is_Some (i_ip v.2)) vs ->
  get_interface_from_ip t i = Ok (fst <$> owner vs i) /\
  forall a v, owner vs i = Some (a, v) ->
    (a, v) ∈ vs /\ i_ip v = Some i /\ exists x, hload (ifs t) (Some a) = Ok x /\ v = (if_view (a, x)).2.
Proof.
  intros Hrep Hall. rewrite (from_ip_ok t vs rest i Hrep Hall). unfold owner. split.
  - by destruct (list_find _ vs) as [[k z]|].
  - intros a v Ho. destruct (list_find _ vs) as [[k z]|] eqn:Hf; [|done]. cbn in Ho. injection Ho as ->.
    apply list_find_Some in Hf as (Hk & Hp & _). apply list_elem_of_lookup_2 in Hk.
    apply bool_decide_eq_true in Hp. split; [done|]. split; [done|]. by eapply if_rep_load.
Qed.

Lemma arp_op packet dh sh ty fx op sha sip tha tip rest :
  packet = arp_frame dh sh ty fx op sha sip tha tip ++ rest ->
  length dh = 6%nat -> length sh = 6%nat -> length ty = 2%nat -> length fx = 6%nat ->
  length op = 2%nat -> length sha = 6%nat -> length sip = 4%nat -> length tha = 6%nat ->
  length tip = 4%nat ->
  frame_ar_op packet = Ok (le_val op) /\ frame_ar_tip packet = Ok (le_val tip) /\
  frame_ar_tha packet = Ok tha.
Proof.
  intros -> H1 H2 H3 H4 H5 H6 H7 H8 H9. unfold frame_ar_op, frame_ar_tip, frame_ar_tha, get_field, arp_frame.
  assert (forall pre x post, slice (pre ++ x ++ post) (length pre) (length x) = Ok x) as Hs.
  { intros pre x post. rewrite slice_ok by (rewrite !length_app; lia).
    by rewrite drop_app_length, take_app_length. }
  repeat rewrite <- app_assoc. split_and!.
  - pose proof (Hs (dh ++ sh ++ ty ++ fx) op (sha ++ sip ++ tha ++ tip ++ rest)) as Hx.
    rewrite !length_app, H1, H2, H3, H4, H5 in Hx. rewrite <- !app_assoc in Hx. cbn in Hx. by rewrite Hx.
  - pose proof (Hs (dh ++ sh ++ ty ++ fx ++ op ++ sha ++ sip ++ tha) tip rest) as Hx.
    rewrite !length_app, H1, H2, H3, H4, H5, H6, H7, H8, H9 in Hx. rewrite <- !app_assoc in Hx.
    cbn in Hx. by rewrite Hx.
  - pose proof (Hs (dh ++ sh ++ ty ++ fx ++ op ++ sha ++ sip) tha (tip ++ rest)) as Hx.
    rewrite !length_app, H1, H2, H3, H4, H5, H6, H7, H8 in Hx. rewrite <- !app_assoc in Hx. exact Hx.
Qed.

(** C34: ARP handling, for a packet whose operation field is in the order of
    the machine.  A request for one of the router's addresses sends one
    frame to the asker from the interface that owns the address; since the
    new headers are built over the ones being read, its target fields name
    the router itself and not the asker.  A reply for one of the router's
    addresses that no packet waits for caches the target hardware address
    under that same address.  Packets for other addresses change nothing.  In
    all these cases control falls through to the IP code; any other operation
    ends the handling. *)
Theorem arp_handling sr vs irest cs ds rr rp now dh sh ty fx op sha sip tha tip rest packet :
  if_rep (if_list_of sr) vs irest -> Forall (fun v => is_Some (i_ip v.2)) vs ->
  arp_rep (cache sr) cs ds rr rp -> zlen (entries (cache sr)) = SR_ARPCACHE_SZ ->
  packet = arp_frame dh sh ty fx op sha sip tha tip ++ rest ->
  length dh = 6%nat -> length sh = 6%nat -> length ty = 2%nat -> length fx = 6%nat ->
  length op = 2%nat -> length sha = 6%nat -> length sip = 4%nat -> length tha = 6%nat ->
  length tip = 4%nat -> Forall is_byte op -> Forall is_byte tip ->
  (op = [1; 0] -> forall a v m n w, owner vs (le_val tip) = Some (a, v) -> i_addr v = Some m ->
     length m = 6%nat -> named (i_name v) vs = Some v ->
     let frame := arp_frame sh m [8; 6] ([0; 1; 8; 0] ++ drop 4 fx) [0; 2] m tip m tip in
     os_send (sockfd sr) (vns_packet 42 (i_name v) frame) (server (logged_in sr frame)) = (n, w) ->
     handle_arp sr packet now = Ok (set_server w sr, frame ++ rest, true)) /\
  (op = [2; 0] -> forall a v, owner vs (le_val tip) = Some (a, v) ->
     Forall (fun r => ar_ip r.2 <> le_val tip) cs ->
     exists c, sr_arpcache_insert (cache sr) tha (le_val tip) now = Ok (NULL, c) /\
       handle_arp sr packet now = Ok (set_cache c sr, packet, true)) /\
  (op = [1; 0] \/ op = [2; 0] -> owner vs (le_val tip) = None ->
     handle_arp sr packet now = Ok (sr, packet, true)) /\
  (op <> [1; 0] -> op <> [2; 0] -> handle_arp sr packet now = Ok (sr, packet, false)).
Proof.
  intros Hif Hips Hcache Hsz Hpk L1 L2 L3 L4 L5 L6 L7 L8 L9 HFo HFt.
  destruct (arp_op packet dh sh ty fx op sha sip tha tip rest Hpk L1 L2 L3 L4 L5 L6 L7 L8 L9) as (Hop & Htip & Htha).
  destruct (owner_ok _ _ _ (le_val tip) Hif Hips) as [Hget Hown].
  assert (forall v, 0 <= v < 65536 -> (le_val op = v <-> op = le_bytes 2 v)) as Hiff.
  { intros v Hv. split.
    - intros <-. rewrite <- L5. by rewrite le_bytes_val.
    - intros ->. rewrite le_val_bytes. change (256 ^ Z.of_nat 2) with 65536. by apply Z.mod_small. }
  unfold handle_arp. rewrite Hop. cbn [mbind run_bind]. rewrite Htip. cbn [mbind run_bind]. rewrite Hget.
  cbn [mbind run_bind]. unfold arp_op_request, arp_op_reply. split_and!.
  - intros -> a v m n w Ho Hm Lm Hnm. set (frame := arp_frame sh m _ _ _ _ _ _ _). intros Hw.
    rewrite decide_True by done. rewrite Ho. cbn [fmap option_fmap option_map fst].
    destruct (Hown a v Ho) as (Hin & Hi & x & Hx & ->). cbn in Hm, Hi, Hnm.
    destruct dh as [|d0 [|d1 [|d2 [|d3 [|d4 [|d5 [|]]]]]]]; try done.
    destruct sh as [|s0 [|s1 [|s2 [|s3 [|s4 [|s5 [|]]]]]]]; try done.
    destruct ty as [|t0 [|t1 [|]]]; try done. destruct fx as [|h0 [|h1 [|p0 [|p1 [|hln [|pln [|]]]]]]]; try done.
    destruct sha as [|b0 [|b1 [|b2 [|b3 [|b4 [|b5 [|]]]]]]]; try done.
    destruct sip as [|c0 [|c1 [|c2 [|c3 [|]]]]]; try done.
    destruct tha as [|e0 [|e1 [|e2 [|e3 [|e4 [|e5 [|]]]]]]]; try done.
    destruct tip as [|f0 [|f1 [|f2 [|f3 [|]]]]]; try done.
    rewrite (answer_request_ok sr packet (Some a) x m _ _ _ _ _ _ _ _ _ _ _ _ _ _ _ _ _ _ _ _ _ _ _
      _ _ _ _ _ _ _ _ _ _ _ _ _ _ _ _ _ _ _ _ rest Hpk Hx Hm Lm Hi).
    rewrite <- L9, le_bytes_val by done.
    change (arp_frame _ m _ _ _ m _ m _) with frame.
    assert (length frame = 42%nat) as Lf by (unfold frame, arp_frame; rewrite !length_app, Lm; reflexivity).
    pose proof (sr_send_packet_ok sr vs irest frame 42 (c_str (name x)) Hif (c_str_is_str _) ltac:(lia) ltac:(lia)) as Hsend.
    cbv zeta in Hsend. rewrite Hnm in Hsend. rewrite (Hsend m Hm).
    rewrite decide_True by (unfold frame, arp_frame; rewrite drop_app_length' by done; by rewrite take_app_length').
    rewrite take_ge by (rewrite Lf; lia). cbn [i_name if_view snd] in Hw. rewrite Hw. done.
  - intros -> a v Ho Hno. rewrite decide_False, decide_True by done. rewrite Ho. cbn [fmap option_fmap option_map fst].
    destruct (Hown a v Ho) as (Hin & Hi & x & Hx & ->). cbn in Hi.
    unfold learn_reply. rewrite Hx. cbn [mbind run_bind]. rewrite Htha. cbn [mbind run_bind].
    rewrite Hi. cbn [need mbind run_bind].
    destruct (unlink_by_ip _ _ _ _ _ (le_val tip) Hcache) as (q & c1 & Hun & He & Hq).
    assert (list_find (fun x : positive * areq => ar_ip x.2 = le_val tip) cs = None) as Hf
      by (by apply list_find_None).
    rewrite Hf in Hq. destruct Hq as [-> _].
    rewrite (insert_entries_ok _ _ _ tha (le_val tip) now Hun He Hsz) by lia. eexists. split; [reflexivity|]. done.
  - intros [-> | ->] Ho; rewrite Ho; done.
  - intros Hn1 Hn2. rewrite !decide_False; [done| |]; intros Hv.
    + apply (Hiff 2) in Hv; [done|lia].
    + apply (Hiff 1) in Hv; [done|lia].
Qed.
End theorems.

(** ** Concrete packets *)

Lemma empty_arp_rep : arp_rep empty_cache [] [] ∅ ∅.
Proof.
  exists [], []. split_and!; [done|done|done| | |by apply Forall_nil].
  - apply owning_empty, heap_wf_empty.
  - apply owning_empty, heap_wf_empty.
Qed.

Lemma sample_ips : Forall (fun v => is_Some (i_ip v.2)) sample_ifaces.
Proof. apply Forall_singleton. by eexists. Qed.

(** An ARP request for the router as it arrives from the network. *)
Definition wire_request : list Z :=
  arp_frame (replicate 6 255) [2; 0; 0; 0; 0; 9] [8; 6] [0; 1; 8; 0; 6; 4] [0; 1]
    [2; 0; 0; 0; 0; 9] [10; 0; 0; 9] (replicate 6 0) [10; 0; 0; 1].

Lemma handlepacket_byte_order_witness :
  sr_handlepacket 0 (sample_router empty_cache) wire_request 0 = Crash Abort.
Proof.
  apply (proj1 (handlepacket_byte_order 0 (sample_router empty_cache) wire_request 0
    ltac:(vm_compute; lia) ltac:(apply Forall_forall; intros b Hb;
      repeat (apply elem_of_cons in Hb as [->|Hb]; [unfold is_byte; lia|]); by apply elem_of_nil in Hb))).
  left. reflexivity.
Defined.

(** An ICMP packet to the router whose length field is 0, and an echo request
    of 84 bytes as it arrives, from 10.0.0.9. *)
Definition sample_header (len : Z) : sr_ip_hdr := SrIpHdr 5 4 0 len 0 0 64 1 65535 150994954 sample_ip.

Lemma sample_headers_ok : ethernet_ok sample_ethernet /\ ip_ok (sample_header 0) /\ ip_ok (sample_header (htons 84)).
Proof.
  repeat split; try (vm_compute; congruence); repeat (apply Forall_cons; split); try apply Forall_nil_2;
    unfold is_byte; lia.
Qed.

Lemma ip_packets_classified_witness :
  handle_ip 0 (sample_router empty_cache) (ethernet_image sample_ethernet ++ ip_image (sample_header 0) ++ []) 0
  = Ok (sample_router empty_cache) /\
  handle_ip 0 (sample_router empty_cache)
    (ethernet_image sample_ethernet ++ ip_image (sample_header (htons 84)) ++ replicate 64 0) 0
  = Crash OutOfRange.
Proof.
  destruct sample_headers_ok as (He & H0 & H84). split.
  - refine (proj2 (proj2 (proj2 (proj2 (ip_packets_classified 0 (sample_router empty_cache) sample_ifaces ∅ sample_routes ∅
      sample_ethernet (sample_header 0) [] 0 (sample_if_rep _) sample_ips sample_rt_rep He H0 (Forall_nil_2 _))) _ _)));
      [vm_compute; congruence|reflexivity].
  - refine (proj1 (ip_packets_classified 0 (sample_router empty_cache) sample_ifaces ∅ sample_routes ∅
      sample_ethernet (sample_header (htons 84)) (replicate 64 0) 0 (sample_if_rep _) sample_ips sample_rt_rep He H84 _) _);
      [apply Forall_replicate; unfold is_byte; lia|reflexivity].
Defined.

(** The request with the type and operation in the machine's order: the
    reply's target fields are the router's. *)
Lemma arp_handling_witness :
  exists sr', handle_arp (sample_router empty_cache)
      (arp_frame (replicate 6 255) [2; 0; 0; 0; 0; 9] [6; 8] [0; 1; 8; 0; 6; 4] [1; 0]
        [2; 0; 0; 0; 0; 9] [10; 0; 0; 9] (replicate 6 0) [10; 0; 0; 1] ++ []) 0
    = Ok (sr', arp_frame [2; 0; 0; 0; 0; 9] sample_mac [8; 6] [0; 1; 8; 0; 6; 4] [0; 2]
                 sample_mac [10; 0; 0; 1] sample_mac [10; 0; 0; 1] ++ [], true).
Proof.
  eexists.
  refine (proj1 (arp_handling (sample_router empty_cache) sample_ifaces ∅ [] [] ∅ ∅ 0
    (replicate 6 255) [2; 0; 0; 0; 0; 9] [6; 8] [0; 1; 8; 0; 6; 4] [1; 0] [2; 0; 0; 0; 0; 9] [10; 0; 0; 9]
    (replicate 6 0) [10; 0; 0; 1] [] _ (sample_if_rep _) sample_ips empty_arp_rep eq_refl eq_refl
    eq_refl eq_refl eq_refl eq_refl eq_refl eq_refl eq_refl eq_refl eq_refl _ _) eq_refl
    1%positive (Iface (bytes_of "eth0") (Some sample_mac) (Some sample_ip)) sample_mac 66
    [vns_packet 42 (bytes_of "eth0") (arp_frame [2; 0; 0; 0; 0; 9] sample_mac [8; 6] [0; 1; 8; 0; 6; 4] [0; 2]
                 sample_mac [10; 0; 0; 1] sample_mac [10; 0; 0; 1])]
    eq_refl eq_refl eq_refl eq_refl _).
  - apply Forall_forall. intros b Hb.
    repeat (apply elem_of_cons in Hb as [->|Hb]; [unfold is_byte; lia|]). by apply elem_of_nil in Hb.
  - apply Forall_forall. intros b Hb.
    repeat (apply elem_of_cons in Hb as [->|Hb]; [unfold is_byte; lia|]). by apply elem_of_nil in Hb.
  - vm_compute. reflexivity.
Defined.
