(* ===== verification/SrPrint.v ===== *)
(** * The router's printed output

    Models the printing functions of [Assignment2/src/router/sr_utils.c] and
    [sr_router.c] (headers and addresses), [sr_if.c] (the interface list),
    [sr_rt.c] (the routing table) and [sr_arpcache.c] (the ARP cache).  The text is the result of each function;
    where it goes, to [stdout] or [stderr], makes no difference here.  Proved:
    [print_hdrs] looks at nothing but the bytes of the frame it is given,
    however short; the ways of printing an address agree; the rows of a
    printed routing table load as that table; and which interface lists can be
    printed. *)

From S2P Require Import Prelude Heap CString Layout Inet ArpCache SrIf SrRt SrInstance Router Protocol.

Definition nl : list Z := [10].
Definition tab : list Z := [9].

(** ** Addresses ([sr_utils.c]) *)

(** The loop of [print_addr_eth]. *)
Definition print_addr_eth (addr : list Z) : run (list Z) :=
  out ← for_from ETHER_ADDR_LEN 0 (fun pos out =>
      cur ← arr_get addr pos;
      Ok (out ++ (if decide (pos > 0) then bytes_of ":" else []) ++ print_hex true 2 cur)) [];
  Ok (out ++ nl).

(** [inet_ntop] is told that the buffer has 100 bytes; it has [INET_ADDRSTRLEN]. *)
Definition print_addr_ip (address : Z) : run (list Z) :=
  let text := inet_ntoa address in
  if decide (100 < zlen text + 1) then Ok (bytes_of "inet_ntop error on address conversion" ++ nl) else
  if decide (INET_ADDRSTRLEN < zlen text + 1) then Crash OutOfRange else
  Ok (text ++ nl).

Definition print_addr_ip_int (ip : Z) : list Z :=
  print_dec (Z.shiftr ip 24) ++ bytes_of "." ++
  print_dec (Z.shiftr (u32 (Z.shiftl ip 8)) 24) ++ bytes_of "." ++
  print_dec (Z.shiftr (u32 (Z.shiftl ip 16)) 24) ++ bytes_of "." ++
  print_dec (Z.shiftr (u32 (Z.shiftl ip 24)) 24) ++ nl.

(** ** Headers ([sr_utils.c]) *)

Definition ethertype (buf : list Z) : run Z := t ← frame_ether_type buf; Ok (ntohs t).
Definition ip_protocol (buf : list Z) : run Z := get_field buf 9 1.

(** A line that starts with a tabulator. *)
Definition item (label : string) (text : list Z) : list Z := tab ++ bytes_of label ++ text ++ nl.
(** An item whose text ends its line. *)
Definition item_of (label : string) (text : list Z) : list Z := tab ++ bytes_of label ++ text.

Definition print_hdr_eth (buf : list Z) : run (list Z) :=
  ehdr ← read_at ethernet_layout buf 0;
  dhost ← print_addr_eth (ether_dhost ehdr);
  shost ← print_addr_eth (ether_shost ehdr);
  Ok (bytes_of "ETHERNET header:" ++ nl ++ item_of "destination: " dhost ++ item_of "source: " shost ++
      item "type: " (print_dec (ntohs (ether_type ehdr)))).

(** Only the first of the flags is named. *)
Definition fragment_flag (off : Z) : list Z :=
  if decide (Z.land off IP_DF <> 0) then item "fragment flag: DF" []
  else if decide (Z.land off IP_MF <> 0) then item "fragment flag: MF" []
  else if decide (Z.land off IP_RF <> 0) then item "fragment flag: R" []
  else [].

Definition ip_text (iphdr : sr_ip_hdr) : list Z :=
  bytes_of "IP header:" ++ nl ++
  item "version: " (print_dec (ip_v iphdr)) ++ item "header length: " (print_dec (ip_hl iphdr)) ++
  item "type of service: " (print_dec (ip_tos iphdr)) ++ item "length: " (print_dec (ntohs (ip_len iphdr))) ++
  item "id: " (print_dec (ntohs (ip_id iphdr))) ++ fragment_flag (ntohs (ip_off iphdr)) ++
  item "fragment offset: " (print_dec (Z.land (ntohs (ip_off iphdr)) IP_OFFMASK)) ++
  item "TTL: " (print_dec (ip_ttl iphdr)) ++ item "protocol: " (print_dec (ip_p iphdr)) ++
  item "checksum: " (print_dec (ip_sum iphdr)) ++
  item_of "source: " (print_addr_ip_int (ntohl (ip_src iphdr))) ++
  item_of "destination: " (print_addr_ip_int (ntohl (ip_dst iphdr))).
Definition print_hdr_ip (buf : list Z) : run (list Z) := iphdr ← read_at ip_layout buf 0; Ok (ip_text iphdr).

(** Three of the fields are read. *)
Definition icmp_text (ty code sum : Z) : list Z :=
  bytes_of "ICMP header:" ++ nl ++ item "type: " (print_dec ty) ++ item "code: " (print_dec code) ++
  item "checksum: " (print_dec sum).
Definition print_hdr_icmp (buf : list Z) : run (list Z) :=
  ty ← get_field buf 0 1; code ← get_field buf 1 1; sum ← get_field buf 2 2;
  Ok (icmp_text ty code sum).

Definition print_hdr_arp (buf : list Z) : run (list Z) :=
  arp_hdr ← read_at arp_layout buf 0;
  sha ← print_addr_eth (ar_sha arp_hdr);
  tha ← print_addr_eth (ar_tha arp_hdr);
  Ok (bytes_of "ARP header" ++ nl ++
      item "hardware type: " (print_dec (ntohs (ar_hrd arp_hdr))) ++
      item "protocol type: " (print_dec (ntohs (ar_pro arp_hdr))) ++
      item "hardware address length: " (print_dec (ar_hln arp_hdr)) ++
      item "protocol address length: " (print_dec (ar_pln arp_hdr)) ++
      item "opcode: " (print_dec (ntohs (ar_op arp_hdr))) ++
      item_of "sender hardware address: " sha ++
      item_of "sender ip address: " (print_addr_ip_int (ntohl (ar_sip arp_hdr))) ++
      item_of "target hardware address: " tha ++
      item_of "target ip address: " (print_addr_ip_int (ntohl (ar_tip arp_hdr)))).

Definition too_short (what : string) : list Z :=
  bytes_of "Failed to print " ++ bytes_of what ++ bytes_of " header, insufficient length" ++ nl.

(** [length] is unsigned; [buf] is what can be read behind the pointer. *)
Definition print_hdrs (buf : list Z) (length : Z) : run (list Z) :=
  let minlength := 14 in
  if decide (length < minlength) then Ok (too_short "ETHERNET") else
  ethtype ← ethertype buf;
  eth ← print_hdr_eth buf;
  if decide (ethtype = ethertype_ip) then
    let minlength := minlength + 20 in
    if decide (length < minlength) then Ok (eth ++ too_short "IP") else
    ip ← print_hdr_ip (drop 14 buf);
    ip_proto ← ip_protocol (drop 14 buf);
    if decide (ip_proto = ip_protocol_icmp) then
      let minlength := minlength + 36 in
      if decide (length < minlength) then Ok (eth ++ ip ++ too_short "ICMP")
      else icmp ← print_hdr_icmp (drop 34 buf); Ok (eth ++ ip ++ icmp)
    else Ok (eth ++ ip)
  else if decide (ethtype = ethertype_arp) then
    let minlength := minlength + 28 in
    if decide (length < minlength) then Ok (eth ++ too_short "ARP")
    else arp ← print_hdr_arp (drop 14 buf); Ok (eth ++ arp)
  else Ok (eth ++ bytes_of "Unrecognized Ethernet Type: " ++ print_dec ethtype ++ nl).

(** ** Headers ([sr_router.c]) *)

(** ["%02x:%02x:%02x:%02x:%02x:%02x"] *)
Definition mac_text (addr : list Z) : run (list Z) :=
  a0 ← arr_get addr 0; a1 ← arr_get addr 1; a2 ← arr_get addr 2;
  a3 ← arr_get addr 3; a4 ← arr_get addr 4; a5 ← arr_get addr 5;
  let hex := print_hex false 2 in
  Ok (hex a0 ++ bytes_of ":" ++ hex a1 ++ bytes_of ":" ++ hex a2 ++ bytes_of ":" ++
      hex a3 ++ bytes_of ":" ++ hex a4 ++ bytes_of ":" ++ hex a5).

Definition text_line (label : string) (text : list Z) : list Z := bytes_of label ++ text ++ nl.

Definition print_eth_hdr (hdr : sr_ethernet_hdr) : run (list Z) :=
  mac ← mac_text (ether_dhost hdr); Ok (text_line "Destination MAC: " mac).

Definition print_arp_hdr (hdr : sr_arp_hdr) : run (list Z) :=
  let opcode := ntohs (ar_op hdr) in
  sha ← mac_text (ar_sha hdr);
  tha ← mac_text (ar_tha hdr);
  Ok (text_line "=== ARP Header ===" [] ++
      text_line "Hardware Type: " (print_dec (ntohs (ar_hrd hdr))) ++
      text_line "Protocol Type: 0x" (print_hex false 4 (ntohs (ar_pro hdr))) ++
      text_line "Hardware Addr Len: " (print_dec (ar_hln hdr)) ++
      text_line "Protocol Addr Len: " (print_dec (ar_pln hdr)) ++
      text_line "Opcode: " (print_dec opcode ++ bytes_of " (" ++
        bytes_of (if decide (opcode = 1) then "Request" else if decide (opcode = 2) then "Reply" else "Unknown") ++
        bytes_of ")") ++
      text_line "Sender MAC: " sha ++
      text_line "Sender IP: " (inet_ntoa (ar_sip hdr)) ++
      text_line "Target MAC: " tha ++
      text_line "Target IP: " (inet_ntoa (ar_tip hdr))).

Definition flag_text (off flag : Z) : list Z :=
  bytes_of (if decide (Z.land off flag <> 0) then "Set" else "Not Set").

Definition print_ip_header (ip : sr_ip_hdr) : list Z :=
  let header_length := ip_hl ip * 4 in
  let frag_flags := ntohs (ip_off ip) in
  let protocol := ip_p ip in
  text_line "=== IP Header ===" [] ++
  text_line "Version: " (print_dec (ip_v ip)) ++
  text_line "Header Length: " (print_dec header_length ++ bytes_of " bytes") ++
  text_line "Type of Service: 0x" (print_hex false 2 (ip_tos ip)) ++
  text_line "Total Length: " (print_dec (ntohs (ip_len ip))) ++
  text_line "Identification: 0x" (print_hex false 4 (ntohs (ip_id ip))) ++
  text_line "Fragment Offset: 0x" (print_hex false 4 frag_flags) ++
  text_line "  - RF: " (flag_text frag_flags IP_RF) ++
  text_line "  - DF: " (flag_text frag_flags IP_DF) ++
  text_line "  - MF: " (flag_text frag_flags IP_MF) ++
  text_line "Time to Live (TTL): " (print_dec (ip_ttl ip)) ++
  text_line "Protocol: " (print_dec protocol ++ bytes_of " (" ++
    bytes_of (if decide (protocol = 1) then "ICMP" else if decide (protocol = 6) then "TCP"
              else if decide (protocol = 17) then "UDP" else "Other") ++ bytes_of ")") ++
  text_line "Checksum: 0x" (print_hex false 4 (ntohs (ip_sum ip))) ++
  text_line "Source IP: " (inet_ntoa (ip_src ip)) ++
  text_line "Destination IP: " (inet_ntoa (ip_dst ip)).

Definition print_icmp_hdr (icmp_hdr : sr_icmp_hdr) : run (list Z) :=
  out ← for_from ICMP_DATA_SIZE 0 (fun i out =>
      b ← arr_get (data icmp_hdr) i; Ok (out ++ print_hex false 2 b ++ bytes_of " ")) [];
  Ok (text_line "=== ICMP Header ===" [] ++
      text_line "Type: " (print_dec (icmp_type icmp_hdr)) ++
      text_line "Code: " (print_dec (icmp_code icmp_hdr)) ++
      text_line "Checksum: 0x" (print_hex false 4 (ntohs (icmp_sum icmp_hdr))) ++
      text_line "Unused: 0x" (print_hex false 8 (ntohl (unused icmp_hdr))) ++
      text_line "Data: " out).

(** ** The interface list and the routing table *)

(** [Debug] prints, since the Makefile defines [_DEBUG_]. *)
Definition sr_print_if (x : sr_if) : run (list Z) :=
  ip_addr ← need Uninit (ip x);
  nm ← str_of (name x);
  a ← need Uninit (addr x);
  mac ← mac_text a;
  Ok (nm ++ tab ++ bytes_of "HWaddr" ++ mac ++ nl ++ item "inet addr " (inet_ntoa ip_addr)).

(** From a node to the end of its list: each is printed, then [next] is
    followed while it is not null. *)
Fixpoint print_from {A} (next : A -> ptr) (print : A -> run (list Z)) (fuel : nat) (h : heap A) (walker : ptr)
    : run (list Z) :=
  match fuel with
  | O => Crash Fuel
  | S fuel =>
      x ← hload h walker;
      out ← print x;
      match next x with
      | None => Ok out
      | Some _ => more ← print_from next print fuel h (next x); Ok (out ++ more)
      end
  end.

Definition sr_print_if_list (t : interfaces) : run (list Z) :=
  if decide (if_list t = NULL) then Ok (bytes_of " Interface list empty " ++ nl)
  else print_from if_next sr_print_if (if_fuel t) (ifs t) (if_list t).

Definition sr_print_routing_entry (entry : sr_rt) : run (list Z) :=
  i ← str_of (interface entry);
  Ok (inet_ntoa (dest entry) ++ tab ++ tab ++ inet_ntoa (gw entry) ++ tab ++ inet_ntoa (mask entry) ++ tab ++ i ++ nl).

Definition table_header : list Z :=
  bytes_of "Destination" ++ tab ++ bytes_of "Gateway" ++ tab ++ tab ++ bytes_of "Mask" ++ tab ++ bytes_of "Iface" ++ nl.

Definition sr_print_routing_table (t : rtable) : run (list Z) :=
  if decide (routing_table t = NULL) then Ok (bytes_of " *warning* Routing table empty " ++ nl)
  else rows ← print_from rt_next sr_print_routing_entry (rt_fuel t) (rts t) (routing_table t);
       Ok (table_header ++ rows).

(** ** The ARP cache ([sr_arpcache.c])

    [ctime] gives the text of a time, of which 24 characters are printed; the
    bytes of a hardware address have no leading zeros ([%.1x]). *)
Section dump.
Context (ctime : Z -> list Z).

Definition dump_entry (cur : sr_arpentry) : run (list Z) :=
  hex ← for_from 6 0 (fun k out => b ← arr_get (mac cur) k; Ok (out ++ print_hex false 1 b)) [];
  Ok (hex ++ bytes_of "   " ++ print_hex false 8 (ntohl (ent_ip cur)) ++ bytes_of "   " ++
      take 24 (ctime (added cur)) ++ bytes_of "   " ++ print_dec (if valid cur then 1 else 0) ++ nl).

Definition sr_arpcache_dump (cache : sr_arpcache) : run (list Z) :=
  rows ← for_from (Z.to_nat SR_ARPCACHE_SZ) 0
           (fun i out => cur ← arr_get (entries cache) i; row ← dump_entry cur; Ok (out ++ row)) [];
  Ok (nl ++ bytes_of "MAC            IP         ADDED                      VALID" ++ nl ++
      bytes_of "-----------------------------------------------------------" ++ nl ++ rows ++ nl).
End dump.

(** ** What [print_hdrs] looks at *)

(** Reading a structure from bytes depends on those bytes only. *)
Lemma dec_prefix {A} (l : layout A) `{!LayoutLaws l} bs rest : length bs = size_of l -> Forall is_byte bs ->
  dec l (bs ++ rest) = dec l bs.
Proof.
  intros Hl Hb. destruct (enc_dec bs [] Hl Hb) as [Hf He]. rewrite app_nil_r in Hf, He.
  rewrite <- He at 1. by apply dec_enc.
Qed.

Lemma slice_app p more off n : (off + n <= length p)%nat -> slice (p ++ more) off n = slice p off n.
Proof.
  intros Hl. rewrite !slice_ok by (rewrite ?length_app; lia). rewrite drop_app_le by lia.
  by rewrite take_app_le by (rewrite length_drop; lia).
Qed.

Lemma slice_drop p k off n : (k <= length p)%nat -> slice (drop k p) off n = slice p (k + off) n.
Proof.
  intros Hk. unfold slice. rewrite length_drop, drop_drop.
  do 2 case_decide; (done || lia).
Qed.

Lemma mac_ok upper a : length a = 6%nat -> Forall is_byte a ->
  exists text, (if upper : bool then print_addr_eth a else mac_text a) = Ok text.
Proof.
  intros Hl Hb. destruct a as [|a0 [|a1 [|a2 [|a3 [|a4 [|a5 [|? ?]]]]]]]; try done.
  destruct upper; eexists; reflexivity.
Qed.

Lemma read_at_ok_fits {A} (l : layout A) `{!LayoutLaws l} buf off : (off + size_of l <= length buf)%nat ->
  Forall is_byte buf -> exists a, read_at l buf off = Ok a /\ fits l a.
Proof.
  intros Hl Hb. eexists. split; [by apply read_at_ok|]. by apply (read_at_fits l buf off _ Hb), read_at_ok.
Qed.

Section safe.
Context (frame more : list Z) (Hb : Forall is_byte frame).

Lemma field_safe off n : (off + n <= length frame)%nat -> get_field (frame ++ more) off n = get_field frame off n.
Proof. intros Hl. unfold get_field. by rewrite slice_app. Qed.

Lemma read_safe {A} (l : layout A) off : (off + size_of l <= length frame)%nat ->
  read_at l (frame ++ more) off = read_at l frame off.
Proof. intros Hl. unfold read_at. by rewrite slice_app. Qed.
End safe.

(** What depends on the first [n] bytes only. *)
Definition within (n : nat) (f : list Z -> run (list Z)) : Prop := forall frame more,
  Forall is_byte frame -> (n <= length frame)%nat -> exists out, f (frame ++ more) = Ok out /\ f frame = Ok out.

Lemma hdr_eth_within : within 14 print_hdr_eth.
Proof.
  intros frame more Hb Hl. unfold print_hdr_eth. rewrite read_safe by exact Hl.
  destruct (read_at_ok_fits ethernet_layout frame 0) as (h & -> & (Hd & Hs & _)); [exact Hl|done|]. run_step.
  cbn [fst snd] in Hd, Hs. destruct Hd as [Hd1 Hd2], Hs as [Hs1 Hs2].
  destruct (mac_ok true _ Hd1 Hd2) as [d ->], (mac_ok true _ Hs1 Hs2) as [s ->]. run_step. by eexists.
Qed.

Lemma hdr_ip_within : within 20 print_hdr_ip.
Proof.
  intros frame more Hb Hl. unfold print_hdr_ip. rewrite read_safe by exact Hl.
  destruct (read_at_ok_fits ip_layout frame 0) as (h & -> & _); [exact Hl|done|]. by eexists.
Qed.

Lemma hdr_arp_within : within 28 print_hdr_arp.
Proof.
  intros frame more Hb Hl. unfold print_hdr_arp. rewrite read_safe by exact Hl.
  destruct (read_at_ok_fits arp_layout frame 0) as (h & -> & Hf); [exact Hl|done|]. run_step.
  cbn [fits arp_layout as_record pair_of uint octets fst snd] in Hf.
  destruct Hf as (_ & _ & _ & _ & _ & [Hs1 Hs2] & _ & [Ht1 Ht2] & _).
  destruct (mac_ok true _ Hs1 Hs2) as [d ->], (mac_ok true _ Ht1 Ht2) as [s ->]. run_step. by eexists.
Qed.

Lemma hdr_icmp_within : within 4 print_hdr_icmp.
Proof.
  intros frame more Hb Hl. unfold print_hdr_icmp. rewrite !field_safe by lia.
  unfold get_field. rewrite !slice_ok by lia. by eexists.
Qed.

Lemma within_at n k f frame more : within n f -> Forall is_byte frame -> (k + n <= length frame)%nat ->
  exists out, f (drop k (frame ++ more)) = Ok out /\ f (drop k frame) = Ok out.
Proof.
  intros Hf Hb Hl. rewrite drop_app_le by lia. apply Hf; [by apply Forall_drop|rewrite length_drop; lia].
Qed.

(** C38: [print_hdrs] on a frame of [length] bytes reads these bytes and no
    others, however short the frame is and whatever its headers say: it never
    fails, and prints the same whether other memory follows the frame or
    none does. *)
Theorem print_hdrs_safe frame more : Forall is_byte frame ->
  exists out, print_hdrs (frame ++ more) (zlen frame) = Ok out /\ print_hdrs frame (zlen frame) = Ok out.
Proof.
  intros Hb. unfold print_hdrs, ethertype, frame_ether_type, ip_protocol.
  case_decide as H14; [by eexists|]. rewrite field_safe by lia.
  assert (exists ty, get_field frame 12 2 = Ok ty) as [ty ->] by (unfold get_field; rewrite slice_ok by lia; by eexists).
  run_step.
  destruct (hdr_eth_within frame more Hb) as (eth & -> & ->); [lia|]. run_step.
  case_decide.
  - case_decide; [by eexists|].
    destruct (within_at 20 14 print_hdr_ip frame more hdr_ip_within Hb) as (ip & -> & ->); [lia|]. run_step.
    unfold get_field. rewrite !slice_drop by (rewrite ?length_app; lia). rewrite slice_app by lia.
    rewrite slice_ok by lia. run_step. case_decide; [|by eexists]. case_decide; [by eexists|].
    destruct (within_at 4 34 print_hdr_icmp frame more hdr_icmp_within Hb) as (icmp & -> & ->); [lia|]. by eexists.
  - case_decide; [|by eexists]. case_decide; [by eexists|].
    destruct (within_at 28 14 print_hdr_arp frame more hdr_arp_within Hb) as (arp & -> & ->); [lia|]. by eexists.
Qed.

Lemma print_hdrs_safe_witness :
  exists out, print_hdrs (sample_arp_request ++ [1; 2; 3]) 42 = Ok out /\ print_hdrs sample_arp_request 42 = Ok out.
Proof.
  apply (print_hdrs_safe sample_arp_request [1; 2; 3]).
  repeat (apply Forall_cons; split); try apply Forall_nil_2; unfold is_byte; lia.
Defined.

(** ** Addresses *)

(** The ways of printing an address agree.  For every address as it is in
    a packet, [print_addr_ip], [print_addr_ip_int] of [ntohl] of it and
    [inet_ntoa] give the same dotted-decimal text, which a reader turns back
    into the address; though [print_addr_ip] announces a buffer of 100 bytes
    where it has 16, the text of every address fits into it. *)
Theorem addresses_agree a : 0 <= a < 2 ^ 32 ->
  print_addr_ip a = Ok (inet_ntoa a ++ nl) /\ print_addr_ip_int (ntohl a) = inet_ntoa a ++ nl /\
  read_dotted (inet_ntoa a) = Some a.
Proof.
  intros Ha. split; [|split; [|by apply read_inet_ntoa]].
  - pose proof (inet_ntoa_fits a) as Hf. unfold print_addr_ip. cbv zeta. unfold INET_ADDRSTRLEN in *.
    by rewrite !decide_False by lia.
  - unfold inet_ntoa, print_addr_ip_int, ntohl, htonl, be_bytes.
    destruct (address_bytes a Ha) as (b0 & b1 & b2 & b3 & -> & Hb & _).
    rewrite !Forall_cons in Hb. unfold is_byte in Hb. destruct Hb as (H0 & H1 & H2 & H3 & _).
    cbn [rev app le_val dotted]. set (z := b3 + 256 * (b2 + 256 * (b1 + 256 * (b0 + 256 * 0)))).
    assert (Z.shiftr z 24 = b0 /\ Z.shiftr (u32 (Z.shiftl z 8)) 24 = b1 /\
            Z.shiftr (u32 (Z.shiftl z 16)) 24 = b2 /\ Z.shiftr (u32 (Z.shiftl z 24)) 24 = b3) as (-> & -> & -> & ->).
    { unfold u32, z. rewrite !Z.shiftr_div_pow2, !Z.shiftl_mul_pow2 by lia.
      change (2 ^ 24) with 16777216. change (2 ^ 8) with 256. change (2 ^ 16) with 65536.
      change (2 ^ 32) with 4294967296. split_and!; Z.div_mod_to_equations; lia. }
    change (bytes_of ".") with [46]. repeat (rewrite <- app_assoc; cbn [app]). reflexivity.
Qed.

Lemma addresses_agree_witness :
  print_addr_ip 0x0100000a = Ok (bytes_of "10.0.0.1" ++ nl) /\ print_addr_ip_int 0x0a000001 = bytes_of "10.0.0.1" ++ nl.
Proof. destruct (addresses_agree 0x0100000a) as (H1 & H2 & _); [lia|]. split; [exact H1|exact H2]. Defined.

(** ** The routing table *)

Lemma print_from_ok {A} (next : A -> ptr) print text h l : forall fuel p,
  linked next p l NULL -> l <> [] -> (forall b y, (b, y) ∈ l -> hload h (Some b) = Ok y) ->
  (forall b y, (b, y) ∈ l -> print y = Ok (text y)) -> (length l <= fuel)%nat ->
  print_from next print fuel h p = Ok (concat ((fun y => text y.2) <$> l)).
Proof.
  induction l as [|[b y] l IH]; intros fuel p Hlk Hne Hld Hpr Hf; [done|].
  cbn [linked] in Hlk. destruct Hlk as [-> Hlk]. destruct fuel as [|fuel]; [cbn in Hf; lia|].
  cbn [print_from]. rewrite (Hld b y) by (by left). run_step. rewrite (Hpr b y) by (by left). run_step.
  cbn [fmap list_fmap concat snd]. destruct l as [|[b2 y2] l].
  - cbn [linked] in Hlk. rewrite Hlk. cbn. by rewrite app_nil_r.
  - assert (next y = Some b2) as Hn by (cbn in Hlk; tauto). rewrite Hn. rewrite <- Hn.
    rewrite (IH fuel (next y)); [done|done|done| | |cbn in Hf |- *; lia].
    + intros b' y' Hin. apply Hld. by right.
    + intros b' y' Hin. apply (Hpr b'). by right.
Qed.

(** The nodes are as the compiler lays them out: [char[32]] for the names,
    six bytes for a hardware address. *)
Definition iface_wf (x : sr_if) : Prop :=
  length (name x) = 32%nat /\ forall a, addr x = Some a -> length a = 6%nat.
Definition ifaces_wf (t : interfaces) : Prop := map_Forall (fun _ => iface_wf) (cells (ifs t)).
Definition routes_wf (t : rtable) : Prop := map_Forall (fun _ x => length (interface x) = 32%nat) (cells (rts t)).

(** What goes wrong when an interface is printed: an address never announced
    is read, or a name of 32 characters has no end. *)
Definition print_fault (v : iface) : option fault :=
  match i_ip v, i_addr v with
  | None, _ => Some Uninit
  | Some _, o => if decide (32 <= zlen (i_name v)) then Some OutOfRange
                 else match o with None => Some Uninit | Some _ => None end
  end.
Fixpoint first_fault (vs : list iface) : option fault :=
  match vs with
  | [] => None
  | v :: vs => match print_fault v with Some f => Some f | None => first_fault vs end
  end.

Lemma print_if_ok b x : iface_wf x ->
  match print_fault (if_view (b, x)).2 with
  | None => exists out, sr_print_if x = Ok out
  | Some f => sr_print_if x = Crash f
  end.
Proof.
  intros [Hn Ha]. unfold print_fault, if_view, sr_print_if. cbn [fst snd i_name i_addr i_ip].
  destruct (ip x) as [i|]; [|done]. run_step. case_decide as Hl.
  - assert (str_of (name x) = Crash OutOfRange) as ->; [|done]. apply str_of_unterminated.
    intros Hz. apply c_str_shorter in Hz. lia.
  - rewrite str_of_short by lia. run_step. destruct (addr x) as [a|] eqn:Haddr; [|done]. run_step.
    specialize (Ha a eq_refl). destruct a as [|a0 [|a1 [|a2 [|a3 [|a4 [|a5 [|? ?]]]]]]]; try done. by eexists.
Qed.

(** Printing a list: its text, or the first thing that goes wrong. *)
Lemma print_from_faults h l : forall fuel p,
  linked if_next p l NULL -> l <> [] -> (forall b y, (b, y) ∈ l -> hload h (Some b) = Ok y) ->
  Forall (fun y => iface_wf y.2) l -> (length l <= fuel)%nat ->
  match first_fault (if_view <$> l).*2 with
  | None => exists out, print_from if_next sr_print_if fuel h p = Ok out
  | Some f => print_from if_next sr_print_if fuel h p = Crash f
  end.
Proof.
  induction l as [|[b y] l IH]; intros fuel p Hlk Hne Hld Hwf Hf; [done|].
  apply Forall_cons in Hwf as [Hy Hwf]. cbn [linked] in Hlk. destruct Hlk as [-> Hlk].
  destruct fuel as [|fuel]; [cbn in Hf; lia|].
  cbn [print_from]. rewrite (Hld b y) by (by left). run_step. cbn [fmap list_fmap first_fault].
  pose proof (print_if_ok b y Hy) as Hp. destruct (print_fault (if_view (b, y)).2) as [f|]; [by rewrite Hp|].
  destruct Hp as [out ->]. run_step. destruct l as [|[b2 y2] l].
  - cbn [linked] in Hlk. rewrite Hlk. by exists out.
  - assert (if_next y = Some b2) as Hn by (cbn in Hlk; tauto). rewrite Hn. rewrite <- Hn.
    assert (length ((b2, y2) :: l) <= fuel)%nat as Hf' by (cbn in Hf |- *; lia).
    specialize (IH fuel (if_next y) Hlk ltac:(done) (fun b' y' Hin => Hld b' y' (list_elem_of_further _ _ _ Hin)) Hwf Hf').
    destruct (first_fault (if_view <$> (b2, y2) :: l).*2) as [f|]; [by rewrite IH|].
    destruct IH as [more ->]. by eexists.
Qed.

Lemma print_if_list_ok t vs rest : if_rep t vs rest -> ifaces_wf t ->
  match first_fault vs.*2 with
  | None => exists out, sr_print_if_list t = Ok out
  | Some f => sr_print_if_list t = Crash f
  end.
Proof.
  intros (l & -> & Hlk & Ho) Hwf. unfold sr_print_if_list.
  destruct l as [|[a x] l]; [cbn in Hlk; rewrite Hlk; by eexists|].
  rewrite decide_False by (destruct Hlk as [-> _]; done).
  apply print_from_faults; [exact Hlk|done| | |by apply (owning_size _ _ _ Ho)].
  - intros b y Hin. by apply (owning_load _ _ _ _ _ Ho).
  - apply Forall_forall. intros [b y] Hin. pose proof (owning_load _ _ _ _ _ Ho Hin) as Hld. cbn in Hld.
    destruct (cells (ifs t) !! b) as [z|] eqn:Hz; [|done]. injection Hld as ->. exact (Hwf _ _ Hz).
Qed.

(** Nodes stay well formed when one is loaded and stored back changed. *)
Lemma heap_wf_update {A} (P : A -> Prop) (h h' : heap A) p x y : map_Forall (fun _ => P) (cells h) ->
  hload h p = Ok x -> (P x -> P y) -> hstore h p y = Ok h' -> map_Forall (fun _ => P) (cells h').
Proof.
  intros Hh Hl Hy Hs. destruct p as [a|]; [|done]. cbn in Hl, Hs.
  destruct (cells h !! a) as [z|] eqn:Hz; [|done]. injection Hl as ->. injection Hs as <-.
  apply map_Forall_insert_2; [|done]. apply Hy. exact (Hh _ _ Hz).
Qed.

Lemma heap_wf_halloc {A} (P : A -> Prop) (h : heap A) x : map_Forall (fun _ => P) (cells h) -> P x ->
  map_Forall (fun _ => P) (cells (halloc h x).2).
Proof. intros Hh Hx. by apply map_Forall_insert_2. Qed.

Lemma add_interface_wf t nm t' : sr_add_interface t nm = Ok t' -> ifaces_wf t -> ifaces_wf t'.
Proof.
  intros Hr Hwf. assert (iface_wf (new_if nm)) as Hn by (split; [apply length_strncpy|done]).
  pose proof (heap_wf_halloc _ _ _ Hwf Hn) as Hal. unfold sr_add_interface in Hr.
  destruct (halloc (ifs t) (new_if nm)) as [a h]. destruct (if_list t); run_inv; [|done].
  eapply heap_wf_update; [exact Hal|eassumption| |eassumption]. done.
Qed.

Lemma set_ether_ip_wf t i t' : sr_set_ether_ip t i = Ok t' -> ifaces_wf t -> ifaces_wf t'.
Proof.
  intros Hr Hwf. unfold sr_set_ether_ip in Hr. run_inv.
  eapply heap_wf_update; [exact Hwf|eassumption| |eassumption]. done.
Qed.

Lemma set_ether_addr_wf t a t' : sr_set_ether_addr t a = Ok t' -> ifaces_wf t -> ifaces_wf t'.
Proof.
  intros Hr Hwf. unfold sr_set_ether_addr in Hr. run_inv. case_decide; [done|]. run_inv.
  eapply heap_wf_update; [exact Hwf|eassumption| |eassumption]. intros [Hnm _]. split; [done|].
  intros b [= <-]. rewrite length_take. lia.
Qed.

(** The routing table is printed if its names have an end. *)
Lemma print_routing_table_ok t vs rest : rt_rep t vs rest -> routes_wf t ->
  Forall (fun v => zlen (r_if v) < 32) vs -> exists out, sr_print_routing_table t = Ok out.
Proof.
  intros (l & -> & Hlk & Ho) Hwf Hok. unfold sr_print_routing_table.
  destruct l as [|[a x] l]; [cbn in Hlk; rewrite Hlk; by eexists|].
  rewrite decide_False by (destruct Hlk as [-> _]; done).
  rewrite (print_from_ok _ _ (fun y => inet_ntoa (dest y) ++ tab ++ tab ++ inet_ntoa (gw y) ++ tab ++
    inet_ntoa (mask y) ++ tab ++ c_str (interface y) ++ nl) (rts t) ((a, x) :: l)); [by eexists|done|done| | |].
  - intros b y Hin. by apply (owning_load _ _ _ _ _ Ho).
  - intros b y Hin. pose proof (owning_load _ _ _ _ _ Ho Hin) as Hld. cbn in Hld.
    destruct (cells (rts t) !! b) as [z|] eqn:Hz; [|done]. injection Hld as ->.
    rewrite Forall_fmap, Forall_forall in Hok. pose proof (Hok _ Hin) as Hy. cbn in Hy.
    unfold sr_print_routing_entry. rewrite str_of_short; [done|]. pose proof (Hwf _ _ Hz). cbn in *. lia.
  - by apply (owning_size _ _ _ Ho).
Qed.

Lemma add_rt_entry_wf t d g m nm t' : sr_add_rt_entry t d g m nm = Ok t' -> routes_wf t -> routes_wf t'.
Proof.
  intros Hr Hwf. unfold sr_add_rt_entry in Hr. set (node := SrRt d g m _ NULL) in Hr.
  assert (length (interface node) = 32%nat) as Hn by apply length_strncpy.
  pose proof (heap_wf_halloc (fun x => length (interface x) = 32%nat) _ _ Hwf Hn) as Hal.
  destruct (halloc (rts t) node) as [a h]. destruct (routing_table t); run_inv; [|done].
  eapply (heap_wf_update (fun x => length (interface x) = 32%nat)); [exact Hal|eassumption| |eassumption]. done.
Qed.

Lemma load_lines_wf inet_aton fuel : forall data bufs clear t r t',
  load_lines inet_aton fuel data bufs clear t = Ok (r, t') -> routes_wf t -> routes_wf t'.
Proof.
  induction fuel as [|fuel IH]; intros data bufs clear t r t' Hr Hwf.
  { destruct data; cbn in Hr; [by injection Hr as _ <-|done]. }
  destruct data as [|c data]; cbn [load_lines] in Hr; [by injection Hr as _ <-|].
  destruct (fgets _ _) as [line data']. run_inv. destruct r0 as [bufs' [t1|]]; [|by injection Hr as _ <-].
  eapply IH; [exact Hr|]. unfold load_line in E. run_inv.
  repeat (destruct (inet_aton _); [|done]; run_inv). eapply add_rt_entry_wf; [eassumption|]. by destruct clear.
Qed.

Lemma load_rt_wf inet_aton t file r t' : sr_load_rt inet_aton t file = Ok (r, t') -> routes_wf t -> routes_wf t'.
Proof.
  unfold sr_load_rt. destruct file; [apply load_lines_wf|by intros [= _ <-]].
Qed.

(** A route whose printed row can be read: addresses of 32 bits, a name
    without spaces. *)
Definition route_ok (v : route) : Prop :=
  0 <= r_dest v < 2 ^ 32 /\ 0 <= r_gw v < 2 ^ 32 /\ 0 <= r_mask v < 2 ^ 32 /\ word_ok (r_if v).

Definition route_row (v : route) : row := Row (inet_ntoa (r_dest v)) (inet_ntoa (r_gw v)) (inet_ntoa (r_mask v)) (r_if v).
Definition route_line (v : route) : list Z :=
  inet_ntoa (r_dest v) ++ tab ++ tab ++ inet_ntoa (r_gw v) ++ tab ++ inet_ntoa (r_mask v) ++ tab ++ r_if v ++ nl.

Lemma inet_ntoa_word a : word_ok (inet_ntoa a).
Proof.
  pose proof (inet_ntoa_fits a) as Hl. unfold INET_ADDRSTRLEN in Hl. unfold inet_ntoa in *.
  pose proof (le_bytes_is_byte 4 a) as Hb. split; [|split; [lia|]].
  - cbn [le_bytes] in *. apply dotted_nonempty. by apply Forall_cons in Hb as [Hb _].
  - eapply Forall_impl; [by apply dotted_chars|]. intros c Hc. cbv beta in Hc. split; [lia|]. apply bool_decide_eq_false. lia.
Qed.

(** Four words with tabulators between them, as [printf] sets them. *)
Lemma tabbed_line w1 w2 w3 w4 t1 t2 t3 : word_ok w1 -> word_ok w2 -> word_ok w3 -> word_ok w4 ->
  t1 = tab \/ t1 = tab ++ tab -> t2 = tab \/ t2 = tab ++ tab -> t3 = tab \/ t3 = tab ++ tab ->
  row_line (Row w1 w2 w3 w4) (w1 ++ t1 ++ w2 ++ t2 ++ w3 ++ t3 ++ w4 ++ nl).
Proof.
  intros H1 H2 H3 H4 Ht1 Ht2 Ht3.
  assert (forall t, t = tab \/ t = tab ++ tab -> is_str t /\ (length t <= 2)%nat /\ Forall (fun c => c <> 10) t) as Ht.
  { intros t [-> | ->]; (split; [apply (bool_decide_unpack (is_str _)); vm_compute; exact I|]);
      (split; [cbn; lia|]); apply (bool_decide_unpack (Forall _ _)); vm_compute; exact I. }
  destruct (Ht _ Ht1) as (Hs1 & Hl1 & Hn1), (Ht _ Ht2) as (Hs2 & Hl2 & Hn2), (Ht _ Ht3) as (Hs3 & Hl3 & Hn3).
  pose proof (word_is_str _ H1). pose proof (word_is_str _ H2). pose proof (word_is_str _ H3).
  pose proof (word_is_str _ H4). pose proof (word_no_newline _ H1). pose proof (word_no_newline _ H2).
  pose proof (word_no_newline _ H3). pose proof (word_no_newline _ H4).
  split; [|split; [|split; [|split; [done|]]]].
  - unfold is_str in *. repeat (apply Forall_app_2; [done|]). by apply Forall_singleton.
  - rewrite !length_app. destruct H1 as (_ & ? & _), H2 as (_ & ? & _), H3 as (_ & ? & _), H4 as (_ & ? & _).
    unfold BUFSIZ. cbn [length nl]. lia.
  - exists (w1 ++ t1 ++ w2 ++ t2 ++ w3 ++ t3 ++ w4). split; [by rewrite <- !app_assoc|].
    repeat (apply Forall_app_2; [done|]). done.
  - intros bufs Hb. destruct bufs as [|b1 [|b2 [|b3 [|b4 [|]]]]]; try done.
    destruct Ht1 as [-> | ->], Ht2 as [-> | ->], Ht3 as [-> | ->]; unfold tab, nl; cbn [app];
      repeat (rewrite sscanf_step by done; rewrite ?sscanf_space by done); done.
Qed.

Section table.
Context (inet_aton : list Z -> option Z) (aton_ntoa : forall a, 0 <= a < 2 ^ 32 -> inet_aton (inet_ntoa a) = Some a).

Lemma parse_printed vs : Forall route_ok vs -> parse_rows inet_aton (route_row <$> vs) = (vs, 0).
Proof.
  induction 1 as [|v vs (H1 & H2 & H3 & _) _ IH]; [done|]. cbn [fmap list_fmap parse_rows]. rewrite IH.
  unfold row_route, route_row. cbn [w_dest w_gw w_mask w_if]. rewrite !aton_ntoa by done. cbn. by destruct v.
Qed.

Lemma printed_lines vs : Forall route_ok vs -> Forall2 row_line (route_row <$> vs) (route_line <$> vs).
Proof.
  induction 1 as [|v vs (_ & _ & _ & Hw) _ IH]; [by apply Forall2_nil_2|].
  change (Forall2 row_line (route_row v :: (route_row <$> vs)) (route_line v :: (route_line <$> vs))).
  apply Forall2_cons_2; [|exact IH].
  apply (tabbed_line (inet_ntoa (r_dest v)) (inet_ntoa (r_gw v)) (inet_ntoa (r_mask v)) (r_if v) (tab ++ tab) tab tab);
    try apply inet_ntoa_word; try done; by (left + right).
Qed.

Lemma table_header_row : row_line (Row (bytes_of "Destination") (bytes_of "Gateway") (bytes_of "Mask") (bytes_of "Iface")) table_header.
Proof.
  apply (tabbed_line (bytes_of "Destination") (bytes_of "Gateway") (bytes_of "Mask") (bytes_of "Iface") tab (tab ++ tab) tab);
    try (apply sample_word_ok; vm_compute; reflexivity); by (left + right).
Qed.

(** C28: a printed routing table loads as itself.  [sr_print_routing_table]
    prints a header line and a row per route; a file of these rows makes
    [sr_load_rt] return 0 and replace any table by the one printed, route by
    route.  With the header line in front the load fails and changes nothing.
    An empty table prints a warning. *)
Theorem routing_table_printed t vs rest :
  rt_rep t vs rest -> Forall route_ok vs ->
  (forall b y, cells (rts t) !! b = Some y -> length (interface y) = 32%nat) ->
  (vs = [] -> sr_print_routing_table t = Ok (bytes_of " *warning* Routing table empty " ++ nl)) /\
  (vs <> [] -> exists rows, sr_print_routing_table t = Ok (table_header ++ rows) /\
     forall t2 vs2 rest2, rt_rep t2 vs2 rest2 ->
       (exists t' rest', sr_load_rt inet_aton t2 (Some rows) = Ok (0, t') /\ rt_rep t' vs rest') /\
       (inet_aton (bytes_of "Destination") = None ->
          exists t' rest', sr_load_rt inet_aton t2 (Some (table_header ++ rows)) = Ok (-1, t') /\ rt_rep t' vs2 rest')).
Proof.
  intros (l & -> & Hlk & Ho) Hok Htyped. split.
  { intros Hnil. destruct l; [|done]. cbn in Hlk. unfold sr_print_routing_table. by rewrite Hlk. }
  intros Hne. assert (l <> []) as Hl by (by intros ->). exists (concat (route_line <$> (rt_view <$> l))). split.
  - unfold sr_print_routing_table. rewrite decide_False by (destruct l as [|[a x] l]; [done|]; by destruct Hlk as [-> _]).
    rewrite (print_from_ok _ _ (fun y => route_line (rt_view (1%positive, y))) (rts t) l); [| done | done | | |].
    + run_step. rewrite <- list_fmap_compose. do 3 f_equal. 
    + intros b y Hin. by apply (owning_load _ _ _ _ _ Ho).
    + intros b y Hin. pose proof (owning_load _ _ _ _ _ Ho Hin) as Hld. cbn in Hld.
      destruct (cells (rts t) !! b) as [z|] eqn:Hz; [|done]. injection Hld as ->.
      rewrite Forall_fmap, Forall_forall in Hok. destruct (Hok _ Hin) as (_ & _ & _ & _ & Hw & _).
      cbn [rt_view r_if snd] in Hw. unfold sr_print_routing_entry.
      assert (str_of (interface y) = Ok (c_str (interface y))) as ->; [|done].
      apply str_of_short. pose proof (Htyped _ _ Hz). lia.
    + by apply (owning_size _ _ _ Ho).
  - intros t2 vs2 rest2 Hrep. pose proof (parse_printed _ Hok) as Hp. pose proof (printed_lines _ Hok) as Hlines. split.
    + destruct (load_text_ok inet_aton _ _ Hlines (length (concat (route_line <$> (rt_view <$> l)))) (replicate 4 None)
        false t2 vs2 rest2 eq_refl Hrep (le_n _)) as (t' & rest' & Hrun & Hrep').
      rewrite Hp in Hrun, Hrep'. cbn [fst snd] in *. exists t', rest'. split; [done|]. by destruct (rt_view <$> l).
    + intros Hd. eassert (Forall2 row_line (_ :: _) (_ :: _)) as Hlines' by (apply Forall2_cons_2; [exact table_header_row|exact Hlines]).
      destruct (load_text_ok inet_aton _ _ Hlines' (length (table_header ++ concat (route_line <$> (rt_view <$> l))))
        (replicate 4 None) false t2 vs2 rest2 eq_refl Hrep (le_n _)) as (t' & rest' & Hrun & Hrep').
      exists t', rest'. cbn [parse_rows row_route w_dest] in Hrun, Hrep'. 
      unfold row_route in Hrun, Hrep'. cbn [w_dest] in *. rewrite Hd in *. done.
Qed.
End table.

Lemma routing_table_printed_witness : exists rows,
  sr_print_routing_table sample_rt = Ok (table_header ++ rows) /\
  take 26 rows = bytes_of "10.0.0.0" ++ tab ++ tab ++ bytes_of "10.0.1.1" ++ tab ++ bytes_of "255.0.0" /\
  exists t' rest', sr_load_rt read_dotted sample_rt (Some rows) = Ok (0, t') /\ rt_rep t' sample_routes rest'.
Proof.
  destruct (routing_table_printed read_dotted read_inet_ntoa sample_rt sample_routes ∅ sample_rt_rep) as [_ Hp].
  - repeat (apply Forall_cons; split); try apply Forall_nil_2;
      (split; [cbn; lia|split; [cbn; lia|split; [cbn; lia|apply sample_word_ok; vm_compute; reflexivity]]]).
  - intros b y Hy. cbn in Hy. rewrite lookup_insert_Some, lookup_singleton_Some in Hy.
    destruct Hy as [[_ <-]|[_ [_ <-]]]; reflexivity.
  - destruct (Hp ltac:(discriminate)) as (rows & Hprint & Hload). exists rows. split; [exact Hprint|]. split.
    + vm_compute in Hprint. injection Hprint as <-. vm_compute. reflexivity.
    + exact (proj1 (Hload _ _ _ sample_rt_rep)).
Defined.

(** ** The dump of the ARP cache *)

(** The row of an entry. *)
Definition entry_row (ctime : Z -> list Z) (e : sr_arpentry) : list Z :=
  concat (print_hex false 1 <$> mac e) ++ bytes_of "   " ++ print_hex false 8 (ntohl (ent_ip e)) ++ bytes_of "   " ++
  take 24 (ctime (added e)) ++ bytes_of "   " ++ print_dec (if valid e then 1 else 0) ++ nl.

(** A loop over an array that adds to the text what an element gives. *)
Lemma for_text {A} (a : list A) (text : A -> run (list Z)) (row : A -> list Z) n : length a = n ->
  Forall (fun x => text x = Ok (row x)) a ->
  for_from n 0 (fun i out => x ← arr_get a i; r ← text x; Ok (out ++ r)) [] = Ok (concat (row <$> a)).
Proof.
  intros <- Ha.
  assert (forall post pre out, a = pre ++ post ->
    for_from (length post) (zlen pre) (fun i out => x ← arr_get a i; r ← text x; Ok (out ++ r)) out
    = Ok (out ++ concat (row <$> post))) as Hloop.
  { induction post as [|x post IH]; intros pre out Hs; cbn [length for_from]; [by rewrite app_nil_r|].
    rewrite (arr_get_ok a _ x) by (lia || (rewrite Hs, Nat2Z.id; by apply list_lookup_middle)). run_step.
    assert (text x = Ok (row x)) as Hx by (rewrite Forall_forall in Ha; apply Ha; rewrite Hs; set_solver).
    rewrite Hx. run_step. rewrite cons_middle, app_assoc in Hs.
    specialize (IH (pre ++ [x]) (out ++ row x) Hs). rewrite length_app in IH.
    replace (Z.of_nat (length pre + length [x])) with (zlen pre + 1) in IH by (cbn [length]; lia).
    rewrite IH. by rewrite <- app_assoc. }
  apply (Hloop a [] []). done.
Qed.

(** The dump is a row for every slot, used or not; it does not tell hardware
    addresses apart whose digits are the same. *)
Theorem arpcache_dumped ctime c : zlen (entries c) = SR_ARPCACHE_SZ -> Forall (fun e => length (mac e) = 6%nat) (entries c) ->
  sr_arpcache_dump ctime c
  = Ok (nl ++ bytes_of "MAC            IP         ADDED                      VALID" ++ nl ++
        bytes_of "-----------------------------------------------------------" ++ nl ++
        concat (entry_row ctime <$> entries c) ++ nl) /\
  (forall ip t v, entry_row ctime (ArpEntry [1; 0x23; 4; 5; 6; 7] ip t v)
                  = entry_row ctime (ArpEntry [0x12; 3; 4; 5; 6; 7] ip t v)).
Proof.
  intros Hn Hm. split; [|done]. unfold sr_arpcache_dump.
  rewrite (for_text (entries c) (dump_entry ctime) (entry_row ctime)); [done|lia|].
  apply (Forall_impl _ _ _ Hm). intros e He. unfold dump_entry.
  pose proof (for_text (mac e) (fun b => Ok (print_hex false 1 b)) (print_hex false 1) 6 He) as Hmac.
  change (for_from 6 0 _ []) with (for_from 6 0 (fun i out => x ← arr_get (mac e) i; r ← Ok (print_hex false 1 x);
    Ok (out ++ r)) []). by rewrite Hmac by (by apply Forall_true).
Qed.
