(* ===== verification/ProxyHeaders.v ===== *)
(** * The HTTP request object of the proxy

    Models [Assignment1/starter_code/proxy_parse.c] except for parsing, which
    is in [ProxyParse.v]: the table of headers ([ParsedHeader_*]), the life of
    a [ParsedRequest], and printing it back ([ParsedRequest_unparse]).
    Proved: the table implements an association list with distinct keys and
    leaks nothing, and what unparsing writes. *)

From S2P Require Import Prelude Heap CString.

(** The blocks of characters allocated with [malloc]. *)
Abbreviation mem := (heap (list Z)).

(** A [char *]: [NULL] or a position in a block. *)
Abbreviation cptr := (option (positive * nat)).

(** The string a pointer points to: what [strlen], [strcmp] and [memcpy] read. *)
Definition str_at (h : mem) (p : cptr) : run (list Z) :=
  match p with
  | None => Crash NullPtr
  | Some (a, off) => b ← hload h (Some a); str_of (drop off b)
  end.

(** [free]: only the start of a block can be freed. *)
Definition free_str (h : mem) (p : cptr) : run mem :=
  match p with
  | None => Ok h
  | Some (a, O) => hfree h (Some a)
  | Some (_, S _) => Crash Dangling
  end.

(** [malloc(strlen(s) + 1)] filled with a copy of [s]. *)
Definition new_str (h : mem) (s : list Z) : cptr * mem :=
  let '(a, h) := halloc h (s ++ [0]) in (Some (a, O), h).

Record ParsedHeader : Type := Header {
  key : cptr;
  keylen : Z;
  value : cptr;
  valuelen : Z
}.

(** [method], [protocol], [host], [port] and [version] point into [buf];
    [port] is not set by [ParsedRequest_create].  The array [headers] belongs
    to the request: a slot never written is [None]. *)
Record ParsedRequest : Type := Request {
  method : cptr;
  protocol : cptr;
  host : cptr;
  port : option cptr;
  path : cptr;
  version : cptr;
  buf : cptr;
  buflen : Z;
  headers : list (option ParsedHeader);
  headersused : Z;
  headerslen : Z
}.

Definition set_table (hs : list (option ParsedHeader)) (used len : Z) (pr : ParsedRequest) : ParsedRequest :=
  Request (method pr) (protocol pr) (host pr) (port pr) (path pr) (version pr) (buf pr) (buflen pr)
    hs used len.

Definition DEFAULT_NHDRS : Z := 8.

(** ** The header table *)

(** [tmp->key && key && strcmp(tmp->key, key) == 0] *)
Definition key_is (h : mem) (tmp : ParsedHeader) (k : cptr) : run bool :=
  match key tmp, k with
  | Some _, Some _ => s ← str_at h (key tmp); t ← str_at h k; Ok (bool_decide (s = t))
  | _, _ => Ok false
  end.

(** [while (pr->headersused > i)] of [ParsedHeader_get]; [fuel] bounds the
    slots still to visit. *)
Fixpoint get_from (fuel : nat) (h : mem) (pr : ParsedRequest) (k : cptr) (i : Z) : run (option Z) :=
  if decide (headersused pr > i) then
    match fuel with
    | O => Crash Fuel
    | S fuel =>
        tmp ← arr_read (headers pr) i;
        b ← key_is h tmp k;
        if b : bool then Ok (Some i) else get_from fuel h pr k (i + 1)
    end
  else Ok None.

(** The header found, as its index in the array. *)
Definition ParsedHeader_get (h : mem) (pr : ParsedRequest) (k : cptr) : run (option Z) :=
  get_from (Z.to_nat (headersused pr)) h pr k 0.

Definition ParsedHeader_remove (h : mem) (pr : ParsedRequest) (k : cptr) : run (Z * mem * ParsedRequest) :=
  tmp ← ParsedHeader_get h pr k;
  match tmp with
  | None => Ok (-1, h, pr)
  | Some i =>
      ph ← arr_read (headers pr) i;
      h ← free_str h (key ph);
      h ← free_str h (value ph);
      hs ← arr_set (headers pr) i (Some (Header None (keylen ph) (value ph) (valuelen ph)));
      Ok (0, h, set_table hs (headersused pr) (headerslen pr) pr)
  end.

(** The array is doubled before its last slot is used. *)
Definition grow_headers (pr : ParsedRequest) : ParsedRequest :=
  if decide (headerslen pr <= headersused pr + 1) then
    let n := u64 (headerslen pr * 2) in
    set_table (resize (Z.to_nat n) None (headers pr)) (headersused pr) n pr
  else pr.

Definition ParsedHeader_set (h : mem) (pr : ParsedRequest) (k v : cptr) : run (Z * mem * ParsedRequest) :=
  '(_, h, pr) ← ParsedHeader_remove h pr k;
  let pr := grow_headers pr in
  let ph := headersused pr in
  ks ← str_at h k;
  let '(new_key, h) := new_str h ks in
  vs ← str_at h v;
  let '(new_value, h) := new_str h vs in
  hs ← arr_set (headers pr) ph (Some (Header new_key (zlen ks + 1) new_value (zlen vs + 1)));
  Ok (0, h, set_table hs (ph + 1) (headerslen pr) pr).

(** [ParsedHeader_create] on a request whose other fields are as in [pr]. *)
Definition ParsedHeader_create (pr : ParsedRequest) : ParsedRequest :=
  set_table (replicate (Z.to_nat DEFAULT_NHDRS) None) 0 DEFAULT_NHDRS pr.

Definition ParsedHeader_lineLen (h : mem) (ph : ParsedHeader) : run Z :=
  match key ph with
  | Some _ => k ← str_at h (key ph); v ← str_at h (value ph); Ok (zlen k + zlen v + 4)
  | None => Ok 0
  end.

(** The length is accumulated in an [int] and returned as a [size_t]. *)
Definition ParsedHeader_headersLen (h : mem) (pr : ParsedRequest) : run Z :=
  match buf pr with
  | None => Ok 0
  | Some _ =>
      len ← for_from (Z.to_nat (headersused pr)) 0 (fun i len =>
        ph ← arr_read (headers pr) i;
        l ← ParsedHeader_lineLen h ph;
        Ok (to_int (u64 (u64 len + l)))) 0;
      len ← i32 (len + 2);
      Ok (u64 len)
  end.

Definition colon_space : list Z := [58; 32].
Definition crlf : list Z := [13; 10].

(** One turn of the printing loop; the state is the buffer and [current]. *)
Definition print_header (h : mem) (pr : ParsedRequest) (i : Z) (st : list Z * nat) : run (list Z * nat) :=
  let '(out, current) := st in
  ph ← arr_read (headers pr) i;
  match key ph with
  | None => Ok (out, current)
  | Some _ =>
      k ← str_at h (key ph);
      out ← patch out current k;
      out ← patch out (current + length k) colon_space;
      v ← str_at h (value ph);
      out ← patch out (current + length k + 2) v;
      out ← patch out (current + length k + 2 + length v) crlf;
      Ok (out, (current + length k + length v + 4)%nat)
  end.

(** [out] is the caller's buffer and [off] the position of [buf] in it. *)
Definition ParsedHeader_printHeaders (h : mem) (pr : ParsedRequest) (out : list Z) (off : nat) (len : Z)
    : run (Z * list Z) :=
  n ← ParsedHeader_headersLen h pr;
  if decide (len < n) then Ok (-1, out) else
  '(out, current) ← for_from (Z.to_nat (headersused pr)) 0 (print_header h pr) (out, off);
  out ← patch out current crlf;
  Ok (0, out).

Definition ParsedHeader_destroyOne (h : mem) (ph : ParsedHeader) : run (mem * ParsedHeader) :=
  match key ph with
  | Some _ =>
      h ← free_str h (key ph);
      h ← free_str h (value ph);
      Ok (h, Header None 0 None 0)
  | None => Ok (h, ph)
  end.

(** The array itself goes with the request. *)
Definition ParsedHeader_destroy (h : mem) (pr : ParsedRequest) : run (mem * ParsedRequest) :=
  '(h, hs) ← for_from (Z.to_nat (headersused pr)) 0 (fun i '(h, hs) =>
    ph ← arr_read hs i;
    '(h, ph) ← ParsedHeader_destroyOne h ph;
    hs ← arr_set hs i (Some ph);
    Ok (h, hs)) (h, headers pr);
  Ok (h, set_table [] 0 0 pr).

(** ** The request *)

Definition ParsedRequest_create : ParsedRequest :=
  ParsedHeader_create (Request None None None None None None None 0 [] 0 0).

(** [free(pr)] ends the object: what remains is the memory of its parts. *)
Definition ParsedRequest_destroy (h : mem) (pr : ParsedRequest) : run mem :=
  h ← free_str h (buf pr);
  h ← free_str h (path pr);
  if decide (headerslen pr > 0) then '(h, _) ← ParsedHeader_destroy h pr; Ok h else Ok h.

Definition ParsedRequest_requestLineLen (h : mem) (pr : ParsedRequest) : run Z :=
  match buf pr with
  | None => Ok 0
  | Some _ =>
      m ← str_at h (method pr);
      proto ← str_at h (protocol pr);
      ho ← str_at h (host pr);
      ver ← str_at h (version pr);
      let len := zlen m + 1 + zlen proto + 3 + zlen ho + 1 + zlen ver + 2 in
      po ← need Uninit (port pr);
      len ← match po with
            | Some _ => p ← str_at h po; Ok (len + (zlen p + 1))
            | None => Ok len
            end;
      pa ← str_at h (path pr);
      Ok (len + zlen pa)
  end.

(** [memcpy(current, s, strlen(s)); current += strlen(s);] *)
Definition put_str (s : list Z) (st : list Z * nat) : run (list Z * nat) :=
  out ← patch st.1 st.2 s; Ok (out, (st.2 + length s)%nat).

(** The third component is the [*tmp] the caller gets, on success. *)
Definition ParsedRequest_printRequestLine (h : mem) (pr : ParsedRequest) (out : list Z) (len : Z)
    : run (Z * list Z * nat) :=
  n ← ParsedRequest_requestLineLen h pr;
  if decide (len < n) then Ok (-1, out, O) else
  m ← str_at h (method pr); st ← put_str m (out, O);
  st ← put_str [32] st;
  proto ← str_at h (protocol pr); st ← put_str proto st;
  st ← put_str [58; 47; 47] st;
  ho ← str_at h (host pr); st ← put_str ho st;
  po ← need Uninit (port pr);
  st ← match po with
       | Some _ => st ← put_str [58] st; p ← str_at h po; put_str p st
       | None => Ok st
       end;
  pa ← str_at h (path pr); st ← put_str pa st;
  st ← put_str [32] st;
  ver ← str_at h (version pr); st ← put_str ver st;
  '(out, tmp) ← put_str crlf st;
  Ok (0, out, tmp).

Definition ParsedRequest_unparse (h : mem) (pr : ParsedRequest) (out : list Z) (len : Z) : run (Z * list Z) :=
  match buf pr with
  | None => Ok (-1, out)
  | Some _ =>
      '(r, out, tmp) ← ParsedRequest_printRequestLine h pr out len;
      if decide (r < 0) then Ok (-1, out) else
      '(r, out) ← ParsedHeader_printHeaders h pr out tmp (u64 (len - Z.of_nat tmp));
      if decide (r < 0) then Ok (-1, out) else Ok (0, out)
  end.

Definition ParsedRequest_unparse_headers (h : mem) (pr : ParsedRequest) (out : list Z) (len : Z)
    : run (Z * list Z) :=
  match buf pr with
  | None => Ok (-1, out)
  | Some _ =>
      '(r, out) ← ParsedHeader_printHeaders h pr out 0 len;
      if decide (r < 0) then Ok (-1, out) else Ok (0, out)
  end.

Definition ParsedRequest_totalLen (h : mem) (pr : ParsedRequest) : run Z :=
  match buf pr with
  | None => Ok 0
  | Some _ =>
      a ← ParsedRequest_requestLineLen h pr;
      b ← ParsedHeader_headersLen h pr;
      Ok (u64 (a + b))
  end.

(** ** What a table of headers stands for *)

(** A slot in use: the blocks of its key and its value with their strings.
    [None] is a slot whose header was removed. *)
Definition slot : Type := option ((positive * list Z) * (positive * list Z)).

Definition slot_rep (o : option ParsedHeader) (v : slot) : Prop :=
  match v with
  | None => exists ph, o = Some ph /\ key ph = None
  | Some (k, w) =>
      o = Some (Header (Some (k.1, O)) (zlen k.2 + 1) (Some (w.1, O)) (zlen w.2 + 1)) /\
      is_str k.2 /\ is_str w.2
  end.

Definition slot_blocks (v : slot) : list (positive * list Z) :=
  match v with None => [] | Some (k, w) => [(k.1, k.2 ++ [0]); (w.1, w.2 ++ [0])] end.

Definition slot_kv (v : slot) : option (list Z * list Z) :=
  match v with None => None | Some (k, w) => Some (k.2, w.2) end.

Definition slots_rep (h : mem) (pr : ParsedRequest) (vs : list slot) (rest : gmap positive (list Z)) : Prop :=
  (exists hs n, headers pr = hs ++ replicate n None /\ Forall2 slot_rep hs vs) /\
  headersused pr = zlen vs /\ headerslen pr = zlen (headers pr) /\ zlen vs < headerslen pr /\
  owning h (concat (slot_blocks <$> vs)) rest.

(** The table holds the pairs [kvs], in order, with distinct keys. *)
Definition table_rep (h : mem) (pr : ParsedRequest) (kvs : list (list Z * list Z))
    (rest : gmap positive (list Z)) : Prop :=
  exists vs, slots_rep h pr vs rest /\ kvs = omap slot_kv vs /\ NoDup kvs.*1.

(** A string held in the frame. *)
Definition str_in (rest : gmap positive (list Z)) (p : cptr) (s : list Z) : Prop :=
  exists a off b, p = Some (a, off) /\ rest !! a = Some b /\ str_of (drop off b) = Ok s.

Lemma str_in_at h l rest p s : owning h l rest -> str_in rest p s -> str_at h p = Ok s.
Proof.
  intros Ho (a & off & b & -> & Hb & Hs). cbn [str_at]. rewrite (owning_load_rest _ _ _ _ _ Ho Hb). exact Hs.
Qed.

Lemma str_in_is_str rest p s : str_in rest p s -> is_str s.
Proof. intros (a & off & b & -> & Hb & Hs). by apply str_of_is_str in Hs. Qed.

Lemma read_slot h pr vs rest i v : slots_rep h pr vs rest -> vs !! i = Some v ->
  exists o, arr_get (headers pr) (Z.of_nat i) = Ok o /\ slot_rep o v.
Proof.
  intros ((hs & n & Hh & HF) & _) Hi.
  destruct (Forall2_lookup_r _ _ _ _ _ HF Hi) as (o & Ho & Hr). exists o. split; [|done].
  apply arr_get_ok; [lia|]. rewrite Nat2Z.id, Hh. by apply lookup_app_l_Some.
Qed.

Lemma block_load h pr vs rest i k w : slots_rep h pr vs rest -> vs !! i = Some (Some (k, w)) ->
  is_str k.2 -> is_str w.2 ->
  str_at h (Some (k.1, O)) = Ok k.2 /\ str_at h (Some (w.1, O)) = Ok w.2.
Proof.
  intros (_ & _ & _ & _ & Ho) Hi Hk Hw.
  assert (forall z, z ∈ slot_blocks (Some (k, w)) -> z ∈ concat (slot_blocks <$> vs)) as Hin.
  { intros z Hz. apply (elem_of_concat _ (slot_blocks (Some (k, w)))); [|done].
    apply list_elem_of_fmap. exists (Some (k, w)). split; [done|]. by eapply list_elem_of_lookup_2. }
  assert (forall a s, (a, s ++ [0]) ∈ slot_blocks (Some (k, w)) -> is_str s ->
    str_at h (Some (a, O)) = Ok s) as Hstr.
  { intros a s Hz Hs. cbn [str_at]. rewrite (owning_load _ _ _ _ _ Ho (Hin _ Hz)).
    cbn [mbind run_bind drop]. by apply str_of_ok. }
  split; apply Hstr; try done; [by left|]. right. by left.
Qed.

Lemma key_is_ok h pr vs rest i v o k ks : slots_rep h pr vs rest -> vs !! i = Some v -> slot_rep o v ->
  str_in rest k ks -> exists ph, o = Some ph /\
    key_is h ph k = Ok (bool_decide (fst <$> slot_kv v = Some ks)).
Proof.
  intros Hrep Hi Hv Hk. destruct v as [[a b]|]; cbn in Hv.
  - destruct Hv as (-> & Ha & Hb). eexists. split; [reflexivity|]. unfold key_is. cbn [key].
    pose proof Hrep as (_ & _ & _ & _ & Ho). rewrite (str_in_at _ _ _ _ _ Ho Hk).
    destruct (block_load _ _ _ _ _ _ _ Hrep Hi Ha Hb) as [-> _]. destruct Hk as (c & off & blk & -> & _).
    cbn. f_equal. apply bool_decide_ext. naive_solver.
  - destruct Hv as (ph & -> & Hn). exists ph. split; [done|]. unfold key_is. by rewrite Hn.
Qed.

Definition has_key (ks : list Z) (v : slot) : Prop := fst <$> slot_kv v = Some ks.
#[global] Instance has_key_dec ks v : Decision (has_key ks v).
Proof. unfold has_key. apply _. Defined.

Lemma get_from_ok h pr vs rest k ks : slots_rep h pr vs rest -> str_in rest k ks ->
  forall todo done, vs = done ++ todo ->
  get_from (length todo) h pr k (zlen done)
  = Ok ((fun z => Z.of_nat (length done + z.1)) <$> list_find (has_key ks) todo).
Proof.
  intros Hrep Hk. pose proof Hrep as (_ & Hu & _).
  induction todo as [|v todo IH]; intros dn Hvs; cbn [length get_from].
  - rewrite decide_False; [done|]. rewrite Hu, Hvs, app_nil_r. lia.
  - rewrite decide_True by (rewrite Hu, Hvs, length_app; cbn; lia).
    assert (vs !! length dn = Some v) as Hi by (rewrite Hvs; by apply list_lookup_middle).
    destruct (read_slot _ _ _ _ _ _ Hrep Hi) as (o & Ho & Hv).
    unfold arr_read. rewrite Ho. cbn [mbind run_bind].
    destruct (key_is_ok _ _ _ _ _ _ _ _ _ Hrep Hi Hv Hk) as (ph & -> & Hb).
    cbn [need mbind run_bind]. rewrite Hb. cbn [mbind run_bind list_find]. unfold has_key at 1.
    case_bool_decide as Hd.
    + rewrite decide_True by done. cbn. by rewrite Nat.add_0_r.
    + rewrite decide_False by done.
      replace (zlen dn + 1) with (zlen (dn ++ [v])) by (rewrite length_app; cbn; lia).
      rewrite (IH (dn ++ [v])) by (by rewrite <- app_assoc).
      destruct (list_find _ todo) as [[j z]|]; cbn; [|done]. rewrite length_app. cbn. do 2 f_equal. lia.
Qed.

Lemma get_ok h pr vs rest k ks : slots_rep h pr vs rest -> str_in rest k ks ->
  ParsedHeader_get h pr k = Ok ((fun z => Z.of_nat z.1) <$> list_find (has_key ks) vs).
Proof.
  intros Hrep Hk. pose proof Hrep as (_ & Hu & _). unfold ParsedHeader_get. rewrite Hu, Nat2Z.id.
  exact (get_from_ok _ _ _ _ _ _ Hrep Hk vs [] eq_refl).
Qed.

(** ** The association list *)

Definition without (ks : list Z) (kvs : list (list Z * list Z)) : list (list Z * list Z) :=
  filter (fun z => z.1 <> ks) kvs.

Lemma find_key ks vs :
  match list_find (has_key ks) vs with
  | None => ks ∉ (omap slot_kv vs).*1
  | Some (i, v) => exists k w, vs !! i = Some v /\ v = Some (k, w) /\ k.2 = ks /\ (ks, w.2) ∈ omap slot_kv vs
  end.
Proof.
  destruct (list_find _ vs) as [[i v]|] eqn:Hf.
  - apply list_find_Some in Hf as (Hi & Hk & _). destruct v as [[k w]|]; [|done].
    injection Hk as <-. exists k, w. split_and!; [done..|]. apply list_elem_of_omap.
    exists (Some (k, w)). split; [by eapply list_elem_of_lookup_2|done].
  - apply list_find_None in Hf. intros Hin. apply list_elem_of_fmap in Hin as ([k w] & -> & Hin).
    apply list_elem_of_omap in Hin as (v & Hin & Hv). rewrite Forall_forall in Hf.
    apply (Hf v Hin). unfold has_key. by rewrite Hv.
Qed.

Lemma without_absent ks kvs : ks ∉ kvs.*1 -> without ks kvs = kvs.
Proof.
  intros Hn. unfold without. induction kvs as [|[k w] kvs IH]; [done|]. cbn in Hn.
  apply not_elem_of_cons in Hn as [Hne Hn]. rewrite filter_cons_True by (cbn; congruence). by rewrite IH.
Qed.

Lemma without_keys ks kvs : NoDup kvs.*1 -> NoDup (without ks kvs).*1 /\ ks ∉ (without ks kvs).*1.
Proof.
  intros Hnd. unfold without. split.
  - induction kvs as [|[k w] kvs IH]; [done|]. cbn in Hnd. apply NoDup_cons in Hnd as [Hn Hnd].
    rewrite filter_cons. case_decide; [|by apply IH]. cbn. apply NoDup_cons. split; [|by apply IH].
    intros Hin. apply Hn. apply list_elem_of_fmap in Hin as (z & -> & Hz).
    apply list_elem_of_filter in Hz as [_ Hz]. by apply list_elem_of_fmap_2.
  - intros Hin. apply list_elem_of_fmap in Hin as (z & -> & Hz). by apply list_elem_of_filter in Hz as [? _].
Qed.

Lemma without_clear ks vs i k w : vs !! i = Some (Some (k, w)) -> k.2 = ks -> NoDup (omap slot_kv vs).*1 ->
  omap slot_kv (<[i := None]> vs) = without ks (omap slot_kv vs).
Proof.
  intros Hi <- Hnd. rewrite insert_take_drop by (by eapply lookup_lt_Some).
  rewrite <- (take_drop_middle _ _ _ Hi) in Hnd |- * at 3.
  rewrite !omap_app in *. cbn in *.
  rewrite fmap_app in Hnd. cbn in Hnd. apply NoDup_app in Hnd as (_ & Hd & Hc).
  apply NoDup_cons in Hc as [Hc _]. pose proof (without_absent k.2) as Hw. unfold without in *.
  rewrite filter_app, filter_cons_False by (cbn; naive_solver).
  rewrite !Hw; [done|done|]. intros Hin. apply (Hd _ Hin). by left.
Qed.

(** ** The operations on a table *)

Lemma blocks_split vs i v : vs !! i = Some v ->
  concat (slot_blocks <$> vs)
  = concat (slot_blocks <$> take i vs) ++ slot_blocks v ++ concat (slot_blocks <$> drop (S i) vs).
Proof.
  intros Hi. rewrite <- (take_drop_middle _ _ _ Hi) at 1. by rewrite fmap_app, concat_app.
Qed.

(** Writing a slot in use. *)
Lemma slot_set h pr vs rest i v v' o h' : slots_rep h pr vs rest -> vs !! i = Some v -> slot_rep o v' ->
  owning h' (concat (slot_blocks <$> <[i := v']> vs)) rest ->
  exists hs, arr_set (headers pr) (Z.of_nat i) o = Ok hs /\
    slots_rep h' (set_table hs (headersused pr) (headerslen pr) pr) (<[i := v']> vs) rest.
Proof.
  intros ((hs & n & Hh & HF) & Hu & Hl & Hlt & _) Hi Ho Hown.
  pose proof (lookup_lt_Some _ _ _ Hi) as Hlen. pose proof (Forall2_length _ _ _ HF) as HL.
  rewrite arr_set_ok by (rewrite Hh, length_app; lia). eexists. split; [reflexivity|].
  rewrite Nat2Z.id, Hh, insert_app_l by lia. split_and!; cbn.
  - exists (<[i := o]> hs), n. split; [done|]. by apply Forall2_insert.
  - by rewrite length_insert.
  - rewrite Hl, Hh, !length_app, length_insert. done.
  - by rewrite length_insert.
  - done.
Qed.

Lemma clear_slot h pr vs rest i k w ph : slots_rep h pr vs rest -> vs !! i = Some (Some (k, w)) ->
  key ph = None -> exists h1 h2 hs,
    free_str h (Some (k.1, O)) = Ok h1 /\ free_str h1 (Some (w.1, O)) = Ok h2 /\
    arr_set (headers pr) (Z.of_nat i) (Some ph) = Ok hs /\
    slots_rep h2 (set_table hs (headersused pr) (headerslen pr) pr) (<[i := None]> vs) rest.
Proof.
  intros Hrep Hi Hph. pose proof Hrep as (_ & _ & _ & _ & Ho).
  rewrite (blocks_split _ _ _ Hi) in Ho. cbn [slot_blocks app] in Ho.
  destruct (owning_free _ _ _ _ _ _ Ho) as (h1 & Hf1 & Ho1).
  destruct (owning_free _ _ _ _ _ _ Ho1) as (h2 & Hf2 & Ho2).
  destruct (slot_set h pr vs rest i (Some (k, w)) None (Some ph) h2 Hrep Hi) as (hs & Hs & Hrep').
  - by exists ph.
  - pose proof (lookup_lt_Some _ _ _ Hi) as Hlt.
    rewrite (blocks_split _ i None) by (by apply list_lookup_insert_eq).
    cbn [slot_blocks app]. rewrite take_insert_ge, drop_insert_lt by lia. done.
  - by exists h1, h2, hs.
Qed.

(** Two objects that differ in their tables only. *)
Definition same_line (pr pr' : ParsedRequest) : Prop := set_table [] 0 0 pr' = set_table [] 0 0 pr.

Lemma remove_ok h pr kvs rest k ks : table_rep h pr kvs rest -> str_in rest k ks ->
  exists h' pr', ParsedHeader_remove h pr k
    = Ok (if decide (ks ∈ kvs.*1) then 0 else -1, h', pr') /\
    table_rep h' pr' (without ks kvs) rest /\
    headersused pr' = headersused pr /\ headerslen pr' = headerslen pr /\ same_line pr pr'.
Proof.
  intros (vs & Hrep & -> & Hnd) Hk. unfold ParsedHeader_remove. rewrite (get_ok _ _ _ _ _ _ Hrep Hk).
  pose proof (find_key ks vs) as Hf. cbn [mbind run_bind].
  destruct (list_find (has_key ks) vs) as [[i v]|]; cbn [fmap option_fmap option_map fst].
  - destruct Hf as (a & b & Hi & -> & <- & Hin).
    destruct (read_slot _ _ _ _ _ _ Hrep Hi) as (o & Hg & Hv). cbn in Hv. destruct Hv as (-> & _ & _).
    destruct (clear_slot _ _ _ _ _ _ _ (Header None (zlen a.2 + 1) (Some (b.1, O)) (zlen b.2 + 1)) Hrep Hi)
      as (h1 & h2 & hs & Hf1 & Hf2 & Hs & Hrep'); [done|].
    unfold arr_read. rewrite Hg. cbn [need mbind run_bind key value keylen valuelen].
    rewrite Hf1. cbn [mbind run_bind]. rewrite Hf2. cbn [mbind run_bind]. rewrite Hs. cbn [mbind run_bind].
    eexists _, _. rewrite decide_True by (apply (list_elem_of_fmap_2 fst) in Hin; exact Hin).
    split; [reflexivity|]. split_and!; [|done..].
    exists (<[i := None]> vs). split; [exact Hrep'|].
    rewrite (without_clear _ _ _ _ _ Hi eq_refl Hnd). split; [done|]. by apply without_keys.
  - rewrite decide_False by done. exists h, pr. split; [done|]. rewrite without_absent by done.
    split_and!; [|done..]. by exists vs.
Qed.

Lemma grow_ok h pr vs rest : slots_rep h pr vs rest -> headerslen pr < 2 ^ 63 ->
  slots_rep h (grow_headers pr) vs rest /\ zlen vs + 1 < headerslen (grow_headers pr) /\
  headerslen (grow_headers pr) <= Z.max (headerslen pr) (2 * (headersused pr + 1)) /\
  headersused (grow_headers pr) = headersused pr /\ same_line pr (grow_headers pr).
Proof.
  intros Hrep Hmax. unfold grow_headers. case_decide as Hd.
  - destruct Hrep as ((hs & n & Hh & HF) & Hu & Hl & Hlt & Ho).
    assert (u64 (headerslen pr * 2) = headerslen pr * 2) as -> by (apply Z.mod_small; lia).
    pose proof (Forall2_length _ _ _ HF) as HL.
    assert (resize (Z.to_nat (headerslen pr * 2)) None (headers pr)
            = hs ++ replicate (Z.to_nat (headerslen pr * 2) - length hs) None) as Hr.
    { rewrite Hh in Hl |- *. rewrite length_app, length_replicate in Hl.
      rewrite resize_ge by (rewrite length_app, length_replicate; lia).
      rewrite <- app_assoc, <- replicate_add, length_app, length_replicate. do 2 f_equal. lia. }
    split; [|split_and!; cbn; done || lia]. split_and!; cbn; try done; [|rewrite length_resize; lia|lia].
    by exists hs, (Z.to_nat (headerslen pr * 2) - length hs)%nat.
  - split; [done|]. destruct Hrep as (_ & Hu & _). split_and!; done || lia.
Qed.

Lemma append_slot h pr vs rest k w : slots_rep h pr vs rest -> zlen vs + 1 < headerslen pr ->
  is_str k -> is_str w ->
  let h1 := (halloc h (k ++ [0])).2 in
  exists hs, arr_set (headers pr) (headersused pr)
      (Some (Header (Some (brk h, O)) (zlen k + 1) (Some (brk h1, O)) (zlen w + 1))) = Ok hs /\
    slots_rep (halloc h1 (w ++ [0])).2 (set_table hs (headersused pr + 1) (headerslen pr) pr)
      (vs ++ [Some ((brk h, k), (brk h1, w))]) rest.
Proof.
  intros ((hs & n & Hh & HF) & Hu & Hl & Hlt & Ho) Hroom Hk Hw h1.
  pose proof (Forall2_length _ _ _ HF) as HL.
  assert (exists m, n = S m) as (m & ->).
  { destruct n as [|m]; [|by exists m]. rewrite Hl, Hh, length_app in Hroom. cbn in Hroom. lia. }
  rewrite arr_set_ok by (rewrite <- Hl; lia). eexists. split; [reflexivity|].
  rewrite Hu, Nat2Z.id, Hh, <- HL, insert_app_r_alt, Nat.sub_diag by lia. cbn [replicate insert list_insert].
  split_and!; cbn [headers headersused headerslen set_table].
  - exists (hs ++ [Some (Header (Some (brk h, O)) (zlen k + 1) (Some (brk h1, O)) (zlen w + 1))]), m.
    split; [by rewrite <- app_assoc|]. apply Forall2_app; [done|]. constructor; [|constructor]. done.
  - rewrite length_app. cbn. lia.
  - rewrite Hl, Hh, !length_app. cbn. lia.
  - rewrite length_app. cbn. lia.
  - rewrite fmap_app, concat_app. cbn [fmap list_fmap concat slot_blocks fst snd app].
    pose proof (owning_alloc _ _ _ (w ++ [0]) (owning_alloc _ _ _ (k ++ [0]) Ho)) as Ho2.
    rewrite <- app_assoc in Ho2. exact Ho2.
Qed.

Lemma set_ok h pr kvs rest k ks v ws : table_rep h pr kvs rest -> str_in rest k ks -> str_in rest v ws ->
  headerslen pr < 2 ^ 63 ->
  exists h' pr', ParsedHeader_set h pr k v = Ok (0, h', pr') /\
    table_rep h' pr' (without ks kvs ++ [(ks, ws)]) rest /\
    headersused pr' = headersused pr + 1 /\
    headerslen pr' <= Z.max (headerslen pr) (2 * (headersused pr + 1)) /\ same_line pr pr'.
Proof.
  intros Hrep Hk Hv Hmax. unfold ParsedHeader_set.
  destruct (remove_ok _ _ _ _ _ _ Hrep Hk) as (h1 & pr1 & -> & (vs & Hrep1 & Hkvs & Hnd) & Hu & Hl & Hs1).
  cbn [mbind run_bind]. destruct (grow_ok _ _ _ _ Hrep1) as (Hrep2 & Hroom & Hlen & Hu2 & Hs2); [by rewrite Hl|].
  pose proof Hrep2 as (_ & _ & _ & _ & Ho).
  rewrite (str_in_at _ _ _ _ _ Ho Hk). cbn [mbind run_bind new_str halloc].
  pose proof (owning_alloc _ _ _ (ks ++ [0]) Ho) as Ho2.
  pose proof (str_in_at _ _ _ _ _ Ho2 Hv) as Hv2. cbn [halloc snd] in Hv2. rewrite Hv2.
  cbn [mbind run_bind new_str halloc].
  destruct (append_slot _ _ _ _ ks ws Hrep2 Hroom (str_in_is_str _ _ _ Hk) (str_in_is_str _ _ _ Hv))
    as (hs & Hs & Hrep3).
  cbn [halloc snd] in Hs. rewrite Hs. cbn [mbind run_bind]. eexists _, _. split; [reflexivity|].
  split; [|split_and!; [cbn; lia|cbn; lia|exact (eq_trans Hs2 Hs1)]].
  eexists. split; [exact Hrep3|]. rewrite omap_app, <- Hkvs. split; [done|].
  destruct (without_keys ks kvs) as [Hn1 Hn2]; [by destruct Hrep as (? & _ & _ & ?)|].
  rewrite fmap_app. apply NoDup_app. split_and!; [done| |apply NoDup_singleton].
  intros x Hx Hin. apply list_elem_of_singleton in Hin as ->. done.
Qed.

Lemma blocks_none n : concat (slot_blocks <$> replicate n None) = [].
Proof. by induction n. Qed.

Lemma assoc_inj (kvs : list (list Z * list Z)) k v w : NoDup kvs.*1 ->
  (k, v) ∈ kvs -> (k, w) ∈ kvs -> v = w.
Proof.
  intros Hnd Hv Hw.
  apply (elem_of_list_to_map_1 (M := gmap (list Z))) in Hv, Hw; [|done|done]. congruence.
Qed.

Lemma destroy_ok h pr vs rest : slots_rep h pr vs rest ->
  exists h', ParsedHeader_destroy h pr = Ok (h', set_table [] 0 0 pr) /\ cells h' = rest.
Proof.
  intros Hrep. pose proof Hrep as (_ & Hu & _). unfold ParsedHeader_destroy.
  set (I := fun (i : Z) (st : mem * list (option ParsedHeader)) =>
    slots_rep st.1 (set_table st.2 (headersused pr) (headerslen pr) pr)
      (replicate (Z.to_nat i) None ++ drop (Z.to_nat i) vs) rest).
  set (body := fun (i : Z) '(h, hs) =>
    ph ← arr_read hs i; '(h, ph) ← ParsedHeader_destroyOne h ph; hs ← arr_set hs i (Some ph); Ok (h, hs)).
  destruct (for_from_inv I body (Z.to_nat (headersused pr)) 0 (h, headers pr)) as ([h' hs] & Hrun & HI).
  - intros i [g hs] Hi HI. unfold I in HI. cbn [fst snd] in HI. unfold body.
    destruct (lookup_lt_is_Some_2 vs (Z.to_nat i)) as (v & Hv); [lia|].
    set (us := replicate (Z.to_nat i) None ++ drop (Z.to_nat i) vs) in *.
    assert (us !! Z.to_nat i = Some v) as Hus.
    { unfold us. rewrite lookup_app_r by (rewrite length_replicate; lia).
      rewrite length_replicate, Nat.sub_diag, lookup_drop, Nat.add_0_r. done. }
    assert (<[Z.to_nat i := None]> us = replicate (Z.to_nat (i + 1)) None ++ drop (Z.to_nat (i + 1)) vs) as Hnext.
    { unfold us. rewrite insert_app_r_alt by (rewrite length_replicate; lia).
      rewrite length_replicate, Nat.sub_diag, (drop_S _ _ _ Hv). cbn [insert list_insert].
      replace (Z.to_nat (i + 1)) with (S (Z.to_nat i)) by lia.
      by rewrite replicate_S_end, <- app_assoc. }
    destruct (read_slot _ _ _ _ _ _ HI Hus) as (o & Hg & Hr). cbn [headers set_table] in Hg.
    rewrite Z2Nat.id in Hg by lia. unfold arr_read. rewrite Hg.
    destruct v as [[k w]|]; cbn in Hr.
    + destruct Hr as (-> & _ & _). unfold ParsedHeader_destroyOne. cbn [need mbind run_bind key value].
      destruct (clear_slot _ _ _ _ _ _ _ (Header None 0 None 0) HI Hus eq_refl)
        as (h1 & h2 & hs' & Hf1 & Hf2 & Hs & Hrep'). cbn [headers set_table] in Hs.
      rewrite Z2Nat.id in Hs by lia.
      rewrite Hf1. cbn [mbind run_bind]. rewrite Hf2. cbn [mbind run_bind]. rewrite Hs. cbn [mbind run_bind].
      eexists. split; [reflexivity|]. unfold I. cbn [fst snd]. rewrite <- Hnext. exact Hrep'.
    + destruct Hr as (ph & -> & Hn). unfold ParsedHeader_destroyOne. cbn [need mbind run_bind].
      rewrite Hn. cbn [mbind run_bind].
      destruct (slot_set _ _ _ _ _ _ None (Some ph) g HI Hus) as (hs' & Hs & Hrep').
      { by exists ph. }
      { rewrite list_insert_id by done. by destruct HI as (_ & _ & _ & _ & ?). }
      cbn [headers set_table] in Hs. rewrite Z2Nat.id in Hs by lia. rewrite Hs. cbn [mbind run_bind].
      eexists. split; [reflexivity|]. unfold I. cbn [fst snd]. rewrite <- Hnext. exact Hrep'.
  - unfold I. cbn. by destruct pr.
  - fold body. rewrite Hrun. cbn [mbind run_bind]. eexists. split; [reflexivity|].
    unfold I in HI. cbn [fst snd] in HI. destruct HI as (_ & _ & _ & _ & Ho).
    rewrite drop_ge, app_nil_r in Ho by lia.
    rewrite blocks_none in Ho. by apply owning_nil.
Qed.

Lemma create_rep g : heap_wf g -> table_rep g ParsedRequest_create [] (cells g).
Proof.
  intros Hg. exists []. split; [|by split; [|apply NoDup_nil_2]]. split_and!; try done.
  - by exists [], 8%nat.
  - by apply owning_empty.
Qed.

(** ** The table implements an association list *)

(** C15: the header table of a request implements an association list with
    distinct keys: it is empty after [ParsedRequest_create]; [ParsedHeader_get]
    finds the header with the given key, whose strings are the key and its
    value, or nothing; [ParsedHeader_set] replaces any value the key had by a
    copy of the new one, at the end of the list, and returns 0;
    [ParsedHeader_remove] returns 0 if the key was there and -1 otherwise;
    [ParsedHeader_destroy] frees every string of the table and nothing else.
    The strings of the caller, in the frame, are left as they are. *)
Theorem headers_refine h pr kvs rest : table_rep h pr kvs rest ->
  (forall g, heap_wf g -> table_rep g ParsedRequest_create [] (cells g)) /\
  (forall k ks, str_in rest k ks ->
    (ks ∉ kvs.*1 -> ParsedHeader_get h pr k = Ok None) /\
    (forall ws, (ks, ws) ∈ kvs -> exists i ph, ParsedHeader_get h pr k = Ok (Some i) /\
       arr_read (headers pr) i = Ok ph /\ str_at h (key ph) = Ok ks /\ str_at h (value ph) = Ok ws)) /\
  (forall k ks v ws, str_in rest k ks -> str_in rest v ws -> headerslen pr < 2 ^ 63 ->
    exists h' pr', ParsedHeader_set h pr k v = Ok (0, h', pr') /\
      table_rep h' pr' (without ks kvs ++ [(ks, ws)]) rest) /\
  (forall k ks, str_in rest k ks -> exists h' pr',
    ParsedHeader_remove h pr k = Ok (if decide (ks ∈ kvs.*1) then 0 else -1, h', pr') /\
    table_rep h' pr' (without ks kvs) rest) /\
  (exists h', ParsedHeader_destroy h pr = Ok (h', set_table [] 0 0 pr) /\ cells h' = rest).
Proof.
  intros Hrep. pose proof Hrep as (vs & Hsl & Hkvs & Hnd). split_and!.
  - apply create_rep.
  - intros k ks Hk. pose proof (find_key ks vs) as Hf. rewrite (get_ok _ _ _ _ _ _ Hsl Hk). rewrite <- Hkvs in Hf. split.
    + intros Hn. destruct (list_find _ vs) as [[i v]|]; [|done].
      destruct Hf as (a & b & _ & _ & _ & Hin). apply (list_elem_of_fmap_2 fst) in Hin. done.
    + intros ws Hin. destruct (list_find _ vs) as [[i v]|].
      * destruct Hf as (a & b & Hi & -> & <- & Hin').
        destruct (read_slot _ _ _ _ _ _ Hsl Hi) as (o & Hg & Hv). cbn in Hv. destruct Hv as (-> & Ha & Hb).
        destruct (block_load _ _ _ _ _ _ _ Hsl Hi Ha Hb) as [H1 H2].
        eexists _, _. split; [reflexivity|]. unfold arr_read. cbn [fst]. rewrite Hg. split; [reflexivity|].
        split; [exact H1|]. cbn [value]. rewrite H2. f_equal.
        apply (assoc_inj kvs a.2); done.
      * exfalso. apply Hf. by apply (list_elem_of_fmap_2 fst) in Hin.
  - intros k ks v ws Hk Hv Hmax. destruct (set_ok _ _ _ _ _ _ _ _ Hrep Hk Hv Hmax) as (h' & pr' & Hr & Ht & _). eauto.
  - intros k ks Hk. destruct (remove_ok _ _ _ _ _ _ Hrep Hk) as (h' & pr' & Hr & Ht & _). eauto.
  - by apply destroy_ok with vs.
Qed.

(** ** Printing *)

Definition header_text (z : list Z * list Z) : list Z := z.1 ++ colon_space ++ z.2 ++ crlf.
Definition headers_text (kvs : list (list Z * list Z)) : list Z := concat (header_text <$> kvs) ++ crlf.

Definition slot_text (v : slot) : list Z :=
  match slot_kv v with None => [] | Some z => header_text z end.

Lemma slots_text vs : concat (slot_text <$> vs) = concat (header_text <$> omap slot_kv vs).
Proof. induction vs as [|[[a b]|] vs IH]; cbn; [done|..]; by rewrite <- IH. Qed.

Lemma slots_text_take vs i v : vs !! i = Some v ->
  concat (slot_text <$> take (S i) vs) = concat (slot_text <$> take i vs) ++ slot_text v.
Proof.
  intros Hi. rewrite (take_S_r _ _ _ Hi), fmap_app, concat_app. cbn. by rewrite app_nil_r.
Qed.

Lemma slots_text_le vs i :
  (length (concat (slot_text <$> take i vs)) <= length (concat (slot_text <$> vs)))%nat.
Proof. rewrite <- (take_drop i vs) at 2. rewrite fmap_app, concat_app, length_app. lia. Qed.

Lemma slot_view h pr vs rest i v : slots_rep h pr vs rest -> vs !! i = Some v ->
  exists ph, arr_read (headers pr) (Z.of_nat i) = Ok ph /\
    match v with
    | None => key ph = None
    | Some (k, w) => is_Some (key ph) /\ str_at h (key ph) = Ok k.2 /\ str_at h (value ph) = Ok w.2
    end.
Proof.
  intros Hrep Hi. destruct (read_slot _ _ _ _ _ _ Hrep Hi) as (o & Hg & Hv). unfold arr_read. rewrite Hg.
  destruct v as [[k w]|]; cbn in Hv.
  - destruct Hv as (-> & Hk & Hw). eexists. split; [reflexivity|]. split; [by eexists|]. by eapply block_load.
  - destruct Hv as (ph & -> & Hn). by exists ph.
Qed.

Lemma line_len_ok h pr vs rest i v : slots_rep h pr vs rest -> vs !! i = Some v ->
  exists ph, arr_read (headers pr) (Z.of_nat i) = Ok ph /\
    ParsedHeader_lineLen h ph = Ok (zlen (slot_text v)).
Proof.
  intros Hrep Hi. destruct (slot_view _ _ _ _ _ _ Hrep Hi) as (ph & Hr & Hv). exists ph. split; [done|].
  unfold ParsedHeader_lineLen. destruct v as [[k w]|]; [|by rewrite Hv].
  destruct Hv as ([q Hq] & Hk & Hw). rewrite Hq in *. rewrite Hk, Hw. cbn [mbind run_bind].
  unfold slot_text, slot_kv, header_text. f_equal. rewrite !length_app. cbn. lia.
Qed.

Lemma headers_len_ok h pr vs rest : slots_rep h pr vs rest -> buf pr <> None ->
  zlen (headers_text (omap slot_kv vs)) < 2 ^ 31 ->
  ParsedHeader_headersLen h pr = Ok (zlen (headers_text (omap slot_kv vs))).
Proof.
  intros Hrep Hb Hmax. pose proof Hrep as (_ & Hu & _).
  unfold headers_text in *. rewrite <- slots_text in *. rewrite length_app in *. cbn [length crlf] in *.
  unfold ParsedHeader_headersLen. destruct (buf pr) as [b|]; [|done].
  set (I := fun (i len : Z) => len = zlen (concat (slot_text <$> take (Z.to_nat i) vs))).
  destruct (for_from_inv I (fun i len => ph ← arr_read (headers pr) i; l ← ParsedHeader_lineLen h ph;
    Ok (to_int (u64 (u64 len + l)))) (Z.to_nat (headersused pr)) 0 0) as (n & -> & HI).
  - intros i len Hi ->. destruct (lookup_lt_is_Some_2 vs (Z.to_nat i)) as (v & Hv); [lia|].
    destruct (line_len_ok _ _ _ _ _ _ Hrep Hv) as (ph & Hr & Hl). rewrite Z2Nat.id in Hr by lia.
    rewrite Hr. cbn [mbind run_bind]. rewrite Hl. cbn [mbind run_bind]. eexists. split; [reflexivity|].
    unfold I. pose proof (slots_text_le vs (S (Z.to_nat i))) as Hle.
    replace (Z.to_nat (i + 1)) with (S (Z.to_nat i)) by lia.
    rewrite (slots_text_take _ _ _ Hv), length_app in Hle |- *.
    unfold u64. rewrite (Z.mod_small (zlen _)), Z.mod_small, to_int_small by lia. lia.
  - reflexivity.
  - unfold I in HI. cbn [mbind run_bind]. rewrite HI, take_ge by lia.
    unfold i32. rewrite decide_True by lia. cbn [mbind run_bind]. unfold u64.
    rewrite Z.mod_small by lia. do 2 f_equal. lia.
Qed.

(** A buffer of which a part has been written. *)
Definition filled (dn o : list Z) : list Z := dn ++ drop (length dn) o.

Lemma put_ok dn o s : (length dn + length s <= length o)%nat ->
  patch (filled dn o) (length dn) s = Ok (filled (dn ++ s) o).
Proof. apply patch_append. Qed.

Lemma print_header_ok h pr vs rest i v dn o : slots_rep h pr vs rest -> vs !! i = Some v ->
  (length dn + length (slot_text v) <= length o)%nat ->
  print_header h pr (Z.of_nat i) (filled dn o, length dn)
  = Ok (filled (dn ++ slot_text v) o, length (dn ++ slot_text v)).
Proof.
  intros Hrep Hi Hlen. destruct (slot_view _ _ _ _ _ _ Hrep Hi) as (ph & Hr & Hv).
  unfold print_header. rewrite Hr. cbn [mbind run_bind].
  destruct v as [[k w]|]; [|rewrite Hv; unfold slot_text; cbn; by rewrite app_nil_r].
  destruct Hv as ([q Hq] & Hk & Hw). rewrite Hq in *. rewrite Hk. cbn [mbind run_bind].
  unfold slot_text, slot_kv, header_text in *. rewrite !length_app in Hlen. cbn [length colon_space crlf fst snd] in Hlen.
  rewrite put_ok by lia. cbn [mbind run_bind].
  rewrite <- (length_app dn k.2), put_ok by (rewrite length_app; cbn; lia). cbn [mbind run_bind]. rewrite Hw.
  cbn [mbind run_bind].
  replace (length (dn ++ k.2) + 2)%nat with (length ((dn ++ k.2) ++ colon_space)) by (by rewrite (length_app (dn ++ k.2))).
  rewrite put_ok by (rewrite !length_app; cbn; lia). cbn [mbind run_bind].
  rewrite <- (length_app ((dn ++ k.2) ++ colon_space) w.2), put_ok by (rewrite !length_app; cbn; lia). cbn [mbind run_bind].
  rewrite <- !app_assoc. do 2 f_equal. rewrite !length_app. cbn. lia.
Qed.

Lemma print_headers_ok h pr vs rest dn o len : slots_rep h pr vs rest -> buf pr <> None ->
  zlen (headers_text (omap slot_kv vs)) < 2 ^ 31 -> zlen dn + len <= zlen o ->
  ParsedHeader_printHeaders h pr (filled dn o) (length dn) len
  = if decide (len < zlen (headers_text (omap slot_kv vs))) then Ok (-1, filled dn o)
    else Ok (0, filled (dn ++ headers_text (omap slot_kv vs)) o).
Proof.
  intros Hrep Hb Hmax Ho. unfold ParsedHeader_printHeaders.
  rewrite (headers_len_ok _ _ _ _ Hrep Hb Hmax). cbn [mbind run_bind]. case_decide as Hd; [done|].
  pose proof Hrep as (_ & Hu & _). unfold headers_text in *. rewrite <- slots_text in *.
  rewrite length_app in *. cbn [length crlf] in *.
  set (I := fun (i : Z) (st : list Z * nat) =>
    let tx := dn ++ concat (slot_text <$> take (Z.to_nat i) vs) in st = (filled tx o, length tx)).
  destruct (for_from_inv I (print_header h pr) (Z.to_nat (headersused pr)) 0 (filled dn o, length dn))
    as (st & -> & HI).
  - intros i st Hi ->. destruct (lookup_lt_is_Some_2 vs (Z.to_nat i)) as (v & Hv); [lia|].
    pose proof (slots_text_le vs (S (Z.to_nat i))) as Hle.
    rewrite (slots_text_take _ _ _ Hv), length_app in Hle.
    pose proof (print_header_ok h pr vs rest (Z.to_nat i) v
      (dn ++ concat (slot_text <$> take (Z.to_nat i) vs)) o Hrep Hv) as Hp.
    rewrite Z2Nat.id in Hp by lia. rewrite Hp by (rewrite length_app; lia).
    eexists. split; [reflexivity|]. unfold I. replace (Z.to_nat (i + 1)) with (S (Z.to_nat i)) by lia.
    by rewrite (slots_text_take _ _ _ Hv), app_assoc.
  - unfold I. cbn. by rewrite app_nil_r.
  - unfold I in HI. rewrite HI, take_ge by lia. cbn [mbind run_bind].
    rewrite put_ok by (rewrite !length_app; cbn; lia). cbn [mbind run_bind]. by rewrite <- app_assoc.
Qed.

(** ** The frame of a table *)

Lemma table_heap h h' pr kvs rest rest' : table_rep h pr kvs rest ->
  (forall l, owning h l rest -> owning h' l rest') -> table_rep h' pr kvs rest'.
Proof.
  intros (vs & (Hh & Hu & Hl & Hlt & Ho) & Hkvs & Hnd) Howning. exists vs.
  split; [|done]. split_and!; auto.
Qed.

Lemma table_line h pr pr' kvs rest : table_rep h pr kvs rest ->
  headers pr' = headers pr -> headersused pr' = headersused pr -> headerslen pr' = headerslen pr ->
  table_rep h pr' kvs rest.
Proof.
  intros (vs & Hrep & Hkvs) Hh Hu Hl. exists vs. split; [|done]. unfold slots_rep in *. by rewrite Hh, Hu, Hl.
Qed.

Lemma table_alloc h pr kvs rest x : table_rep h pr kvs rest ->
  rest !! brk h = None /\ table_rep (halloc h x).2 pr kvs (<[brk h := x]> rest).
Proof.
  intros Hrep. pose proof Hrep as (vs & (_ & _ & _ & _ & Ho) & _).
  split; [by apply (owning_alloc_rest _ _ _ x Ho)|]. apply (table_heap h _ _ _ rest); [done|].
  intros l Hl. by apply owning_alloc_rest.
Qed.

Lemma table_free h pr kvs rest a x : table_rep h pr kvs rest -> rest !! a = Some x ->
  exists h', hfree h (Some a) = Ok h' /\ table_rep h' pr kvs (delete a rest).
Proof.
  intros Hrep Hx. pose proof Hrep as (vs & (_ & _ & _ & _ & Ho) & _).
  destruct (owning_free_rest _ _ _ _ _ Ho Hx) as (h' & Hf & _). exists h'. split; [done|].
  apply (table_heap h _ _ _ rest); [done|]. intros l Hl.
  destruct (owning_free_rest _ _ _ _ _ Hl Hx) as (h2 & Hf2 & Ho2). rewrite Hf in Hf2. by injection Hf2 as <-.
Qed.

Lemma table_store h pr kvs rest a x y : table_rep h pr kvs rest -> rest !! a = Some x ->
  exists h', hstore h (Some a) y = Ok h' /\ table_rep h' pr kvs (<[a := y]> rest).
Proof.
  intros Hrep Hx. pose proof Hrep as (vs & (_ & _ & _ & _ & Ho) & _).
  destruct (owning_store_rest _ _ _ _ _ y Ho Hx) as (h' & Hf & _). exists h'. split; [done|].
  apply (table_heap h _ _ _ rest); [done|]. intros l Hl.
  destruct (owning_store_rest _ _ _ _ _ y Hl Hx) as (h2 & Hf2 & Ho2). rewrite Hf in Hf2. by injection Hf2 as <-.
Qed.

(** ** Requests *)

Record http_request : Type := Http {
  r_method : list Z;
  r_protocol : list Z;
  r_host : list Z;
  r_port : option (list Z);
  r_path : list Z;
  r_version : list Z;
  r_headers : list (list Z * list Z)
}.

Definition port_text (p : option (list Z)) : list Z :=
  match p with Some p => 58 :: p | None => [] end.

(** [METHOD protocol://host[:port]path VERSION] *)
Definition request_line (r : http_request) : list Z :=
  r_method r ++ [32] ++ r_protocol r ++ [58; 47; 47] ++ r_host r ++ port_text (r_port r) ++
  r_path r ++ [32] ++ r_version r ++ crlf.

Definition request_text (r : http_request) : list Z := request_line r ++ headers_text (r_headers r).

(** The object stands for the request [r]; its strings are in the frame. *)
Definition request_rep (h : mem) (pr : ParsedRequest) (r : http_request) (rest : gmap positive (list Z)) : Prop :=
  table_rep h pr (r_headers r) rest /\ buf pr <> None /\
  str_in rest (method pr) (r_method r) /\ str_in rest (protocol pr) (r_protocol r) /\
  str_in rest (host pr) (r_host r) /\ str_in rest (path pr) (r_path r) /\
  str_in rest (version pr) (r_version r) /\
  match r_port r with
  | None => port pr = Some None
  | Some p => exists q, port pr = Some q /\ str_in rest q p
  end.

Lemma line_len_text h pr r rest : request_rep h pr r rest ->
  ParsedRequest_requestLineLen h pr = Ok (zlen (request_line r)).
Proof.
  intros ((vs & Hrep & _) & Hb & Hm & Hp & Hh & Ha & Hv & Hport). pose proof Hrep as (_ & _ & _ & _ & Ho).
  unfold ParsedRequest_requestLineLen. destruct (buf pr) as [bp|]; [|done].
  rewrite (str_in_at _ _ _ _ _ Ho Hm), (str_in_at _ _ _ _ _ Ho Hp), (str_in_at _ _ _ _ _ Ho Hh),
    (str_in_at _ _ _ _ _ Ho Hv). run_step.
  unfold request_line. destruct (r_port r) as [p|].
  - destruct Hport as (q & -> & Hq). run_step. pose proof (str_in_at _ _ _ _ _ Ho Hq) as Hs.
    destruct q as [q|]; [|done]. rewrite Hs, (str_in_at _ _ _ _ _ Ho Ha). run_step. f_equal.
    unfold port_text. rewrite !length_app. cbn. lia.
  - rewrite Hport, (str_in_at _ _ _ _ _ Ho Ha). run_step. f_equal.
    unfold port_text. rewrite !length_app. cbn. lia.
Qed.

Lemma put_str_ok dn o s : (length dn + length s <= length o)%nat ->
  put_str s (filled dn o, length dn) = Ok (filled (dn ++ s) o, length (dn ++ s)).
Proof.
  intros Hl. unfold put_str. cbn [fst snd]. rewrite put_ok by done. run_step. by rewrite length_app.
Qed.

(** Rewrites a sequence of [put_str]s, given a bound on the total. *)
Ltac put_all Hlen :=
  repeat (rewrite put_str_ok by (rewrite ?length_app in *; cbn [length] in *; lia); run_step).

Lemma print_line_ok h pr r rest out len : request_rep h pr r rest -> len <= zlen out ->
  ParsedRequest_printRequestLine h pr out len
  = if decide (len < zlen (request_line r)) then Ok (-1, out, O)
    else Ok (0, filled (request_line r) out, length (request_line r)).
Proof.
  intros Hr Hlen. unfold ParsedRequest_printRequestLine. rewrite (line_len_text _ _ _ _ Hr). run_step.
  case_decide as Hd; [done|].
  destruct Hr as ((vs & Hrep & _) & Hb & Hm & Hp & Hh & Ha & Hv & Hport).
  pose proof Hrep as (_ & _ & _ & _ & Ho).
  assert (length (request_line r) <= length out)%nat as Hl by lia.
  change (out, O) with (filled [] out, length (@nil Z)).
  rewrite (str_in_at _ _ _ _ _ Ho Hm), (str_in_at _ _ _ _ _ Ho Hp), (str_in_at _ _ _ _ _ Ho Hh),
    (str_in_at _ _ _ _ _ Ho Hv), (str_in_at _ _ _ _ _ Ho Ha). run_step.
  assert (exists q, port pr = Some q /\ match q with Some _ => str_at h q | None => Ok [] end
    = Ok (default [] (r_port r)) /\ (q = None <-> r_port r = None)) as (q & -> & Hq & Hn).
  { destruct (r_port r) as [p|]; [|exists None; done]. destruct Hport as (q & -> & Hq). exists q.
    rewrite (str_in_at _ _ _ _ _ Ho Hq). destruct Hq as (? & ? & ? & -> & _). done. }
  unfold request_line in *. clear Hport.
  destruct q as [q|], (r_port r) as [p|]; try (exfalso; naive_solver);
    cbn [port_text default from_option id] in *; put_all Hl; [rewrite Hq; run_step; put_all Hl|]; by rewrite <- !app_assoc.
Qed.

Lemma unparse_ok h pr r rest out len :
  request_rep h pr r rest -> zlen (request_text r) < 2 ^ 31 -> 0 <= len <= zlen out -> len < 2 ^ 64 ->
  ParsedRequest_unparse h pr out len
  = Ok (if decide (len < zlen (request_line r)) then (-1, out)
        else if decide (len < zlen (request_text r)) then (-1, filled (request_line r) out)
        else (0, filled (request_text r) out)).
Proof.
  intros Hr Hmax Hlen H64. pose proof Hr as ((vs & Hrep & Hkvs & _) & Hb & _).
  unfold request_text in *. rewrite length_app in *.
  assert (zlen (headers_text (omap slot_kv vs)) < 2 ^ 31) as Hh by (rewrite <- Hkvs; lia).
  pose proof (print_line_ok _ _ _ _ out len Hr) as Hline.
  pose proof (print_headers_ok _ _ _ _ (request_line r) out (len - zlen (request_line r)) Hrep Hb Hh) as Hpt.
  rewrite <- Hkvs in *. unfold ParsedRequest_unparse. destruct (buf pr) as [bp|]; [|done].
  rewrite Hline by lia. destruct (decide (len < zlen (request_line r))) as [Hd|Hd]; [done|].
  run_step. rewrite decide_False by lia. unfold u64. rewrite Z.mod_small by lia. rewrite Hpt by lia.
  destruct (decide (len < Z.of_nat (_ + _))) as [Hl|Hl]; [rewrite decide_True by lia|rewrite decide_False by lia]; done.
Qed.

(** C35: the lengths and the printing of a request.  [ParsedRequest_totalLen] is
    the length of the request's text.  Given a buffer at least as large as the
    [len] it is told, [ParsedRequest_unparse] writes exactly that text at its
    start and returns 0 when it fits in [len] bytes; when it does not, the
    result is -1 and at most the request line has been written.
    [ParsedRequest_unparse_headers] does the same for the headers and the
    empty line alone.  No byte past the text is touched. *)
Theorem unparse_correct h pr r rest out len :
  request_rep h pr r rest -> zlen (request_text r) < 2 ^ 31 -> 0 <= len <= zlen out -> len < 2 ^ 64 ->
  ParsedRequest_totalLen h pr = Ok (zlen (request_text r)) /\
  ParsedRequest_unparse h pr out len
  = Ok (if decide (len < zlen (request_line r)) then (-1, out)
        else if decide (len < zlen (request_text r)) then (-1, filled (request_line r) out)
        else (0, filled (request_text r) out)) /\
  ParsedRequest_unparse_headers h pr out len
  = Ok (if decide (len < zlen (headers_text (r_headers r))) then (-1, out)
        else (0, filled (headers_text (r_headers r)) out)).
Proof.
  intros Hr Hmax Hlen H64. pose proof Hr as ((vs & Hrep & Hkvs & _) & Hb & _).
  split; [|split; [by apply (unparse_ok _ _ _ rest)|]];
    unfold request_text in *; rewrite length_app in *;
    assert (zlen (headers_text (omap slot_kv vs)) < 2 ^ 31) as Hh by (rewrite <- Hkvs; lia).
  - pose proof (headers_len_ok _ _ _ _ Hrep Hb Hh) as Hhl. rewrite <- Hkvs in *.
    unfold ParsedRequest_totalLen. destruct (buf pr) as [bp|]; [|done].
    rewrite (line_len_text _ _ _ _ Hr). run_step. rewrite Hhl. run_step.
    unfold u64. rewrite Z.mod_small by lia. do 2 f_equal. lia.
  - pose proof (print_headers_ok _ _ _ _ [] out len Hrep Hb Hh) as Hph. rewrite <- Hkvs in *.
    unfold ParsedRequest_unparse_headers. destruct (buf pr) as [bp|]; [|done].
    change (filled [] out) with out in Hph. change (length []) with O in Hph. rewrite Hph by lia.
    by destruct (decide (len < zlen (headers_text (r_headers r)))).
Qed.

(** ** Examples *)

Definition c_string (s : string) : list Z := bytes_of s ++ [0].

Definition sample_mem : mem :=
  Heap {[1%positive := c_string "Host"; 2%positive := c_string "GET";
         3%positive := c_string "http"; 4%positive := c_string "a.org";
         5%positive := c_string "/x"; 6%positive := c_string "HTTP/1.0"; 7%positive := c_string "close"]} 8.

Lemma sample_mem_wf : heap_wf sample_mem.
Proof.
  assert (map_Forall (fun a _ => (a < 8)%positive) (cells sample_mem)) as Hall
    by (refine (bool_decide_unpack _ _); vm_compute; exact I).
  intros a [x Hx]. exact (Hall a x Hx).
Qed.

Lemma sample_str a s : cells sample_mem !! a = Some (c_string s) ->
  bool_decide (is_str (bytes_of s)) = true -> str_in (cells sample_mem) (Some (a, O)) (bytes_of s).
Proof.
  intros Ha Hs. exists a, O, (c_string s). split_and!; [done|done|].
  apply bool_decide_eq_true in Hs. by apply str_of_ok.
Qed.

Lemma headers_refine_witness : exists h1 pr1 h2 pr2,
  ParsedHeader_set sample_mem ParsedRequest_create (Some (1%positive, O)) (Some (4%positive, O)) = Ok (0, h1, pr1) /\
  ParsedHeader_set h1 pr1 (Some (1%positive, O)) (Some (7%positive, O)) = Ok (0, h2, pr2) /\
  table_rep h2 pr2 [(bytes_of "Host", bytes_of "close")] (cells sample_mem).
Proof.
  assert (str_in (cells sample_mem) (Some (1%positive, O)) (bytes_of "Host")) as Hk by (by apply sample_str).
  destruct (headers_refine sample_mem ParsedRequest_create [] (cells sample_mem) (create_rep _ sample_mem_wf))
    as (_ & _ & Hset & _).
  destruct (Hset _ _ (Some (4%positive, O)) (bytes_of "a.org") Hk) as (h1 & pr1 & H1 & Hr1);
    [by apply sample_str|done|].
  destruct (headers_refine h1 pr1 _ _ Hr1) as (_ & _ & Hset2 & _).
  destruct (Hset2 _ _ (Some (7%positive, O)) (bytes_of "close") Hk) as (h2 & pr2 & H2 & Hr2);
    [by apply sample_str|vm_compute in H1; injection H1 as _ <-; vm_compute; done|].
  exists h1, pr1, h2, pr2. split; [exact H1|]. split; [exact H2|exact Hr2].
Defined.

Definition sample_http : http_request :=
  Http (bytes_of "GET") (bytes_of "http") (bytes_of "a.org") None (bytes_of "/x") (bytes_of "HTTP/1.0") [].

Definition sample_request : ParsedRequest :=
  ParsedHeader_create (Request (Some (2%positive, O)) (Some (3%positive, O)) (Some (4%positive, O)) (Some None)
    (Some (5%positive, O)) (Some (6%positive, O)) (Some (2%positive, O)) 4 [] 0 0).

Lemma unparse_correct_witness :
  request_text sample_http = bytes_of "GET http://a.org/x HTTP/1.0" ++ crlf ++ crlf /\
  ParsedRequest_unparse sample_mem sample_request (replicate 40 7) 32
  = Ok (0, request_text sample_http ++ replicate 9 7).
Proof.
  split; [reflexivity|].
  destruct (unparse_correct sample_mem sample_request sample_http (cells sample_mem) (replicate 40 7) 32)
    as (_ & Hu & _); [|vm_compute; done|vm_compute; done|lia|exact Hu].
  split; [exact (create_rep _ sample_mem_wf)|].
  split_and!; try (by apply sample_str); done.
Defined.
