(* ===== verification/ProxyParse.v ===== *)
(** * Parsing HTTP requests

    Models the parsing half of [Assignment1/starter_code/proxy_parse.c]:
    [ParsedRequest_parse] and [ParsedHeader_parse], on top of the table of
    [ProxyHeaders.v].  [strtok_r] cuts the request line in place, so the
    fields of the object are positions in one block.  Proved: parsing inverts
    printing and leaks nothing, parsing terminates on every input, and what
    happens to requests that are not well formed. *)

From S2P Require Import Prelude Heap CString ProxyHeaders.

(** ** String functions *)

Fixpoint is_prefix (p s : list Z) : bool :=
  match p, s with
  | [], _ => true
  | x :: p, y :: s => bool_decide (x = y) && is_prefix p s
  | _, _ => false
  end.

(** [strstr] and [index] on a string: the position of the first match. *)
Fixpoint strstr (s needle : list Z) : option nat :=
  if is_prefix needle s then Some O else
  match s with [] => None | _ :: s => S <$> strstr s needle end.

(** [strncmp(a, lit, strlen(lit)) == 0]: reading stops at the first difference. *)
Fixpoint starts_with (a lit : list Z) {struct lit} : run bool :=
  match lit with
  | [] => Ok true
  | x :: lit =>
      match a with
      | [] => Crash OutOfRange
      | y :: a => if decide (x = y) then starts_with a lit else Ok false
      end
  end.

Definition in_set (delims : list Z) (b : Z) : bool := bool_decide (b ∈ delims).

(** [strtok_r] from position [off] of the block [c]: the block it leaves, the
    token's position, and the new [saveptr]. *)
Definition strtok_r (c delims : list Z) (off : nat) : run (list Z * option nat * nat) :=
  s ← str_of (drop off c);
  let a := (off + span (in_set delims) s)%nat in
  if decide (a = off + length s)%nat then Ok (c, None, a) else
  let e := (a + span (fun b => negb (in_set delims b)) (drop (a - off) s))%nat in
  if decide (e = off + length s)%nat then Ok (c, Some a, e) else
  c ← arr_set c (Z.of_nat e) 0;
  Ok (c, Some a, S e).

(** ** Headers *)

(** [strstr] from position [off] of the block [tmp]. *)
Definition find_from (tmp : list Z) (off : nat) (needle : list Z) : run (option nat) :=
  s ← str_of (drop off tmp); Ok (Nat.add off <$> strstr s needle).

(** [line] is a position in the block [tmp]; the search for the colon does not
    stop at the end of the line.  [index2 - index1] is undefined for a null
    [index2]. *)
Definition ParsedHeader_parse (h : mem) (pr : ParsedRequest) (tmp : list Z) (line : nat)
    : run (Z * mem * ParsedRequest) :=
  s ← str_of (drop line tmp);
  match index s 58 with
  | None => Ok (-1, h, pr)
  | Some i =>
      let '(k, h) := new_str h (take i s) in
      let index1 := (line + i + 2)%nat in
      index2 ← find_from tmp index1 crlf;
      match index2 with
      | None => Crash NullPtr
      | Some j =>
          vs ← slice tmp index1 (j - index1);
          let '(v, h) := new_str h vs in
          '(_, h, pr) ← ParsedHeader_set h pr k v;
          h ← free_str h k;
          h ← free_str h v;
          Ok (0, h, pr)
      end
  end.

(** [while (currentHeader[0] != 0 && !(currentHeader[0] == CR && currentHeader[1] == LF))]:
    the result is [ret]. *)
Fixpoint headers_loop (fuel : nat) (h : mem) (pr : ParsedRequest) (tmp : list Z) (cur : nat)
    : run (Z * mem * ParsedRequest) :=
  c0 ← arr_get tmp (Z.of_nat cur);
  if decide (c0 = 0) then Ok (0, h, pr) else
  stop ← (if decide (c0 = 13) then c1 ← arr_get tmp (Z.of_nat cur + 1); Ok (bool_decide (c1 = 10))
          else Ok false);
  if stop : bool then Ok (0, h, pr) else
  match fuel with
  | O => Crash Fuel
  | S fuel =>
      '(r, h, pr) ← ParsedHeader_parse h pr tmp cur;
      if decide (r <> 0) then Ok (-1, h, pr) else
      next ← find_from tmp cur crlf;
      match next with
      | None => Ok (0, h, pr)
      | Some cur =>
          s ← str_of (drop cur tmp);
          if decide (length s < 2)%nat then Ok (0, h, pr) else headers_loop fuel h pr tmp (cur + 2)
      end
  end.

(** ** The request line *)

Definition set_line (m pt ho : cptr) (po : option cptr) (pa ve : cptr) (pr : ParsedRequest) : ParsedRequest :=
  Request m pt ho po pa ve (buf pr) (buflen pr) (headers pr) (headersused pr) (headerslen pr).
Definition set_method v pr := set_line v (protocol pr) (host pr) (port pr) (path pr) (version pr) pr.
Definition set_protocol v pr := set_line (method pr) v (host pr) (port pr) (path pr) (version pr) pr.
Definition set_host v pr := set_line (method pr) (protocol pr) v (port pr) (path pr) (version pr) pr.
Definition set_port v pr := set_line (method pr) (protocol pr) (host pr) (Some v) (path pr) (version pr) pr.
Definition set_path v pr := set_line (method pr) (protocol pr) (host pr) (port pr) v (version pr) pr.
Definition set_version v pr := set_line (method pr) (protocol pr) (host pr) (port pr) (path pr) v pr.
Definition set_buf (v : cptr) (len : Z) (pr : ParsedRequest) : ParsedRequest :=
  Request (method pr) (protocol pr) (host pr) (port pr) (path pr) (version pr) v len
    (headers pr) (headersused pr) (headerslen pr).

Definition http_slash : list Z := bytes_of "HTTP/".

(** The failing exits: [free(tmp_buf); free(parse->buf); parse->buf = NULL;
    return -1], the ones that also [free(parse->path)], and the one that
    drops the path. *)
Definition parse_fail (h : mem) (pr : ParsedRequest) (tmp : positive) : run (Z * mem * ParsedRequest) :=
  h ← hfree h (Some tmp);
  h ← free_str h (buf pr);
  Ok (-1, h, set_buf None (buflen pr) pr).
Definition parse_fail_path (h : mem) (pr : ParsedRequest) (tmp : positive) : run (Z * mem * ParsedRequest) :=
  h ← hfree h (Some tmp);
  h ← free_str h (buf pr);
  h ← free_str h (path pr);
  Ok (-1, h, set_path None (set_buf None (buflen pr) pr)).

(** The path after the host: [None] when it begins with a second slash. *)
Definition parse_path (h : mem) (c : list Z) (o : option nat) : run (option (cptr * mem)) :=
  match o with
  | None => let '(p, h) := new_str h [47] in Ok (Some (p, h))
  | Some o =>
      b ← starts_with (drop o c) [47];
      if b : bool then Ok None else
      ps ← str_of (drop o c);
      let '(p, h) := new_str h (47 :: ps) in
      Ok (Some (p, h))
  end.

(** From the headers on. *)
Definition parse_headers (h : mem) (pr : ParsedRequest) (tmp : list Z) (tb : positive)
    : run (Z * mem * ParsedRequest) :=
  i ← find_from tmp 0 crlf;
  i ← need NullPtr i;
  '(ret, h, pr) ← headers_loop (length tmp) h pr tmp (i + 2);
  h ← hfree h (Some tb);
  Ok (ret, h, pr).

(** From the host to the headers: [c] is the contents of the block [b], in
    which the host begins at [hoff] and the scan is at [save]. *)
Definition parse_host (h : mem) (pr : ParsedRequest) (tmp : list Z) (tb b : positive) (c : list Z)
    (hoff save : nat) (einval : bool) : run (Z * mem * ParsedRequest) :=
  let at_ o := (fun o => (b, o)) <$> o in
  '(c, pa, save) ← strtok_r c [32] save;
  let pr := set_path (at_ pa) pr in
  newp ← parse_path h c pa;
  match newp with
  | None => '(r, h, pr) ← parse_fail h pr tb; Ok (r, h, set_path None pr)
  | Some (p, h) =>
      let pr := set_path p pr in
      '(c, ho, save) ← strtok_r c [58] hoff;
      let pr := set_host (at_ ho) pr in
      '(c, po, save) ← strtok_r c [47] save;
      let pr := set_port (at_ po) pr in
      h ← hstore h (Some b) c;
      match ho with
      | None => parse_fail_path h pr tb
      | Some _ =>
          bad ← match po with
                | None => Ok false
                | Some o => s ← str_of (drop o c); Ok (bool_decide (to_int (strtol s) = 0) && einval)
                end;
          if bad : bool then parse_fail_path h pr tb else parse_headers h pr tmp tb
      end
  end.

(** The request line, in the block [b] with contents [c]. *)
Definition parse_line (h : mem) (pr : ParsedRequest) (tmp : list Z) (tb b : positive) (c : list Z)
    (einval : bool) : run (Z * mem * ParsedRequest) :=
  let at_ o := (fun o => (b, o)) <$> o in
  '(c, m, save) ← strtok_r c [32] 0;
  let pr := set_method (at_ m) pr in
  match m with None => parse_fail h pr tb | Some _ =>
  '(c, full, save) ← strtok_r c [32] save;
  match full with None => parse_fail h pr tb | Some full_addr =>
  fs ← str_of (drop full_addr c);
  let ver := (full_addr + length fs + 1)%nat in
  let pr := set_version (Some (b, ver)) pr in
  ok ← starts_with (drop ver c) http_slash;
  if negb ok then parse_fail h pr tb else
  '(c, proto, save) ← strtok_r c [58; 47; 47] full_addr;
  let pr := set_protocol (at_ proto) pr in
  match proto with None => parse_fail h pr tb | Some po =>
  ps ← str_of (drop po c);
  rs ← str_of (drop (full_addr + length ps + 3) c);
  '(c, ho, save) ← strtok_r c [47] save;
  let pr := set_host (at_ ho) pr in
  match ho with None => parse_fail h pr tb | Some hoff =>
  hs ← str_of (drop hoff c);
  if decide (length hs = length rs) then parse_fail h pr tb else
  parse_host h pr tmp tb b c hoff save einval
  end end end end.

Definition MIN_REQ_LEN : Z := 4.
Definition MAX_REQ_LEN : Z := 65535.

(** [einval] is whether [errno] is [EINVAL] after [strtol], which does not
    reset it.  While a request line is being cut up its block is only reached
    through [c], so the heap is brought up to date at the end. *)
Definition ParsedRequest_parse (h : mem) (parse : ParsedRequest) (bytes : list Z) (len : Z) (einval : bool)
    : run (Z * mem * ParsedRequest) :=
  match buf parse with
  | Some _ => Ok (-1, h, parse)
  | None =>
      if decide (len < MIN_REQ_LEN \/ len > MAX_REQ_LEN) then Ok (-1, h, parse) else
      body ← slice bytes 0 (Z.to_nat len);
      let tmp := body ++ [0] in
      let '(tb, h) := halloc h tmp in
      index ← find_from tmp 0 (crlf ++ crlf);
      match index with
      | None => h ← hfree h (Some tb); Ok (-1, h, parse)
      | Some _ =>
          i ← find_from tmp 0 crlf;
          i ← need NullPtr i;
          let c := take i tmp ++ [0] in
          let '(b, h) := halloc h c in
          parse_line h (set_buf (Some (b, O)) (Z.of_nat i + 1) parse) tmp tb b c einval
      end
  end.

(** ** Facts about the string functions *)

Lemma is_prefix_app p s : is_prefix p (p ++ s) = true.
Proof. induction p as [|x p IH]; cbn; [done|]. by rewrite bool_decide_true. Qed.

Lemma strstr_here p s : strstr (p ++ s) p = Some O.
Proof. destruct p; cbn; [by destruct s|]. by rewrite bool_decide_true, is_prefix_app. Qed.

Lemma strstr_some a p s : is_Some (strstr (a ++ p ++ s) p).
Proof.
  induction a as [|x a IH]; [exists O; exact (strstr_here p s)|]. cbn [app strstr].
  destruct (is_prefix p _); [by eexists|]. destruct IH as [n ->]. by eexists.
Qed.

(** The end of a line. *)
Lemma strstr_crlf s t : 13 ∉ s -> strstr (s ++ crlf ++ t) crlf = Some (length s).
Proof.
  unfold crlf. induction s as [|x s IH]; intros Hs; [exact (strstr_here [13; 10] t)|].
  apply not_elem_of_cons in Hs as [Hx Hs]. rewrite <- app_comm_cons. cbn [strstr is_prefix].
  rewrite bool_decide_false by done. cbn [andb]. by rewrite IH.
Qed.

Lemma strstr_bound s p n : strstr s p = Some n -> (n + length p <= length s)%nat.
Proof.
  revert n. induction s as [|x s IH]; intros n Hs; cbn in Hs.
  - destruct p; cbn in Hs; [by injection Hs as <-|done].
  - destruct (is_prefix p (x :: s)) eqn:Hp; cbn in Hs.
    + injection Hs as <-. clear IH. revert Hp. generalize (x :: s). clear.
      induction p as [|y p IH]; intros [|z l] Hp; cbn in *; try lia; try done.
      apply andb_true_iff in Hp as [_ Hp]. apply IH in Hp. lia.
    + destruct (strstr s p) as [k|]; [|done]. injection Hs as <-. specialize (IH k eq_refl). cbn. lia.
Qed.

Lemma index_app s c t : c ∉ s -> index (s ++ c :: t) c = Some (length s).
Proof.
  induction s as [|x s IH]; intros Hs; cbn; [by rewrite decide_True|].
  apply not_elem_of_cons in Hs as [Hx Hs]. rewrite decide_False by done. by rewrite IH.
Qed.

Lemma index_none s c : c ∉ s -> index s c = None.
Proof.
  induction s as [|x s IH]; intros Hs; [done|]. apply not_elem_of_cons in Hs as [Hx Hs]. cbn.
  rewrite decide_False by done. by rewrite IH.
Qed.

Lemma str_of_c_str a : str_of (a ++ [0]) = Ok (c_str a).
Proof. induction a as [|b a IH]; [done|]. cbn. case_decide; [done|]. by rewrite IH. Qed.

(** Searching a block from its start. *)
Lemma find_from_start a s : find_from (a ++ [0]) 0 s = Ok (strstr (c_str a) s).
Proof. unfold find_from. rewrite drop_0, str_of_c_str. run_step. by destruct (strstr _ s). Qed.

(** ** [strtok_r] on a block of a known shape *)

Definition in_delims (delims : list Z) (s : list Z) : Prop := Forall (fun b => in_set delims b = true) s.
Definition off_delims (delims : list Z) (s : list Z) : Prop :=
  Forall (fun b => negb (in_set delims b) = true) s.

Lemma in_delims_str delims s : is_str delims -> in_delims delims s -> is_str s.
Proof.
  intros Hd Hs. eapply Forall_impl; [exact Hs|]. intros b Hb ->. apply bool_decide_eq_true in Hb.
  unfold is_str in Hd. rewrite Forall_forall in Hd. by apply (Hd 0 Hb).
Qed.

(** A token that ends at a delimiter, which becomes the end of the string. *)
Lemma strtok_token c off delims pre skip tok d r post :
  c = pre ++ skip ++ tok ++ d :: r ++ 0 :: post -> off = length pre -> is_str delims ->
  in_delims delims skip -> off_delims delims tok -> is_str tok -> tok <> [] ->
  in_set delims d = true -> is_str r ->
  strtok_r c delims off
  = Ok (pre ++ skip ++ tok ++ 0 :: r ++ 0 :: post, Some (length pre + length skip)%nat,
        S (length pre + length skip + length tok)).
Proof.
  intros -> -> Hds Hsk Htok Hts Hne Hd Hr. unfold strtok_r. rewrite drop_app_length.
  assert (is_str (skip ++ tok ++ d :: r)) as Hs.
  { apply Forall_app_2; [by apply (in_delims_str delims)|]. apply Forall_app_2; [done|]. apply Forall_cons.
    split; [|done]. intros ->. apply bool_decide_eq_true in Hd. unfold is_str in Hds.
    rewrite Forall_forall in Hds. by apply (Hds 0 Hd). }
  replace (skip ++ tok ++ d :: r ++ 0 :: post) with ((skip ++ tok ++ d :: r) ++ 0 :: post)
    by (by rewrite <- !app_assoc).
  rewrite (str_of_ok _ _ Hs). run_step. rewrite (span_app _ skip) by exact Hsk.
  destruct tok as [|t tok]; [done|].
  assert (in_set delims t = false) as Ht by (apply Forall_inv in Htok; by apply negb_true_iff in Htok).
  cbn [app span]. rewrite Ht, Nat.add_0_r.
  rewrite decide_False by (rewrite !length_app; cbn; lia).
  replace (length pre + length skip - length pre)%nat with (length skip) by lia.
  rewrite drop_app_length. rewrite (app_comm_cons tok), (span_app _ (t :: tok)) by exact Htok.
  cbn [span]. rewrite Hd. cbn [negb]. rewrite Nat.add_0_r.
  rewrite decide_False by (rewrite !length_app; cbn; lia).
  rewrite arr_set_ok by (rewrite !length_app; cbn; lia). run_step.
  rewrite Nat2Z.id. do 3 f_equal. rewrite <- !app_assoc.
  rewrite insert_app_r_alt by lia. f_equal. rewrite insert_app_r_alt by lia. f_equal.
  rewrite (insert_app_r_alt (t :: tok)) by lia. cbn [app]. do 2 f_equal.
  replace (length pre + length skip + length (t :: tok) - length pre - length skip - length (t :: tok))%nat
    with O by lia. done.
Qed.

(** A token that ends with the string. *)
Lemma strtok_last c off delims pre skip tok post :
  c = pre ++ skip ++ tok ++ 0 :: post -> off = length pre -> is_str delims ->
  in_delims delims skip -> off_delims delims tok -> is_str tok -> tok <> [] ->
  strtok_r c delims off
  = Ok (c, Some (length pre + length skip)%nat, (length pre + length skip + length tok)%nat).
Proof.
  intros -> -> Hds Hsk Htok Hts Hne. unfold strtok_r. rewrite drop_app_length.
  replace (skip ++ tok ++ 0 :: post) with ((skip ++ tok) ++ 0 :: post) by (by rewrite <- app_assoc).
  rewrite str_of_ok by (apply Forall_app_2; [by apply (in_delims_str delims)|done]). run_step.
  rewrite (span_app _ skip) by exact Hsk. destruct tok as [|t tok]; [done|].
  assert (in_set delims t = false) as Ht by (apply Forall_inv in Htok; by apply negb_true_iff in Htok).
  cbn [span]. rewrite Ht, Nat.add_0_r. rewrite decide_False by (rewrite length_app; cbn; lia).
  replace (length pre + length skip - length pre)%nat with (length skip) by lia.
  rewrite drop_app_length, (span_all _ (t :: tok)) by exact Htok.
  by rewrite decide_True by (rewrite length_app; lia).
Qed.

(** No token left. *)
Lemma strtok_none c off delims pre skip post :
  c = pre ++ skip ++ 0 :: post -> off = length pre -> is_str delims -> in_delims delims skip ->
  strtok_r c delims off = Ok (c, None, (length pre + length skip)%nat).
Proof.
  intros -> -> Hds Hsk. unfold strtok_r. rewrite drop_app_length.
  rewrite str_of_ok by (by apply (in_delims_str delims)). run_step.
  rewrite (span_all _ skip) by exact Hsk. by rewrite decide_True.
Qed.

(** ** Requests that can be parsed back *)

(** No character of [s] is in [ds]. *)
Lemma off_delims_sub ds ds' s : Forall (fun d => in_set ds d = true) ds' -> off_delims ds s -> off_delims ds' s.
Proof.
  intros Hsub Hs. eapply Forall_impl; [exact Hs|]. intros b Hb. apply negb_true_iff in Hb.
  apply negb_true_iff. destruct (in_set ds' b) eqn:Hd; [|done].
  apply bool_decide_eq_true in Hd. rewrite Forall_forall in Hsub. by rewrite (Hsub b Hd) in Hb.
Qed.

Lemma off_delims_notin ds s d : in_set ds d = true -> off_delims ds s -> d ∉ s.
Proof.
  intros Hd Hs Hin. unfold off_delims in Hs. rewrite Forall_forall in Hs. specialize (Hs d Hin).
  apply negb_true_iff in Hs. congruence.
Qed.

Lemma off_delims_str ds s : in_set ds 0 = true -> off_delims ds s -> is_str s.
Proof.
  intros Hd Hs. pose proof (off_delims_notin _ _ _ Hd Hs) as Hn. apply Forall_forall.
  intros b Hb ->. done.
Qed.

(** The characters that would be read as something else: the end of the
    string, of the line and of the field. *)
Definition wf_request (r : http_request) : Prop :=
  (r_method r <> [] /\ off_delims [0; 13; 32] (r_method r)) /\
  (r_protocol r <> [] /\ off_delims [0; 13; 32; 58; 47] (r_protocol r)) /\
  (r_host r <> [] /\ off_delims [0; 13; 32; 58; 47] (r_host r)) /\
  match r_port r with Some p => p <> [] /\ off_delims [0; 13; 32; 47] p | None => True end /\
  (exists q, r_path r = 47 :: q /\ off_delims [0; 13; 32] q /\ head q <> Some 47) /\
  (exists v, r_version r = http_slash ++ v /\ off_delims [0; 13] v) /\
  Forall (fun z => off_delims [0; 13; 58] z.1 /\ off_delims [0; 13] z.2) (r_headers r).

Definition host_text (r : http_request) : list Z := r_host r ++ port_text (r_port r).
Definition full_addr (r : http_request) : list Z :=
  r_protocol r ++ [58; 47; 47] ++ host_text r ++ r_path r.

(** The request line without its end. *)
Definition line_bytes (r : http_request) : list Z :=
  r_method r ++ [32] ++ full_addr r ++ [32] ++ r_version r.

Lemma request_line_bytes r : request_line r = line_bytes r ++ crlf.
Proof.
  unfold request_line, line_bytes, full_addr, host_text. by rewrite <- !app_assoc.
Qed.

(** The block of the request line once [strtok_r] has cut it. *)
Definition cut_line (r : http_request) : list Z :=
  r_method r ++ [0] ++ r_protocol r ++ [0; 47; 47] ++ r_host r ++
  match r_port r with Some p => 0 :: p | None => [] end ++
  [0] ++ tail (r_path r) ++ [0] ++ r_version r ++ [0].

(** The object after the request line, with its block [b] and its path [pa]. *)
Definition placed (b pa : positive) (r : http_request) (pr : ParsedRequest) : ParsedRequest :=
  let m := length (r_method r) in
  let ho := (m + 1 + length (r_protocol r) + 3)%nat in
  Request (Some (b, O)) (Some (b, m + 1))%nat (Some (b, ho))
    (Some (match r_port r with Some _ => Some (b, ho + length (r_host r) + 1)%nat | None => None end))
    (Some (pa, O)) (Some (b, m + 1 + length (full_addr r) + 1)%nat) (buf pr) (buflen pr)
    (headers pr) (headersused pr) (headerslen pr).

Lemma str_pos c off pre s post : c = pre ++ s ++ 0 :: post -> off = length pre -> is_str s ->
  str_of (drop off c) = Ok s.
Proof. intros -> -> Hs. rewrite drop_app_length. by apply str_of_ok. Qed.

Lemma drop_pos {A} (c : list A) off pre post : c = pre ++ post -> off = length pre -> drop off c = post.
Proof. intros -> ->. apply drop_app_length. Qed.

Lemma starts_with_app lit s : starts_with (lit ++ s) lit = Ok true.
Proof. induction lit as [|x lit IH]; cbn; [done|]. by rewrite decide_True, IH. Qed.

Lemma off_in ds b s : off_delims ds s -> b ∈ s -> in_set ds b = false.
Proof. intros Hs Hb. unfold off_delims in Hs. rewrite Forall_forall in Hs. by apply negb_true_iff, Hs. Qed.

Lemma off_delims_app ds a b : off_delims ds a -> off_delims ds b -> off_delims ds (a ++ b).
Proof. apply Forall_app_2. Qed.
Lemma off_delims_cons ds x a : negb (in_set ds x) = true -> off_delims ds a -> off_delims ds (x :: a).
Proof. intros. by apply Forall_cons. Qed.
Lemma is_str_app a b : is_str a -> is_str b -> is_str (a ++ b).
Proof. apply Forall_app_2. Qed.
Lemma is_str_cons x a : x <> 0 -> is_str a -> is_str (x :: a).
Proof. intros. by apply Forall_cons. Qed.

(** Closes the side conditions of the [strtok_r] lemmas. *)
Ltac shape := unfold crlf, full_addr; rewrite <- ?app_assoc; cbn [app]; rewrite <- ?app_assoc; cbn [app]; reflexivity.
Ltac lens := rewrite ?length_app; cbn [length]; rewrite ?length_app; cbn [length]; lia.
Ltac delims :=
  repeat first
    [ assumption | done
    | match goal with
      | H : off_delims ?ds ?s |- off_delims _ ?s => apply (off_delims_sub ds); [repeat constructor|exact H]
      | H : off_delims ?ds ?s |- is_str ?s => apply (off_delims_str ds); [reflexivity|exact H]
      | |- off_delims _ http_slash => repeat constructor
      | |- off_delims _ [] => apply Forall_nil_2
      | |- is_str [] => apply Forall_nil_2
      | |- in_delims _ _ => repeat constructor
      end
    | apply off_delims_app | apply off_delims_cons; [reflexivity|]
    | apply is_str_app | apply is_str_cons; [lia|] ].

(** The first half of [parse_line]: method, address, version and protocol. *)
Lemma parse_line_ok h pr tmp tb b einval r : wf_request r ->
  let m := length (r_method r) in
  let pr1 := set_host (Some (b, m + 1 + length (r_protocol r) + 3)%nat)
    (set_protocol (Some (b, m + 1)%nat)
       (set_version (Some (b, m + 1 + length (full_addr r) + 1)%nat) (set_method (Some (b, O)) pr))) in
  parse_line h pr tmp tb b (line_bytes r ++ [0]) einval
  = parse_host h pr1 tmp tb b
      (r_method r ++ [0] ++ r_protocol r ++ [0; 47; 47] ++ host_text r ++ [0] ++ tail (r_path r) ++ [0] ++
       r_version r ++ [0])
      (m + 1 + length (r_protocol r) + 3) (m + 1 + length (r_protocol r) + 3 + length (host_text r) + 1) einval.
Proof.
  intros ((Hm0 & Hm) & (Hp0 & Hp) & (Hh0 & Hh) & Hport & (q & Hpath & Hq & Hq0) & (v & Hver & Hv) & _) m pr1.
  assert (off_delims [0; 13; 32; 47] (host_text r)) as Hhost.
  { unfold host_text, port_text. destruct (r_port r) as [p|] in Hport |- *; [destruct Hport as [_ Hport]|]; delims. }
  assert (host_text r <> []) as Hhost0 by (by intros [? _]%app_nil).
  assert (off_delims [0; 13] (r_version r)) as Hvs by (rewrite Hver; delims).
  assert (off_delims [0; 13; 32] (full_addr r)) as Hfa by (unfold full_addr; rewrite Hpath; delims).
  assert (full_addr r <> []) as Hfa0 by (by intros [? _]%app_nil).
  unfold parse_line, line_bytes.
  rewrite (strtok_token _ _ [32] [] [] (r_method r) 32 (full_addr r ++ [32] ++ r_version r) []); [|shape|done|delims..].
  run_step. cbn [fmap option_fmap option_map length Nat.add app].
  rewrite (strtok_token _ _ [32] (r_method r ++ [0]) [] (full_addr r) 32 (r_version r) []); [|shape|lens|delims..].
  run_step. cbn [fmap option_fmap option_map length Nat.add app].
  rewrite (str_pos _ _ (r_method r ++ [0]) (full_addr r) (r_version r ++ [0])); [|shape|lens|delims]. run_step.
  rewrite (drop_pos _ _ (r_method r ++ [0] ++ full_addr r ++ [0]) (r_version r ++ [0])); [|shape|lens].
  rewrite Hver at 1. rewrite <- (app_assoc http_slash), starts_with_app. run_step. cbn [negb].
  rewrite (strtok_token _ _ [58; 47; 47] (r_method r ++ [0]) [] (r_protocol r) 58
    ([47; 47] ++ host_text r ++ r_path r) (r_version r ++ [0])); [|shape|lens|rewrite ?Hpath; delims..].
  run_step. cbn [fmap option_fmap option_map].
  rewrite (str_pos _ _ (r_method r ++ [0]) (r_protocol r) ([47; 47] ++ host_text r ++ r_path r ++ 0 :: r_version r ++ [0]));
    [|shape|lens|delims]. run_step.
  rewrite (str_pos _ _ (r_method r ++ [0] ++ r_protocol r ++ [0; 47; 47]) (host_text r ++ r_path r) (r_version r ++ [0]));
    [|shape|lens|rewrite Hpath; delims]. run_step.
  rewrite Hpath.
  rewrite (strtok_token _ _ [47] (r_method r ++ [0] ++ r_protocol r ++ [0]) [47; 47] (host_text r) 47 q (r_version r ++ [0]));
    [|shape|lens|delims..].
  run_step. cbn [fmap option_fmap option_map].
  rewrite (str_pos _ _ (r_method r ++ [0] ++ r_protocol r ++ [0; 47; 47]) (host_text r) (q ++ 0 :: r_version r ++ [0]));
    [|shape|lens|delims]. run_step.
  rewrite decide_False by (rewrite length_app; cbn; lia).
  unfold pr1, m. f_equal; [|shape|lens|lens].
  f_equal; [do 2 f_equal; lens|]. f_equal; [do 2 f_equal; lens|]. f_equal. do 2 f_equal. lens.
Qed.

(** The path after the host, as a block of its own. *)
Lemma path_ok h c save pre q post : c = pre ++ q ++ 0 :: post -> save = length pre ->
  off_delims [0; 13; 32] q -> head q <> Some 47 ->
  exists o save', strtok_r c [32] save = Ok (c, o, save') /\
    parse_path h c o = Ok (Some (new_str h (47 :: q))).
Proof.
  intros Hc Hs Hq Hq0. destruct q as [|x q].
  - exists None, (length pre + length (@nil Z))%nat. split; [|done].
    apply (strtok_none c save [32] pre [] post); [exact Hc|done|delims|delims].
  - exists (Some (length pre + length (@nil Z))%nat), (length pre + length (@nil Z) + length (x :: q))%nat. split.
    + apply (strtok_last c save [32] pre [] (x :: q) post); [exact Hc|done|delims..].
    + unfold parse_path. rewrite (drop_pos c _ pre ((x :: q) ++ 0 :: post)) by (done || lens).
      cbn [app starts_with]. rewrite decide_False by naive_solver. run_step.
      rewrite (app_comm_cons q), str_of_ok by delims. done.
Qed.

(** [strtol]'s result is not taken for an error. *)
Definition port_ok (einval : bool) (p : option (list Z)) : Prop :=
  match p with Some p => einval = false \/ to_int (strtol p) <> 0 | None => True end.

(** Cutting the host at the port. *)
Lemma port_cut_ok c pre ho po post hoff : c = pre ++ (ho ++ port_text po) ++ 0 :: post -> hoff = length pre ->
  ho <> [] -> off_delims [0; 13; 32; 58; 47] ho ->
  match po with Some p => p <> [] /\ off_delims [0; 13; 32; 47] p | None => True end ->
  exists c' save save',
    c' = pre ++ ho ++ match po with Some p => 0 :: p | None => [] end ++ 0 :: post /\
    strtok_r c [58] hoff = Ok (c', Some hoff, save) /\
    strtok_r c' [47] save
    = Ok (c', match po with Some _ => Some (hoff + length ho + 1)%nat | None => None end, save').
Proof.
  intros Hc -> Hh0 Hh Hpo. destruct po as [p|].
  - destruct Hpo as [Hp0 Hp]. eexists _, _, _. split; [reflexivity|]. split.
    + rewrite (strtok_token c _ [58] pre [] ho 58 p post); [|rewrite Hc; shape|done|delims..].
      cbn [length app]. rewrite Nat.add_0_r. done.
    + rewrite (strtok_last _ _ [47] (pre ++ ho ++ [0]) [] p post); [|shape|lens|delims..].
      do 3 f_equal. f_equal. lens.
  - eexists _, _, _. split; [reflexivity|]. split.
    + rewrite (strtok_last c _ [58] pre [] ho post); [|rewrite Hc; cbn [port_text]; shape|done|delims..].
      cbn [length app]. rewrite Nat.add_0_r. do 3 f_equal. rewrite Hc. cbn [port_text]. shape.
    + rewrite (strtok_none _ _ [47] (pre ++ ho) [] post); [done|shape|lens|delims|delims].
Qed.

(** The request line of a well-formed request is parsed into [placed]. *)
Lemma line_parsed h h2 pr tmp tb b einval r : wf_request r -> port_ok einval (r_port r) ->
  hstore (halloc h (r_path r ++ [0])).2 (Some b) (cut_line r) = Ok h2 ->
  parse_line h pr tmp tb b (line_bytes r ++ [0]) einval
  = parse_headers h2 (placed b (brk h) r pr) tmp tb.
Proof.
  intros Hwf Hport Hst. rewrite parse_line_ok by done. set (pr1 := set_host _ _).
  destruct Hwf as ((Hm0 & Hm) & (Hp0 & Hp) & (Hh0 & Hh) & Hpo & (q & Hpath & Hq & Hq0) & (v & Hver & Hv) & _).
  assert (off_delims [0; 13] (r_version r)) as Hvs by (rewrite Hver; delims).
  unfold parse_host. rewrite Hpath in *. cbn [tail].
  set (c := r_method r ++ _). set (hoff := (length (r_method r) + 1 + length (r_protocol r) + 3)%nat).
  set (pre := r_method r ++ [0] ++ r_protocol r ++ [0; 47; 47]).
  destruct (path_ok h c (hoff + length (host_text r) + 1) (pre ++ host_text r ++ [0]) q (r_version r ++ [0]))
    as (o & save & -> & Hnew); [unfold c, pre; shape|unfold hoff, pre; lens|done|done|].
  run_step. rewrite Hnew. run_step.
  destruct (port_cut_ok c pre (r_host r) (r_port r) (q ++ [0] ++ r_version r ++ [0]) hoff)
    as (c' & save1 & save2 & Hc' & -> & Ht); [unfold c, pre, host_text; shape|unfold hoff, pre; lens|done..|].
  run_step. rewrite Ht. run_step. unfold new_str. cbn [halloc].
  assert (c' = cut_line r) as Hcut.
  { rewrite Hc'. unfold cut_line, pre. rewrite Hpath. cbn [tail]. shape. }
  rewrite <- Hcut in Hst. cbn [halloc snd] in Hst. rewrite Hst. run_step.
  cbn [fmap option_fmap option_map].
  assert (placed b (brk h) r pr = set_port ((fun o => (b, o)) <$> match r_port r with
      | Some _ => Some (hoff + length (r_host r) + 1)%nat | None => None end)
    (set_host (Some (b, hoff)) (set_path (Some (brk h, O)) (set_path ((fun o => (b, o)) <$> o) pr1)))) as ->
    by (unfold placed; by destruct (r_port r)).
  destruct (r_port r) as [p|]; [|reflexivity].
  destruct Hpo as [Hpo0 Hpo]. rewrite (str_pos c' _ (pre ++ r_host r ++ [0]) p (q ++ [0] ++ r_version r ++ [0]));
    [|rewrite Hc'; shape|unfold hoff, pre; lens|delims].
  run_step.
  assert (bool_decide (to_int (strtol p) = 0) && einval = false) as ->; [|reflexivity].
  destruct Hport as [-> | Hne]; [apply andb_false_r|by rewrite bool_decide_false].
Qed.

(** ** Header lines *)

(** The value a header has after several lines: the last one wins and moves
    to the end. *)
Definition add_header (kvs : list (list Z * list Z)) (z : list Z * list Z) : list (list Z * list Z) :=
  without z.1 kvs ++ [z].

(** The table's array is never more than twice as long as needed. *)
Definition table_room (pr : ParsedRequest) (n : Z) : Prop := headersused pr <= n /\ headerslen pr <= 8 + 2 * n.

(** A copy of the key and of the value is made, stored and freed. *)
Lemma set_copies_ok h pr kvs rest ks ws n : table_rep h pr kvs rest -> is_str ks -> is_str ws ->
  table_room pr n -> n < 2 ^ 32 ->
  let '(k, h1) := new_str h ks in
  let '(v, h2) := new_str h1 ws in
  exists h3 pr' h4 h5, ParsedHeader_set h2 pr k v = Ok (0, h3, pr') /\
    free_str h3 k = Ok h4 /\ free_str h4 v = Ok h5 /\
    table_rep h5 pr' (add_header kvs (ks, ws)) rest /\ table_room pr' (n + 1) /\ same_line pr pr'.
Proof.
  intros Hrep Hks Hws [Hu Hl] Hn. unfold new_str.
  destruct (table_alloc _ _ _ _ (ks ++ [0]) Hrep) as [Hk Hr1].
  destruct (table_alloc _ _ _ _ (ws ++ [0]) Hr1) as [Hv Hr2]. cbn [halloc snd] in *.
  set (a := brk h) in *. set (b := Pos.succ a) in *.
  apply lookup_insert_None in Hv as [Hv Hab]. cbn [brk] in Hv, Hab, Hr2 |- *.
  assert (str_in (<[b := ws ++ [0]]> (<[a := ks ++ [0]]> rest)) (Some (a, O)) ks) as Hsk.
  { exists a, O, (ks ++ [0]). split_and!; [done| |by apply str_of_ok].
    rewrite lookup_insert_ne by done. apply lookup_insert_eq. }
  assert (str_in (<[b := ws ++ [0]]> (<[a := ks ++ [0]]> rest)) (Some (b, O)) ws) as Hsv.
  { exists b, O, (ws ++ [0]). split_and!; [done|apply lookup_insert_eq|by apply str_of_ok]. }
  destruct (set_ok _ _ _ _ _ _ _ _ Hr2 Hsk Hsv ltac:(lia)) as (h3 & pr' & Hset & Hr3 & Hu3 & Hl3 & Hsl).
  destruct (table_free _ _ _ _ a (ks ++ [0]) Hr3) as (h4 & Hf4 & Hr4).
  { rewrite lookup_insert_ne by done. apply lookup_insert_eq. }
  destruct (table_free _ _ _ _ b (ws ++ [0]) Hr4) as (h5 & Hf5 & Hr5).
  { rewrite lookup_delete_ne by done. apply lookup_insert_eq. }
  exists h3, pr', h4, h5. split_and!; try done.
  - rewrite delete_insert_ne, !delete_insert_eq in Hr5 by congruence.
    by rewrite !delete_id in Hr5 by (rewrite ?lookup_delete_ne by congruence; done).
  - unfold table_room. lia.
Qed.

(** One header: the key ends at the first colon, the character after it is
    skipped, and the value ends with the line it is in. *)
Lemma header_parse_ok h pr kvs rest tmp pre k x v w n : table_rep h pr kvs rest -> table_room pr n -> n < 2 ^ 32 ->
  tmp = pre ++ k ++ [58; x] ++ v ++ crlf ++ w ++ [0] -> off_delims [0; 58] k -> x <> 0 ->
  off_delims [0; 13] v -> is_str w ->
  exists h' pr', ParsedHeader_parse h pr tmp (length pre) = Ok (0, h', pr') /\
    table_rep h' pr' (add_header kvs (k, v)) rest /\ table_room pr' (n + 1) /\ same_line pr pr'.
Proof.
  intros Hrep Hroom Hn Htmp Hk Hx Hv Hw. unfold crlf in Htmp.
  unfold ParsedHeader_parse.
  rewrite (str_pos tmp _ pre (k ++ [58; x] ++ v ++ [13; 10] ++ w) []); [|rewrite Htmp; shape|done|delims].
  run_step. cbn [app]. rewrite index_app by (apply (off_delims_notin [0; 58]); [done|exact Hk]).
  rewrite take_app_length. pose proof (set_copies_ok h pr kvs rest k v n Hrep) as Hset.
  destruct (new_str h k) as [pk h1]. unfold find_from.
  rewrite (str_pos tmp _ (pre ++ k ++ [58; x]) (v ++ crlf ++ w) []);
    [|rewrite Htmp; shape|lens|unfold crlf; delims].
  run_step. rewrite strstr_crlf by (apply (off_delims_notin [0; 13]); [done|exact Hv]).
  cbn [fmap option_fmap option_map].
  rewrite slice_ok by (rewrite Htmp; lens). run_step.
  rewrite (drop_pos tmp _ (pre ++ k ++ [58; x]) (v ++ crlf ++ w ++ [0])) by (rewrite ?Htmp; shape || lens).
  replace (length pre + length k + 2 + length v - (length pre + length k + 2))%nat with (length v) by lia.
  rewrite take_app_length. destruct (new_str h1 v) as [pv h2].
  destruct Hset as (h3 & pr' & h4 & h5 & Hset & Hf4 & Hf5 & Hrep' & Hroom' & Hsl); [delims..|done|done|].
  rewrite Hset. run_step. rewrite Hf4. run_step. rewrite Hf5. run_step. by exists h5, pr'.
Qed.

Lemma arr_pos {A} (tmp : list A) i pre x post : tmp = pre ++ x :: post -> i = zlen pre -> arr_get tmp i = Ok x.
Proof. intros -> ->. apply arr_get_ok; [lia|]. rewrite Nat2Z.id. by apply list_lookup_middle. Qed.

Definition wf_headers (hs : list (list Z * list Z)) : Prop :=
  Forall (fun z => off_delims [0; 13; 58] z.1 /\ off_delims [0; 13] z.2) hs.

Lemma headers_str hs : wf_headers hs -> is_str (concat (header_text <$> hs)).
Proof.
  induction 1 as [|[k v] hs [Hk Hv] _ IH]; [by apply Forall_nil|]. cbn [fst snd] in *.
  cbn [fmap list_fmap concat]. unfold header_text, colon_space, crlf. cbn [fst snd]. delims.
Qed.

Lemma headers_loop_ok hs : wf_headers hs -> forall fuel h pr kvs rest tmp pre w n,
  table_rep h pr kvs rest -> table_room pr n -> n + zlen hs < 2 ^ 32 ->
  tmp = pre ++ headers_text hs ++ w ++ [0] -> is_str w -> (length hs <= fuel)%nat ->
  exists h' pr', headers_loop fuel h pr tmp (length pre) = Ok (0, h', pr') /\
    table_rep h' pr' (foldl add_header kvs hs) rest /\ table_room pr' (n + zlen hs) /\ same_line pr pr'.
Proof.
  induction 1 as [|[k v] hs [Hk Hv] Hhs IH]; intros fuel h pr kvs rest tmp pre w n Hrep Hroom Hn Htmp Hw Hfuel;
    unfold headers_text, crlf in Htmp; cbn [fmap list_fmap concat app fst snd] in *.
  - exists h, pr. split; [|cbn [length]; by rewrite Z.add_0_r]. destruct fuel; cbn [headers_loop];
      rewrite (arr_pos tmp (zlen pre) pre 13 (10 :: w ++ [0])) by done; run_step;
      rewrite (arr_pos tmp (zlen pre + 1) (pre ++ [13]) 10 (w ++ [0])) by (rewrite ?Htmp; shape || lens); done.
  - destruct fuel as [|fuel]; [cbn in Hfuel; lia|].
    set (more := concat (header_text <$> hs) ++ crlf ++ w).
    assert (tmp = pre ++ header_text (k, v) ++ more ++ [0]) as Ht
      by (rewrite Htmp; unfold more; rewrite <- !app_assoc; shape).
    assert (is_str more) as Hmore by (unfold more, crlf; pose proof (headers_str hs Hhs); delims).
    destruct (header_parse_ok h pr kvs rest tmp pre k 32 v more n Hrep Hroom) as (h1 & pr1 & Hp & Hrep1 & Hroom1 & Hs1);
      [cbn in Hn; lia|rewrite Ht; unfold header_text, colon_space; cbn [fst snd]; shape|delims|lia|done|done|].
    assert (exists x t, header_text (k, v) = x :: t /\ x <> 0 /\ x <> 13) as (x & t & Hx & Hx0 & Hx13).
    { destruct k as [|x k]; [by exists 58, (32 :: v ++ crlf)|].
      exists x, (k ++ colon_space ++ v ++ crlf). split_and!; [done|..]; intros ->;
        discriminate (off_in _ _ _ Hk (list_elem_of_here _ _)). }
    cbn [headers_loop]. rewrite (arr_pos tmp (zlen pre) pre x (t ++ more ++ [0])) by (rewrite ?Ht, ?Hx; done). run_step.
    rewrite decide_False, decide_False by done. run_step. rewrite Hp. run_step. rewrite decide_False by lia.
    unfold find_from. unfold header_text, colon_space, crlf in Ht. cbn [fst snd] in Ht.
    rewrite (str_pos tmp _ pre ((k ++ [58; 32] ++ v) ++ crlf ++ more) []);
      [|rewrite Ht; shape|done|unfold crlf; delims]. run_step.
    rewrite strstr_crlf by (apply (off_delims_notin [0; 13]); [done|delims]).
    cbn [fmap option_fmap option_map].
    rewrite (str_pos tmp _ (pre ++ k ++ [58; 32] ++ v) (crlf ++ more) []);
      [|rewrite Ht; shape|lens|unfold crlf; delims]. run_step.
    rewrite decide_False by (unfold crlf; lens).
    destruct (IH fuel h1 pr1 (add_header kvs (k, v)) rest tmp (pre ++ header_text (k, v)) w (n + 1) Hrep1 Hroom1)
      as (h2 & pr2 & Hl & Hrep2 & Hroom2 & Hs2).
    + cbn in Hn. lia.
    + rewrite Htmp. unfold headers_text. rewrite <- !app_assoc. shape.
    + done.
    + cbn in Hfuel. lia.
    + exists h2, pr2. split; [|split; [exact Hrep2|split; [|exact (eq_trans Hs2 Hs1)]]].
      2:{ cbn [length]. by replace (n + Z.of_nat (S (length hs))) with (n + 1 + zlen hs) by lia. }
      rewrite <- Hl. f_equal. unfold header_text, colon_space, crlf. cbn [fst snd]. lens.
Qed.

(** ** Parsing what was printed *)

Lemma line_off r : wf_request r -> off_delims [0; 13] (line_bytes r).
Proof.
  intros ((_ & Hm) & (_ & Hp) & (_ & Hh) & Hpo & (q & Hpath & Hq & _) & (v & Hver & Hv) & _).
  assert (off_delims [0; 13] (host_text r)) as Hhost.
  { unfold host_text, port_text. destruct (r_port r) as [p|] in Hpo |- *; [destruct Hpo as [_ Hpo]|]; delims. }
  unfold line_bytes, full_addr. rewrite Hpath, Hver. delims.
Qed.

Lemma text_end r : exists a, request_text r = a ++ crlf ++ crlf.
Proof.
  unfold request_text, headers_text. rewrite request_line_bytes.
  destruct (r_headers r) as [|[k v] hs _] using rev_ind.
  - exists (line_bytes r). by rewrite <- !app_assoc.
  - exists (line_bytes r ++ crlf ++ concat (header_text <$> hs) ++ k ++ colon_space ++ v).
    rewrite fmap_app, concat_app. cbn [fmap list_fmap concat]. unfold header_text at 2. cbn [fst snd].
    by rewrite app_nil_r, <- !app_assoc.
Qed.

Lemma text_split r :
  request_text r = line_bytes r ++ crlf ++ headers_text (r_headers r).
Proof. unfold request_text. by rewrite request_line_bytes, <- app_assoc. Qed.

Lemma text_str r : wf_request r -> is_str (request_text r).
Proof.
  intros Hwf. pose proof (line_off r Hwf) as Hl.
  assert (is_str (concat (header_text <$> r_headers r))) as Hh by (by apply headers_str, Hwf).
  rewrite text_split. unfold headers_text, crlf. delims.
Qed.

Lemma same_line_fields p p' : same_line p p' ->
  method p' = method p /\ protocol p' = protocol p /\ host p' = host p /\ port p' = port p /\
  path p' = path p /\ version p' = version p /\ buf p' = buf p.
Proof. intros H. unfold same_line, set_table in H. by injection H. Qed.

(** The fields of [placed] point to the strings of the request. *)
Lemma placed_rep h pr' pr b pa r kvs rest : wf_request r -> same_line (placed b pa r pr) pr' ->
  buf pr = Some (b, O) -> table_rep h pr' kvs rest ->
  rest !! b = Some (cut_line r) -> rest !! pa = Some (r_path r ++ [0]) ->
  request_rep h pr' (Http (r_method r) (r_protocol r) (r_host r) (r_port r) (r_path r) (r_version r) kvs) rest.
Proof.
  intros ((_ & Hm) & (_ & Hp) & (_ & Hh) & Hpo & (q & Hpath & Hq & _) & (v & Hver & Hv) & _) Hs Hb Ht Hlb Hlp.
  assert (off_delims [0; 13] (r_version r)) as Hvs by (rewrite Hver; delims).
  destruct (same_line_fields _ _ Hs) as (Em & Ep & Eh & Epo & Epa & Ev & Eb).
  assert (forall off pre s post, cut_line r = pre ++ s ++ 0 :: post -> off = length pre -> is_str s ->
    str_in rest (Some (b, off)) s) as Hstr.
  { intros off pre s post Hc Ho Hstr. exists b, off, (cut_line r). split_and!; [done|done|].
    by apply (str_pos _ _ pre _ post). }
  unfold request_rep. cbn [r_method r_protocol r_host r_port r_path r_version r_headers].
  rewrite Em, Ep, Eh, Epo, Epa, Ev, Eb. cbn [placed method protocol host port path version buf].
  unfold cut_line in Hstr. rewrite Hpath in *. cbn [tail] in Hstr.
  split_and!.
  - done.
  - by rewrite Hb.
  - eapply (Hstr _ []); [shape|done|delims].
  - eapply (Hstr _ (r_method r ++ [0])); [shape|lens|delims].
  - clear Hpo Epo. destruct (r_port r) as [p|] in Hstr |- *;
      (eapply (Hstr _ (r_method r ++ [0] ++ r_protocol r ++ [0; 47; 47])); [shape|lens|delims]).
  - exists pa, O, ((47 :: q) ++ [0]). split_and!; [done|done|]. rewrite drop_0. apply str_of_ok. delims.
  - eapply (Hstr _ (r_method r ++ [0] ++ r_protocol r ++ [0; 47; 47] ++ r_host r ++
      match r_port r with Some p => 0 :: p | None => [] end ++ [0] ++ q ++ [0])); [shape| |delims].
    unfold full_addr, host_text, port_text. rewrite Hpath. destruct (r_port r); lens.
  - destruct (r_port r) as [p|] in Hpo, Hstr |- *; [|done]. destruct Hpo as [_ Hpo]. eexists. split; [reflexivity|].
    eapply (Hstr _ (r_method r ++ [0] ++ r_protocol r ++ [0; 47; 47] ++ r_host r ++ [0])); [shape|lens|delims].
Qed.

Lemma map_frame {A} (R : gmap positive A) t b p (vt vb vb' vp : A) :
  R !! t = None -> R !! b = None -> R !! p = None -> t <> b -> t <> p -> b <> p ->
  delete t (<[b := vb']> (<[p := vp]> (<[b := vb]> (<[t := vt]> R)))) = <[b := vb']> (<[p := vp]> R).
Proof.
  intros Ht Hb Hp Htb Htp Hbp. apply map_eq. intros i.
  destruct (decide (i = t)) as [->|]; [by rewrite lookup_delete_eq, !lookup_insert_ne by done|].
  rewrite lookup_delete_ne by done. destruct (decide (i = b)) as [->|]; [by rewrite !lookup_insert_eq|].
  rewrite !(lookup_insert_ne _ b) by done. destruct (decide (i = p)) as [->|]; [by rewrite !lookup_insert_eq|].
  by rewrite !lookup_insert_ne by done.
Qed.

Lemma count_le hs : (length hs <= length (concat (header_text <$> hs)))%nat.
Proof.
  induction hs as [|z hs IH]; [done|]. rewrite fmap_cons. cbn [concat length].
  rewrite length_app. unfold header_text at 1, colon_space. rewrite !length_app. cbn [length]. lia.
Qed.

(** Parsing the text of a request, and what the caller counts to it, into a new
    object. *)
Lemma parse_text_ok h r junk extra einval : heap_wf h -> wf_request r -> port_ok einval (r_port r) -> is_str junk ->
  zlen (request_text r ++ junk) <= MAX_REQ_LEN ->
  exists h' pr' b pa,
    ParsedRequest_parse h ParsedRequest_create ((request_text r ++ junk) ++ extra) (zlen (request_text r ++ junk)) einval
    = Ok (0, h', pr') /\
    cells h !! b = None /\ cells h !! pa = None /\ b <> pa /\
    buf pr' = Some (b, O) /\ path pr' = Some (pa, O) /\ table_room pr' (zlen (r_headers r)) /\
    request_rep h' pr' (Http (r_method r) (r_protocol r) (r_host r) (r_port r) (r_path r) (r_version r)
      (foldl add_header [] (r_headers r)))
      (<[b := cut_line r]> (<[pa := r_path r ++ [0]]> (cells h))).
Proof.
  intros Hwfh Hwf Hport Hjunk Hlen. unfold ParsedRequest_parse. cbn [buf ParsedRequest_create ParsedHeader_create set_table].
  set (tmp := (request_text r ++ junk) ++ [0]). pose proof (text_split r) as Hsplit.
  assert (is_str (request_text r ++ junk)) as Hstr by (apply is_str_app; [by apply text_str|done]).
  assert (4 <= zlen (request_text r ++ junk)) as Hmin
    by (destruct (text_end r) as [a ->]; rewrite !length_app; cbn; lia).
  rewrite decide_False by (unfold MIN_REQ_LEN; lia).
  rewrite slice_ok by (rewrite Nat2Z.id, (length_app (request_text r ++ junk)); lia). rewrite Nat2Z.id, drop_0, take_app_length. run_step.
  fold tmp. destruct (table_alloc _ _ _ _ tmp (create_rep h Hwfh)) as [Ht Hr1]. cbn [halloc snd] in Hr1 |- *.
  set (tb := brk h) in *.
  assert (forall s, find_from tmp 0 s = Ok (strstr (request_text r ++ junk) s)) as Hff.
  { intros s. unfold tmp. by rewrite find_from_start, c_str_id. }
  destruct (text_end r) as [a Ha]. destruct (strstr_some a (crlf ++ crlf) junk) as [j Hj].
  rewrite app_assoc, <- Ha in Hj. rewrite (Hff (crlf ++ crlf)), Hj. run_step.
  assert (find_from tmp 0 crlf = Ok (Some (length (line_bytes r)))) as Hfind.
  { rewrite Hff, Hsplit, <- !app_assoc. by rewrite strstr_crlf by (apply (off_delims_notin [0; 13]); [done|by apply line_off]). }
  rewrite Hfind. run_step.
  assert (take (length (line_bytes r)) tmp = line_bytes r) as ->
    by (unfold tmp; by rewrite Hsplit, <- !app_assoc, take_app_length).
  destruct (table_alloc _ _ _ _ (line_bytes r ++ [0]) Hr1) as [Hb Hr2]. cbn [halloc snd brk cells] in *.
  set (b := Pos.succ tb) in *. apply lookup_insert_None in Hb as [Hb Htb].
  destruct (table_alloc _ _ _ _ (r_path r ++ [0]) Hr2) as [Hp Hr3]. cbn [halloc snd brk cells] in *.
  set (pa := Pos.succ b) in *. apply lookup_insert_None in Hp as [Hp Hbp].
  apply lookup_insert_None in Hp as [Hp Htp].
  destruct (table_store _ _ _ _ b (line_bytes r ++ [0]) (cut_line r) Hr3) as (h2 & Hst & Hr4).
  { rewrite lookup_insert_ne by congruence. apply lookup_insert_eq. }
  rewrite (line_parsed _ h2) by done. unfold parse_headers. rewrite Hfind. run_step.
  cbn [brk]. fold pa. set (pr0 := set_buf _ _ _). set (pr1 := placed b pa r pr0).
  assert (table_rep h2 pr1 [] (<[b := cut_line r]> (<[pa := r_path r ++ [0]]>
    (<[b := line_bytes r ++ [0]]> (<[tb := tmp]> (cells h)))))) as Hr5
    by (by apply (table_line _ ParsedRequest_create)).
  assert (zlen (r_headers r) <= zlen (request_text r)) as Hnum.
  { rewrite Hsplit. unfold headers_text. rewrite !length_app. pose proof (count_le (r_headers r)). lia. }
  assert (length (line_bytes r ++ crlf) = (length (line_bytes r) + 2)%nat) as <- by (unfold crlf; lens).
  destruct (headers_loop_ok (r_headers r) ltac:(apply Hwf) (length tmp) h2 pr1 [] _ tmp (line_bytes r ++ crlf) junk 0
    Hr5 ltac:(by split)) as (h3 & pr' & Hloop & Hr6 & Hroom & Hsame).
  - unfold MAX_REQ_LEN in Hlen. rewrite length_app in Hlen. lia.
  - unfold tmp. rewrite Hsplit. by rewrite <- !app_assoc.
  - done.
  - unfold tmp. rewrite !length_app. lia.
  - rewrite Hloop. run_step.
    destruct (table_free _ _ _ _ tb tmp Hr6) as (h4 & Hf & Hr7).
    { rewrite !lookup_insert_ne by congruence. apply lookup_insert_eq. }
    rewrite Hf. run_step. rewrite map_frame in Hr7 by congruence.
    destruct (same_line_fields _ _ Hsame) as (_ & _ & _ & _ & Epa & _ & Eb).
    exists h4, pr', b, pa. do 6 (split; [done || congruence|]). split; [exact Hroom|].
    apply (placed_rep _ _ pr0 b pa); [done|exact Hsame|done|exact Hr7|apply lookup_insert_eq|].
    rewrite lookup_insert_ne by congruence. apply lookup_insert_eq.
Qed.

Lemma destroy_request h pr kvs b pa vb vp R : table_rep h pr kvs (<[b := vb]> (<[pa := vp]> R)) ->
  buf pr = Some (b, O) -> path pr = Some (pa, O) -> R !! b = None -> R !! pa = None -> b <> pa ->
  exists h', ParsedRequest_destroy h pr = Ok h' /\ cells h' = R.
Proof.
  intros Hrep Hb Hp Hrb Hrp Hne. unfold ParsedRequest_destroy. rewrite Hb, Hp. cbn [free_str].
  destruct (table_free _ _ _ _ b vb Hrep) as (h1 & -> & Hr1); [apply lookup_insert_eq|]. run_step.
  rewrite delete_insert_id in Hr1 by (by rewrite lookup_insert_ne).
  destruct (table_free _ _ _ _ pa vp Hr1) as (h2 & -> & Hr2); [apply lookup_insert_eq|]. run_step.
  rewrite delete_insert_id in Hr2 by done. destruct Hr2 as (vs & Hsl & _).
  pose proof Hsl as (_ & _ & _ & Hlt & _). rewrite decide_True by lia.
  destruct (destroy_ok _ _ _ _ Hsl) as (h3 & -> & Hc). run_step. by exists h3.
Qed.

Lemma add_headers_new hs kvs : NoDup (kvs ++ hs).*1 -> foldl add_header kvs hs = kvs ++ hs.
Proof.
  revert kvs. induction hs as [|z hs IH]; intros kvs Hnd; [by rewrite app_nil_r|]. cbn [foldl].
  unfold add_header at 2. rewrite without_absent.
  - rewrite IH; [by rewrite <- app_assoc|]. by rewrite <- app_assoc.
  - rewrite fmap_app in Hnd. apply NoDup_app in Hnd as (_ & Hd & _). intros Hin.
    apply (Hd _ Hin). by left.
Qed.

(** C14: parsing inverts printing.  A new object given the text of a
    well-formed request, with anything behind it, parses it and returns 0; the
    object then stands for the same request, in which a header given several
    times has its last value.  If the headers have distinct keys,
    [ParsedRequest_unparse] gives the text back; and [ParsedRequest_destroy]
    releases everything the parser allocated. *)
Theorem parse_unparse h r extra einval : heap_wf h -> wf_request r -> port_ok einval (r_port r) ->
  zlen (request_text r) <= 65535 ->
  exists h' pr',
    ParsedRequest_parse h ParsedRequest_create (request_text r ++ extra) (zlen (request_text r)) einval
    = Ok (0, h', pr') /\
    (exists rest, request_rep h' pr'
       (Http (r_method r) (r_protocol r) (r_host r) (r_port r) (r_path r) (r_version r)
          (foldl add_header [] (r_headers r))) rest) /\
    (NoDup (r_headers r).*1 -> forall out, zlen out = zlen (request_text r) ->
       ParsedRequest_unparse h' pr' out (zlen (request_text r)) = Ok (0, request_text r)) /\
    exists h'', ParsedRequest_destroy h' pr' = Ok h'' /\ cells h'' = cells h.
Proof.
  intros Hwfh Hwf Hport Hlen.
  destruct (parse_text_ok h r [] extra einval Hwfh Hwf Hport (Forall_nil_2 _))
    as (h' & pr' & b & pa & Hp & Hb & Hpa & Hne & Eb & Epa & _ & Hrep); [by rewrite app_nil_r|].
  rewrite app_nil_r in Hp.
  exists h', pr'. split; [exact Hp|]. split; [by eexists|]. split.
  - intros Hnd out Hout. rewrite (add_headers_new (r_headers r) []) in Hrep by done.
    assert (Http (r_method r) (r_protocol r) (r_host r) (r_port r) (r_path r) (r_version r) ([] ++ r_headers r) = r)
      as Hr by (by destruct r).
    rewrite Hr in Hrep. rewrite (unparse_ok _ _ _ _ _ _ Hrep) by lia.
    assert (zlen (request_line r) <= zlen (request_text r)) as Hle
      by (unfold request_text; rewrite length_app; lia).
    rewrite decide_False by lia. rewrite decide_False by lia. unfold filled.
    by rewrite drop_ge, app_nil_r by lia.
  - destruct Hrep as [Hrep _]. by apply (destroy_request _ _ _ _ _ _ _ _ Hrep).
Qed.

(** ** Every input *)

(** A run that ends, with a result in [P] or in an error other than running
    out of fuel. *)
Definition ends {A} (P : A -> Prop) (m : run A) : Prop :=
  match m with Ok a => P a | Crash f => f <> Fuel end.

Lemma ends_bind {A B} (Q : A -> Prop) (P : B -> Prop) (m : run A) (k : A -> run B) :
  ends Q m -> (forall a, Q a -> ends P (k a)) -> ends P (m ≫= k).
Proof. destruct m; cbn; auto. Qed.

Lemma ends_any {A} (P : A -> Prop) m : ends P m -> ends (fun _ => True) m.
Proof. by destruct m. Qed.

Abbreviation halts := (ends (fun _ => True)).

Lemma str_of_ends a : halts (str_of a).
Proof.
  induction a as [|b a IH]; cbn; [done|]. case_decide; [done|].
  by apply (ends_bind (fun _ => True)).
Qed.
Lemma arr_get_ends {A} (a : list A) i : halts (arr_get a i).
Proof. unfold arr_get. case_decide; [|done]. by destruct (a !! _). Qed.
Lemma arr_set_ends {A} (a : list A) i x : halts (arr_set a i x).
Proof. unfold arr_set. by case_decide. Qed.
Lemma need_ends {A} f (o : option A) : f <> Fuel -> halts (need f o).
Proof. by destruct o. Qed.
Lemma slice_ends p off n : halts (slice p off n).
Proof. unfold slice. by case_decide. Qed.
Lemma hfree_ends {A} (h : heap A) p : halts (hfree h p).
Proof. destruct p as [a|]; cbn; [|done]. by destruct (cells h !! a). Qed.
Lemma hstore_ends {A} (h : heap A) p x : halts (hstore h p x).
Proof. destruct p as [a|]; cbn; [|done]. by destruct (cells h !! a). Qed.
Lemma free_str_ends h p : halts (free_str h p).
Proof. destruct p as [[a [|n]]|]; [apply hfree_ends|done|done]. Qed.
Lemma starts_with_ends a lit : halts (starts_with a lit).
Proof.
  revert a. induction lit as [|x lit IH]; intros a; [done|]. destruct a; cbn; [done|]. by case_decide.
Qed.

Lemma ok_ends {A} (a : A) : halts (Ok a).
Proof. exact I. Qed.

Create HintDb ends.
#[local] Hint Resolve ok_ends str_of_ends arr_get_ends arr_set_ends need_ends slice_ends hfree_ends hstore_ends
  free_str_ends starts_with_ends : ends.

(** Follows the binds of a program. *)
Ltac end_step :=
  cbv zeta; match goal with
  | |- ends _ (_ ≫= _) => apply (ends_bind (fun _ => True)); [|let a := fresh in intros a _]
  | |- ends _ (let '(_, _) := ?p in _) => destruct p
  | |- ends _ (if ?d then _ else _) => destruct d
  | |- ends _ (match ?o with _ => _ end) => destruct o
  end.
Ltac end_all := repeat end_step; try (done || by auto with ends).

Lemma str_at_ends h p : halts (str_at h p).
Proof. unfold str_at, hload. end_all. Qed.
#[local] Hint Resolve str_at_ends : ends.
Lemma find_from_ends tmp off n : halts (find_from tmp off n).
Proof. unfold find_from. end_all. Qed.
Lemma strtok_r_ends c d off : halts (strtok_r c d off).
Proof. unfold strtok_r. end_all. Qed.
#[local] Hint Resolve find_from_ends strtok_r_ends : ends.

Lemma get_from_ends fuel h pr k i : headersused pr <= i + Z.of_nat fuel -> halts (get_from fuel h pr k i).
Proof.
  revert i. induction fuel as [|fuel IH]; intros i Hi; cbn [get_from].
  - rewrite decide_False by lia. done.
  - case_decide; [|done]. unfold arr_read, key_is. end_all. apply IH. lia.
Qed.

Lemma remove_ends h pr k : halts (ParsedHeader_remove h pr k).
Proof.
  unfold ParsedHeader_remove, ParsedHeader_get, arr_read.
  end_step; [apply get_from_ends; lia|]. end_all.
Qed.
Lemma set_ends h pr k v : halts (ParsedHeader_set h pr k v).
Proof. unfold ParsedHeader_set. end_step; [apply remove_ends|]. unfold new_str. cbn [halloc]. end_all. Qed.
#[local] Hint Resolve set_ends : ends.

(** The result of the parsing functions. *)
Definition status {A B} (z : Z * A * B) : Prop := z.1.1 = 0 \/ z.1.1 = -1.
#[local] Hint Unfold status : ends.

Lemma header_parse_ends h pr tmp line : halts (ParsedHeader_parse h pr tmp line).
Proof. unfold ParsedHeader_parse, new_str. cbn [halloc]. end_all. Qed.
#[local] Hint Resolve header_parse_ends : ends.

Lemma find_from_ge tmp off n :
  ends (fun o => forall j, o = Some j -> (off <= j)%nat) (find_from tmp off n).
Proof.
  unfold find_from. end_step; [apply str_of_ends|]. intros j Hj. destruct (strstr _ n); [|done].
  cbn in Hj. injection Hj as <-. lia.
Qed.

Lemma headers_loop_ends fuel h pr tmp cur : (length tmp <= cur + fuel)%nat ->
  ends status (headers_loop fuel h pr tmp cur).
Proof.
  revert h pr cur. induction fuel as [|fuel IH]; intros h pr cur Hc; cbn [headers_loop].
  - assert (arr_get tmp (Z.of_nat cur) = Crash OutOfRange) as ->; [|done].
    unfold arr_get. rewrite decide_True by lia. by rewrite Nat2Z.id, lookup_ge_None_2 by lia.
  - end_step; [auto with ends|]. end_step; [by left|]. end_step; [end_all|]. end_step; [by left|].
    end_step; [auto with ends|]. do 3 end_step; [by right|].
    eapply ends_bind; [apply find_from_ge|]. intros o Ho. end_step; [|by left].
    end_step; [auto with ends|]. end_step; [by left|]. apply IH. specialize (Ho _ eq_refl). lia.
Qed.

Lemma parse_fail_ends h pr tb : ends status (parse_fail h pr tb).
Proof. unfold parse_fail. repeat end_step; auto with ends. by right. Qed.
Lemma parse_fail_path_ends h pr tb : ends status (parse_fail_path h pr tb).
Proof. unfold parse_fail_path. repeat end_step; auto with ends. by right. Qed.
Lemma parse_path_ends h c o : halts (parse_path h c o).
Proof. unfold parse_path, new_str. cbn [halloc]. end_all. Qed.

Lemma parse_headers_ends h pr tmp tb : ends status (parse_headers h pr tmp tb).
Proof.
  unfold parse_headers. end_step; [auto with ends|]. end_step; [by apply need_ends|].
  eapply ends_bind; [apply headers_loop_ends; lia|]. intros [[r h1] pr1] Hr. by end_step; [auto with ends|].
Qed.

#[local] Hint Resolve parse_fail_ends parse_fail_path_ends parse_path_ends parse_headers_ends : ends.

Lemma parse_host_ends h pr tmp tb b c hoff save e : ends status (parse_host h pr tmp tb b c hoff save e).
Proof.
  unfold parse_host.
  repeat first [eapply ends_bind; [apply parse_fail_ends|intros [[r h1] pr1] Hr; exact Hr] | end_step];
    auto with ends.
Qed.
#[local] Hint Resolve parse_host_ends : ends.

Lemma parse_line_ends h pr tmp tb b c e : ends status (parse_line h pr tmp tb b c e).
Proof. unfold parse_line. repeat end_step; auto with ends. Qed.
#[local] Hint Resolve parse_line_ends : ends.

(** C36: [ParsedRequest_parse] ends on every input, on any object: it returns 0
    or -1, or runs into one of the undefined behaviours below, but its loop
    over the header lines never runs for ever: the length of the request is
    enough fuel. *)
Theorem parse_ends h pr bytes len einval :
  match ParsedRequest_parse h pr bytes len einval with
  | Ok (ret, _, _) => ret = 0 \/ ret = -1
  | Crash f => f <> Fuel
  end.
Proof.
  assert (ends status (ParsedRequest_parse h pr bytes len einval)) as He.
  { unfold ParsedRequest_parse. destruct (buf pr); [by right|]. case_decide; [by right|].
    cbn [halloc]. repeat end_step; auto with ends; first [by right | by apply need_ends]. }
  destruct (ParsedRequest_parse _ _ _ _ _) as [[[r h1] pr1]|f]; exact He.
Qed.

(** ** Inputs that are not well-formed requests *)

(** One call of [ParsedHeader_parse] on the position [line] of the text.
    A line "key: value" is stored, and without any colon in the rest of the
    text the result is -1.  But the search for the colon does not stop at the
    end of the line: a line without one becomes, with its line break, a
    part of the next key; and the character after the colon is skipped
    without looking at it: of "key:" at the end of a line it is the carriage
    return, and the value becomes the line feed followed by the next line. *)
Theorem header_line h pr kvs rest n tmp pre w :
  table_rep h pr kvs rest -> table_room pr n -> n < 2 ^ 32 -> is_str w ->
  (forall k v, tmp = pre ++ k ++ bytes_of ": " ++ v ++ crlf ++ w ++ [0] ->
    off_delims [0; 13; 58] k -> off_delims [0; 13] v ->
    exists h' pr', ParsedHeader_parse h pr tmp (length pre) = Ok (0, h', pr') /\
      table_rep h' pr' (add_header kvs (k, v)) rest) /\
  (tmp = pre ++ w ++ [0] -> 58 ∉ w -> ParsedHeader_parse h pr tmp (length pre) = Ok (-1, h, pr)) /\
  (forall l k v, tmp = pre ++ l ++ crlf ++ k ++ bytes_of ": " ++ v ++ crlf ++ w ++ [0] ->
    off_delims [0; 13; 58] l -> off_delims [0; 13; 58] k -> off_delims [0; 13] v ->
    exists h' pr', ParsedHeader_parse h pr tmp (length pre) = Ok (0, h', pr') /\
      table_rep h' pr' (add_header kvs (l ++ crlf ++ k, v)) rest) /\
  (forall k l, tmp = pre ++ k ++ bytes_of ":" ++ crlf ++ l ++ crlf ++ w ++ [0] ->
    off_delims [0; 13; 58] k -> off_delims [0; 13] l ->
    exists h' pr', ParsedHeader_parse h pr tmp (length pre) = Ok (0, h', pr') /\
      table_rep h' pr' (add_header kvs (k, 10 :: l)) rest).
Proof.
  intros Hrep Hroom Hn Hw. split_and!.
  - intros k v Htmp Hk Hv.
    destruct (header_parse_ok h pr kvs rest tmp pre k 32 v w n Hrep Hroom Hn) as (h' & pr' & Hp & Ht & _);
      [exact Htmp|delims|lia|done|done|]. by exists h', pr'.
  - intros Htmp Hc. unfold ParsedHeader_parse. rewrite (str_pos tmp _ pre w []) by done. run_step.
    by rewrite index_none.
  - intros l k v Htmp Hl Hk Hv.
    destruct (header_parse_ok h pr kvs rest tmp pre (l ++ crlf ++ k) 32 v w n Hrep Hroom Hn)
      as (h' & pr' & Hp & Ht & _); [rewrite Htmp; cbn [bytes_of]; shape|unfold crlf; delims|lia|done|done|].
    by exists h', pr'.
  - intros k l Htmp Hk Hl.
    destruct (header_parse_ok h pr kvs rest tmp pre k 13 (10 :: l) w n Hrep Hroom Hn)
      as (h' & pr' & Hp & Ht & _); [rewrite Htmp; cbn [bytes_of]; shape|delims|lia|delims|done|].
    by exists h', pr'.
Qed.

Lemma c_str_app s a : is_str s -> c_str (s ++ a) = s ++ c_str a.
Proof.
  induction 1 as [|b s Hb _ IH]; [done|]. cbn. rewrite decide_False by done. by rewrite IH.
Qed.

Lemma alloc_free {A} (h : heap A) x : heap_wf h ->
  exists h', hfree (halloc h x).2 (Some (brk h)) = Ok h' /\ cells h' = cells h /\ heap_wf h'.
Proof.
  intros Hwf. cbn. rewrite lookup_insert_eq. eexists. split; [reflexivity|]. cbn.
  rewrite delete_insert_id by (by apply heap_wf_fresh). split; [done|].
  intros p Hp. cbn in *. specialize (Hwf p Hp). lia.
Qed.

(** A text without an empty line. *)
Lemma parse_no_end h pr bytes len einval : heap_wf h -> buf pr = None -> 4 <= len <= 65535 -> len <= zlen bytes ->
  strstr (c_str (take (Z.to_nat len) bytes)) (crlf ++ crlf) = None ->
  exists h', ParsedRequest_parse h pr bytes len einval = Ok (-1, h', pr) /\ cells h' = cells h /\ heap_wf h'.
Proof.
  intros Hwf Hb Hl Hlb Hnone. unfold ParsedRequest_parse, MIN_REQ_LEN, MAX_REQ_LEN. rewrite Hb.
  rewrite decide_False by lia. rewrite slice_ok by lia. run_step.
  rewrite drop_0. set (body := take _ _) in *. cbn [halloc].
  rewrite (find_from_start body (crlf ++ crlf)), Hnone. run_step.
  destruct (alloc_free h (body ++ [0]) Hwf) as (h' & Hf & Hc & Hwf'). cbn [halloc snd] in Hf. rewrite Hf. run_step.
  by exists h'.
Qed.

(** Requests [ParsedRequest_parse] does not accept.  An object already
    used, a length outside 4..65535 and a text without an empty line give -1
    and leave the object and the memory as they were.  A request line of only
    two words, as in HTTP 0.9, is not rejected: the version is looked for one
    byte behind the end of the allocated line. *)
Theorem parse_errors h pr bytes len einval : heap_wf h ->
  (buf pr <> None -> ParsedRequest_parse h pr bytes len einval = Ok (-1, h, pr)) /\
  (len < 4 \/ 65535 < len -> ParsedRequest_parse h pr bytes len einval = Ok (-1, h, pr)) /\
  (buf pr = None -> 4 <= len <= 65535 -> len <= zlen bytes ->
   strstr (c_str (take (Z.to_nat len) bytes)) (crlf ++ crlf) = None ->
   exists h', ParsedRequest_parse h pr bytes len einval = Ok (-1, h', pr) /\ cells h' = cells h) /\
  (forall m a more, buf pr = None -> bytes = m ++ [32] ++ a ++ crlf ++ crlf ++ more ->
   len = zlen bytes -> len <= 65535 -> m <> [] -> a <> [] ->
   off_delims [0; 13; 32] m -> off_delims [0; 13; 32] a ->
   ParsedRequest_parse h pr bytes len einval = Crash OutOfRange).
Proof.
  intros Hwf. unfold ParsedRequest_parse, MIN_REQ_LEN, MAX_REQ_LEN. split_and!.
  - intros Hb. by destruct (buf pr).
  - intros Hl. destruct (buf pr); [done|]. by rewrite decide_True by lia.
  - intros Hb Hl Hlb Hnone. destruct (parse_no_end h pr bytes len einval Hwf Hb Hl Hlb Hnone) as (h' & Hp & Hc & _).
    by exists h'.
  - intros m a more -> Hbytes -> Hl Hm0 Ha0 Hm Ha.
    assert (4 <= zlen bytes) as Hmin by (rewrite Hbytes, !length_app; cbn; lia).
    rewrite decide_False by lia. rewrite slice_ok by lia. run_step.
    rewrite drop_0, take_ge by lia. cbn [halloc].
    assert (c_str bytes = (m ++ [32] ++ a) ++ crlf ++ crlf ++ c_str more) as Hc.
    { rewrite Hbytes. rewrite <- !app_assoc. unfold crlf. rewrite !(app_assoc _ _ more), c_str_app by delims.
      by rewrite <- !app_assoc. }
    destruct (strstr_some (m ++ [32] ++ a) (crlf ++ crlf) (c_str more)) as [j Hj].
    assert (strstr (c_str bytes) (crlf ++ crlf) = Some j) as Hj'
      by (rewrite Hc, <- Hj; f_equal; by rewrite <- !app_assoc).
    rewrite (find_from_start bytes (crlf ++ crlf)), Hj'. run_step.
    rewrite find_from_start, Hc.
    rewrite strstr_crlf by (apply (off_delims_notin [0; 13]); [done|delims]). run_step.
    assert (take (length (m ++ [32] ++ a)) (bytes ++ [0]) = m ++ [32] ++ a) as ->.
    { assert (bytes ++ [0] = (m ++ [32] ++ a) ++ crlf ++ crlf ++ more ++ [0]) as ->
        by (rewrite Hbytes; by rewrite <- !app_assoc). apply take_app_length. }
    unfold parse_line. rewrite (strtok_token _ _ [32] [] [] m 32 a []); [|shape|done|delims..]. run_step.
    rewrite (strtok_last _ _ [32] (m ++ [0]) [] a []); [|shape|lens|delims..]. run_step.
    rewrite (str_pos _ _ (m ++ [0]) a []); [|shape|lens|delims]. run_step.
    rewrite (drop_pos _ _ (m ++ [0] ++ a ++ [0]) []); [done|shape|lens].
Qed.

(** ** Examples *)

Lemma off_delims_b ds s : forallb (fun b => negb (in_set ds b)) s = true -> off_delims ds s.
Proof.
  induction s as [|b s IH]; cbn; intros H; [by apply Forall_nil|].
  apply andb_true_iff in H as [Hb Hs]. apply Forall_cons. split; [exact Hb|by apply IH].
Qed.

Definition sample_get : http_request :=
  Http (bytes_of "GET") (bytes_of "http") (bytes_of "a.org") (Some (bytes_of "80")) (bytes_of "/x")
    (bytes_of "HTTP/1.0") [(bytes_of "Host", bytes_of "a.org"); (bytes_of "Connection", bytes_of "close")].

Lemma sample_get_wf : wf_request sample_get.
Proof.
  unfold wf_request. cbn [r_method r_protocol r_host r_port r_path r_version r_headers sample_get].
  split_and!; try done; try (by apply off_delims_b).
  - exists (bytes_of "x"). split_and!; [done|by apply off_delims_b|done].
  - exists (bytes_of "1.0"). split; [done|by apply off_delims_b].
  - repeat (apply Forall_cons; split; [split; by apply off_delims_b|]). by apply Forall_nil.
Qed.

Lemma parse_unparse_witness : exists h' pr' h'',
  request_text sample_get = bytes_of "GET http://a.org:80/x HTTP/1.0" ++ crlf ++
    bytes_of "Host: a.org" ++ crlf ++ bytes_of "Connection: close" ++ crlf ++ crlf /\
  ParsedRequest_parse empty_heap ParsedRequest_create (request_text sample_get ++ []) 66 true = Ok (0, h', pr') /\
  ParsedRequest_unparse h' pr' (replicate 66 0) 66 = Ok (0, request_text sample_get) /\
  ParsedRequest_destroy h' pr' = Ok h'' /\ cells h'' = ∅.
Proof.
  destruct (parse_unparse empty_heap sample_get [] true heap_wf_empty sample_get_wf)
    as (h' & pr' & Hp & _ & Hu & h'' & Hd & Hc).
  - right. vm_compute. done.
  - vm_compute. done.
  - exists h', pr', h''. split; [reflexivity|]. split; [exact Hp|]. split; [|split; [exact Hd|exact Hc]].
    refine (Hu _ (replicate 66 0) _); [|reflexivity].
    apply (bool_decide_unpack (NoDup _)). vm_compute. exact I.
Defined.

Lemma header_line_witness : exists h' pr',
  ParsedHeader_parse empty_heap ParsedRequest_create (bytes_of "foo" ++ crlf ++ bytes_of "Bar: v" ++ crlf ++ [0]) 0
  = Ok (0, h', pr') /\
  table_rep h' pr' [(bytes_of "foo" ++ crlf ++ bytes_of "Bar", bytes_of "v")] ∅.
Proof.
  destruct (header_line empty_heap ParsedRequest_create [] ∅ 0
    (bytes_of "foo" ++ crlf ++ bytes_of "Bar: v" ++ crlf ++ [0]) [] [] (create_rep _ heap_wf_empty)
    (conj (Z.le_refl 0) (Z.le_refl 8)) ltac:(lia) (Forall_nil_2 _)) as (_ & _ & Hl & _).
  exact (Hl (bytes_of "foo") (bytes_of "Bar") (bytes_of "v") eq_refl ltac:(by apply off_delims_b)
    ltac:(by apply off_delims_b) ltac:(by apply off_delims_b)).
Defined.

Lemma parse_errors_witness :
  ParsedRequest_parse empty_heap ParsedRequest_create (bytes_of "GET /" ++ crlf ++ crlf) 9 false = Crash OutOfRange.
Proof.
  destruct (parse_errors empty_heap ParsedRequest_create (bytes_of "GET /" ++ crlf ++ crlf) 9 false heap_wf_empty)
    as (_ & _ & _ & Hm).
  exact (Hm (bytes_of "GET") (bytes_of "/") [] eq_refl eq_refl eq_refl ltac:(lia) ltac:(done) ltac:(done)
    ltac:(by apply off_delims_b) ltac:(by apply off_delims_b)).
Defined.
