(* ===== verification/Proxy.v ===== *)
(** * The HTTP proxy

    Models [client_helper] of [Assignment1/starter_code/proxy.c], which serves
    one client on top of the parser.  Proved: which bytes the server gets when
    a request arrives in one piece, and what becomes of requests that arrive in
    pieces, of other methods and of clients that go away.  [proxy] and [main],
    which listen and fork, are in [ProxyMain]. *)

From S2P Require Import Prelude Heap CString ProxyHeaders ProxyParse.

(** The socket calls; addresses are what [getaddrinfo] returns.  [None] is -1
    for [px_recv] and an error for [px_getaddrinfo]. *)
Class ProxyOS (W : Type) := {
  px_recv : Z -> Z -> W -> option (list Z) * W;
  px_send : Z -> list Z -> W -> Z * W;
  px_getaddrinfo : list Z -> list Z -> W -> option (list (list Z));
  px_socket : list Z -> W -> Z * W;
  px_connect : Z -> list Z -> W -> Z * W;
  px_close : Z -> W -> W
}.

(** How the function ends: by returning or by [exit(1)]. *)
Inductive helper_end : Set := Returns | Exits.

Definition msg_501 : list Z := bytes_of "HTTP/1.0 501 Server Error" ++ crlf ++ crlf.
Definition msg_400 : list Z := bytes_of "HTTP/1.0 400 Bad Request" ++ crlf ++ crlf.
Definition msg_500 : list Z := bytes_of "HTTP/1.0 500 server error" ++ crlf ++ crlf.

Section code.
Context {W : Type} `{ProxyOS W}.

(** [buff[total_bytes] = 0] and the search for the end of a line. *)
Definition end_seen (buff : list Z) (total_bytes : Z) : run (list Z * bool) :=
  buff ← arr_set buff total_bytes 0;
  s ← str_of buff;
  Ok (buff, bool_decide (is_Some (strstr s crlf))).

(** The receiving loop: the buffer and [recd], the count of the last call.  A
    failed call counts for -1 byte. *)
Fixpoint recv_request (fuel : nat) (client_fd : Z) (buff : list Z) (total_bytes recd : Z) (w : W)
    : run (list Z * Z * W) :=
  if decide (total_bytes < MAX_REQ_LEN) then
    match fuel with
    | O => Crash Fuel
    | S fuel =>
        let '(r, w) := px_recv client_fd (MAX_REQ_LEN - total_bytes) w in
        let recd := match r with Some bytes => zlen bytes | None => -1 end in
        buff ← match r with Some bytes => patch buff (Z.to_nat total_bytes) bytes | None => Ok buff end;
        let total_bytes := total_bytes + recd in
        '(buff, found) ← end_seen buff total_bytes;
        if found : bool then Ok (buff, recd, w) else recv_request fuel client_fd buff total_bytes recd w
    end
  else Ok (buff, recd, w).

(** [strcat(buff, CRLF)] *)
Definition append_crlf (buff : list Z) : run (list Z) :=
  s ← str_of buff; patch buff (length s) (crlf ++ [0]).

(** The loop over the server's addresses: the last value of [sockfd2].  The
    check after [break] is never reached. *)
Fixpoint connect_server (servinfo : list (list Z)) (sockfd2 : option Z) (w : W) : option Z * W :=
  match servinfo with
  | [] => (sockfd2, w)
  | p2 :: servinfo =>
      let '(fd, w) := px_socket p2 w in
      if decide (fd = -1) then connect_server servinfo (Some fd) w else
      let '(r, w) := px_connect fd p2 w in
      if decide (r = -1) then connect_server servinfo (Some fd) (px_close fd w) else (Some fd, w)
  end.

(** [while ((recd = recv(...)) > 0) send(...)] *)
Fixpoint relay (fuel : nat) (client_fd sockfd2 : Z) (w : W) : run W :=
  match fuel with
  | O => Crash Fuel
  | S fuel =>
      match px_recv sockfd2 MAX_REQ_LEN w with
      | (Some [], w) => Ok w
      | (None, w) => Ok w
      | (Some servbuff, w) => relay fuel client_fd sockfd2 (px_send client_fd servbuff w).2
      end
  end.

(** A refused request: the answer, [ParsedRequest_destroy] and [exit(1)]. *)
Definition refuse (client_fd : Z) (message : list Z) (h : mem) (pr : ParsedRequest) (w : W)
    : run (helper_end * mem * W) :=
  let '(_, w) := px_send client_fd message w in
  h ← ParsedRequest_destroy h pr;
  Ok (Exits, h, w).

(** From [getaddrinfo] on, for a request of which [recd] bytes are sent. *)
Definition forward (fuel : nat) (client_fd recd : Z) (buff : list Z) (h : mem) (parsedReq : ParsedRequest) (w : W)
    : run (helper_end * mem * W) :=
  host ← str_at h (host parsedReq);
  po ← need Uninit (port parsedReq);
  port ← str_at h po;
  match px_getaddrinfo host port w with
  | None => Ok (Returns, h, w)
  | Some servinfo2 =>
      let '(sockfd2, w) := connect_server servinfo2 None w in
      sockfd2 ← need Uninit sockfd2;
      bytes ← slice buff 0 (Z.to_nat (u64 recd));
      let '(a, w) := px_send sockfd2 bytes w in
      let w := if decide (a = -1) then (px_send client_fd msg_500 w).2 else w in
      w ← relay fuel client_fd sockfd2 w;
      Ok (Returns, h, px_close sockfd2 w)
  end.

(** A parsed request.  String literals are blocks that are never freed. *)
Definition serve_parsed (fuel : nat) (client_fd recd : Z) (buff : list Z) (h : mem) (parsedReq : ParsedRequest) (w : W)
    : run (helper_end * mem * W) :=
  let '(connection, h) := new_str h (bytes_of "Connection") in
  let '(close, h) := new_str h (bytes_of "close") in
  '(val, h, parsedReq) ← ParsedHeader_set h parsedReq connection close;
  if decide (val <> 0) then refuse client_fd msg_400 h parsedReq w else
  let '(host_key, h) := new_str h (bytes_of "Host") in
  '(val, h, parsedReq) ← ParsedHeader_set h parsedReq host_key (host parsedReq);
  if decide (val <> 0) then refuse client_fd msg_400 h parsedReq w else
  let '(def_port, h) := new_str h (bytes_of "80") in
  po ← need Uninit (port parsedReq);
  let parsedReq := if decide (po = None) then set_port def_port parsedReq else parsedReq in
  forward fuel client_fd recd buff h parsedReq w.

(** [einval] is whether [errno] is [EINVAL] when the parser looks at it. *)
Definition client_helper (fuel : nat) (client_fd : Z) (einval : bool) (h : mem) (w : W) : run (helper_end * mem * W) :=
  let parsedReq := ParsedRequest_create in
  '(buff, recd, w) ← recv_request fuel client_fd (replicate (Z.to_nat MAX_REQ_LEN) 0) 0 0 w;
  buff ← append_crlf buff;
  s ← str_of buff;
  if bool_decide (strstr s (bytes_of "GET") = None) then Ok (Exits, h, (px_send client_fd msg_501 w).2) else
  '(val, h, parsedReq) ← ParsedRequest_parse h parsedReq buff (recd + 2) einval;
  if decide (val <> 0) then refuse client_fd msg_400 h parsedReq w else
  serve_parsed fuel client_fd recd buff h parsedReq w.
End code.

(** ** The buffer *)

(** The buffer with the received text at its start. *)
Definition holding (text : list Z) : list Z := text ++ replicate (Z.to_nat MAX_REQ_LEN - length text) 0.

Lemma length_holding text : zlen text <= MAX_REQ_LEN -> length (holding text) = Z.to_nat MAX_REQ_LEN.
Proof. intros Hl. unfold holding. rewrite length_app, length_replicate. lia. Qed.

Lemma str_holding text : is_str text -> zlen text < MAX_REQ_LEN -> str_of (holding text) = Ok text.
Proof.
  intros Hs Hl. unfold holding. destruct (Z.to_nat MAX_REQ_LEN - length text)%nat as [|k] eqn:Hk; [lia|].
  cbn [replicate]. by apply str_of_ok.
Qed.

Lemma patch_holding text more : zlen (text ++ more) <= MAX_REQ_LEN ->
  patch (holding text) (length text) more = Ok (holding (text ++ more)).
Proof.
  intros Hl. rewrite length_app in Hl. unfold holding.
  rewrite patch_ok by (rewrite length_app, length_replicate; lia).
  rewrite take_app_length, drop_app_ge by lia. rewrite drop_replicate, <- app_assoc, length_app.
  do 4 f_equal. lia.
Qed.

Lemma end_seen_ok text : is_str text -> zlen text < MAX_REQ_LEN ->
  end_seen (holding text) (zlen text) = Ok (holding text, bool_decide (is_Some (strstr text crlf))).
Proof.
  intros Hs Hl. unfold end_seen.
  rewrite arr_set_ok by (rewrite length_holding by lia; lia). run_step. rewrite Nat2Z.id.
  assert (<[length text := 0]> (holding text) = holding text) as ->.
  { unfold holding. destruct (Z.to_nat MAX_REQ_LEN - length text)%nat as [|k] eqn:Hk; [lia|]. cbn [replicate].
    by rewrite insert_app_r_alt, Nat.sub_diag by lia. }
  by rewrite str_holding.
Qed.

Lemma append_ok text : is_str text -> zlen text + 3 <= MAX_REQ_LEN ->
  append_crlf (holding text) = Ok (holding (text ++ crlf)).
Proof.
  intros Hs Hl. unfold append_crlf. rewrite str_holding by (done || lia). run_step.
  rewrite patch_holding by (rewrite !length_app; cbn [length crlf]; lia). f_equal.
  unfold holding. rewrite <- !app_assoc. f_equal. cbn [app crlf]. f_equal. f_equal.
  rewrite !length_app. cbn [length crlf].
  replace (Z.to_nat MAX_REQ_LEN - (length text + 2))%nat with (S (Z.to_nat MAX_REQ_LEN - (length text + 3)))%nat by lia.
  done.
Qed.

(** Longer texts have the lines of shorter ones. *)
Lemma strstr_more a b p : is_Some (strstr a p) -> is_Some (strstr (a ++ b) p).
Proof.
  induction a as [|x a IH]; cbn [strstr app].
  - destruct (is_prefix p []) eqn:Hp; [|by intros [? [=]]]. intros _. destruct p; [|done]. by destruct b; eexists.
  - assert (forall q l l', is_prefix q l = true -> is_prefix q (l ++ l') = true) as Hpre.
    { intros q. induction q as [|y q IHq]; intros l l' Hq; [done|]. destruct l as [|z l]; [done|]. cbn in Hq |- *.
      apply andb_true_iff in Hq as [-> Hq]. by apply IHq. }
    destruct (is_prefix p (x :: a)) eqn:Hp.
    + intros _. change (x :: a ++ b) with ((x :: a) ++ b). by rewrite (Hpre _ _ _ Hp).
    + intros [n Hn]. destruct (strstr a p) as [k|] eqn:Hk; [|done].
      destruct (is_prefix p (x :: a ++ b)); [by eexists|]. destruct (IH ltac:(by eexists)) as [m ->]. by eexists.
Qed.

(** ** Receiving *)

Section receiving.
Context {W : Type} `{ProxyOS W}.

(** The pieces in which the bytes of a client arrive. *)
Inductive arrives (client_fd : Z) : Z -> W -> list (list Z) -> W -> Prop :=
| arrives_done t w : arrives client_fd t w [] w
| arrives_more t w p w1 ps w' :
    px_recv client_fd (MAX_REQ_LEN - t) w = (Some p, w1) -> arrives client_fd (t + zlen p) w1 ps w' ->
    arrives client_fd t w (p :: ps) w'.

(** They are collected while no line has ended. *)
Lemma recv_on client_fd ps : forall fuel text recd w w',
  arrives client_fd (zlen text) w ps w' -> is_str (text ++ concat ps) -> zlen (text ++ concat ps) < MAX_REQ_LEN ->
  strstr (text ++ concat ps) crlf = None ->
  exists recd', recv_request (length ps + fuel) client_fd (holding text) (zlen text) recd w
    = recv_request fuel client_fd (holding (text ++ concat ps)) (zlen (text ++ concat ps)) recd' w'.
Proof.
  induction ps as [|p ps IH]; intros fuel text recd w w' Har Hs Hl Hno; cbn [concat] in *.
  { inversion Har; subst. exists recd. by rewrite app_nil_r. }
  inversion Har as [|? ? ? w1 ? ? Hr Hmore]; subst. rewrite (app_assoc text p) in Hs, Hno, Hl |- *.
  rewrite length_app in Hl. cbn [length Nat.add recv_request].
  rewrite decide_True by (rewrite length_app in Hl; lia). rewrite Hr, Nat2Z.id, patch_holding by lia. run_step.
  rewrite <- Nat2Z.inj_add, <- length_app.
  assert (strstr (text ++ p) crlf = None) as Hno1.
  { destruct (strstr (text ++ p) crlf) eqn:Hp; [|done]. exfalso.
    destruct (strstr_more (text ++ p) (concat ps) crlf) as [k Hk]; [by eexists|]. by rewrite Hno in Hk. }
  rewrite end_seen_ok; [|by apply Forall_app in Hs as [Hs _]|lia]. run_step.
  rewrite bool_decide_false by (rewrite Hno1; by intros [? [=]]).
  apply IH; [by rewrite length_app, Nat2Z.inj_add|done|rewrite length_app; lia|done].
Qed.

(** Until one has; [recd] is the length of the last piece. *)
Lemma recv_pieces client_fd last ps fuel w w1 w' : arrives client_fd 0 w ps w1 ->
  px_recv client_fd (MAX_REQ_LEN - zlen (concat ps)) w1 = (Some last, w') -> is_str (concat ps ++ last) ->
  zlen (concat ps ++ last) < MAX_REQ_LEN -> strstr (concat ps) crlf = None ->
  is_Some (strstr (concat ps ++ last) crlf) -> (length ps < fuel)%nat ->
  recv_request fuel client_fd (holding []) 0 0 w = Ok (holding (concat ps ++ last), zlen last, w').
Proof.
  intros Har Hr Hs Hl Hno Hyes Hf. replace fuel with (length ps + S (fuel - length ps - 1))%nat by lia.
  pose proof Hs as Hs'. apply Forall_app in Hs' as [Hs1 _]. pose proof Hl as Hl'. rewrite length_app in Hl'.
  destruct (recv_on client_fd ps (S (fuel - length ps - 1)) [] 0 w w1 Har) as [recd' Hon]; [done|cbn [app]; lia|done|].
  change (zlen (@nil Z)) with 0 in Hon. rewrite Hon.
  cbn [recv_request app]. rewrite decide_True by lia. rewrite Hr, Nat2Z.id, patch_holding by lia. run_step.
  rewrite <- Nat2Z.inj_add, <- length_app. rewrite end_seen_ok by done. run_step. by rewrite bool_decide_true.
Qed.

(** A client that closes its end first is waited for for ever. *)
Lemma recv_closed (closed : W -> Prop) client_fd :
  (forall n w, closed w -> exists w', px_recv client_fd n w = (Some [], w') /\ closed w') ->
  forall fuel text recd w, closed w -> is_str text -> zlen text < MAX_REQ_LEN -> strstr text crlf = None ->
  recv_request fuel client_fd (holding text) (zlen text) recd w = Crash Fuel.
Proof.
  intros Hcl fuel. induction fuel as [|fuel IH]; intros text recd w Hw Hs Hl Hno; cbn [recv_request];
    rewrite decide_True by done; [done|].
  destruct (Hcl (MAX_REQ_LEN - zlen text) w Hw) as (w' & -> & Hw').
  rewrite Nat2Z.id, patch_holding by (rewrite app_nil_r; lia). run_step. rewrite app_nil_r. cbn [length].
  rewrite Z.add_0_r, end_seen_ok by done. run_step. rewrite bool_decide_false by (rewrite Hno; by intros [? [=]]).
  by apply IH.
Qed.

(** What the server sends back, and the client is sent. *)
Inductive relays (client_fd fd : Z) : W -> list (list Z) -> W -> Prop :=
| relays_done w w' : px_recv fd MAX_REQ_LEN w = (Some [], w') -> relays client_fd fd w [] w'
| relays_more w c w1 w2 n cs w' :
    px_recv fd MAX_REQ_LEN w = (Some c, w1) -> c <> [] -> px_send client_fd c w1 = (n, w2) ->
    relays client_fd fd w2 cs w' -> relays client_fd fd w (c :: cs) w'.

Lemma relay_ok client_fd fd w cs w' : relays client_fd fd w cs w' -> forall fuel, (length cs < fuel)%nat ->
  relay fuel client_fd fd w = Ok w'.
Proof.
  induction 1 as [w w' Hr|w c w1 w2 n cs w' Hr Hc Hs _ IH]; intros fuel Hf; (destruct fuel as [|fuel]; [cbn in Hf; lia|]);
    cbn [relay]; rewrite Hr; [done|].
  destruct c; [done|]. rewrite Hs. apply IH. cbn in Hf. lia.
Qed.
End receiving.

(** ** Forwarding *)

(** A string literal. *)
Lemma literal_ok h pr kvs rest s : table_rep h pr kvs rest -> is_str s ->
  exists p h' rest', new_str h s = (p, h') /\ table_rep h' pr kvs rest' /\ str_in rest' p s /\
    forall q t, str_in rest q t -> str_in rest' q t.
Proof.
  intros Hrep Hs. destruct (table_alloc _ _ _ _ (s ++ [0]) Hrep) as [Hn Hr]. cbn [halloc snd] in Hr.
  eexists _, _, _. split; [reflexivity|]. split; [exact Hr|]. split.
  - eexists _, O, (s ++ [0]). split; [reflexivity|]. split; [apply lookup_insert_eq|]. rewrite drop_0. by apply str_of_ok.
  - intros q t (a & off & b & -> & Hb & Ht). exists a, off, b. split; [done|]. split; [|done].
    rewrite lookup_insert_ne; [done|]. intros Heq. by rewrite Heq, Hb in Hn.
Qed.

Section forwarding.
Context {W : Type} `{ProxyOS W}.

(** The request object gets two more headers, and the port 80 if it has none;
    what is sent is the buffer. *)
Lemma serve_parsed_ok fuel client_fd recd buff h pr r rest n w : request_rep h pr r rest ->
  table_room pr n -> n < 2 ^ 32 ->
  exists h' pr', serve_parsed fuel client_fd recd buff h pr w = forward fuel client_fd recd buff h' pr' w /\
    str_at h' (host pr') = Ok (r_host r) /\
    exists po, port pr' = Some po /\ str_at h' po = Ok (default (bytes_of "80") (r_port r)).
Proof.
  intros (Hrep & _ & _ & _ & Hh & _ & _ & Hpo) [Hu Hlen] Hn. unfold serve_parsed.
  assert (Hstr : forall s, bool_decide (is_str s) = true -> is_str s) by (intros s Hs; by apply bool_decide_eq_true in Hs).
  destruct (literal_ok _ _ _ _ (bytes_of "Connection") Hrep (Hstr (bytes_of "Connection") eq_refl)) as (p1 & h1 & rest1 & -> & Hr1 & Hp1 & Hk1).
  destruct (literal_ok _ _ _ _ (bytes_of "close") Hr1 (Hstr (bytes_of "close") eq_refl)) as (p2 & h2 & rest2 & -> & Hr2 & Hp2 & Hk2).
  destruct (set_ok _ _ _ _ _ _ _ _ Hr2 (Hk2 _ _ Hp1) Hp2 ltac:(lia)) as (h3 & pr3 & -> & Hr3 & Hu3 & Hl3 & Hs3).
  run_step. rewrite decide_False by naive_solver.
  destruct (literal_ok _ _ _ _ (bytes_of "Host") Hr3 (Hstr (bytes_of "Host") eq_refl)) as (p4 & h4 & rest4 & -> & Hr4 & Hp4 & Hk4).
  destruct (same_line_fields _ _ Hs3) as (_ & _ & Eh3 & Epo3 & _).
  assert (str_in rest4 (host pr3) (r_host r)) as Hh4 by (rewrite Eh3; by apply Hk4, Hk2, Hk1).
  destruct (set_ok _ _ _ _ _ _ _ _ Hr4 Hp4 Hh4 ltac:(lia)) as (h5 & pr5 & -> & Hr5 & Hu5 & Hl5 & Hs5).
  run_step. rewrite decide_False by naive_solver.
  destruct (literal_ok _ _ _ _ (bytes_of "80") Hr5 (Hstr (bytes_of "80") eq_refl)) as (p6 & h6 & rest6 & -> & Hr6 & Hp6 & Hk6).
  destruct (same_line_fields _ _ Hs5) as (_ & _ & Eh5 & Epo5 & _).
  destruct Hr6 as (vs & (_ & _ & _ & _ & Ho) & _).
  assert (str_at h6 (host pr5) = Ok (r_host r)) as Hhost by (rewrite Eh5; apply (str_in_at _ _ _ _ _ Ho); by apply Hk6).
  rewrite Epo5, Epo3. destruct (r_port r) as [p|].
  - destruct Hpo as (q & Hpq & Hq). rewrite Hpq. run_step. destruct q as [q|]; [|by destruct Hq as (? & ? & ? & [=] & _)].
    rewrite decide_False by done. exists h6, pr5. split; [done|]. split; [done|]. exists (Some q).
    split; [by rewrite Epo5, Epo3, Hpq|]. apply (str_in_at _ _ _ _ _ Ho). by apply Hk6, Hk4, Hk2, Hk1.
  - rewrite Hpo. run_step. rewrite decide_True by done. exists h6, (set_port p6 pr5). split; [done|]. split; [done|].
    exists p6. split; [done|]. by apply (str_in_at _ _ _ _ _ Ho).
Qed.

(** C19: a request that arrives in one piece, with or without the empty line at
    its end.  The proxy resolves its host and its port (80 by default),
    connects, sends exactly the bytes it received, relays to the client what
    the server answers until it closes, and closes the connection to it.  The
    headers [Connection] and [Host] it has set are not sent. *)
Theorem proxy_forwards fuel client_fd einval h r text junk addr more fd n chunks rc w w1 w2 w3 w4 w5 :
  heap_wf h -> wf_request r -> port_ok einval (r_port r) ->
  px_recv client_fd MAX_REQ_LEN w = (Some text, w1) -> text ++ crlf = request_text r ++ junk -> is_str junk ->
  is_Some (strstr text (bytes_of "GET")) -> zlen text + 3 <= MAX_REQ_LEN ->
  px_getaddrinfo (r_host r) (default (bytes_of "80") (r_port r)) w1 = Some (addr :: more) ->
  px_socket addr w1 = (fd, w2) -> fd <> -1 -> px_connect fd addr w2 = (rc, w3) -> rc <> -1 ->
  px_send fd text w3 = (n, w4) -> n <> -1 -> relays client_fd fd w4 chunks w5 -> (length chunks < fuel)%nat ->
  exists h', client_helper fuel client_fd einval h w = Ok (Returns, h', px_close fd w5).
Proof.
  intros Hwf Hr Hport Hrecv Htext Hjunk Hget Hlen Haddr Hsock Hfd Hcon Hrc Hsend Hn Hrel Hfuel.
  assert (is_str (text ++ crlf)) as Hstr by (rewrite Htext; apply is_str_app; [by apply text_str|done]).
  pose proof Hstr as Hstr'. apply Forall_app in Hstr' as [Hst _].
  assert (zlen (text ++ crlf) = zlen text + 2) as Hl2 by (rewrite length_app; cbn [length crlf]; lia).
  assert (is_Some (strstr text crlf)) as Hend.
  { assert (text = take (length text) (request_text r ++ junk)) as Ht by (by rewrite <- Htext, take_app_length).
    rewrite text_split, <- !app_assoc in Ht. rewrite Ht. rewrite app_assoc.
    assert (length (line_bytes r ++ crlf) <= length text)%nat as Hle.
    { assert (length (text ++ crlf) = length (request_text r ++ junk)) as He by (by rewrite Htext).
      destruct (text_end r) as [a Ha]. rewrite text_split in He. unfold headers_text in He.
      rewrite !length_app in He. rewrite !length_app. cbn [length crlf] in *. lia. }
    rewrite take_app_ge by lia. rewrite <- app_assoc. apply strstr_some. }
  unfold client_helper. change (replicate (Z.to_nat MAX_REQ_LEN) 0) with (holding []).
  rewrite (recv_pieces client_fd text [] fuel w w w1);
    [|apply arrives_done|exact Hrecv|done|cbn [app concat]; lia|done|done|cbn; lia].
  cbn [app concat]. run_step. rewrite append_ok by done. run_step.
  rewrite str_holding by (done || lia). run_step.
  rewrite bool_decide_false by (destruct (strstr_more text crlf (bytes_of "GET") Hget) as [k ->]; done).
  rewrite <- Hl2.
  destruct (parse_text_ok h r junk (replicate (Z.to_nat MAX_REQ_LEN - length (request_text r ++ junk)) 0) einval
    Hwf Hr Hport Hjunk) as (h1 & pr & b & pa & Hparse & _ & _ & _ & _ & _ & Hroom & Hrep); [rewrite <- Htext; lia|].
  rewrite <- Htext in Hparse. fold (holding (text ++ crlf)) in Hparse. rewrite Hparse. run_step. rewrite decide_False by naive_solver.
  destruct (serve_parsed_ok fuel client_fd (zlen text) (holding (text ++ crlf)) h1 pr _ _ _ w1 Hrep Hroom)
    as (h2 & pr2 & Hsp & Hhost & po & Hpo & Hport2).
  { assert (zlen (r_headers r) <= zlen (request_text r ++ junk)) as Hle;
      [|rewrite <- Htext, Hl2 in Hle; unfold MAX_REQ_LEN in Hlen; lia].
    rewrite text_split. unfold headers_text. rewrite !length_app. pose proof (count_le (r_headers r)). lia. }
  rewrite Hsp. cbn [r_host r_port] in Hhost, Hport2. unfold forward.
  rewrite Hhost. run_step. rewrite Hpo. run_step. rewrite Hport2. run_step. rewrite Haddr.
  cbn [connect_server]. rewrite Hsock. rewrite decide_False by done. rewrite Hcon, decide_False by done. run_step.
  assert (u64 (zlen text) = zlen text) as -> by (unfold u64, MAX_REQ_LEN in *; apply Z.mod_small; lia).
  rewrite slice_ok by (rewrite length_holding by lia; lia). run_step.
  assert (take (Z.to_nat (zlen text)) (drop 0 (holding (text ++ crlf))) = text) as ->.
  { rewrite drop_0, Nat2Z.id. unfold holding. rewrite <- app_assoc. apply take_app_length. }
  rewrite Hsend. rewrite decide_False by done. rewrite (relay_ok client_fd fd w4 chunks w5 Hrel fuel Hfuel). run_step.
  by eexists.
Qed.

(** The position of a match. *)
Lemma strstr_head s c p n : strstr s (c :: p) = Some n -> s !! n = Some c.
Proof.
  revert n. induction s as [|x s IH]; intros n; cbn [strstr is_prefix]; [done|].
  destruct (bool_decide (c = x)) eqn:Hc; cbn [andb].
  - apply bool_decide_eq_true in Hc as ->. destruct (is_prefix p s); [by intros [= <-]|].
    destruct (strstr s (x :: p)) as [k|]; [|done]. cbn. intros [= <-]. by apply IH.
  - destruct (strstr s (c :: p)) as [k|]; [|done]. cbn. intros [= <-]. by apply IH.
Qed.

(** A proper part of a line with its ends has fewer ends. *)
Lemma strstr_cut line s t p : 13 ∉ line -> s ++ t = line ++ 13 :: p -> t <> [] -> strstr s (13 :: p) = None.
Proof.
  intros Hline Hst Ht. destruct (strstr s (13 :: p)) as [n|] eqn:Hn; [|done]. exfalso.
  pose proof (strstr_bound _ _ _ Hn) as Hb. apply strstr_head in Hn.
  assert ((s ++ t) !! n = Some 13) as Hl by (by apply lookup_app_l_Some).
  assert (length (s ++ t) = (length line + S (length p))%nat) as Hlen by (rewrite Hst, length_app; done).
  rewrite length_app in Hlen. cbn [length] in Hb. destruct t; [done|]. cbn [length] in Hlen.
  rewrite Hst, lookup_app_l in Hl by lia. apply Hline. by eapply list_elem_of_lookup_2.
Qed.

(** C37: requests the proxy does not serve.  A text in which the letters GET
    occur nowhere is answered with status 501.  A request that consists of its
    request line alone, without headers and without the empty line, and whose
    first line end arrives with a second or later piece is answered with status
    400, well-formed as the line is, since only the length of the last piece is
    given to the parser.  Both end the process.  A client that closes the
    connection before the end of a line is waited for for ever, and a first
    call that fails puts a byte in front of the buffer. *)
Theorem proxy_refuses fuel client_fd einval h w : heap_wf h ->
  (forall text w1, px_recv client_fd MAX_REQ_LEN w = (Some text, w1) -> is_str text -> is_Some (strstr text crlf) ->
     strstr (text ++ crlf) (bytes_of "GET") = None -> zlen text + 3 <= MAX_REQ_LEN -> (0 < fuel)%nat ->
     client_helper fuel client_fd einval h w = Ok (Exits, h, (px_send client_fd msg_501 w1).2)) /\
  (forall r ps last w1 w2, wf_request r -> r_headers r = [] -> concat ps ++ last = request_line r ->
     concat ps <> [] -> is_Some (strstr (request_line r) (bytes_of "GET")) ->
     zlen (request_line r) + 3 <= MAX_REQ_LEN -> 2 <= zlen last ->
     arrives client_fd 0 w ps w1 -> px_recv client_fd (MAX_REQ_LEN - zlen (concat ps)) w1 = (Some last, w2) ->
     (length ps < fuel)%nat ->
     exists h', client_helper fuel client_fd einval h w = Ok (Exits, h', (px_send client_fd msg_400 w2).2) /\
       cells h' = cells h) /\
  (forall (closed : W -> Prop) ps w1, (forall n w, closed w -> exists w', px_recv client_fd n w = (Some [], w') /\ closed w') ->
     arrives client_fd 0 w ps w1 -> closed w1 -> is_str (concat ps) -> zlen (concat ps) < MAX_REQ_LEN ->
     strstr (concat ps) crlf = None -> (length ps <= fuel)%nat ->
     client_helper fuel client_fd einval h w = Crash Fuel) /\
  (forall w1, px_recv client_fd MAX_REQ_LEN w = (None, w1) -> (0 < fuel)%nat ->
     client_helper fuel client_fd einval h w = Crash OutOfRange).
Proof.
  intros Hwf. unfold client_helper. change (replicate (Z.to_nat MAX_REQ_LEN) 0) with (holding []). split_and!.
  - intros text w1 Hr Hs Hend Hget Hl Hf.
    rewrite (recv_pieces client_fd text [] fuel w w w1);
      [|apply arrives_done|exact Hr|done|cbn [app concat]; lia|done|done|cbn; lia].
    cbn [app concat]. run_step. rewrite append_ok by done. run_step.
    rewrite str_holding; [|apply is_str_app; [done|]|rewrite length_app; cbn [length crlf]; lia].
    + run_step. by rewrite bool_decide_true.
    + apply (bool_decide_unpack (is_str crlf)). vm_compute. exact Logic.I.
  - intros r ps last w1 w2 Hr Hhs Htext Hne Hget Hl Hl2 Har Hrecv Hf.
    pose proof (off_delims_notin [0; 13] _ 13 eq_refl (line_off r Hr)) as Hcr.
    assert (request_text r = request_line r ++ crlf) as Hrt by (unfold request_text, headers_text; by rewrite Hhs).
    assert (is_str (request_line r ++ crlf)) as Hstr by (rewrite <- Hrt; by apply text_str).
    pose proof Hstr as Hstr'. apply Forall_app in Hstr' as [Hst _].
    rewrite (recv_pieces client_fd last ps fuel w w1 w2 Har Hrecv); rewrite ?Htext; [|done|lia| | |done].
    2:{ apply (strstr_cut (line_bytes r) _ last [10] Hcr); [|intros ->; cbn in Hl2; lia]. by rewrite Htext, request_line_bytes. }
    2:{ rewrite request_line_bytes. rewrite <- (app_nil_r (line_bytes r ++ crlf)), <- app_assoc. apply strstr_some. }
    run_step. rewrite append_ok by done. run_step.
    assert (zlen (request_line r ++ crlf) = zlen (request_line r) + 2) as Hl3 by (rewrite length_app; cbn [length crlf]; lia).
    rewrite str_holding by (done || lia). run_step.
    rewrite bool_decide_false by (destruct (strstr_more (request_line r) crlf (bytes_of "GET") Hget) as [k ->]; done).
    assert (zlen (concat ps) + zlen last = zlen (request_line r)) as Hsum by (rewrite <- Htext, length_app; lia).
    destruct (parse_no_end h ParsedRequest_create (holding (request_line r ++ crlf)) (zlen last + 2) einval Hwf eq_refl)
      as (h1 & -> & Hc & Hwf1).
    + unfold MAX_REQ_LEN in Hl. lia.
    + rewrite length_holding by lia. lia.
    + assert (take (Z.to_nat (zlen last + 2)) (holding (request_line r ++ crlf))
        = take (Z.to_nat (zlen last + 2)) (request_line r ++ crlf)) as ->
        by (unfold holding; rewrite take_app_le by lia; done).
      rewrite c_str_take by done.
      apply (strstr_cut (line_bytes r) _ (drop (Z.to_nat (zlen last + 2)) (request_line r ++ crlf)) [10; 13; 10] Hcr).
      * rewrite take_drop, request_line_bytes, <- app_assoc. done.
      * intros Hd. assert (length (drop (Z.to_nat (zlen last + 2)) (request_line r ++ crlf)) = 0%nat) as Hz by (by rewrite Hd).
        rewrite length_drop in Hz. destruct (concat ps); [done|]. cbn [length] in Hsum. lia.
    + run_step. rewrite decide_True by lia. unfold refuse. destruct (px_send client_fd msg_400 w2) as [n w3].
      assert (ParsedRequest_destroy h1 ParsedRequest_create = Ok h1) as -> by reflexivity. run_step. by exists h1.
  - intros closed ps w1 Hcl Har Hw Hs Hl Hno Hf. replace fuel with (length ps + (fuel - length ps))%nat by lia.
    destruct (recv_on client_fd ps (fuel - length ps) [] 0 w w1 Har) as [recd' Hr]; [done..|].
    change (zlen (@nil Z)) with 0 in Hr. rewrite Hr. cbn [app]. by rewrite (recv_closed closed client_fd Hcl).
  - intros w1 Hr Hf. destruct fuel as [|fuel]; [lia|]. cbn [recv_request]. rewrite decide_True by done.
    rewrite Z.sub_0_r, Hr. done.
Qed.
End forwarding.

(** ** A client and a server with their pieces *)

Record endpoints : Type := Endpoints {
  from_client : list (list Z);
  from_server : list (list Z);
  to_client : list (list Z);
  to_server : list (list Z)
}.

#[global] Instance endpoints_os : ProxyOS endpoints := {|
  px_recv fd _ w :=
    if decide (fd = 4) then
      match from_client w with
      | [] => (Some [], w)
      | p :: ps => (Some p, Endpoints ps (from_server w) (to_client w) (to_server w))
      end
    else
      match from_server w with
      | [] => (Some [], w)
      | p :: ps => (Some p, Endpoints (from_client w) ps (to_client w) (to_server w))
      end;
  px_send fd b w :=
    (zlen b, if decide (fd = 4) then Endpoints (from_client w) (from_server w) (to_client w ++ [b]) (to_server w)
             else Endpoints (from_client w) (from_server w) (to_client w) (to_server w ++ [b]));
  px_getaddrinfo _ _ _ := Some [[10; 0; 0; 1]];
  px_socket _ w := (5, w);
  px_connect _ _ w := (0, w);
  px_close _ w := w
|}.

Lemma proxy_forwards_witness : exists h',
  client_helper 3 4 false empty_heap (Endpoints [request_text sample_get] [bytes_of "hello"; bytes_of "bye"] [] [])
  = Ok (Returns, h', Endpoints [] [] [bytes_of "hello"; bytes_of "bye"] [request_text sample_get]).
Proof.
  set (w c r s := Endpoints c r s [request_text sample_get]).
  destruct (proxy_forwards 3 4 false empty_heap sample_get (request_text sample_get) crlf [10; 0; 0; 1] [] 5
    (zlen (request_text sample_get)) [bytes_of "hello"; bytes_of "bye"] 0
    (Endpoints [request_text sample_get] [bytes_of "hello"; bytes_of "bye"] [] [])
    (Endpoints [] [bytes_of "hello"; bytes_of "bye"] [] []) (Endpoints [] [bytes_of "hello"; bytes_of "bye"] [] [])
    (Endpoints [] [bytes_of "hello"; bytes_of "bye"] [] []) (w [] [bytes_of "hello"; bytes_of "bye"] [])
    (w [] [] [bytes_of "hello"; bytes_of "bye"]) heap_wf_empty sample_get_wf) as [h' Hrun].
  - vm_compute. try (left; reflexivity); exact Logic.I.
  - reflexivity.
  - reflexivity.
  - apply (bool_decide_unpack (is_str crlf)). vm_compute. exact Logic.I.
  - vm_compute. eexists. reflexivity.
  - vm_compute. discriminate.
  - reflexivity.
  - reflexivity.
  - discriminate.
  - reflexivity.
  - discriminate.
  - reflexivity.
  - vm_compute. discriminate.
  - eapply relays_more; [reflexivity|discriminate|reflexivity|].
    eapply relays_more; [reflexivity|discriminate|reflexivity|]. apply relays_done. reflexivity.
  - cbn. lia.
  - exists h'. exact Hrun.
Defined.

Definition plain_get : http_request :=
  Http (bytes_of "GET") (bytes_of "http") (bytes_of "h") None (bytes_of "/") (bytes_of "HTTP/1.0") [].

Lemma plain_get_wf : wf_request plain_get.
Proof.
  assert (Hd : forall ds s, forallb (fun b => negb (in_set ds b)) s = true -> off_delims ds s) by apply off_delims_b.
  split_and!; try discriminate; try (apply Hd; vm_compute; reflexivity); try exact Logic.I.
  - exists []. split; [reflexivity|]. split; [apply Forall_nil_2|discriminate].
  - exists (bytes_of "1.0"). split; [reflexivity|]. apply Hd. vm_compute. reflexivity.
  - apply Forall_nil_2.
Qed.

(** The same request in one piece of another method, in two pieces, and a client
    that closes after its first letters. *)
Lemma proxy_refuses_witness :
  client_helper 2 4 false empty_heap (Endpoints [bytes_of "PUT" ++ crlf] [] [] [])
  = Ok (Exits, empty_heap, Endpoints [] [] [msg_501] []) /\
  (exists h', client_helper 2 4 false empty_heap
      (Endpoints [take 9 (request_line plain_get); drop 9 (request_line plain_get)] [] [] [])
    = Ok (Exits, h', Endpoints [] [] [msg_400] [])) /\
  client_helper 2 4 false empty_heap (Endpoints [bytes_of "GET"] [] [] []) = Crash Fuel.
Proof.
  assert (Hstr : forall s, bool_decide (is_str s) = true -> is_str s) by (intros s Hs; by apply bool_decide_eq_true in Hs).
  split; [|split].
  - destruct (proxy_refuses 2 4 false empty_heap (Endpoints [bytes_of "PUT" ++ crlf] [] [] []) heap_wf_empty) as (Hp & _).
    apply (Hp (bytes_of "PUT" ++ crlf) (Endpoints [] [] [] [])).
    + reflexivity.
    + apply Hstr. reflexivity.
    + vm_compute. eexists. reflexivity.
    + vm_compute. reflexivity.
    + vm_compute. discriminate.
    + lia.
  - destruct (proxy_refuses 2 4 false empty_heap
      (Endpoints [take 9 (request_line plain_get); drop 9 (request_line plain_get)] [] [] []) heap_wf_empty) as (_ & Hp & _).
    destruct (Hp plain_get [take 9 (request_line plain_get)] (drop 9 (request_line plain_get))
      (Endpoints [drop 9 (request_line plain_get)] [] [] []) (Endpoints [] [] [] []) plain_get_wf eq_refl) as (h' & Hrun & _).
    + vm_compute. reflexivity.
    + vm_compute. discriminate.
    + vm_compute. eexists. reflexivity.
    + vm_compute. discriminate.
    + vm_compute. discriminate.
    + eapply arrives_more; [reflexivity|apply arrives_done].
    + reflexivity.
    + cbn. lia.
    + exists h'. exact Hrun.
  - destruct (proxy_refuses 2 4 false empty_heap (Endpoints [bytes_of "GET"] [] [] []) heap_wf_empty) as (_ & _ & Hp & _).
    apply (Hp (fun w => from_client w = []) [bytes_of "GET"] (Endpoints [] [] [] [])).
    + intros n w Hw. exists w. split; [cbn; rewrite Hw; reflexivity|exact Hw].
    + eapply arrives_more; [reflexivity|apply arrives_done].
    + reflexivity.
    + apply Hstr. reflexivity.
    + vm_compute. reflexivity.
    + vm_compute. reflexivity.
    + cbn. lia.
Defined.
