(* ===== verification/ProxyMain.v ===== *)
(** * The proxy's listening process

    Models [proxy] and [main] of [Assignment1/starter_code/proxy.c]: the set-up
    of the listening socket and the loop that accepts clients and forks a
    process for each, which runs [client_helper] of [Proxy.v].  A run of the
    model is that of one process: where [fork] returns 0 it goes on as the
    child.  Proved: the parent keeps no descriptor of a client, the child
    serves its client and exits, and how the set-up ends on every error. *)

From stdpp Require Import sets gmap.
From S2P Require Import Prelude Heap CString ProxyHeaders ProxyParse Proxy.

(** The calls besides those of [client_helper]; [pm_passive] is [getaddrinfo]
    for a listening socket. *)
Class ProxyMainOS (W : Type) := {
  pm_os :: ProxyOS W;
  pm_passive : list Z -> W -> option (list (list Z));
  pm_setsockopt : Z -> W -> Z * W;   (* SO_REUSEADDR *)
  pm_bind : Z -> list Z -> W -> Z * W;
  pm_listen : Z -> Z -> W -> Z * W;
  pm_accept : Z -> W -> Z * W;
  pm_fork : W -> Z * W
}.

(** How the process ends, or that it is still in its loop. *)
Inductive process_end : Set := PReturns (code : Z) | PExits (code : Z) | PServing.

(** What the loop over the addresses leaves: [setsockopt] failed; no address
    is left ([p] is null); or the socket taken. *)
Inductive bound : Type := SetsockoptFailed | NoAddress | Taken (sockfd : Z).

Section code.
Context {W : Type} `{ProxyMainOS W}.

(** The loop ends with the first address that has a socket, bound or not; a
    socket that could not be bound is closed. *)
Fixpoint bind_loop (p : list (list Z)) (w : W) : bound * W :=
  match p with
  | [] => (NoAddress, w)
  | addr :: p =>
      let '(sockfd, w) := px_socket addr w in
      if decide (sockfd = -1) then bind_loop p w else
      let '(set, w) := pm_setsockopt sockfd w in
      if decide (set = -1) then (SetsockoptFailed, w) else
      let '(b, w) := pm_bind sockfd addr w in
      (Taken sockfd, if decide (b = -1) then px_close sockfd w else w)
  end.

(** The [accept] loop: its state after some turns, or how the child ends. *)
Fixpoint proxy_loop (turns fuel : nat) (einval : bool) (sockfd : Z) (h : mem) (w : W) : run (process_end * mem * W) :=
  match turns with
  | O => Ok (PServing, h, w)
  | S turns =>
      let '(new_fd, w) := pm_accept sockfd w in
      if decide (new_fd = -1) then proxy_loop turns fuel einval sockfd h w else
      let '(pid, w) := pm_fork w in
      if decide (pid = 0) then
        '(_, h, w) ← (client_helper fuel new_fd einval h (px_close sockfd w));
        Ok (PExits 1, h, w)
      else proxy_loop turns fuel einval sockfd h (px_close new_fd w)
  end.

Definition proxy (turns fuel : nat) (einval : bool) (proxy_port : list Z) (h : mem) (w : W)
    : run (process_end * mem * W) :=
  match pm_passive proxy_port w with
  | None => Ok (PReturns 1, h, w)
  | Some servinfo =>
      match bind_loop servinfo w with
      | (SetsockoptFailed, w) => Ok (PReturns 1, h, w)
      | (NoAddress, w) => Ok (PReturns 1, h, w)
      | (Taken sockfd, w) =>
          let '(l, w) := pm_listen sockfd 10 w in
          if decide (l = -1) then Ok (PReturns 1, h, w) else proxy_loop turns fuel einval sockfd h w
      end
  end.

(** [args] are the arguments of the command. *)
Definition proxy_main (turns fuel : nat) (einval : bool) (args : list (list Z)) (h : mem) (w : W)
    : run (process_end * mem * W) :=
  match args with
  | [proxy_port] => proxy turns fuel einval proxy_port h w
  | _ => Ok (PExits 1, h, w)
  end.
End code.

(** ** The descriptors of the parent *)

(** Which descriptors a process has open. *)
Record descriptors {W} `{ProxyMainOS W} (open : W -> gset Z) : Prop := {
  de_accept sockfd w fd w' : pm_accept sockfd w = (fd, w') -> fd <> -1 -> (fd ∉ open w) /\ open w' = {[fd]} ∪ open w;
  de_accept_fails sockfd w w' : pm_accept sockfd w = (-1, w') -> open w' = open w;
  de_fork w : open (pm_fork w).2 = open w;
  de_close fd w : open (px_close fd w) = open w ∖ {[fd]}
}.

Section parent.
Context {W : Type} `{ProxyMainOS W} (sockfd : Z).

(** Turns of the loop in the parent: [accept] fails, or [fork] does not
    return 0 (it may fail as well). *)
Inductive parent_turns : nat -> W -> W -> Prop :=
| parent_start w : parent_turns 0 w w
| parent_retry n w w1 w' : pm_accept sockfd w = (-1, w1) -> parent_turns n w1 w' -> parent_turns (S n) w w'
| parent_forks n w fd w1 pid w2 w' :
    pm_accept sockfd w = (fd, w1) -> fd <> -1 -> pm_fork w1 = (pid, w2) -> pid <> 0 ->
    parent_turns n (px_close fd w2) w' -> parent_turns (S n) w w'.

Lemma parent_loop n w w' : parent_turns n w w' -> forall m fuel einval h,
  proxy_loop (n + m) fuel einval sockfd h w = proxy_loop m fuel einval sockfd h w'.
Proof.
  induction 1 as [w|n w w1 w' Ha _ IH|n w fd w1 pid w2 w' Ha Hfd Hf Hpid _ IH]; intros m fuel einval h; [done|..];
    cbn [Nat.add proxy_loop]; rewrite Ha; [by rewrite decide_True|].
  rewrite decide_False by done. by rewrite Hf, decide_False.
Qed.

Lemma parent_keeps open n w w' : descriptors open -> parent_turns n w w' -> open w' = open w.
Proof.
  intros Hd. induction 1 as [w|n w w1 w' Ha _ IH|n w fd w1 pid w2 w' Ha Hfd Hf Hpid _ IH]; [done|..].
  - by rewrite IH, (de_accept_fails _ Hd _ _ _ Ha).
  - destruct (de_accept _ Hd _ _ _ _ Ha Hfd) as [Hnew Ho]. pose proof (de_fork _ Hd w1) as Hw2.
    rewrite Hf in Hw2. cbn [snd] in Hw2. rewrite IH, (de_close _ Hd), Hw2, Ho. set_solver.
Qed.

(** Every run stays in the parent, or becomes a child in some turn. *)
Lemma parent_or_child n w : (exists w', parent_turns n w w') \/
  exists k w1 fd w2 w3, (k < n)%nat /\ parent_turns k w w1 /\ pm_accept sockfd w1 = (fd, w2) /\ fd <> -1 /\
    pm_fork w2 = (0, w3).
Proof.
  revert w. induction n as [|n IH]; intros w; [left; exists w; constructor|].
  destruct (pm_accept sockfd w) as [fd w1] eqn:Ha. destruct (decide (fd = -1)) as [->|Hfd].
  - destruct (IH w1) as [[w' Hw]|(k & w2 & fd & w3 & w4 & Hk & Hp & Hrest)].
    + left. exists w'. by eapply parent_retry.
    + right. exists (S k), w2, fd, w3, w4. split; [lia|]. split; [by eapply parent_retry|done].
  - destruct (pm_fork w1) as [pid w2] eqn:Hf. destruct (decide (pid = 0)) as [->|Hpid].
    + right. exists 0%nat, w, fd, w1, w2. split; [lia|]. split; [constructor|done].
    + destruct (IH (px_close fd w2)) as [[w' Hw]|(k & w3 & fd' & w4 & w5 & Hk & Hp & Hrest)].
      * left. exists w'. by eapply parent_forks.
      * right. exists (S k), w3, fd', w4, w5. split; [lia|]. split; [by eapply parent_forks|done].
Qed.

(** C25: the listening process.  Whatever [accept] and [fork] return, turn
    after turn, a process is either still the parent: then it has done
    nothing but accept and close, its memory is as it was, and it has exactly
    the descriptors open it started with; or [fork] has returned 0 in some
    turn: then it closes the listening socket, serves the one client just
    accepted with [client_helper] and exits with status 1, however that ended.
    A failed [fork] drops the client. *)
Theorem proxy_loop_correct (open : W -> gset Z) turns fuel einval h w : descriptors open ->
  (exists w', parent_turns turns w w' /\ proxy_loop turns fuel einval sockfd h w = Ok (PServing, h, w') /\
     open w' = open w) \/
  (exists k w1 fd w2 w3, (k < turns)%nat /\ parent_turns k w w1 /\ open w1 = open w /\
     pm_accept sockfd w1 = (fd, w2) /\ fd <> -1 /\ pm_fork w2 = (0, w3) /\ fd ∈ open w3 /\
     proxy_loop turns fuel einval sockfd h w
     = ('(_, h, w) ← (client_helper fuel fd einval h (px_close sockfd w3)); Ok (PExits 1, h, w))).
Proof.
  intros Hd. destruct (parent_or_child turns w) as [[w' Hp]|(k & w1 & fd & w2 & w3 & Hk & Hp & Ha & Hfd & Hf)].
  - left. exists w'. split; [done|]. split; [|by eapply parent_keeps].
    pose proof (parent_loop _ _ _ Hp 0 fuel einval h) as Hl. by rewrite Nat.add_0_r in Hl.
  - right. exists k, w1, fd, w2, w3. split; [done|]. split; [done|]. split; [by eapply parent_keeps|].
    split; [done|]. split; [done|]. split; [done|]. split.
    { pose proof (de_fork _ Hd w2) as Hw3. rewrite Hf in Hw3. cbn [snd] in Hw3.
      destruct (de_accept _ Hd _ _ _ _ Ha Hfd) as [_ Ho]. rewrite Hw3, Ho. set_solver. }
    replace turns with (k + S (turns - k - 1))%nat by lia. rewrite (parent_loop _ _ _ Hp).
    cbn [proxy_loop]. rewrite Ha, decide_False by done. by rewrite Hf, decide_True.
Qed.
End parent.

(** ** A listening socket with its clients *)

Record listener : Type := Listener {
  arriving : list Z;   (* the descriptors of the clients to come *)
  pids : list Z;   (* what [fork] will return *)
  opened : gset Z;
  ends : endpoints   (* the client of the child *)
}.

Definition with_ends (r : Z * endpoints) (w : listener) : Z * listener :=
  (r.1, Listener (arriving w) (pids w) (opened w) r.2).

#[global] Instance listener_os : ProxyMainOS listener := {|
  pm_os := {|
    px_recv fd n w := let '(r, e) := px_recv fd n (ends w) in (r, Listener (arriving w) (pids w) (opened w) e);
    px_send fd b w := with_ends (px_send fd b (ends w)) w;
    px_getaddrinfo host port w := px_getaddrinfo host port (ends w);
    px_socket a w := with_ends (px_socket a (ends w)) w;
    px_connect fd a w := with_ends (px_connect fd a (ends w)) w;
    px_close fd w := Listener (arriving w) (pids w) (opened w ∖ {[fd]}) (ends w)
  |};
  pm_passive _ _ := Some [[0; 0; 0; 0]];
  pm_setsockopt _ w := (0, w);
  pm_bind _ _ w := (0, w);
  pm_listen _ _ w := (0, w);
  pm_accept _ w :=
    match arriving w with
    | fd :: fds => if decide (fd = -1 \/ fd ∈ opened w) then (-1, w)
                   else (fd, Listener fds (pids w) ({[fd]} ∪ opened w) (ends w))
    | [] => (-1, w)
    end;
  pm_fork w :=
    match pids w with
    | p :: ps => (p, Listener (arriving w) ps (opened w) (ends w))
    | [] => (-1, w)
    end
|}.

Lemma listener_descriptors : descriptors opened.
Proof.
  split.
  - intros sockfd w fd w' Ha Hfd. cbn in Ha. destruct (arriving w) as [|x xs]; [by injection Ha as <- <-|].
    case_decide as Hx; [by injection Ha as <- <-|]. injection Ha as <- <-. split; [tauto|done].
  - intros sockfd w w' Ha. cbn in Ha. destruct (arriving w) as [|x xs]; [by injection Ha as <-|].
    case_decide as Hx; [by injection Ha as <-|]. injection Ha as -> <-. tauto.
  - intros w. cbn. by destruct (pids w).
  - done.
Qed.

Definition start (ps : list Z) : listener :=
  Listener [4; 4] ps {[3]} (Endpoints [request_text sample_get] [bytes_of "hello"] [] []).

(** Two clients, one after the other, in the parent; and the child of the
    first, which serves it. *)
Lemma proxy_loop_correct_witness :
  (exists w, proxy_loop 2 3 false 3 empty_heap (start [70; 71]) = Ok (PServing, empty_heap, w) /\ opened w = {[3]}) /\
  exists h w, proxy_loop 2 3 false 3 empty_heap (start [0]) = Ok (PExits 1, h, w) /\
    to_client (ends w) = [bytes_of "hello"].
Proof.
  split.
  - destruct (proxy_loop_correct 3 opened 2 3 false empty_heap (start [70; 71]) listener_descriptors)
      as [(w & _ & Hrun & Ho)|(k & w1 & fd & w2 & w3 & _ & _ & _ & _ & _ & _ & _ & Hrun)].
    + exists w. split; [exact Hrun|exact Ho].
    + exfalso. destruct (client_helper 3 fd false empty_heap (px_close 3 w3)) as [[[e h] w]|f]; vm_compute in Hrun;
        discriminate Hrun.
  - destruct (proxy_loop_correct 3 opened 2 3 false empty_heap (start [0]) listener_descriptors)
      as [(w & _ & Hrun & Ho)|(k & w1 & fd & w2 & w3 & _ & _ & _ & _ & _ & _ & _ & Hrun)].
    + exfalso. vm_compute in Hrun. discriminate Hrun.
    + destruct (client_helper 3 fd false empty_heap (px_close 3 w3)) as [[[e h] w]|f].
      * exists h, w. split; [exact Hrun|]. vm_compute in Hrun. injection Hrun as _ <-. reflexivity.
      * exfalso. vm_compute in Hrun. discriminate Hrun.
Defined.
