(* ===== verification/VnsComm.v ===== *)
(** * Talking to the virtual network server

    Models the rest of [Assignment2/src/router/sr_vns_comm.c]: opening the
    session, reading one command from the stream, and the handlers of the
    hardware, routing-table, authentication and packet commands.  What is
    only printed has no effect here but for what the printing reads: a text
    of the server that has no end, or an interface address that was never
    set.  Proved: a command is read whole however the stream splits it, and a
    closed stream is read for ever; the interface list the hardware command
    builds; the answer to an authentication request; what becomes of ARP
    packets. *)

From S2P Require Import Prelude Heap CString Checksum Sha1 ArpCache SrIf SrRt SrDumper SrInstance Layout Protocol Router SrPrint.

(** ** The operating system *)

Inductive read_result : Type :=
| Got (bytes : list Z)   (* the bytes read; none at the end of the stream *)
| Interrupted   (* -1 with errno EINTR *)
| Failed.   (* -1 with another errno *)

(** The calls the session makes besides [write] and [send].  [os_read] is
    [recv] or [read] with a maximal count. *)
Class VnsOS (W : Type) := {
  vns_server :: Server W;
  os_read : Z -> Z -> W -> read_result * W;
  os_close : Z -> W -> W;
  os_resolve : list Z -> W -> option (list Z);   (* gethostbyname: the address *)
  os_socket : W -> Z * W;
  os_connect : Z -> list Z -> Z -> W -> Z * W;   (* the address and the port *)
  os_file : list Z -> W -> option (list Z);   (* fopen for reading: the contents *)
  os_create : list Z -> W -> bool * W;   (* fopen for writing *)
  os_fwrite : list Z -> list Z -> W -> W   (* fwrite to the file just opened, and fclose *)
}.

(** ** Message layouts ([vnscommand.h]) *)

Definition VNSOPEN : Z := 1.
Definition VNSCLOSE : Z := 2.
Definition VNSBANNER : Z := 8.
Definition VNSHWINFO : Z := 16.
Definition VNS_RTABLE : Z := 32.
Definition VNS_OPEN_TEMPLATE : Z := 64.
Definition VNS_AUTH_REQUEST : Z := 128.
Definition VNS_AUTH_REPLY : Z := 256.
Definition VNS_AUTH_STATUS : Z := 512.

Definition HWINTERFACE : Z := 1.
Definition HWETHER : Z := 32.
Definition HWETHIP : Z := 64.

Definition IDSIZE : nat := 32.
Definition sizeof_c_base : nat := 8.
Definition sizeof_hw_entry : Z := 36.
Definition sizeof_c_open : Z := 108.
Definition sizeof_c_open_template : Z := 70.

(** A field in network order: [ntohl] of what the machine reads. *)
Definition net_field (p : list Z) (off : nat) : run Z := b ← slice p off 4; Ok (be_val b).

Section code.
Context {W : Type} `{VnsOS W}.
Abbreviation sr_instance := (sr_instance W).

(** ** Handlers *)

(** One turn of the loop of [sr_handle_hwinfo]; the other keys have no
    effect. *)
Definition handle_hw_entry (hwinfo : list Z) (i : Z) (t : interfaces) : run interfaces :=
  let off := Z.to_nat (8 + sizeof_hw_entry * i) in
  mKey ← net_field hwinfo off;
  value ← slice hwinfo (off + 4) 32;
  if decide (mKey = HWINTERFACE) then sr_add_interface t value
  else if decide (mKey = HWETHIP) then i ← get_field value 0 4; sr_set_ether_ip t i
  else if decide (mKey = HWETHER) then sr_set_ether_addr t value
  else Ok t.

Definition sr_handle_hwinfo (sr : sr_instance) (hwinfo : list Z) : run (Z * sr_instance) :=
  mLen ← net_field hwinfo 0;
  let num_entries := to_int (u64 (mLen - 8) / sizeof_hw_entry) in
  t ← for_from (Z.to_nat num_entries) 0 (handle_hw_entry hwinfo) (if_list_of sr);
  sr_print_if_list t;;
  Ok (num_entries, set_if_list t sr).

(** [fn] has room for a host name of 32 characters. *)
Definition sr_handle_rtable (sr : sr_instance) (rtable : list Z) : run (Z * sr_instance) :=
  hostid ← str_of (drop sizeof_c_base rtable);
  if decide (zlen hostid > 32) then Crash OutOfRange else
  let fn := bytes_of "rtable." ++ hostid in
  let '(fp, w) := os_create fn (server sr) in
  if fp : bool then
    mLen ← net_field rtable 0;
    body ← slice rtable 40 (Z.to_nat (u32 (mLen - 8 - 32)));
    Ok (1, set_server (os_fwrite fn body w) sr)
  else Ok (0, set_server w sr).

Definition AUTH_KEY_LEN : Z := 64.
Definition SHA1_LEN : Z := 20.

(** The 64 bytes hashed of the buffer [fgets] filled: the line, its end, and
    whatever the buffer held behind it. *)
Definition auth_key_bytes (line : list Z) : run (list Z) :=
  let auth_key := line ++ [0] in
  if decide (zlen auth_key < AUTH_KEY_LEN) then Crash Uninit else Ok (take 64 auth_key).

(** [sha1] starts uninitialised; [SHA1Reset] sets all of it but the block. *)
Definition sr_handle_auth_request (sr : sr_instance) (sha1 : SHA1Context) (req : list Z)
    : run (Z * sr_instance) :=
  match os_file (bytes_of "auth_key") (server sr) with
  | None => Ok (0, sr)
  | Some [] => Ok (0, sr)
  | Some file =>
      let '(line, _) := fgets 64 file in
      mLen ← net_field req 0;
      let salt := drop sizeof_c_base req in
      sha1 ← SHA1Input (SHA1Reset sha1) salt (u32 (mLen - 8));
      key ← auth_key_bytes line;
      sha1 ← SHA1Input sha1 key AUTH_KEY_LEN;
      '(ok, sha1) ← SHA1Result sha1;
      if decide (ok = 0) then Ok (0, sr) else
      username ← str_of (user sr);
      let len := 12 + zlen username + SHA1_LEN in
      let ar := be_bytes 4 len ++ be_bytes 4 VNS_AUTH_REPLY ++ be_bytes 4 (zlen username) ++
                username ++ concat (be_bytes 4 <$> Message_Digest sha1) in
      let '(n, w) := os_send (sockfd sr) ar (server sr) in
      Ok (if decide (n <> len) then 0 else 1, set_server w sr)
  end.

(** The user's name is printed, and the server's message on a failure. *)
Definition sr_handle_auth_status (sr : sr_instance) (status : list Z) : run Z :=
  auth_ok ← arr_get status 8;
  str_of (user sr);;
  (if decide (auth_ok <> 0) then Ok [] else str_of (drop 9 status));;
  Ok auth_ok.

(** [len] is unsigned. *)
Definition sr_arp_req_not_for_us (sr : sr_instance) (packet : list Z) (len : Z) (interface : list Z) : run Z :=
  iface ← sr_get_interface (if_list_of sr) interface;
  if decide (len < 42) then Ok 0 else
  c_assert (bool_decide (iface <> NULL));;
  ether_type ← frame_ether_type packet;
  if decide (ether_type = htons ethertype_arp) then
    op ← frame_ar_op packet;
    if decide (op = htons arp_op_request) then
      tip ← frame_ar_tip packet;
      x ← hload (ifs (if_list_of sr)) iface;
      i ← need Uninit (ip x);
      Ok (if decide (tip <> i) then 1 else 0)
    else Ok 0
  else Ok 0.

(** ** One command *)

(** [while (bytes_read < n)] around [recv] or [read]: [None] is a failed call.
    The end of the stream adds no byte and the loop goes on. *)
Fixpoint read_all (fuel : nat) (fd : Z) (n : Z) (got : list Z) (w : W) : run (option (list Z) * W) :=
  if decide (zlen got < n) then
    match fuel with
    | O => Crash Fuel
    | S fuel =>
        match os_read fd (n - zlen got) w with
        | (Interrupted, w) => read_all fuel fd n got w
        | (Failed, w) => Ok (None, w)
        | (Got bytes, w) => read_all fuel fd n (got ++ bytes) w
        end
    end
  else Ok (Some got, w).

(** The commands, from [switch (command)] on; the result is what the function
    returns. *)
Definition dispatch (fuel : nat) (sr : sr_instance) (sha1 : SHA1Context) (buf : list Z) (len command now : Z)
    : run (Z * sr_instance) :=
  if decide (command = VNSPACKET) then
    let packet := drop 24 buf in
    let interface := drop sizeof_c_base buf in
    drop_it ← sr_arp_req_not_for_us sr packet (u32 (len - 38 + 14)) interface;
    if decide (drop_it <> 0) then Ok (1, sr) else
    mLen ← net_field buf 0;
    w ← sr_log_packet (logfile sr) packet (to_int (u64 (mLen - sizeof_packet_header))) (server sr);
    let sr := set_server w sr in
    sr ← sr_handlepacket fuel sr packet now;
    Ok (1, sr)
  else if decide (command = VNSCLOSE) then str_of (drop sizeof_c_base buf);; Ok (0, sr)
  else if decide (command = VNSBANNER) then str_of (drop sizeof_c_base buf);; Ok (1, sr)
  else if decide (command = VNSHWINFO) then
    '(_, sr) ← sr_handle_hwinfo sr buf;
    bad ← sr_verify_routing_table (if_list_of sr) (routing_table_of sr);
    Ok (if decide (bad <> 0) then -1 else 1, sr)
  else if decide (command = VNS_RTABLE) then
    '(ok, sr) ← sr_handle_rtable sr buf; Ok (if decide (ok = 0) then -1 else 1, sr)
  else if decide (command = VNS_AUTH_REQUEST) then
    '(ok, sr) ← sr_handle_auth_request sr sha1 buf; Ok (if decide (ok = 0) then -1 else 1, sr)
  else if decide (command = VNS_AUTH_STATUS) then
    ok ← sr_handle_auth_status sr buf; Ok (if decide (ok = 0) then -1 else 1, sr)
  else Ok (1, sr).

(** The message in memory: the length and, once it has been looked at, the
    type in the order of the machine. *)
Definition sr_read_from_server_expect (fuel : nat) (sr : sr_instance) (sha1 : SHA1Context)
    (expected_cmd now : Z) : run (Z * sr_instance) :=
  '(l, w) ← read_all fuel (sockfd sr) 4 [] (server sr);
  match l with
  | None => Ok (-1, set_server w sr)
  | Some l =>
      let len := to_int (be_val l) in
      if decide (len > 10000 \/ len < 0) then Ok (-1, set_server (os_close (sockfd sr) w) sr) else
      if decide (len < 4) then Crash OutOfRange else
      '(body, w) ← read_all fuel (sockfd sr) (len - 4) [] w;
      match body with
      | None => Ok (-1, set_server (os_close (sockfd sr) w) sr)
      | Some body =>
          let sr := set_server w sr in
          let buf := be_bytes 4 len ++ body in
          t ← net_field buf 4;
          let command := to_int t in
          buf ← patch buf 4 (le_bytes 4 (u32 command));
          if decide (expected_cmd <> 0 /\ command <> expected_cmd /\ command <> VNSCLOSE) then Ok (-1, sr)
          else dispatch fuel sr sha1 buf len command now
      end
  end.

Definition sr_read_from_server (fuel : nat) (sr : sr_instance) (sha1 : SHA1Context) (now : Z)
    : run (Z * sr_instance) :=
  sr_read_from_server_expect fuel sr sha1 0 now.

(** ** Opening the session *)

(** The message that opens it. *)
Definition open_message (sr : sr_instance) : run (list Z) :=
  tlen ← str_of (template sr);
  if decide (zlen tlen > 0) then
    Ok (be_bytes 4 sizeof_c_open_template ++ be_bytes 4 VNS_OPEN_TEMPLATE ++ strncpy (template sr) 30 ++
        strncpy (host sr) (Z.of_nat IDSIZE))
  else
    Ok (be_bytes 4 sizeof_c_open ++ be_bytes 4 VNSOPEN ++ be_bytes 2 (topo_id sr) ++ [0; 0] ++
        strncpy (host sr) (Z.of_nat IDSIZE) ++ strncpy (user sr) (Z.of_nat IDSIZE) ++ replicate IDSIZE 0).

(** Once the server has accepted the user. *)
Definition open_session (fuel : nat) (sr : sr_instance) (sha1 : SHA1Context) (now : Z) : run (Z * sr_instance) :=
  buf ← open_message sr;
  let '(n, w) := os_send (sockfd sr) buf (server sr) in
  let sr := set_server w sr in
  if decide (n <> zlen buf) then Ok (-1, sr) else
  tlen ← str_of (template sr);
  if decide (zlen tlen > 0) then
    '(r, sr) ← sr_read_from_server_expect fuel sr sha1 VNS_RTABLE now;
    if decide (r <> 1) then Ok (-1, sr) else Ok (0, sr)
  else Ok (0, sr).

Definition sr_connect_to_server (fuel : nat) (sr : sr_instance) (sha1 : SHA1Context) (port now : Z)
    (server_name : list Z) : run (Z * sr_instance) :=
  match os_resolve server_name (server sr) with
  | None => Ok (-1, sr)
  | Some h_addr =>
      let '(fd, w) := os_socket (server sr) in
      let sr := set_sockfd fd (set_server w sr) in
      if decide (fd < 0) then Ok (-1, sr) else
      let '(r, w) := os_connect fd h_addr port w in
      if decide (r < 0) then Ok (-1, set_server (os_close fd w) sr) else
      let sr := set_server w sr in
      '(r, sr) ← sr_read_from_server_expect fuel sr sha1 VNS_AUTH_REQUEST now;
      if decide (r <> 1) then Ok (-1, sr) else
      '(r, sr) ← sr_read_from_server_expect fuel sr sha1 VNS_AUTH_STATUS now;
      if decide (r <> 1) then Ok (-1, sr) else
      open_session fuel sr sha1 now
  end.
End code.

(** ** Reading a command *)

Section reading.
Context {W : Type} `{VnsOS W} (pending : W -> list Z) (signals : W -> nat).

(** A stream with data: a call returns some of it, or is interrupted, which
    happens finitely often. *)
Definition stream_reads (fd : Z) : Prop := forall n w, 0 < n -> pending w <> [] ->
  (exists k w', os_read fd n w = (Got (take k (pending w)), w') /\ (0 < k)%nat /\ Z.of_nat k <= n /\
     pending w' = drop k (pending w) /\ (signals w' <= signals w)%nat) \/
  (exists w', os_read fd n w = (Interrupted, w') /\ pending w' = pending w /\ (signals w' < signals w)%nat).

(** A stream the server has closed. *)
Definition stream_ends (fd : Z) : Prop := forall n w, 0 < n -> pending w = [] ->
  exists w', os_read fd n w = (Got [], w') /\ pending w' = [].

Lemma read_all_ok fd n : stream_reads fd -> forall fuel got a b w,
  pending w = a ++ b -> zlen got + zlen a = n -> (length a + signals w <= fuel)%nat ->
  exists w', read_all fuel fd n got w = Ok (Some (got ++ a), w') /\ pending w' = b /\ (signals w' <= signals w)%nat.
Proof.
  intros Hst fuel. induction fuel as [|fuel IH]; intros got a b w Hp Hn Hf; cbn [read_all].
  - destruct a as [|x a]; [|cbn in Hf; lia]. rewrite decide_False by (cbn in Hn; lia).
    exists w. by rewrite app_nil_r.
  - case_decide as Hd.
    2:{ assert (a = []) as -> by (destruct a; [done|cbn in Hn; lia]). exists w. by rewrite app_nil_r. }
    destruct (Hst (n - zlen got) w) as [(k & w1 & Hr & Hk & Hkn & Hp1 & Hs1)|(w1 & Hr & Hp1 & Hs1)]; [lia| | |].
    { rewrite Hp. destruct a; [cbn in Hn; lia|done]. }
    + rewrite Hr. assert (k <= length a)%nat as Hka by lia. rewrite Hp in Hp1 |- *.
      rewrite take_app_le, drop_app_le in * by lia.
      destruct (IH (got ++ take k a) (drop k a) b w1 Hp1) as (w2 & -> & Hp2 & Hs2).
      * rewrite length_app, length_take_le, length_drop by lia. lia.
      * rewrite length_drop. lia.
      * exists w2. rewrite <- app_assoc, take_drop. split_and!; [done|done|lia].
    + rewrite Hr. destruct (IH got a b w1) as (w2 & -> & Hp2 & Hs2); [congruence|done|lia|].
      exists w2. split_and!; [done|done|lia].
Qed.

(** A stream that ends too early is read for ever. *)
Lemma read_all_short fd n : stream_reads fd -> stream_ends fd -> forall fuel got w,
  zlen got + zlen (pending w) < n -> read_all fuel fd n got w = Crash Fuel.
Proof.
  intros Hst Hend fuel. induction fuel as [|fuel IH]; intros got w Hn; cbn [read_all];
    rewrite decide_True by lia; [done|].
  destruct (decide (pending w = [])) as [Hp|Hp].
  - destruct (Hend (n - zlen got) w) as (w' & -> & Hp'); [lia|done|].
    apply IH. rewrite app_nil_r, Hp'. rewrite Hp in Hn. done.
  - destruct (Hst (n - zlen got) w) as [(k & w1 & -> & Hk & Hkn & Hp1 & _)|(w1 & -> & Hp1 & _)]; [lia|done| |].
    + apply IH. rewrite Hp1, length_app, length_take, length_drop. lia.
    + apply IH. by rewrite Hp1.
Qed.

(** What reads do not disturb, the whole loop does not. *)
Lemma read_all_inv (I : W -> Prop) fd n : (forall n w, I w -> I (os_read fd n w).2) ->
  forall fuel got w r w', I w -> read_all fuel fd n got w = Ok (r, w') -> I w'.
Proof.
  intros HI fuel. induction fuel as [|fuel IH]; intros got w r w' Hw Hr; cbn [read_all] in Hr;
    (case_decide; [|by injection Hr as <- <-]); [done|].
  pose proof (HI (n - zlen got) w Hw) as H1. destruct (os_read fd (n - zlen got) w) as [[b| |] w1]; cbn [snd] in H1;
    [by eapply IH|by eapply IH|by injection Hr as <- <-].
Qed.

Abbreviation sr_instance := (sr_instance W).
Implicit Types sr : sr_instance.

(** The message in memory after its type was converted. *)
Definition in_memory (len : Z) (body : list Z) : list Z :=
  be_bytes 4 len ++ le_bytes 4 (be_val (take 4 body)) ++ drop 4 body.

Lemma be_val_be_4 z : 0 <= z < 2 ^ 32 -> be_val (be_bytes 4 z) = z.
Proof. intros Hz. rewrite be_val_bytes. by apply Z.mod_small. Qed.

Lemma command_patch len body : (4 <= length body)%nat -> Forall is_byte body ->
  net_field (be_bytes 4 len ++ body) 4 = Ok (be_val (take 4 body)) /\
  patch (be_bytes 4 len ++ body) 4 (le_bytes 4 (u32 (to_int (be_val (take 4 body))))) = Ok (in_memory len body).
Proof.
  intros Hl Hb. pose proof (length_be_bytes 4 len) as Hlen.
  assert (0 <= be_val (take 4 body) < 2 ^ 32) as Hr.
  { pose proof (be_val_range (take 4 body)) as Hr. rewrite length_take_le in Hr by lia.
    apply Hr. by apply Forall_take. }
  rewrite u32_to_int by done. split.
  - unfold net_field. rewrite slice_ok by (rewrite length_app; lia). run_step.
    by rewrite drop_app_length' by done.
  - rewrite patch_ok by (rewrite length_app, length_le_bytes; lia). unfold in_memory.
    rewrite take_app_length' by done. rewrite length_le_bytes, drop_app_ge by lia. by rewrite Hlen.
Qed.

(** A command read whole; [I] is anything reads do not disturb. *)
Lemma expect_ok (I : W -> Prop) fuel sr sha1 expected now len body more : stream_reads (sockfd sr) ->
  (forall n w, I w -> I (os_read (sockfd sr) n w).2) -> I (server sr) ->
  pending (server sr) = be_bytes 4 len ++ body ++ more -> 8 <= len <= 10000 ->
  zlen body = len - 4 -> Forall is_byte body -> (Z.to_nat len + signals (server sr) <= fuel)%nat ->
  exists w, pending w = more /\ (signals w <= signals (server sr))%nat /\ I w /\
    sr_read_from_server_expect fuel sr sha1 expected now
    = (let command := to_int (be_val (take 4 body)) in
       if decide (expected <> 0 /\ command <> expected /\ command <> VNSCLOSE) then Ok (-1, set_server w sr)
       else dispatch fuel (set_server w sr) sha1 (in_memory len body) len command now).
Proof.
  intros Hst HI HI0 Hp Hl Hb HF Hf. unfold sr_read_from_server_expect.
  destruct (read_all_ok (sockfd sr) 4 Hst fuel [] (be_bytes 4 len) (body ++ more) (server sr)) as (w1 & H1 & Hp1 & Hs1);
    [done|by rewrite length_be_bytes|rewrite length_be_bytes; lia|].
  rewrite H1. pose proof (read_all_inv I _ _ HI _ _ _ _ _ HI0 H1) as HI1. run_step. cbn [app].
  rewrite be_val_be_4, to_int_small by lia. rewrite decide_False, decide_False by lia.
  destruct (read_all_ok (sockfd sr) (len - 4) Hst fuel [] body more w1) as (w2 & H2 & Hp2 & Hs2); [done|cbn; lia|lia|].
  rewrite H2. pose proof (read_all_inv I _ _ HI _ _ _ _ _ HI1 H2) as HI2. run_step. cbn [app].
  destruct (command_patch len body) as [-> Hpt]; [lia|done|]. run_step. rewrite Hpt. run_step.
  exists w2. split_and!; [done|lia|done|done].
Qed.

(** A command of the server. *)
Definition vns_command (ty : Z) (payload : list Z) : list Z :=
  be_bytes 4 (8 + zlen payload) ++ be_bytes 4 ty ++ payload.

(** The same in memory, its type converted. *)
Definition command_in_memory (ty : Z) (payload : list Z) : list Z :=
  be_bytes 4 (8 + zlen payload) ++ le_bytes 4 ty ++ payload.

(** A command that is not refused reaches its handler. *)
Lemma expect_command (I : W -> Prop) fuel sr sha1 expected ty payload more now : stream_reads (sockfd sr) ->
  (forall n w, I w -> I (os_read (sockfd sr) n w).2) -> I (server sr) ->
  pending (server sr) = vns_command ty payload ++ more -> expected = 0 \/ expected = ty -> 0 < ty < 2 ^ 31 ->
  zlen payload <= 9992 -> Forall is_byte payload -> 10000 + Z.of_nat (signals (server sr)) <= Z.of_nat fuel ->
  exists w, pending w = more /\ (signals w <= signals (server sr))%nat /\ I w /\
    sr_read_from_server_expect fuel sr sha1 expected now
    = dispatch fuel (set_server w sr) sha1 (command_in_memory ty payload) (8 + zlen payload) ty now.
Proof.
  intros Hst HI HI0 Hp He Hty Hl Hb Hf. pose proof (length_be_bytes 4 ty) as Hlt.
  destruct (expect_ok I fuel sr sha1 expected now (8 + zlen payload) (be_bytes 4 ty ++ payload) more Hst HI HI0)
    as (w & Hw & Hs & HIw & Hr).
  - rewrite Hp. unfold vns_command. by rewrite <- !app_assoc.
  - lia.
  - rewrite length_app. lia.
  - apply Forall_app. split; [apply be_bytes_is_byte|done].
  - lia.
  - exists w. do 3 (split; [done|]). cbv zeta in Hr. unfold in_memory in Hr.
    rewrite take_app_length', drop_app_length' in Hr by done.
    rewrite be_val_be_4, to_int_small in Hr by lia. rewrite decide_False in Hr by naive_solver. exact Hr.
Qed.

(** [sr_read_from_server_expect] reads exactly one command however the
    stream splits it and however often the calls are interrupted, and leaves
    the next one in the stream: a command of 8 to 10000 bytes is handed to the
    [switch] with its type converted, or refused with -1 when another one was
    expected and it does not close the session.  A larger or negative length
    closes the socket and gives -1.  A length below 8 is not refused: the
    length or the type is then accessed outside the buffer.  When the server
    closes the stream inside a command, or instead of one, the function never
    returns, since a read of no bytes is not an error to its loops. *)
Theorem read_from_server_correct fuel sr sha1 expected now :
  stream_reads (sockfd sr) -> stream_ends (sockfd sr) ->
  (forall len body more, pending (server sr) = be_bytes 4 len ++ body ++ more -> 8 <= len <= 10000 ->
     zlen body = len - 4 -> Forall is_byte body -> (Z.to_nat len + signals (server sr) <= fuel)%nat ->
     exists w, pending w = more /\
       sr_read_from_server_expect fuel sr sha1 expected now
       = (let command := to_int (be_val (take 4 body)) in
          if decide (expected <> 0 /\ command <> expected /\ command <> VNSCLOSE) then Ok (-1, set_server w sr)
          else dispatch fuel (set_server w sr) sha1 (in_memory len body) len command now)) /\
  (forall len more, pending (server sr) = be_bytes 4 len ++ more -> 0 <= len < 2 ^ 32 ->
     (4 + signals (server sr) <= fuel)%nat -> 10000 < len ->
     exists w, sr_read_from_server_expect fuel sr sha1 expected now
       = Ok (-1, set_server (os_close (sockfd sr) w) sr)) /\
  (forall len body more, pending (server sr) = be_bytes 4 len ++ body ++ more -> 0 <= len < 8 ->
     zlen body = Z.max 0 (len - 4) -> (8 + signals (server sr) <= fuel)%nat ->
     sr_read_from_server_expect fuel sr sha1 expected now = Crash OutOfRange) /\
  (zlen (pending (server sr)) < 4 -> sr_read_from_server_expect fuel sr sha1 expected now = Crash Fuel) /\
  (forall len body, pending (server sr) = be_bytes 4 len ++ body -> len <= 10000 -> zlen body < len - 4 ->
     (4 + signals (server sr) <= fuel)%nat -> sr_read_from_server_expect fuel sr sha1 expected now = Crash Fuel).
Proof.
  intros Hst Hend.
  assert (forall len rest, pending (server sr) = be_bytes 4 len ++ rest ->
    (4 + signals (server sr) <= fuel)%nat -> exists w,
    read_all fuel (sockfd sr) 4 [] (server sr) = Ok (Some (be_bytes 4 len), w) /\ pending w = rest /\
    (signals w <= signals (server sr))%nat) as Hlen.
  { intros len rest Hp Hf. apply (read_all_ok _ _ Hst fuel [] (be_bytes 4 len) rest); [done|..];
      rewrite length_be_bytes; done. }
  split.
  { intros len body more Hp Hl Hb HF Hf.
    destruct (expect_ok (fun _ => True) fuel sr sha1 expected now len body more) as (w & Hw & _ & _ & Hr); [done..|].
    by exists w. }
  unfold sr_read_from_server_expect. split_and!.
  - intros len more Hp Hl Hf Hbig. destruct (Hlen len more Hp Hf) as (w1 & -> & _). run_step.
    rewrite be_val_be_4 by lia. exists w1. rewrite decide_True; [done|].
    unfold to_int. destruct (decide (len < 2 ^ 31)); [rewrite Z.mod_small by lia; lia|].
    replace (len + 2 ^ 31) with (len - 2 ^ 31 + 1 * 2 ^ 32) by lia. rewrite Z.mod_add, Z.mod_small by lia. lia.
  - intros len body more Hp Hl Hb Hf. destruct (Hlen len (body ++ more) Hp) as (w1 & -> & Hp1 & Hs1); [lia|].
    run_step. rewrite be_val_be_4, to_int_small by lia. rewrite decide_False by lia. case_decide; [done|].
    destruct (read_all_ok (sockfd sr) (len - 4) Hst fuel [] body more w1) as (w2 & -> & Hp2 & _); [done|cbn; lia|lia|].
    run_step. cbn [app]. unfold net_field, slice.
    rewrite decide_False by (rewrite length_app, length_be_bytes; lia). done.
  - intros Hp. by rewrite (read_all_short _ _ Hst Hend).
  - intros len body Hp Hl Hb Hf. destruct (Hlen len body Hp Hf) as (w1 & -> & Hp1 & Hs1).
    run_step. rewrite be_val_be_4, to_int_small by lia. rewrite decide_False, decide_False by lia.
    by rewrite (read_all_short _ _ Hst Hend) by (cbn; rewrite Hp1; lia).
Qed.
End reading.

(** ** The hardware command *)

Section hardware.
Context {W : Type} `{VnsOS W}.
Abbreviation sr_instance := (sr_instance W).
Implicit Types sr : sr_instance.

(** What an entry does to the interfaces announced so far; [None]: an entry
    that sets an address before any interface was named. *)
Definition hw_effect (vs : option (list iface)) (e : Z * list Z) : option (list iface) :=
  let '(mKey, value) := e in
  match vs with
  | None => None
  | Some vs =>
      if decide (mKey = HWINTERFACE) then Some (vs ++ [Iface (take 32 (c_str value)) None None])
      else if decide (mKey = HWETHIP \/ mKey = HWETHER) then
        match last vs with
        | None => None
        | Some v =>
            Some (take (length vs - 1) vs ++
              [if decide (mKey = HWETHIP) then Iface (i_name v) (i_addr v) (Some (le_val (take 4 value)))
               else Iface (i_name v) (Some (take 6 value)) (i_ip v)])
        end
      else Some vs
  end.

(** The interfaces of the list, whatever their addresses in memory. *)
Definition if_list_rep (t : interfaces) (vs : list iface) (rest : gmap positive sr_if) : Prop :=
  exists avs, if_rep t avs rest /\ avs.*2 = vs /\ ifaces_wf t.

Lemma add_interface_str t nm : sr_add_interface t nm = sr_add_interface t (c_str nm).
Proof.
  assert (new_if nm = new_if (c_str nm)) as He.
  { unfold new_if, strncpy. by rewrite (c_str_id (c_str nm)) by apply c_str_is_str. }
  unfold sr_add_interface. by rewrite He.
Qed.

Definition hw_entry (e : Z * list Z) : list Z := be_bytes 4 e.1 ++ e.2.
Definition hw_entry_ok (e : Z * list Z) : Prop := 0 <= e.1 < 2 ^ 32 /\ length e.2 = 32%nat.

Lemma length_hw_entries es : Forall hw_entry_ok es -> length (concat (hw_entry <$> es)) = (36 * length es)%nat.
Proof.
  induction 1 as [|e es [_ He] _ IH]; [done|]. rewrite fmap_cons. cbn [concat length].
  rewrite length_app, IH. unfold hw_entry. rewrite length_app, length_be_bytes. lia.
Qed.

(** The fields of the entry [e] behind [pre]. *)
Lemma hw_fields hdr es1 e es2 : length hdr = 8%nat -> Forall hw_entry_ok es1 -> hw_entry_ok e ->
  let msg := hdr ++ concat (hw_entry <$> (es1 ++ e :: es2)) in
  let off := Z.to_nat (8 + sizeof_hw_entry * zlen es1) in
  net_field msg off = Ok e.1 /\ slice msg (off + 4) 32 = Ok e.2.
Proof.
  intros Hh H1 [He1 He2] msg off. pose proof (length_hw_entries _ H1) as Hl.
  assert (msg = (hdr ++ concat (hw_entry <$> es1)) ++ be_bytes 4 e.1 ++ e.2 ++ concat (hw_entry <$> es2)) as Hm.
  { unfold msg. rewrite fmap_app, concat_app, fmap_cons. cbn [concat]. unfold hw_entry at 2.
    by rewrite <- !app_assoc. }
  assert (off = length (hdr ++ concat (hw_entry <$> es1))) as Ho.
  { unfold off, sizeof_hw_entry. rewrite length_app, Hl. lia. }
  rewrite Hm, Ho. unfold net_field. pose proof (length_be_bytes 4 e.1) as Hb. split.
  - rewrite slice_ok by (rewrite !length_app; lia). run_step.
    rewrite drop_app_length, take_app_length' by done. by rewrite be_val_be_4.
  - rewrite slice_ok by (rewrite !length_app; lia).
    rewrite drop_app_ge by lia.
    replace (length (hdr ++ concat (hw_entry <$> es1)) + 4 - length (hdr ++ concat (hw_entry <$> es1)))%nat
      with 4%nat by lia.
    by rewrite drop_app_length', take_app_length' by done.
Qed.

(** One entry. *)
Lemma hw_entry_step msg i e t vs rest : if_list_rep t vs rest -> hw_entry_ok e ->
  net_field msg (Z.to_nat (8 + sizeof_hw_entry * i)) = Ok e.1 ->
  slice msg (Z.to_nat (8 + sizeof_hw_entry * i) + 4) 32 = Ok e.2 ->
  match hw_effect (Some vs) e with
  | Some vs' => exists t', handle_hw_entry msg i t = Ok t' /\ if_list_rep t' vs' rest
  | None => handle_hw_entry msg i t = Crash Abort
  end.
Proof.
  intros (avs & Hrep & <- & Hwf) [_ Hlen] Hk Hv. destruct e as [mKey value]. cbn [fst snd] in *.
  unfold handle_hw_entry. rewrite Hk. run_step. rewrite Hv. run_step. unfold hw_effect.
  destruct (decide (mKey = HWINTERFACE)) as [->|Hni].
  - rewrite add_interface_str.
    destruct (add_interface_ok t avs rest (c_str value) Hrep (c_str_is_str _)) as (t' & a & Hr & Hrep').
    rewrite Hr. exists t'. split; [done|]. eexists. split; [exact Hrep'|].
    split; [by rewrite fmap_app|by eapply add_interface_wf].
  - destruct (decide (mKey = HWETHIP \/ mKey = HWETHER)) as [Hor|Hno].
    2:{ rewrite !decide_False by naive_solver. exists t. split; [done|]. by exists avs. }
    assert (get_field value 0 4 = Ok (le_val (take 4 value))) as Hf
      by (unfold get_field; by rewrite slice_ok by lia).
    destruct avs as [|[a v] avs _] using rev_ind.
    + destruct (set_empty_ok _ _ Hrep) as [H1 H2]. cbn [fmap list_fmap last].
      destruct (decide (mKey = HWETHIP)) as [->|]; [rewrite Hf; run_step; apply H2|].
      rewrite decide_True by naive_solver. apply H1.
    + rewrite fmap_app. cbn [fmap list_fmap snd]. rewrite last_snoc.
      rewrite length_app. cbn [length]. rewrite Nat.add_sub, take_app_length.
      destruct (decide (mKey = HWETHIP)) as [->|Hne].
      * rewrite Hf. run_step. destruct (set_ether_ip_ok _ _ _ _ _ (le_val (take 4 value)) Hrep) as (t' & Hr & Hrep').
        rewrite Hr. exists t'. split; [done|]. eexists. split; [exact Hrep'|].
        split; [by rewrite fmap_app|by eapply set_ether_ip_wf].
      * rewrite decide_True by naive_solver.
        destruct (set_ether_addr_ok _ _ _ _ _ value Hrep) as (t' & Hr & Hrep'); [lia|].
        rewrite Hr. exists t'. split; [done|]. eexists. split; [exact Hrep'|].
        split; [by rewrite fmap_app|by eapply set_ether_addr_wf].
Qed.

Lemma hw_effect_none es : foldl hw_effect None es = None.
Proof. induction es as [|[k v] es IH]; [done|exact IH]. Qed.

Lemma hw_loop_ok hdr es2 : length hdr = 8%nat -> forall es1 t vs rest, Forall hw_entry_ok (es1 ++ es2) ->
  if_list_rep t vs rest ->
  let msg := hdr ++ concat (hw_entry <$> (es1 ++ es2)) in
  match foldl hw_effect (Some vs) es2 with
  | Some vs' => exists t', for_from (length es2) (zlen es1) (handle_hw_entry msg) t = Ok t' /\ if_list_rep t' vs' rest
  | None => for_from (length es2) (zlen es1) (handle_hw_entry msg) t = Crash Abort
  end.
Proof.
  intros Hh. induction es2 as [|e es2 IH]; intros es1 t vs rest Hok Hrep msg; cbn [foldl length for_from].
  - by exists t.
  - pose proof Hok as Hok'. apply Forall_app in Hok' as [H1 H2]. apply Forall_cons in H2 as [He H2].
    destruct (hw_fields hdr es1 e es2 Hh H1 He) as [Hf Hs]. fold msg in Hf, Hs.
    pose proof (hw_entry_step msg (zlen es1) e t vs rest Hrep He Hf Hs) as Hstep.
    destruct (hw_effect (Some vs) e) as [vs1|].
    + destruct Hstep as (t1 & -> & Hrep1). run_step.
      pose proof (IH (es1 ++ [e]) t1 vs1 rest) as Hn. rewrite <- app_assoc in Hn. cbn [app] in Hn.
      rewrite length_app in Hn. cbn [length] in Hn.
      replace (Z.of_nat (length es1 + 1)) with (zlen es1 + 1) in Hn by lia. by apply Hn.
    + rewrite Hstep, hw_effect_none. done.
Qed.

Lemma dispatch_hwinfo fuel sr sha1 buf len now :
  dispatch fuel sr sha1 buf len VNSHWINFO now
  = ('(_, sr) ← sr_handle_hwinfo sr buf;
     bad ← sr_verify_routing_table (if_list_of sr) (routing_table_of sr);
     Ok (if decide (bad <> 0) then -1 else 1, sr)).
Proof. reflexivity. Qed.

(** The whole command. *)
Lemma hwinfo_ok sr vs rest ty es :
  if_list_rep (if_list_of sr) vs rest -> Forall hw_entry_ok es -> length ty = 4%nat ->
  8 + 36 * zlen es < 2 ^ 31 ->
  let msg := be_bytes 4 (8 + 36 * zlen es) ++ ty ++ concat (hw_entry <$> es) in
  match foldl hw_effect (Some vs) es with
  | None => sr_handle_hwinfo sr msg = Crash Abort
  | Some vs' =>
      match first_fault vs' with
      | Some f => sr_handle_hwinfo sr msg = Crash f
      | None => exists t, sr_handle_hwinfo sr msg = Ok (zlen es, set_if_list t sr) /\ if_list_rep t vs' rest
      end
  end.
Proof.
  intros Hrep Hok Hty Hmax msg. unfold sr_handle_hwinfo.
  assert (net_field msg 0 = Ok (8 + 36 * zlen es)) as ->.
  { unfold net_field, msg. rewrite slice_ok by (rewrite length_app, length_be_bytes; lia). run_step.
    rewrite drop_0, take_app_length' by done. by rewrite be_val_be_4 by lia. }
  run_step. unfold u64, sizeof_hw_entry.
  replace (8 + 36 * zlen es - 8) with (zlen es * 36) by lia.
  rewrite Z.mod_small, Z.div_mul, to_int_small, Nat2Z.id by lia.
  pose proof (hw_loop_ok (be_bytes 4 (8 + 36 * zlen es) ++ ty) es) as Hl. specialize (Hl ltac:(by rewrite length_app, Hty)).
  specialize (Hl [] (if_list_of sr) vs rest Hok Hrep). cbn [app length] in Hl. rewrite <- app_assoc in Hl. fold msg in Hl.
  change (Z.of_nat 0) with 0 in Hl.
  destruct (foldl hw_effect (Some vs) es) as [vs'|].
  - destruct Hl as (t & -> & Ht). run_step. destruct Ht as (avs & Ha & <- & Hwf).
    pose proof (print_if_list_ok t avs rest Ha Hwf) as Hp. destruct (first_fault avs.*2) as [f|]; [by rewrite Hp|].
    destruct Hp as [out ->]. run_step. exists t. split; [done|]. by exists avs.
  - by rewrite Hl.
Qed.

(** C27: a hardware command with any entries: the interface list becomes what
    the entries say one after another (a name starts a new interface, an
    address belongs to the last one named, other entries are ignored), the
    list is printed, and the number of entries is returned; no other part of
    the router changes.  An address before any name fails an assertion.  The
    printing goes wrong at the first interface of the new list that was given
    no IP address or no hardware address, which are then read without having
    been set, or whose name has 32 characters and so no end. *)
Theorem hwinfo_correct sr vs rest ty es :
  if_list_rep (if_list_of sr) vs rest -> Forall hw_entry_ok es -> length ty = 4%nat ->
  8 + 36 * zlen es < 2 ^ 31 ->
  let msg := be_bytes 4 (8 + 36 * zlen es) ++ ty ++ concat (hw_entry <$> es) in
  match foldl hw_effect (Some vs) es with
  | None => sr_handle_hwinfo sr msg = Crash Abort
  | Some vs' =>
      match first_fault vs' with
      | Some f => sr_handle_hwinfo sr msg = Crash f
      | None => exists t, sr_handle_hwinfo sr msg = Ok (zlen es, set_if_list t sr) /\ if_list_rep t vs' rest
      end
  end.
Proof. apply hwinfo_ok. Qed.
End hardware.

(** ** Authentication and packets *)

Section session.
Context {W : Type} `{VnsOS W}.
Abbreviation sr_instance := (sr_instance W).
Implicit Types sr : sr_instance.

(** Two pieces hashed. *)
Lemma sha1_two ctx p q : length (Message_Block ctx) = 64%nat -> Forall is_byte (Message_Block ctx) ->
  Forall is_byte p -> Forall is_byte q -> 8 * zlen (p ++ q) < 2 ^ 64 ->
  exists c1 c2 c3, SHA1Input (SHA1Reset ctx) p (zlen p) = Ok c1 /\ SHA1Input c1 q (zlen q) = Ok c2 /\
    SHA1Result c2 = Ok (1, c3) /\ Message_Digest c3 = Spec.sha1 (p ++ q).
Proof.
  intros Hl Hb Hp Hq Hlen.
  destruct (SHA1Hash_ok ctx [p; q]) as (c & Hrun & Hd & _); [done|done|by repeat constructor| |].
  { cbn [concat]. by rewrite app_nil_r. }
  unfold SHA1Hash in Hrun. cbn [SHA1Inputs concat] in Hrun, Hd. rewrite app_nil_r in Hd.
  destruct (SHA1Input (SHA1Reset ctx) p (zlen p)) as [c1|f] eqn:E1; [|discriminate].
  cbn [mbind run_bind] in Hrun. destruct (SHA1Input c1 q (zlen q)) as [c2|f] eqn:E2; [|discriminate].
  cbn [mbind run_bind] in Hrun. by exists c1, c2, c.
Qed.

(** The two cases with a key file. *)
Lemma auth_request_ok sr sha1 ty salt u z file line rest :
  length (Message_Block sha1) = 64%nat -> Forall is_byte (Message_Block sha1) ->
  Forall is_byte salt -> length ty = 4%nat -> 8 + zlen salt < 2 ^ 32 ->
  user sr = u ++ 0 :: z -> is_str u ->
  os_file (bytes_of "auth_key") (server sr) = Some file -> file <> [] ->
  fgets 64 file = (line, rest) -> Forall is_byte line ->
  let req := be_bytes 4 (8 + zlen salt) ++ ty ++ salt in
     (63 <= zlen line ->
     let len := 32 + zlen u in
     let reply := be_bytes 4 len ++ be_bytes 4 256 ++ be_bytes 4 (zlen u) ++ u ++
       concat (be_bytes 4 <$> Spec.sha1 (salt ++ take 64 (line ++ [0]))) in
     forall n w, os_send (sockfd sr) reply (server sr) = (n, w) ->
     sr_handle_auth_request sr sha1 req = Ok (if decide (n <> len) then 0 else 1, set_server w sr)) /\
  (zlen line < 63 -> sr_handle_auth_request sr sha1 req = Crash Uninit).
Proof.
  intros Hl Hb Hs Hty Hlen Hu Hus Hfile Hne Hf Hline req. unfold sr_handle_auth_request. rewrite Hfile. destruct file as [|x file]; [done|]. rewrite Hf.
  assert (net_field req 0 = Ok (8 + zlen salt)) as ->.
  { unfold net_field, req. rewrite slice_ok by (rewrite length_app, length_be_bytes; lia). run_step.
    rewrite drop_0, take_app_length' by done. by rewrite be_val_be_4 by lia. }
  run_step. replace (8 + zlen salt - 8) with (zlen salt) by lia. rewrite u32_small by lia.
  assert (drop sizeof_c_base req = salt) as ->.
  { unfold req. rewrite (app_assoc _ ty). apply drop_app_length'. by rewrite length_app, Hty. }
  unfold auth_key_bytes, AUTH_KEY_LEN, VNS_AUTH_REPLY, SHA1_LEN.
  assert (Forall is_byte (take 64 (line ++ [0]))) as Hkb.
  { apply Forall_take, Forall_app_2; [done|]. apply Forall_singleton. unfold is_byte. lia. }
  assert (zlen (take 64 (line ++ [0])) <= 64) as Hk64 by (rewrite length_take; lia).
  destruct (sha1_two sha1 salt (take 64 (line ++ [0]))) as (c1 & c2 & c3 & H1 & H2 & H3 & Hd); try done.
  { rewrite length_app. lia. }
  rewrite H1. run_step. split.
  - intros H63 n w Hn. rewrite decide_False by (rewrite length_app; cbn; lia). run_step.
    assert (zlen (take 64 (line ++ [0])) = 64) as Hk by (rewrite length_take, length_app; cbn [length]; lia).
    rewrite Hk in H2. rewrite H2. run_step. rewrite H3. run_step. rewrite decide_False by done.
    rewrite Hu, str_of_ok by done. run_step. rewrite Hd.
    replace (12 + zlen u + 20) with (32 + zlen u) by lia. by rewrite Hn.
  - intros H63. by rewrite decide_True by (rewrite length_app; cbn; lia).
Qed.

(** The answer to an authentication request with the given salt.  Without
    a key file, or with an empty one, the result is 0.  With a first line of at
    least 63 characters, one message goes out: length, type and length of the
    user name in network order, the name, and the SHA-1 digest of the salt
    followed by the 64 bytes of the key buffer; the result is 1 unless the
    send was short.  With a shorter line the digest is taken over bytes of the
    buffer that nothing has written. *)
Theorem auth_request_correct sr sha1 ty salt u z :
  length (Message_Block sha1) = 64%nat -> Forall is_byte (Message_Block sha1) ->
  Forall is_byte salt -> length ty = 4%nat -> 8 + zlen salt < 2 ^ 32 ->
  user sr = u ++ 0 :: z -> is_str u ->
  let req := be_bytes 4 (8 + zlen salt) ++ ty ++ salt in
  (os_file (bytes_of "auth_key") (server sr) = None \/ os_file (bytes_of "auth_key") (server sr) = Some [] ->
     sr_handle_auth_request sr sha1 req = Ok (0, sr)) /\
  (forall file line rest, os_file (bytes_of "auth_key") (server sr) = Some file -> file <> [] ->
     fgets 64 file = (line, rest) -> Forall is_byte line ->
     (63 <= zlen line ->
        let len := 32 + zlen u in
        let reply := be_bytes 4 len ++ be_bytes 4 256 ++ be_bytes 4 (zlen u) ++ u ++
          concat (be_bytes 4 <$> Spec.sha1 (salt ++ take 64 (line ++ [0]))) in
        forall n w, os_send (sockfd sr) reply (server sr) = (n, w) ->
        sr_handle_auth_request sr sha1 req = Ok (if decide (n <> len) then 0 else 1, set_server w sr)) /\
     (zlen line < 63 -> sr_handle_auth_request sr sha1 req = Crash Uninit)).
Proof.
  intros Hl Hb Hs Hty Hlen Hu Hus req. split; [unfold sr_handle_auth_request; by intros [-> | ->]|].
  intros file line rest. by apply (auth_request_ok sr sha1 ty salt u z).
Qed.

(** A packet command: length, type, interface name and frame. *)
Definition packet_command (ty nm frame : list Z) : list Z :=
  be_bytes 4 (24 + zlen frame) ++ ty ++ strncpy nm 16 ++ frame.

Lemma get_interface_c_str t nm : sr_get_interface t nm = sr_get_interface t (c_str nm).
Proof.
  unfold sr_get_interface, strncmp_eq. by rewrite (c_str_id (c_str nm)) by apply c_str_is_str.
Qed.

Lemma strncpy_c_str nm frame : is_str nm -> (length nm < 16)%nat -> c_str (strncpy nm 16 ++ frame) = nm.
Proof.
  intros Hs Hl. unfold strncpy. rewrite (c_str_id nm) by done.
  rewrite take_app_ge by lia. replace (Z.to_nat 16 - length nm)%nat with (S (15 - length nm)) by lia.
  cbn [replicate]. rewrite <- app_assoc. rewrite take_replicate. cbn [Z.to_nat].
  destruct (Z.to_nat 16 - length nm)%nat eqn:E; [lia|]. cbn. by apply c_str_app_zero.
Qed.

(** The interface and the frame a packet command carries. *)
Lemma packet_command_parts ty nm frame : length ty = 4%nat ->
  drop 24 (packet_command ty nm frame) = frame /\
  drop sizeof_c_base (packet_command ty nm frame) = strncpy nm 16 ++ frame.
Proof.
  intros Hh. unfold packet_command. rewrite !app_assoc. split; [|rewrite <- (app_assoc _ (strncpy nm 16))];
    apply drop_app_length'; rewrite !length_app, length_be_bytes, ?length_strncpy; unfold sizeof_c_base; lia.
Qed.

(** It is logged whole. *)
Lemma packet_command_logged ty nm frame lf (w : W) : length ty = 4%nat -> zlen frame < 2 ^ 31 - 24 ->
  net_field (packet_command ty nm frame) 0 = Ok (24 + zlen frame) /\
  sr_log_packet lf frame (to_int (u64 (24 + zlen frame - sizeof_packet_header))) w = Ok (log_effect lf frame w).
Proof.
  intros Ht Hl. split.
  - unfold net_field, packet_command. rewrite slice_ok by (rewrite !length_app, length_be_bytes; lia). run_step.
    rewrite drop_0, take_app_length' by (by rewrite length_be_bytes). by rewrite be_val_be_4 by lia.
  - unfold sizeof_packet_header, u64. rewrite Z.mod_small, to_int_small by lia. rewrite sr_log_packet_ok by lia.
    by rewrite take_ge by lia.
Qed.

(** The fields of a frame, whatever is behind its Ethernet header. *)
Lemma ether_type_ok dh sh t0 t1 body : length dh = 6%nat -> length sh = 6%nat ->
  let frame := dh ++ sh ++ [t0; t1] ++ body in
  length frame = (14 + length body)%nat /\ take 2 (drop 12 frame) = [t0; t1] /\
  frame_ether_type frame = Ok (le_val [t0; t1]).
Proof.
  intros L1 L2 frame. assert (length frame = (14 + length body)%nat) as Hl
    by (unfold frame; rewrite !length_app, L1, L2; cbn [length]; lia).
  assert (take 2 (drop 12 frame) = [t0; t1]) as Ht.
  { unfold frame. by rewrite (app_assoc dh), drop_app_length' by (rewrite length_app; lia). }
  split; [done|]. split; [done|]. unfold frame_ether_type, get_field. rewrite slice_ok by lia. run_step. by rewrite Ht.
Qed.

Lemma not_for_us_ip sr vs rest nm dh sh more : if_rep (if_list_of sr) vs rest -> is_str nm ->
  (length nm < 16)%nat -> length dh = 6%nat -> length sh = 6%nat -> zlen more < 2 ^ 31 ->
  let frame := dh ++ sh ++ [8; 0] ++ more in
  sr_arp_req_not_for_us sr frame (zlen frame) (strncpy nm 16 ++ frame) = Ok 0 \/
  sr_arp_req_not_for_us sr frame (zlen frame) (strncpy nm 16 ++ frame) = Crash Abort.
Proof.
  intros Hif Hnm Hnl L1 L2 Hm frame.
  destruct (ether_type_ok dh sh 8 0 more L1 L2) as (Hlf & _ & Het). fold frame in Hlf, Het.
  unfold sr_arp_req_not_for_us. rewrite get_interface_c_str, strncpy_c_str by done.
  rewrite (get_interface_ok _ _ _ nm Hif Hnm). run_step.
  destruct (decide (zlen frame < 42)); [by left|].
  destruct (list_find _ vs) as [[k [b y]]|]; [left|by right].
  rewrite bool_decide_true by done. cbn [c_assert]. run_step. by rewrite Het.
Qed.

Lemma not_for_us_arp sr vs rest nm dh sh fx op sha sip tha tip more :
  if_rep (if_list_of sr) vs rest -> is_str nm -> (length nm < 16)%nat ->
  length dh = 6%nat -> length sh = 6%nat -> length fx = 6%nat -> length op = 2%nat ->
  length sha = 6%nat -> length sip = 4%nat -> length tha = 6%nat -> length tip = 4%nat -> Forall is_byte op ->
  let frame := arp_frame dh sh [8; 6] fx op sha sip tha tip ++ more in
  (42 <= length frame)%nat /\ take 2 (drop 12 frame) = [8; 6] /\
  sr_arp_req_not_for_us sr frame (zlen frame) (strncpy nm 16 ++ frame)
  = match named nm vs with
    | None => Crash Abort
    | Some v => if decide (op = [0; 1]) then i ← need Uninit (i_ip v); Ok (if decide (le_val tip <> i) then 1 else 0)
                else Ok 0
    end.
Proof.
  intros Hif Hnm Hnl L1 L2 L4 L5 L6 L7 L8 L9 HFo frame.
  destruct (arp_op frame dh sh [8; 6] fx op sha sip tha tip more eq_refl L1 L2 eq_refl L4 L5 L6 L7 L8 L9)
    as (Hop & Htip & _).
  destruct (ether_type_ok dh sh 8 6 (fx ++ op ++ sha ++ sip ++ tha ++ tip ++ more) L1 L2) as (Hlf & Hty & Het).
  assert (dh ++ sh ++ [8; 6] ++ fx ++ op ++ sha ++ sip ++ tha ++ tip ++ more = frame) as Hfr
    by (unfold frame, arp_frame; by rewrite <- !app_assoc).
  rewrite Hfr in Hlf, Hty, Het. rewrite !length_app in Hlf.
  split; [lia|]. split; [done|]. unfold sr_arp_req_not_for_us, named.
  rewrite get_interface_c_str, strncpy_c_str by done. rewrite (get_interface_ok _ _ _ nm Hif Hnm).
  destruct (list_find _ vs) as [[k [a v]]|] eqn:Hf; cbn [fmap option_fmap option_map fst snd]; run_step;
    rewrite decide_False by lia; [|done].
  rewrite bool_decide_true by done. cbn [c_assert]. run_step. rewrite Het. run_step.
  rewrite decide_True by done. rewrite Hop. run_step.
  apply list_find_Some in Hf as (Hvs & _). apply list_elem_of_lookup_2 in Hvs.
  destruct (if_rep_load _ _ _ _ _ Hif Hvs) as (x & Hx & ->).
  rewrite (decide_ext _ (op = [0; 1])) by (split;
    [intros Hv; by rewrite <- (le_bytes_val op HFo), L5, Hv|by intros ->]).
  destruct (decide (op = [0; 1])); [|done]. rewrite Htip, Hx. run_step.
  reflexivity.
Qed.

(** What the read loop does with an ARP and with an IP frame. *)
Lemma dispatch_arp fuel sr sha1 vs rest ty nm dh sh fx op sha sip tha tip more now :
  if_rep (if_list_of sr) vs rest -> length ty = 4%nat -> is_str nm -> (length nm < 16)%nat ->
  length dh = 6%nat -> length sh = 6%nat -> length fx = 6%nat -> length op = 2%nat ->
  length sha = 6%nat -> length sip = 4%nat -> length tha = 6%nat -> length tip = 4%nat -> Forall is_byte op ->
  let frame := arp_frame dh sh [8; 6] fx op sha sip tha tip ++ more in
  zlen frame < 2 ^ 31 - 24 ->
  dispatch fuel sr sha1 (packet_command ty nm frame) (24 + zlen frame) VNSPACKET now
  = match named nm vs with
    | None => Crash Abort
    | Some v => if decide (op = [0; 1]) then
                  i ← need Uninit (i_ip v); if decide (le_val tip <> i) then Ok (1, sr) else Crash Abort
                else Crash Abort
    end.
Proof.
  intros Hif Hh Hnm Hnl L1 L2 L4 L5 L6 L7 L8 L9 HFo frame Hlf. unfold dispatch. rewrite decide_True by done.
  destruct (packet_command_parts ty nm frame Hh) as [-> ->].
  replace (24 + zlen frame - 38 + 14) with (zlen frame) by lia. rewrite u32_small by lia.
  destruct (not_for_us_arp sr vs rest nm dh sh fx op sha sip tha tip more) as (Hl & Hty & Hn); try done.
  fold frame in Hl, Hty, Hn. rewrite Hn. destruct (named nm vs) as [v|]; [|done].
  destruct (packet_command_logged ty nm frame (logfile sr) (server sr) Hh) as [-> Hlog]; [lia|].
  assert (forall sr now', (sr0 ← sr_handlepacket fuel sr frame now'; Ok (1, sr0)) = Crash Abort) as Hab.
  { intros sr' now'. rewrite network_order_aborts; [done|lia|by left]. }
  destruct (decide (op = [0; 1])); [|run_step; rewrite decide_False by lia; run_step; rewrite Hlog; apply Hab].
  destruct (i_ip v) as [i|]; [|done]. run_step.
  destruct (decide (le_val tip <> i)); [done|rewrite decide_False by lia; rewrite Hlog; apply Hab].
Qed.

Lemma dispatch_ip fuel sr sha1 vs rest ty nm dh sh more now :
  if_rep (if_list_of sr) vs rest -> length ty = 4%nat -> is_str nm -> (length nm < 16)%nat ->
  length dh = 6%nat -> length sh = 6%nat -> zlen more < 2 ^ 31 - 100 ->
  let frame := dh ++ sh ++ [8; 0] ++ more in
  dispatch fuel sr sha1 (packet_command ty nm frame) (24 + zlen frame) VNSPACKET now = Crash Abort.
Proof.
  intros Hif Hh Hnm Hnl L1 L2 Hmore frame. unfold dispatch. rewrite decide_True by done.
  destruct (packet_command_parts ty nm frame Hh) as [-> ->].
  destruct (ether_type_ok dh sh 8 0 more L1 L2) as (Hlf & Hty & _). fold frame in Hlf, Hty.
  replace (24 + zlen frame - 38 + 14) with (zlen frame) by lia. rewrite u32_small by lia.
  destruct (not_for_us_ip sr vs rest nm dh sh more Hif Hnm Hnl L1 L2) as [Hz|Hz]; [lia|..];
    cbv zeta in Hz; fold frame in Hz; rewrite Hz; [|done].
  destruct (packet_command_logged ty nm frame (logfile sr) (server sr) Hh) as [-> Hlog]; [lia|].
  run_step. rewrite decide_False by lia. rewrite Hlog. run_step.
  rewrite network_order_aborts; [done|lia|by right].
Qed.

(** What the read loop does with the ARP and IP frames a network
    delivers.  An ARP request for an address other than the one of the
    interface it came in on is dropped and leaves the router as it was.
    Every other ARP frame and every IP frame ends the router: the
    assertion on the packet's type fails. *)
Theorem packets_from_server fuel sr sha1 vs rest ty nm dh sh fx op sha sip tha tip more now :
  if_rep (if_list_of sr) vs rest -> length ty = 4%nat -> is_str nm -> (length nm < 16)%nat ->
  length dh = 6%nat -> length sh = 6%nat -> length fx = 6%nat -> length op = 2%nat ->
  length sha = 6%nat -> length sip = 4%nat -> length tha = 6%nat -> length tip = 4%nat -> Forall is_byte op ->
  zlen more < 2 ^ 31 - 100 ->
  (let frame := arp_frame dh sh [8; 6] fx op sha sip tha tip ++ more in
   forall v i, named nm vs = Some v -> i_ip v = Some i ->
   dispatch fuel sr sha1 (packet_command ty nm frame) (24 + zlen frame) VNSPACKET now
   = if decide (op = [0; 1] /\ le_val tip <> i) then Ok (1, sr) else Crash Abort) /\
  (let frame := dh ++ sh ++ [8; 0] ++ more in
   dispatch fuel sr sha1 (packet_command ty nm frame) (24 + zlen frame) VNSPACKET now = Crash Abort).
Proof.
  intros Hif Hh Hnm Hnl L1 L2 L4 L5 L6 L7 L8 L9 HFo Hmore. split; [|by eapply dispatch_ip].
  intros frame v i Hv Hi. unfold frame.
  rewrite (dispatch_arp fuel sr sha1 vs rest ty nm dh sh fx op sha sip tha tip more now) by
    (done || (unfold arp_frame; rewrite !length_app; cbn [length]; lia)).
  rewrite Hv, Hi. cbn [need]. destruct (decide (op = [0; 1])).
  - run_step. destruct (decide (le_val tip <> i)); [by rewrite decide_True|by rewrite decide_False by naive_solver].
  - by rewrite decide_False by naive_solver.
Qed.
End session.

(** ** The whole session *)

(** A server at the other end of [fd]: what it still has to say, and what it
    was sent; its machine keeps the files. *)
Record session_server {W : Type} `{VnsOS W} (fd : Z) (pending : W -> list Z) (signals : W -> nat)
    (sent : W -> list (list Z)) : Prop := {
  ss_reads : stream_reads pending signals fd;
  ss_read_sent n w : sent (os_read fd n w).2 = sent w;
  ss_read_file n w nm : os_file nm (os_read fd n w).2 = os_file nm w;
  ss_send b w : exists w', os_send fd b w = (zlen b, w') /\ pending w' = pending w /\
    (signals w' <= signals w)%nat /\ sent w' = sent w ++ [b] /\ forall nm, os_file nm w' = os_file nm w;
  ss_create nm b w : exists w', os_create nm w = (true, w') /\ pending (os_fwrite nm b w') = pending w /\
    sent (os_fwrite nm b w') = sent w /\ os_file nm (os_fwrite nm b w') = Some b
}.

Section opening.
Context {W : Type} `{VnsOS W} (fd : Z) (pending : W -> list Z) (signals : W -> nat) (sent : W -> list (list Z)).
Context (Hss : session_server fd pending signals sent).
Abbreviation sr_instance := (sr_instance W).
Implicit Types sr : sr_instance.

(** The expected command arrives. *)
Lemma session_command fuel sr sha1 ty payload more now : sockfd sr = fd ->
  pending (server sr) = vns_command ty payload ++ more -> 0 < ty < 2 ^ 31 -> zlen payload <= 9992 ->
  Forall is_byte payload -> 10000 + Z.of_nat (signals (server sr)) <= Z.of_nat fuel ->
  exists w, pending w = more /\ (signals w <= signals (server sr))%nat /\ sent w = sent (server sr) /\
    (forall nm, os_file nm w = os_file nm (server sr)) /\
    sr_read_from_server_expect fuel sr sha1 ty now
    = dispatch fuel (set_server w sr) sha1 (command_in_memory ty payload) (8 + zlen payload) ty now.
Proof.
  intros Hfd Hp Hty Hl Hb Hf.
  destruct (expect_command pending signals
    (fun w => sent w = sent (server sr) /\ forall nm, os_file nm w = os_file nm (server sr))
    fuel sr sha1 ty ty payload more now) as (w & Hw & Hs & [Hse Hfi] & Hr); try done.
  - rewrite Hfd. apply Hss.
  - intros n w [H1 H2]. rewrite Hfd. split; [by rewrite (ss_read_sent _ _ _ _ Hss)|].
    intros nm. by rewrite (ss_read_file _ _ _ _ Hss).
  - by right.
  - by exists w.
Qed.

Lemma dispatch_auth fuel sr sha1 buf len now :
  dispatch fuel sr sha1 buf len VNS_AUTH_REQUEST now
  = ('(ok, sr) ← sr_handle_auth_request sr sha1 buf; Ok (if decide (ok = 0) then -1 else 1, sr)).
Proof. reflexivity. Qed.

Lemma dispatch_status fuel sr sha1 buf len now :
  dispatch fuel sr sha1 buf len VNS_AUTH_STATUS now
  = (ok ← sr_handle_auth_status sr buf; Ok (if decide (ok = 0) then -1 else 1, sr)).
Proof. reflexivity. Qed.

Lemma dispatch_rtable fuel sr sha1 buf len now :
  dispatch fuel sr sha1 buf len VNS_RTABLE now
  = ('(ok, sr) ← sr_handle_rtable sr buf; Ok (if decide (ok = 0) then -1 else 1, sr)).
Proof. reflexivity. Qed.

(** The status is returned once the texts have been printed. *)
Lemma auth_status_ok sr hdr ok msg u z : length hdr = 8%nat -> user sr = u ++ 0 :: z -> is_str u ->
  sr_handle_auth_status sr (hdr ++ ok :: msg)
  = if decide (ok = 0 /\ 0 ∉ msg) then Crash OutOfRange else Ok ok.
Proof.
  intros Hh Hu Hus. unfold sr_handle_auth_status.
  rewrite (arr_get_ok _ 8 ok); [|lia|apply list_lookup_middle; by rewrite Hh]. run_step.
  rewrite Hu, str_of_ok by done. run_step.
  assert (drop 9 (hdr ++ ok :: msg) = msg) as ->.
  { rewrite cons_middle, app_assoc. apply drop_app_length'. rewrite length_app. cbn. lia. }
  destruct (decide (ok <> 0)) as [Hok|Hok]; run_step; [by rewrite decide_False by tauto|].
  destruct (decide (0 ∈ msg)) as [Hin|Hout].
  - rewrite str_of_terminated by done. by rewrite decide_False by tauto.
  - rewrite str_of_unterminated by done. rewrite decide_True; [done|]. split; [lia|done].
Qed.

(** The reply to the salt, for the user [u] and the key line. *)
Definition auth_reply (salt line u : list Z) : list Z :=
  be_bytes 4 (32 + zlen u) ++ be_bytes 4 256 ++ be_bytes 4 (zlen u) ++ u ++
  concat (be_bytes 4 <$> Spec.sha1 (salt ++ take 64 (line ++ [0]))).

Lemma zlen_auth_reply salt line u : zlen (auth_reply salt line u) = 32 + zlen u.
Proof.
  assert (forall d, length d = 5%nat -> length (concat (be_bytes 4 <$> d)) = 20%nat) as Hd.
  { intros d Hd. do 6 (destruct d; try discriminate). reflexivity. }
  unfold auth_reply. rewrite !length_app, !length_be_bytes, Hd; [lia|]. by apply length_foldl_compress.
Qed.

(** The first two commands of the session. *)
Lemma authenticate_ok fuel sr sha1 salt ok msg more u z file line rest now : sockfd sr = fd ->
  length (Message_Block sha1) = 64%nat -> Forall is_byte (Message_Block sha1) ->
  pending (server sr) = vns_command VNS_AUTH_REQUEST salt ++ vns_command VNS_AUTH_STATUS (ok :: msg) ++ more ->
  zlen salt <= 9992 -> zlen msg < 9992 -> Forall is_byte salt -> Forall is_byte (ok :: msg) ->
  os_file (bytes_of "auth_key") (server sr) = Some file -> file <> [] -> fgets 64 file = (line, rest) ->
  Forall is_byte line -> 63 <= zlen line -> user sr = u ++ 0 :: z -> is_str u ->
  10000 + Z.of_nat (signals (server sr)) <= Z.of_nat fuel ->
  exists w1 w2,
    sr_read_from_server_expect fuel sr sha1 VNS_AUTH_REQUEST now = Ok (1, set_server w1 sr) /\
    sr_read_from_server_expect fuel (set_server w1 sr) sha1 VNS_AUTH_STATUS now
    = (if decide (ok = 0 /\ 0 ∉ msg) then Crash OutOfRange
       else Ok (if decide (ok = 0) then -1 else 1, set_server w2 sr)) /\
    pending w2 = more /\ (signals w2 <= signals (server sr))%nat /\
    sent w2 = sent (server sr) ++ [auth_reply salt line u] /\ (forall nm, os_file nm w2 = os_file nm (server sr)).
Proof.
  intros Hfd Hl Hb Hp Hsl Hml Hsb Hmb Hfile Hne Hf Hline H63 Hu Hus Hfuel.
  destruct (session_command fuel sr sha1 VNS_AUTH_REQUEST salt (vns_command VNS_AUTH_STATUS (ok :: msg) ++ more) now)
    as (w & Hp1 & Hs1 & Hse1 & Hfi1 & Hr1); [done..|].
  destruct (ss_send _ _ _ _ Hss (auth_reply salt line u) w) as (w1 & Hsend & Hp2 & Hs2 & Hse2 & Hfi2).
  rewrite zlen_auth_reply in Hsend.
  destruct (auth_request_ok (set_server w sr) sha1 (le_bytes 4 VNS_AUTH_REQUEST) salt u z file line rest)
    as [Hauth _]; [done..|by rewrite length_le_bytes|lia|done|done|by cbn; rewrite Hfi1|done|done|done|].
  cbn [server sockfd set_server] in Hauth. specialize (Hauth H63 (32 + zlen u) w1). rewrite Hfd in Hauth.
  specialize (Hauth Hsend). rewrite decide_False in Hauth by naive_solver.
  unfold command_in_memory in Hr1. rewrite dispatch_auth in Hr1. rewrite Hauth in Hr1. cbn [mbind run_bind] in Hr1.
  change (set_server w1 (set_server w sr)) with (set_server w1 sr) in Hr1.
  destruct (session_command fuel (set_server w1 sr) sha1 VNS_AUTH_STATUS (ok :: msg) more now)
    as (w2 & Hp3 & Hs3 & Hse3 & Hfi3 & Hr2); [done|exact (eq_trans Hp2 Hp1)|done|cbn [length]; lia|done|cbn [server set_server]; lia|].
  rewrite dispatch_status in Hr2.
  unfold command_in_memory in Hr2. rewrite (app_assoc (be_bytes 4 _) (le_bytes 4 _)) in Hr2.
  rewrite (auth_status_ok (set_server w2 (set_server w1 sr)) _ ok msg u z) in Hr2
    by (try (by rewrite length_app, length_be_bytes, length_le_bytes); done).
  cbn [server set_server] in Hs3, Hse3. exists w1, w2. split; [exact Hr1|].
  split; [rewrite Hr2; destruct (decide (ok = 0 /\ 0 ∉ msg)); reflexivity|].
  split; [done|]. split; [lia|]. split; [by rewrite Hse3, Hse2, Hse1|].
  intros nm. by rewrite Hfi3, <- Hfi1, <- Hfi2.
Qed.

(** The message that opens the session, for a named template and for a
    topology number. *)
Lemma open_message_ok sr t z : template sr = t ++ 0 :: z -> is_str t ->
  open_message sr = Ok (if decide (t = [])
    then be_bytes 4 108 ++ be_bytes 4 1 ++ be_bytes 2 (topo_id sr) ++ [0; 0] ++ strncpy (host sr) 32 ++
         strncpy (user sr) 32 ++ replicate 32 0
    else be_bytes 4 70 ++ be_bytes 4 64 ++ strncpy t 30 ++ strncpy (host sr) 32).
Proof.
  intros Ht Hts. unfold open_message. rewrite Ht, str_of_ok by done. run_step.
  destruct (decide (t = [])) as [->|Hne]; [done|].
  rewrite decide_True by (destruct t; [done|cbn; lia]). unfold strncpy.
  by rewrite c_str_app_zero, (c_str_id t) by done.
Qed.

(** The routing table command stores the table in a file. *)
Lemma rtable_ok fuel sr sha1 hostid hz body more now : sockfd sr = fd ->
  pending (server sr) = vns_command VNS_RTABLE (hostid ++ 0 :: hz ++ body) ++ more ->
  is_str hostid -> (length hostid + length hz = 31)%nat -> zlen body <= 9960 ->
  Forall is_byte (hostid ++ 0 :: hz ++ body) -> 10000 + Z.of_nat (signals (server sr)) <= Z.of_nat fuel ->
  exists w, sr_read_from_server_expect fuel sr sha1 VNS_RTABLE now = Ok (1, set_server w sr) /\
    pending w = more /\ sent w = sent (server sr) /\ os_file (bytes_of "rtable." ++ hostid) w = Some body.
Proof.
  intros Hfd Hp Hstr Hlen Hbody Hb Hfuel.
  assert (length (hostid ++ 0 :: hz ++ body) = (32 + length body)%nat) as Hl
    by (rewrite !length_app; cbn [length]; rewrite length_app; lia).
  destruct (session_command fuel sr sha1 VNS_RTABLE (hostid ++ 0 :: hz ++ body) more now)
    as (w & Hp1 & _ & Hse1 & _ & Hr); [done|done|done|lia|done|done|].
  destruct (ss_create _ _ _ _ Hss (bytes_of "rtable." ++ hostid) body w) as (w' & Hc & Hpw & Hsw & Hfw).
  exists (os_fwrite (bytes_of "rtable." ++ hostid) body w').
  split; [|split; [congruence|split; [congruence|done]]].
  unfold command_in_memory in Hr. rewrite Hr, dispatch_rtable, Hl. unfold sr_handle_rtable. pose proof (length_le_bytes 4 VNS_RTABLE) as L1.
  set (buf := be_bytes 4 (8 + Z.of_nat (32 + length body)) ++ le_bytes 4 VNS_RTABLE ++ hostid ++ 0 :: hz ++ body).
  assert (drop sizeof_c_base buf = hostid ++ 0 :: hz ++ body) as ->.
  { unfold buf. rewrite app_assoc. apply drop_app_length'. by rewrite length_app, length_be_bytes, L1. }
  rewrite str_of_ok by done. run_step. rewrite decide_False by lia. cbn [server set_server]. rewrite Hc.
  assert (net_field buf 0 = Ok (40 + zlen body)) as ->.
  { unfold net_field, buf. rewrite slice_ok by (rewrite length_app, length_be_bytes; lia). run_step.
    rewrite drop_0, take_app_length', be_val_be_4 by (done || lia). f_equal. lia. }
  run_step. replace (40 + zlen body - 8 - 32) with (zlen body) by lia. rewrite u32_small, Nat2Z.id by lia.
  assert (drop 40 buf = body) as Hd.
  { unfold buf. rewrite (app_comm_cons hz body 0), (app_assoc hostid), !app_assoc. apply drop_app_length'.
    rewrite !length_app, length_be_bytes, L1. cbn [length]. lia. }
  rewrite slice_ok by (unfold buf; rewrite !length_app, length_be_bytes, L1; cbn [length]; rewrite length_app; lia).
  rewrite Hd, take_ge by lia. reflexivity.
Qed.

(** Sending the opening message. *)
Lemma open_session_ok fuel sr sha1 t z now : sockfd sr = fd -> template sr = t ++ 0 :: z -> is_str t ->
  exists w, pending w = pending (server sr) /\ (signals w <= signals (server sr))%nat /\
    sent w = sent (server sr) ++ [if decide (t = [])
      then be_bytes 4 108 ++ be_bytes 4 1 ++ be_bytes 2 (topo_id sr) ++ [0; 0] ++ strncpy (host sr) 32 ++
           strncpy (user sr) 32 ++ replicate 32 0
      else be_bytes 4 70 ++ be_bytes 4 64 ++ strncpy t 30 ++ strncpy (host sr) 32] /\
    (forall nm, os_file nm w = os_file nm (server sr)) /\
    (t = [] -> open_session fuel sr sha1 now = Ok (0, set_server w sr)) /\
    (t <> [] -> open_session fuel sr sha1 now
       = ('(r, sr) ← sr_read_from_server_expect fuel (set_server w sr) sha1 VNS_RTABLE now;
          if decide (r <> 1) then Ok (-1, sr) else Ok (0, sr))).
Proof.
  intros Hfd Ht Hts. unfold open_session. rewrite (open_message_ok _ t z Ht Hts). run_step.
  set (m := if decide (t = []) then _ else _).
  destruct (ss_send _ _ _ _ Hss m (server sr)) as (w & Hsend & Hp & Hs & Hse & Hfi).
  rewrite Hfd, Hsend. rewrite decide_False by naive_solver. cbn [template set_server]. rewrite Ht, str_of_ok by done.
  run_step. exists w. do 4 (split; [done|]). split; [by intros ->|].
  intros Hne. by rewrite decide_True by (destruct t; [done|cbn; lia]).
Qed.

(** The whole session. *)
Lemma connect_ok fuel sr sha1 port now name addr w0 w1 r salt ok msg more u uz t tz file line rest :
  os_resolve name (server sr) = Some addr -> os_socket (server sr) = (fd, w0) -> 0 <= fd ->
  os_connect fd addr port w0 = (r, w1) -> 0 <= r ->
  length (Message_Block sha1) = 64%nat -> Forall is_byte (Message_Block sha1) ->
  pending w1 = vns_command VNS_AUTH_REQUEST salt ++ vns_command VNS_AUTH_STATUS (ok :: msg) ++ more ->
  zlen salt <= 9992 -> zlen msg < 9992 -> Forall is_byte salt -> Forall is_byte (ok :: msg) ->
  os_file (bytes_of "auth_key") w1 = Some file -> file <> [] -> fgets 64 file = (line, rest) ->
  Forall is_byte line -> 63 <= zlen line -> user sr = u ++ 0 :: uz -> is_str u ->
  template sr = t ++ 0 :: tz -> is_str t -> 10000 + Z.of_nat (signals w1) <= Z.of_nat fuel ->
  let reply := auth_reply salt line u in
  let connect := sr_connect_to_server fuel sr sha1 port now name in
  let session w := set_server w (set_sockfd fd sr) in
  (ok = 0 -> 0 ∈ msg -> exists w, connect = Ok (-1, session w) /\ pending w = more /\ sent w = sent w1 ++ [reply]) /\
  (ok = 0 -> 0 ∉ msg -> connect = Crash OutOfRange) /\
  (ok <> 0 -> t = [] -> exists w, connect = Ok (0, session w) /\ pending w = more /\
     sent w = sent w1 ++ [reply; be_bytes 4 108 ++ be_bytes 4 1 ++ be_bytes 2 (topo_id sr) ++ [0; 0] ++
                                 strncpy (host sr) 32 ++ strncpy (user sr) 32 ++ replicate 32 0] /\
     (signals w <= signals w1)%nat /\ forall nm, os_file nm w = os_file nm w1) /\
  (ok <> 0 -> t <> [] -> forall hostid hz body more',
     more = vns_command VNS_RTABLE (hostid ++ 0 :: hz ++ body) ++ more' -> is_str hostid ->
     (length hostid + length hz = 31)%nat -> zlen body <= 9960 -> Forall is_byte (hostid ++ 0 :: hz ++ body) ->
     exists w, connect = Ok (0, session w) /\ pending w = more' /\
       os_file (bytes_of "rtable." ++ hostid) w = Some body /\
       sent w = sent w1 ++ [reply; be_bytes 4 70 ++ be_bytes 4 64 ++ strncpy t 30 ++ strncpy (host sr) 32]).
Proof.
  intros Hres Hsock Hfd Hcon Hr Hl Hb Hp Hsl Hml Hsb Hmb Hfile Hne Hf Hline H63 Hu Hus Ht Hts Hfuel reply connect session.
  destruct (authenticate_ok fuel (session w1) sha1 salt ok msg more u uz file line rest now)
    as (w2 & w3 & H1 & H2 & Hp3 & Hs3 & Hse3 & Hfi3); [done..|].
  assert (connect = if decide (ok = 0) then (if decide (0 ∈ msg) then Ok (-1, session w3) else Crash OutOfRange)
                    else open_session fuel (session w3) sha1 now) as Hc.
  { unfold connect, sr_connect_to_server. rewrite Hres, Hsock. rewrite decide_False by lia.
    rewrite Hcon, decide_False by lia.
    change (set_server w1 (set_sockfd fd (set_server w0 sr))) with (session w1). rewrite H1. run_step.
    rewrite decide_False by lia. rewrite H2. destruct (decide (ok = 0)), (decide (0 ∈ msg));
      (rewrite decide_False by naive_solver) || (rewrite decide_True by naive_solver); by run_step. }
  rewrite Hc. cbn [server session set_server] in Hs3, Hse3, Hfi3. split; [|split; [|split]].
  - intros -> Hin. exists w3. by rewrite !decide_True.
  - intros -> Hout. by rewrite decide_True, decide_False.
  - intros Hok ->. rewrite decide_False by done.
    destruct (open_session_ok fuel (session w3) sha1 [] tz now eq_refl Ht Hts) as (w4 & Hp4 & Hs4 & Hse4 & Hfi4 & Ho).
    exists w4. split; [by apply Ho|]. split; [exact (eq_trans Hp4 Hp3)|]. cbn [server session set_server] in Hse4, Hfi4, Hs4.
    split; [by rewrite Hse4, Hse3, <- app_assoc|]. split; [lia|]. intros nm. by rewrite Hfi4, Hfi3.
  - intros Hok Hne' hostid hz body more' -> Hh Hhl Hbl Hbb. rewrite decide_False by done.
    destruct (open_session_ok fuel (session w3) sha1 t tz now eq_refl Ht Hts) as (w4 & Hp4 & Hs4 & Hse4 & _ & Ho).
    cbn [server session set_server] in Hp4, Hs4, Hse4. destruct Ho as [_ Ho].
    destruct (rtable_ok fuel (session w4) sha1 hostid hz body more' now) as (w5 & Hr5 & Hp5 & Hse5 & Hf5);
      [done|cbn [server session set_server]; congruence|done|done|done|done|cbn [server session set_server]; lia|].
    exists w5. split; [rewrite Ho by done; change (set_server w4 (session w3)) with (session w4); by rewrite Hr5|].
    split; [done|]. split; [done|]. cbn [server session set_server] in Hse5.
    rewrite Hse5, Hse4, Hse3, <- app_assoc. rewrite decide_False by done. done.
Qed.

(** C20: the whole session.  Against a server that asks for authentication,
    answers it and, when a template is asked for, sends a routing table,
    [sr_connect_to_server] sends exactly the digest of its key and the opening
    message, stores the table under the name of the host and returns 0,
    with the server's next command unread; a refusal gives -1 after the digest
    alone was sent, if the server's explanation is a string with an end: the
    code prints it, and without one it reads past the message.  All of it
    whatever the number of bytes single reads return. *)
Theorem connect_correct fuel sr sha1 port now name addr w0 w1 r salt ok msg more u uz t tz file line rest :
  os_resolve name (server sr) = Some addr -> os_socket (server sr) = (fd, w0) -> 0 <= fd ->
  os_connect fd addr port w0 = (r, w1) -> 0 <= r ->
  length (Message_Block sha1) = 64%nat -> Forall is_byte (Message_Block sha1) ->
  pending w1 = vns_command VNS_AUTH_REQUEST salt ++ vns_command VNS_AUTH_STATUS (ok :: msg) ++ more ->
  zlen salt <= 9992 -> zlen msg < 9992 -> Forall is_byte salt -> Forall is_byte (ok :: msg) ->
  os_file (bytes_of "auth_key") w1 = Some file -> file <> [] -> fgets 64 file = (line, rest) ->
  Forall is_byte line -> 63 <= zlen line -> user sr = u ++ 0 :: uz -> is_str u ->
  template sr = t ++ 0 :: tz -> is_str t -> 10000 + Z.of_nat (signals w1) <= Z.of_nat fuel ->
  let reply := auth_reply salt line u in
  let connect := sr_connect_to_server fuel sr sha1 port now name in
  let session w := set_server w (set_sockfd fd sr) in
  (ok = 0 -> 0 ∈ msg -> exists w, connect = Ok (-1, session w) /\ pending w = more /\ sent w = sent w1 ++ [reply]) /\
  (ok = 0 -> 0 ∉ msg -> connect = Crash OutOfRange) /\
  (ok <> 0 -> t = [] -> exists w, connect = Ok (0, session w) /\ pending w = more /\
     sent w = sent w1 ++ [reply; be_bytes 4 108 ++ be_bytes 4 1 ++ be_bytes 2 (topo_id sr) ++ [0; 0] ++
                                 strncpy (host sr) 32 ++ strncpy (user sr) 32 ++ replicate 32 0] /\
     (signals w <= signals w1)%nat /\ forall nm, os_file nm w = os_file nm w1) /\
  (ok <> 0 -> t <> [] -> forall hostid hz body more',
     more = vns_command VNS_RTABLE (hostid ++ 0 :: hz ++ body) ++ more' -> is_str hostid ->
     (length hostid + length hz = 31)%nat -> zlen body <= 9960 -> Forall is_byte (hostid ++ 0 :: hz ++ body) ->
     exists w, connect = Ok (0, session w) /\ pending w = more' /\
       os_file (bytes_of "rtable." ++ hostid) w = Some body /\
       sent w = sent w1 ++ [reply; be_bytes 4 70 ++ be_bytes 4 64 ++ strncpy t 30 ++ strncpy (host sr) 32]).
Proof. exact (connect_ok fuel sr sha1 port now name addr w0 w1 r salt ok msg more u uz t tz file line rest). Qed.
End opening.

(** ** A server that sends given bytes, one at a time *)

Record toy : Type := Toy { incoming : list Z; outgoing : list (list Z); files : list (list Z * list Z) }.

Fixpoint file_named (nm : list Z) (fs : list (list Z * list Z)) : option (list Z) :=
  match fs with
  | [] => None
  | (n, c) :: fs => if decide (n = nm) then Some c else file_named nm fs
  end.

Definition toy_send (bytes : list Z) (w : toy) : Z * toy :=
  (zlen bytes, Toy (incoming w) (outgoing w ++ [bytes]) (files w)).

Definition toy_read (w : toy) : read_result * toy :=
  match incoming w with
  | [] => (Got [], w)
  | b :: more => (Got [b], Toy more (outgoing w) (files w))
  end.

(** Its disk forgets the packet log. *)
#[global] Instance toy_disk : LogOS toy := {|
  lg_stdout := 1;
  lg_fopen _ w := (Some 4, w);
  lg_fwrite _ _ w := (true, w);
  lg_fflush _ w := w;
  lg_fclose _ w := w;
  lg_gettimeofday w := ((0, 0), w)
|}.

#[global] Instance toy_server : Server toy := {| os_send _ := toy_send |}.

#[global] Instance toy_os : VnsOS toy := {|
  os_read _ _ := toy_read;
  os_close _ w := w;
  os_resolve _ _ := Some [127; 0; 0; 1];
  os_socket w := (3, w);
  os_connect _ _ _ w := (0, w);
  os_file nm w := file_named nm (files w);
  os_create nm w := (true, Toy (incoming w) (outgoing w) ((nm, []) :: files w));
  os_fwrite nm b w := Toy (incoming w) (outgoing w) ((nm, b) :: files w)
|}.

Lemma toy_stream_reads fd : stream_reads incoming (fun _ => 0%nat) fd.
Proof.
  intros n [inc out key] Hn Hp. left. exists 1%nat, (Toy (drop 1 inc) out key).
  destruct inc as [|b inc]; [done|]. split_and!; [done|lia|lia|done|done].
Qed.

Lemma toy_stream_ends fd : stream_ends incoming fd.
Proof. intros n w Hn Hp. exists w. cbn. unfold toy_read. by rewrite Hp. Qed.

(** The router of [sample_router], connected to the toy server. *)
Definition toy_router (t : interfaces) (w : toy) : sr_instance toy :=
  Instance 3 (bytes_of "user" ++ [0]) (bytes_of "vrhost" ++ [0]) [0] 0 t sample_rt empty_cache None w.

Definition sample_if_list : interfaces := if_list_of (sample_router empty_cache).

Definition sample_sha1 : SHA1Context := SHA1Reset (Build_SHA1Context [] 0 0 (replicate 64 0) 0 false false).

(** The command that closes the session, and one more byte. *)
Lemma read_from_server_correct_witness :
  exists w, incoming w = [7] /\
    sr_read_from_server_expect 9 (toy_router sample_if_list (Toy [0; 0; 0; 9; 0; 0; 0; 2; 0; 7] [] [])) sample_sha1 0 0
    = Ok (0, toy_router sample_if_list w) /\
    sr_read_from_server_expect 9 (toy_router sample_if_list (Toy [0; 0; 0] [] [])) sample_sha1 0 0 = Crash Fuel.
Proof.
  set (sr := toy_router sample_if_list (Toy [0; 0; 0; 9; 0; 0; 0; 2; 0; 7] [] [])).
  destruct (read_from_server_correct incoming (fun _ => 0%nat) 9 sr sample_sha1 0 0
    (toy_stream_reads _) (toy_stream_ends _)) as (Hok & _).
  destruct (Hok 9 [0; 0; 0; 2; 0] [7]) as (w & Hw & Hrun);
    [reflexivity|lia|reflexivity|repeat constructor; unfold is_byte; lia|cbn; lia|].
  exists w. split; [exact Hw|]. split; [rewrite Hrun; reflexivity|].
  apply (read_from_server_correct incoming (fun _ => 0%nat) 9
    (toy_router sample_if_list (Toy [0; 0; 0] [] [])) sample_sha1 0 0 (toy_stream_reads _) (toy_stream_ends _)).
  reflexivity.
Defined.

Definition sample_entries : list (Z * list Z) :=
  [(HWINTERFACE, strncpy (bytes_of "eth1") 32); (HWETHIP, [10; 0; 0; 2] ++ replicate 28 0);
   (HWETHER, [2; 0; 0; 0; 0; 5] ++ replicate 26 0)].

Lemma sample_ifaces_wf : ifaces_wf sample_if_list.
Proof. apply map_Forall_singleton. split; [reflexivity|by intros a [= <-]]. Qed.

Lemma hwinfo_correct_witness :
  let sr := toy_router sample_if_list (Toy [] [] []) in
  let msg := be_bytes 4 116 ++ [16; 0; 0; 0] ++ concat (hw_entry <$> sample_entries) in
  exists t, sr_handle_hwinfo sr msg = Ok (3, set_if_list t sr) /\
    if_list_rep t [Iface (bytes_of "eth0") (Some sample_mac) (Some sample_ip);
                   Iface (bytes_of "eth1") (Some [2; 0; 0; 0; 0; 5]) (Some 0x0200000a)] ∅.
Proof.
  intros sr msg.
  exact (hwinfo_correct sr [Iface (bytes_of "eth0") (Some sample_mac) (Some sample_ip)] ∅ [16; 0; 0; 0] sample_entries
    ltac:(exists sample_ifaces; split; [exact (sample_if_rep empty_cache)|]; split; [reflexivity|exact sample_ifaces_wf])
    ltac:(repeat (apply Forall_cons_2; [split; [cbn; unfold HWINTERFACE, HWETHIP, HWETHER; lia|reflexivity]|]);
          apply Forall_nil_2)
    ltac:(reflexivity) ltac:(cbn; lia)).
Defined.

(** A key of 63 characters and one of five. *)
Lemma auth_request_correct_witness :
  exists reply, length reply = 36%nat /\
    sr_handle_auth_request (toy_router sample_if_list (Toy [] [] [(bytes_of "auth_key", replicate 63 65)])) sample_sha1
      [0; 0; 0; 10; 0; 0; 0; 128; 1; 2]
    = Ok (1, toy_router sample_if_list (Toy [] [reply] [(bytes_of "auth_key", replicate 63 65)])) /\
    sr_handle_auth_request (toy_router sample_if_list (Toy [] [] [(bytes_of "auth_key", bytes_of "hello")])) sample_sha1
      [0; 0; 0; 10; 0; 0; 0; 128; 1; 2] = Crash Uninit.
Proof.
  assert (Hu : is_str (bytes_of "user")) by (apply (bool_decide_unpack (is_str (bytes_of "user"))); vm_compute; exact I).
  assert (Hb : Forall is_byte (replicate 64 0)) by (apply Forall_replicate; unfold is_byte; lia).
  destruct (auth_request_correct (toy_router sample_if_list (Toy [] [] [(bytes_of "auth_key", replicate 63 65)])) sample_sha1
    [0; 0; 0; 128] [1; 2] (bytes_of "user") []) as (_ & Hok);
    [reflexivity|exact Hb|repeat constructor; unfold is_byte; lia|reflexivity|cbn; lia|reflexivity|exact Hu|].
  destruct (auth_request_correct (toy_router sample_if_list (Toy [] [] [(bytes_of "auth_key", bytes_of "hello")])) sample_sha1
    [0; 0; 0; 128] [1; 2] (bytes_of "user") []) as (_ & Hshort);
    [reflexivity|exact Hb|repeat constructor; unfold is_byte; lia|reflexivity|cbn; lia|reflexivity|exact Hu|].
  eexists. split; [|split].
  2:{ etransitivity; [eapply (proj1 (Hok (replicate 63 65) (replicate 63 65) [] eq_refl ltac:(discriminate) eq_refl
        ltac:(apply Forall_replicate; unfold is_byte; lia)) ltac:(cbn; lia) _ _ eq_refl)|].
      reflexivity. }
  - vm_compute. reflexivity.
  - apply (proj2 (Hshort (bytes_of "hello") (bytes_of "hello") [] eq_refl ltac:(discriminate) eq_refl
      ltac:(repeat constructor; unfold is_byte; cbn; lia))). reflexivity.
Defined.

(** Two ARP requests that arrive on [eth0]: for another address, and for the
    one of the router. *)
Lemma packets_from_server_witness :
  let sr := toy_router sample_if_list (Toy [] [] []) in
  let frame tip := arp_frame (replicate 6 255) sample_mac [8; 6] [0; 1; 8; 0; 6; 4] [0; 1] sample_mac [10; 0; 0; 9]
    (replicate 6 0) tip in
  dispatch 10 sr sample_sha1 (packet_command (replicate 4 0) (bytes_of "eth0") (frame [10; 0; 0; 7])) 66 VNSPACKET 0
  = Ok (1, sr) /\
  dispatch 10 sr sample_sha1 (packet_command (replicate 4 0) (bytes_of "eth0") (frame [10; 0; 0; 1])) 66 VNSPACKET 0
  = Crash Abort.
Proof.
  intros sr frame.
  pose proof (fun tip (L9 : length tip = 4%nat) =>
    packets_from_server 10 sr sample_sha1 sample_ifaces ∅ (replicate 4 0) (bytes_of "eth0")
    (replicate 6 255) sample_mac [0; 1; 8; 0; 6; 4] [0; 1] sample_mac [10; 0; 0; 9] (replicate 6 0) tip [] 0
    (sample_if_rep empty_cache) eq_refl eth0_is_str ltac:(cbn; lia) eq_refl eq_refl eq_refl eq_refl eq_refl eq_refl
    eq_refl L9 ltac:(repeat constructor; unfold is_byte; lia) ltac:(cbn; lia)) as Hp.
  split.
  - destruct (Hp [10; 0; 0; 7] eq_refl) as [Ha _].
    exact (Ha _ _ eq_refl eq_refl).
  - destruct (Hp [10; 0; 0; 1] eq_refl) as [Ha _].
    exact (Ha _ _ eq_refl eq_refl).
Defined.

Lemma toy_session fd : session_server fd incoming (fun _ => 0%nat) outgoing.
Proof.
  constructor.
  - apply toy_stream_reads.
  - intros n [[|b inc] out fs]; done.
  - intros n [[|b inc] out fs] nm; done.
  - intros b [inc out fs]. eexists. split; [done|]. done.
  - intros nm b [inc out fs]. eexists. split; [done|]. split_and!; [done|done|]. cbn. by rewrite decide_True.
Qed.

(** A router that asks for the template [t1] and one that names a topology. *)
Definition templated_router (tmpl : list Z) (w : toy) : sr_instance toy :=
  Instance 3 (bytes_of "user" ++ [0]) (bytes_of "vrhost" ++ [0]) (tmpl ++ [0]) 5 sample_if_list sample_rt empty_cache None w.

Definition sample_session : list Z :=
  vns_command VNS_AUTH_REQUEST [1; 2; 3] ++ vns_command VNS_AUTH_STATUS [1] ++
  vns_command VNS_RTABLE (strncpy (bytes_of "vrhost") 32 ++ bytes_of "routes").

Lemma connect_correct_witness :
  let key := [(bytes_of "auth_key", replicate 64 65)] in
  let sr := templated_router (bytes_of "t1") (Toy sample_session [] key) in
  exists w, sr_connect_to_server (Z.to_nat 10000) sr sample_sha1 3250 0 (bytes_of "vns") = Ok (0, set_server w sr) /\
    incoming w = [] /\ file_named (bytes_of "rtable.vrhost") (files w) = Some (bytes_of "routes") /\
    map (@length Z) (outgoing w) = [36%nat; 70%nat].
Proof.
  intros key sr.
  assert (Hstr : forall s, bool_decide (is_str s) = true -> is_str s) by (intros s Hs; by apply bool_decide_eq_true in Hs).
  destruct (connect_correct 3 incoming (fun _ => 0%nat) outgoing (toy_session 3) (Z.to_nat 10000) sr sample_sha1 3250 0
    (bytes_of "vns") [127; 0; 0; 1] (server sr) (server sr) 0 [1; 2; 3] 1 []
    (vns_command VNS_RTABLE (strncpy (bytes_of "vrhost") 32 ++ bytes_of "routes")) (bytes_of "user") []
    (bytes_of "t1") [] (replicate 64 65) (replicate 64 65) []) as (_ & _ & _ & Hok);
    [reflexivity|reflexivity|lia|reflexivity|lia|reflexivity
    |apply Forall_replicate; unfold is_byte; lia|vm_compute; reflexivity|cbn; lia|cbn; lia
    |repeat constructor; unfold is_byte; lia|repeat constructor; unfold is_byte; lia|reflexivity|discriminate
    |vm_compute; reflexivity|apply Forall_replicate; unfold is_byte; lia|vm_compute; discriminate|reflexivity
    |apply Hstr; reflexivity|reflexivity|apply Hstr; reflexivity|cbn [server]; rewrite Z2Nat.id by lia; cbn; lia|].
  destruct (Hok ltac:(discriminate) ltac:(discriminate) (bytes_of "vrhost") (replicate 25 0) (bytes_of "routes") [])
    as (w & Hrun & Hp & Hf & Hsent);
    [vm_compute; reflexivity|apply Hstr; reflexivity|reflexivity|vm_compute; discriminate
    |apply (bool_decide_unpack (Forall is_byte (bytes_of "vrhost" ++ 0 :: replicate 25 0 ++ bytes_of "routes")));
     vm_compute; exact I|].
  exists w. split; [exact Hrun|]. split; [exact Hp|]. split; [exact Hf|].
  rewrite Hsent. vm_compute. reflexivity.
Defined.
