(* ===== verification/VnsMessages.v ===== *)
(** * The messages between the router and its server

    Models the structures of [Assignment2/src/router/vnscommand.h] with their
    packed layouts.  [VnsComm.v] and [SrInstance.v] write and read messages as
    bytes at offsets; proved here: these bytes are the images of the structures
    with every field in network order, and the offsets are those of their
    fields. *)

From S2P Require Import Prelude Heap CString Layout SrIf SrInstance VnsComm.

Definition MAXHWENTRIES : nat := 256.

Record c_base : Type := CBase { mLen : Z; mType : Z }.
Record c_open : Type := COpen {
  topoID : Z;   (* uint16_t *)
  pad : Z;   (* uint16_t *)
  mVirtualHostID : list Z;   (* char[IDSIZE] *)
  mUID : list Z;   (* char[IDSIZE] *)
  mPass : list Z   (* char[IDSIZE] *)
}.
Record c_packet_header : Type := CPacketHeader { mInterfaceName : list Z (* char[16] *) }.
Record c_packet_ethernet_header : Type := CPacketEthernetHeader {
  e_mInterfaceName : list Z;   (* char[16] *)
  e_ether_dhost : list Z;   (* uint8_t[6] *)
  e_ether_shost : list Z;   (* uint8_t[6] *)
  e_ether_type : Z   (* uint16_t *)
}.
Record c_hw_entry : Type := CHwEntry { mKey : Z; value : list Z (* char[32] *) }.
Record c_src_filter : Type := CSrcFilter { f_ip : Z; num_masked_bits : Z }.
Record c_open_template : Type := COpenTemplate {
  templateName : list Z;   (* char[30] *)
  t_mVirtualHostID : list Z   (* char[IDSIZE] *)
}.

(** Every message starts with its length and type. *)
Definition base_layout : layout c_base :=
  as_record (fun '(l, t) => CBase l t) (fun b => (mLen b, mType b)) (pair_of (uint 4) (uint 4)).

(** [c_hwrequest] is [c_base]; [c_close] and [c_banner] end with a text of 256
    bytes, [c_auth_reply] with the length of the name that follows,
    [c_auth_status] with a byte; [c_rtable] with the host of the table;
    [c_auth_request] and [c_hwrequest] have nothing more. *)
Definition hwrequest_layout : layout c_base := base_layout.
Definition close_layout : layout (c_base * list Z) := pair_of base_layout (octets 256).
Definition banner_layout : layout (c_base * list Z) := pair_of base_layout (octets 256).
Definition rtable_layout : layout (c_base * list Z) := pair_of base_layout (octets IDSIZE).
Definition auth_request_layout : layout c_base := base_layout.
Definition auth_reply_layout : layout (c_base * Z) := pair_of base_layout (uint 4).
Definition auth_status_layout : layout (c_base * Z) := pair_of base_layout (uint 1).

Definition open_layout : layout (c_base * c_open) :=
  pair_of base_layout (as_record (fun '(t, (p, (h, (u, w)))) => COpen t p h u w)
    (fun o => (topoID o, (pad o, (mVirtualHostID o, (mUID o, mPass o)))))
    (pair_of (uint 2) (pair_of (uint 2) (pair_of (octets IDSIZE) (pair_of (octets IDSIZE) (octets IDSIZE)))))).

Definition packet_header_layout : layout (c_base * c_packet_header) :=
  pair_of base_layout (as_record CPacketHeader mInterfaceName (octets 16)).

Definition packet_ethernet_layout : layout (c_base * c_packet_ethernet_header) :=
  pair_of base_layout (as_record (fun '(n, (d, (s, t))) => CPacketEthernetHeader n d s t)
    (fun p => (e_mInterfaceName p, (e_ether_dhost p, (e_ether_shost p, e_ether_type p))))
    (pair_of (octets 16) (pair_of (octets 6) (pair_of (octets 6) (uint 2))))).

Definition hw_entry_layout : layout c_hw_entry :=
  as_record (fun '(k, v) => CHwEntry k v) (fun e => (mKey e, value e)) (pair_of (uint 4) (octets 32)).
Definition hwinfo_layout : layout (c_base * list c_hw_entry) := pair_of base_layout (array_of MAXHWENTRIES hw_entry_layout).

Definition src_filter_layout : layout c_src_filter :=
  as_record (fun '(i, n) => CSrcFilter i n) (fun f => (f_ip f, num_masked_bits f)) (pair_of (uint 4) (uint 1)).

Definition open_template_layout : layout (c_base * c_open_template) :=
  pair_of base_layout (as_record (fun '(t, h) => COpenTemplate t h) (fun o => (templateName o, t_mVirtualHostID o))
    (pair_of (octets 30) (octets IDSIZE))).

#[export] Instance base_laws : LayoutLaws base_layout.
Proof. layout_laws. Qed.
#[export] Instance open_laws : LayoutLaws open_layout.
Proof. apply pair_laws; [apply _|layout_laws]. Qed.
#[export] Instance packet_header_laws : LayoutLaws packet_header_layout.
Proof. apply pair_laws; [apply _|layout_laws]. Qed.
#[export] Instance packet_ethernet_laws : LayoutLaws packet_ethernet_layout.
Proof. apply pair_laws; [apply _|layout_laws]. Qed.
#[export] Instance hw_entry_laws : LayoutLaws hw_entry_layout.
Proof. layout_laws. Qed.
#[export] Instance src_filter_laws : LayoutLaws src_filter_layout.
Proof. layout_laws. Qed.
#[export] Instance open_template_laws : LayoutLaws open_template_layout.
Proof. apply pair_laws; [apply _|layout_laws]. Qed.

(** ** Network order *)

Lemma le_htonl z : le_bytes 4 (htonl z) = be_bytes 4 z.
Proof.
  unfold htonl. pose proof (le_bytes_val _ (be_bytes_is_byte 4 z)) as H. by rewrite length_be_bytes in H.
Qed.
Lemma le_htons z : le_bytes 2 (htons z) = be_bytes 2 z.
Proof.
  unfold htons. pose proof (le_bytes_val _ (be_bytes_is_byte 2 z)) as H. by rewrite length_be_bytes in H.
Qed.
Lemma ntohl_le_val b : length b = 4%nat -> Forall is_byte b -> ntohl (le_val b) = be_val b.
Proof. intros Hl Hb. unfold ntohl, htonl, be_val, be_bytes. rewrite <- Hl. by rewrite le_bytes_val. Qed.

(** A header with its fields in network order. *)
Definition net_base (len ty : Z) : c_base := CBase (htonl len) (htonl ty).

Lemma enc_net_base len ty : enc base_layout (net_base len ty) = be_bytes 4 len ++ be_bytes 4 ty.
Proof. by rewrite <- !le_htonl. Qed.

(** The sizes [sizeof] gives. *)
Definition message_sizes : list nat :=
  [size_of base_layout; size_of open_layout; size_of close_layout; size_of hwrequest_layout; size_of banner_layout;
   size_of packet_ethernet_layout; size_of packet_header_layout; size_of hw_entry_layout; size_of hwinfo_layout;
   size_of rtable_layout; size_of src_filter_layout; size_of open_template_layout; size_of auth_request_layout;
   size_of auth_reply_layout; size_of auth_status_layout].

(** An entry of the hardware command as the handler reads it. *)
Lemma hw_entry_read (msg : list Z) (off : nat) : (off + 36 <= length msg)%nat -> Forall is_byte msg ->
  let e := dec hw_entry_layout (drop off msg) in
  net_field msg off = Ok (ntohl (mKey e)) /\ slice msg (off + 4) 32 = Ok (value e).
Proof.
  intros Hl Hb. unfold net_field. rewrite !slice_ok by lia. run_step.
  cbn [dec hw_entry_layout as_record pair_of uint octets size_of mKey value]. rewrite drop_drop. split; [|done].
  rewrite ntohl_le_val; [done| |by apply Forall_take, Forall_drop]. rewrite length_take, length_drop. lia.
Qed.

Section messages.
Context {W : Type} `{VnsOS W}.

(** The messages of the session are the structures of [vnscommand.h].
    The structures have the sizes the handlers use; the message that opens a
    session is a [c_open], or a [c_open_template] when a template is wanted,
    the reply to an authentication request a [c_auth_reply] with name and
    digest behind it, and a frame is sent behind a [c_packet_header], all with
    their numbers in network order; and each entry of a hardware command is
    read as the [c_hw_entry] at its place. *)
Theorem messages_are_structs :
  message_sizes = [8; 108; 264; 8; 264; 38; 24; 36; 9224; 40; 5; 70; 8; 12; 9]%nat /\
  (forall (sr : sr_instance W) t z, template sr = t ++ 0 :: z -> is_str t ->
     open_message sr = Ok (if decide (t = [])
       then enc open_layout (net_base 108 VNSOPEN, COpen (htons (topo_id sr)) 0 (strncpy (host sr) 32)
              (strncpy (user sr) 32) (replicate 32 0))
       else enc open_template_layout (net_base 70 VNS_OPEN_TEMPLATE,
              COpenTemplate (strncpy t 30) (strncpy (host sr) 32)))) /\
  (forall salt line u, auth_reply salt line u
     = enc auth_reply_layout (net_base (32 + zlen u) VNS_AUTH_REPLY, htonl (zlen u)) ++ u ++
       concat (be_bytes 4 <$> Sha1.Spec.sha1 (salt ++ take 64 (line ++ [0])))) /\
  (forall len nm body, vns_packet len nm body
     = enc packet_header_layout (net_base (len + 24) VNSPACKET, CPacketHeader (strncpy nm 16)) ++ body) /\
  (forall msg i (t : interfaces), (8 + 36 * i + 36 <= length msg)%nat -> Forall is_byte msg ->
     let e := dec hw_entry_layout (drop (8 + 36 * i) msg) in
     handle_hw_entry msg (Z.of_nat i) t
     = if decide (ntohl (mKey e) = HWINTERFACE) then sr_add_interface t (value e)
       else if decide (ntohl (mKey e) = HWETHIP) then a ← get_field (value e) 0 4; sr_set_ether_ip t a
       else if decide (ntohl (mKey e) = HWETHER) then sr_set_ether_addr t (value e) else Ok t).
Proof.
  split; [reflexivity|]. split; [|split; [|split]].
  - intros sr t z Ht Hs. rewrite (open_message_ok sr t z Ht Hs). f_equal.
    destruct (decide (t = [])); unfold open_layout, open_template_layout; cbn [enc pair_of as_record fst snd];
      rewrite enc_net_base, <- !app_assoc; [|done].
    cbn [enc pair_of uint octets fst snd topoID pad mVirtualHostID mUID mPass]. by rewrite le_htons.
  - intros salt line u. unfold auth_reply, auth_reply_layout. cbn [enc pair_of uint fst snd].
    by rewrite enc_net_base, le_htonl, <- !app_assoc.
  - intros len nm body. unfold vns_packet, packet_header_layout. cbn [enc pair_of as_record octets fst snd].
    by rewrite enc_net_base, <- !app_assoc.
  - intros msg i t Hl Hb e. unfold handle_hw_entry, sizeof_hw_entry.
    replace (Z.to_nat (8 + 36 * Z.of_nat i)) with (8 + 36 * i)%nat by lia.
    destruct (hw_entry_read msg (8 + 36 * i) Hl Hb) as [-> ->]. run_step. done.
Qed.
End messages.

Lemma messages_are_structs_witness :
  open_message (toy_router sample_if_list (Toy [] [] []))
  = Ok (enc open_layout (net_base 108 VNSOPEN, COpen 0 0 (strncpy (bytes_of "vrhost") 32)
          (strncpy (bytes_of "user") 32) (replicate 32 0))).
Proof.
  destruct (messages_are_structs (W := toy)) as (_ & Ho & _).
  exact (Ho (toy_router sample_if_list (Toy [] [] [])) [] [] eq_refl (Forall_nil_2 _)).
Defined.
