(* ===== verification/SrMain.v ===== *)
(** * The router program

    Models [main] of [Assignment2/src/router/sr_main.c] after the command line
    has been read, with the functions it calls there, and [sr_init] of
    [sr_router.c].  Proved: what the main loop makes of a whole conversation
    with the server, and in which state start-up leaves the router.  The
    thread that ages the ARP cache is not started; its turns are
    [sr_arpcache_timeout_turn] of [ArpCache.v].  The command line is read in
    [CommandLine]. *)

From S2P Require Import Prelude Heap CString Sha1 ArpCache SrIf SrRt SrDumper SrInstance Router SrPrint VnsComm.

(** [getpwuid(getuid())]: the user's name, if there is one. *)
Class SrOS (W : Type) := { sr_vns :: VnsOS W; os_pw_name : W -> option (list Z) }.

(** The variables of [main] the options set. *)
Record options : Type := Options {
  o_host : list Z;
  o_user : option (list Z);
  o_server : list Z;
  o_rtable : list Z;
  o_template : option (list Z);
  o_port : Z;   (* unsigned *)
  o_topo : Z;   (* unsigned *)
  o_logfile : option (list Z)
}.

Section code.
Context {W : Type} `{SrOS W} (inet_aton : list Z -> option Z).
Abbreviation sr_instance := (sr_instance W).

(** [raw] is the uninitialised variable. *)
Definition sr_init_instance (raw : sr_instance) : sr_instance :=
  set_routing_table (Rtable NULL (rts (routing_table_of raw))) (
  set_if_list (Interfaces NULL (ifs (if_list_of raw))) (
  set_topo_id 0 (set_host (<[0%nat := 0]> (host raw)) (set_user (<[0%nat := 0]> (user raw)) (
  set_logfile None (set_sockfd (-1) raw)))))).

Definition sr_set_user (sr : sr_instance) : sr_instance :=
  match os_pw_name (server sr) with
  | None => set_user (strncpy (bytes_of "something_silly") 32) sr
  | Some pw_name => set_user (strncpy pw_name 32) sr
  end.

(** [None]: [exit(1)]; a table that was loaded is printed. *)
Definition sr_load_rt_wrap (sr : sr_instance) (rtable : list Z) : run (option sr_instance) :=
  '(r, t) ← sr_load_rt inet_aton (routing_table_of sr) (os_file rtable (server sr));
  if decide (r <> 0) then Ok None else
  sr_print_routing_table t;;
  Ok (Some (set_routing_table t sr)).

Definition sr_init (sr : sr_instance) : sr_instance := set_cache (sr_arpcache_init (cache sr)) sr.

(** [while (sr_read_from_server(&sr) == 1);] where [clock] gives the time in
    each turn. *)
Fixpoint main_loop (turns fuel : nat) (sr : sr_instance) (sha1 : SHA1Context) (clock : nat -> Z) : run sr_instance :=
  match turns with
  | O => Crash Fuel
  | S turns =>
      '(r, sr) ← sr_read_from_server fuel sr sha1 (clock turns);
      if decide (r = 1) then main_loop turns fuel sr sha1 clock else Ok sr
  end.

(** Before the connection: the names, and the routing table unless a
    template brings one. *)
Definition configure (opts : options) (sr : sr_instance) : run (option sr_instance) :=
  o ← match o_template opts with
      | None => sr_load_rt_wrap (set_template (<[0%nat := 0]> (template sr)) sr) (o_rtable opts)
      | Some template => Ok (Some (set_template (strncpy template 30) sr))
      end;
  match o with
  | None => Ok None
  | Some sr =>
      let sr := set_host (strncpy (o_host opts) 32) (set_topo_id (u16 (o_topo opts)) sr) in
      Ok (Some match o_user opts with
               | None => sr_set_user sr
               | Some user => set_user (strncpy user 32) sr
               end)
  end.

(** [-l]: the file the packets are logged in; [None] is [exit(1)]. *)
Definition start_log (opts : options) (sr : sr_instance) : option sr_instance :=
  let '(log, w) := open_log (o_logfile opts) (server sr) in
  match log with None => None | Some log => Some (set_logfile log (set_server w sr)) end.

Definition end_log (sr : sr_instance) : sr_instance :=
  set_server (sr_destroy_instance (logfile sr) (server sr)) sr.

(** The exit status of the program.  The names the program prints are those
    of the command line, but for the user's, which may fill its array. *)
Definition main (turns fuel : nat) (opts : options) (raw : sr_instance) (sha1 : SHA1Context) (clock : nat -> Z)
    : run (Z * option sr_instance) :=
  o ← configure opts (sr_init_instance raw);
  match o with
  | None => Ok (1, None)
  | Some sr =>
      match start_log opts sr with
      | None => Ok (1, None)
      | Some sr =>
          str_of (user sr);;
          '(r, sr) ← sr_connect_to_server fuel sr sha1 (u16 (o_port opts)) (clock turns) (o_server opts);
          if decide (r = -1) then Ok (1, Some sr) else
          o ← sr_load_rt_wrap sr (if bool_decide (is_Some (o_template opts) /\ o_rtable opts = bytes_of "rtable.vrhost")
                                  then bytes_of "rtable.vrhost" else o_rtable opts);
          match o with
          | None => Ok (1, None)
          | Some sr => sr ← main_loop turns fuel (sr_init sr) sha1 clock; Ok (0, Some (end_log sr))
          end
      end
  end.
End code.

(** ** The main loop *)

(** What a server may say. *)
Inductive event : Type :=
| Banner (text : list Z)
| Hardware (es : list (Z * list Z))
| ArpFrame (nm dh sh fx op sha sip tha tip more : list Z)   (* an interface and the parts of a frame *)
| IpFrame (nm dh sh more : list Z).

Definition payload (e : event) : list Z :=
  match e with
  | Banner text => text
  | Hardware es => concat (hw_entry <$> es)
  | ArpFrame nm dh sh fx op sha sip tha tip more =>
      strncpy nm 16 ++ arp_frame dh sh [8; 6] fx op sha sip tha tip ++ more
  | IpFrame nm dh sh more => strncpy nm 16 ++ dh ++ sh ++ [8; 0] ++ more
  end.

Definition encode (e : event) : list Z :=
  vns_command (match e with Banner _ => VNSBANNER | Hardware _ => VNSHWINFO | _ => VNSPACKET end) (payload e).

Definition event_ok (e : event) : Prop :=
  zlen (payload e) <= 9992 /\ Forall is_byte (payload e) /\
  match e with
  | Banner _ => True
  | Hardware es => Forall hw_entry_ok es
  | ArpFrame nm dh sh fx op sha sip tha tip more =>
      is_str nm /\ (length nm < 16)%nat /\ length dh = 6%nat /\ length sh = 6%nat /\ length fx = 6%nat /\
      length op = 2%nat /\ length sha = 6%nat /\ length sip = 4%nat /\ length tha = 6%nat /\ length tip = 4%nat /\
      Forall is_byte op
  | IpFrame nm dh sh _ => is_str nm /\ (length nm < 16)%nat /\ length dh = 6%nat /\ length sh = 6%nat
  end.

(** The first interface with a name. *)
Definition iface_named (nm : list Z) (vs : list iface) : option iface :=
  snd <$> list_find (fun v => bool_decide (take 32 (i_name v) = take 32 nm) = true) vs.

(** Every route has its interface, and there are both. *)
Definition consistent (vs : list iface) (routes : list route) : bool :=
  bool_decide (vs <> [] /\ routes <> [] /\
    Forall (fun r => existsb (fun v => bool_decide (take 32 (i_name v) = take 32 (r_if r))) vs = true) routes).

Inductive outcome : Type :=
| Goes (vs : list iface)   (* the router runs on, with these interfaces *)
| Stops (vs : list iface)   (* it leaves its loop *)
| Dies (f : fault).   (* an assertion fails, or an access is undefined *)

(** What the router makes of one command. *)
Definition react (routes : list route) (vs : list iface) (e : event) : outcome :=
  match e with
  | Banner text => if decide (0 ∈ text) then Goes vs else Dies OutOfRange
  | Hardware es =>
      match foldl hw_effect (Some vs) es with
      | None => Dies Abort
      | Some vs =>
          match first_fault vs with
          | Some f => Dies f
          | None => if consistent vs routes then Goes vs else Stops vs
          end
      end
  | ArpFrame nm _ _ _ op _ _ _ tip _ =>
      match iface_named nm vs with
      | Some v =>
          if decide (op = [0; 1]) then
            match i_ip v with
            | Some i => if decide (le_val tip <> i) then Goes vs else Dies Abort
            | None => Dies Uninit
            end
          else Dies Abort
      | None => Dies Abort
      end
  | IpFrame _ _ _ _ => Dies Abort
  end.

(** And of a conversation: the outcome and what is left of it. *)
Fixpoint play (routes : list route) (vs : list iface) (es : list event) : outcome * list event :=
  match es with
  | [] => (Goes vs, [])
  | e :: es => match react routes vs e with Goes vs => play routes vs es | o => (o, es) end
  end.

Section loop.
Context {W : Type} `{SrOS W} (fd : Z) (pending : W -> list Z) (signals : W -> nat).
Context (Hst : stream_reads pending signals fd) (Hend : stream_ends pending fd).
Abbreviation sr_instance := (sr_instance W).
Implicit Types sr : sr_instance.

(** The loop with [n] turns left gets from [sr] to [sr'], with [k] left. *)
Inductive runs_to (fuel : nat) (sha1 : SHA1Context) (clock : nat -> Z) : nat -> sr_instance -> nat -> sr_instance -> Prop :=
| runs_here n sr : runs_to fuel sha1 clock n sr n sr
| runs_turn n sr sr1 k sr' : sr_read_from_server fuel sr sha1 (clock n) = Ok (1, sr1) ->
    runs_to fuel sha1 clock n sr1 k sr' -> runs_to fuel sha1 clock (S n) sr k sr'.

Lemma runs_to_run fuel sha1 clock n sr k sr' : runs_to fuel sha1 clock n sr k sr' ->
  main_loop n fuel sr sha1 clock = main_loop k fuel sr' sha1 clock.
Proof. induction 1 as [|n sr sr1 k sr' Hr _ IH]; [done|]. cbn [main_loop]. rewrite Hr. run_step. by rewrite decide_True. Qed.

Lemma iface_named_ok nm avs : named nm avs = iface_named nm avs.*2.
Proof.
  unfold named, iface_named.
  rewrite (list_find_fmap snd (fun v => bool_decide (take 32 (i_name v) = take 32 nm) = true) avs).
  change (list_find (_ ∘ _) avs) with (list_find (fun v : positive * iface => bool_decide (take 32 (i_name v.2) = take 32 nm) = true) avs).
  by destruct (list_find _ avs) as [[k [a v]]|].
Qed.

Lemma existsb_fmap {A B} (f : B -> bool) (g : A -> B) l : existsb f (g <$> l) = existsb (fun x => f (g x)) l.
Proof. induction l as [|x l IH]; [done|]. rewrite fmap_cons. cbn [existsb]. by rewrite IH. Qed.

Lemma consistent_ok t avs irest rt routes rrest : if_rep t avs irest -> rt_rep rt routes rrest ->
  zlen routes < 2 ^ 31 ->
  exists n, sr_verify_routing_table t rt = Ok n /\ (n = 0 <-> consistent avs.*2 routes = true).
Proof.
  intros Hif Hrt Hmax.
  destruct (verify_routing_table_correct t avs irest rt routes rrest Hif Hrt Hmax) as [Heq Hz].
  eexists. split; [exact Heq|]. unfold consistent. rewrite bool_decide_eq_true.
  destruct (decide (avs = [] \/ routes = [])) as [Hn|Hn].
  { split; [done|]. intros (H1 & H2 & _). destruct Hn as [-> | ->]; done. }
  rewrite Heq in Hz. assert (avs <> [] /\ routes <> []) as [H1 H2] by naive_solver.
  assert (Forall (fun r => existsb (fun v => bool_decide (take 32 (i_name v) = take 32 (r_if r))) avs.*2 = true) routes
    <-> Forall (fun v => has_iface avs v = true) routes) as ->.
  { apply Forall_iff. intros r. by rewrite existsb_fmap. }
  specialize (Hz H1 H2). split.
  - intros Hn0. split; [by destruct avs|]. split; [done|]. apply Hz. by rewrite Hn0.
  - intros (_ & _ & Hall). apply Hz in Hall. by injection Hall.
Qed.

Lemma dispatch_banner fuel sr sha1 buf len now :
  dispatch fuel sr sha1 buf len VNSBANNER now = (str_of (drop sizeof_c_base buf);; Ok (1, sr)).
Proof. reflexivity. Qed.

Lemma dispatch_close fuel sr sha1 buf len now :
  dispatch fuel sr sha1 buf len VNSCLOSE now = (str_of (drop sizeof_c_base buf);; Ok (0, sr)).
Proof. reflexivity. Qed.

(** One command; [I] is anything reads do not disturb. *)
Lemma react_ok (I : W -> Prop) fuel sr sha1 vs rest routes rrest e more now : sockfd sr = fd ->
  if_list_rep (if_list_of sr) vs rest -> rt_rep (routing_table_of sr) routes rrest -> zlen routes < 2 ^ 31 ->
  event_ok e -> pending (server sr) = encode e ++ more -> 10000 + Z.of_nat (signals (server sr)) <= Z.of_nat fuel ->
  (forall n w, I w -> I (os_read fd n w).2) -> I (server sr) ->
  exists w, pending w = more /\ (signals w <= signals (server sr))%nat /\ I w /\
    match react routes vs e with
    | Goes vs' => exists t, sr_read_from_server fuel sr sha1 now = Ok (1, set_server w (set_if_list t sr)) /\
                    if_list_rep t vs' rest
    | Stops vs' => exists t, sr_read_from_server fuel sr sha1 now = Ok (-1, set_server w (set_if_list t sr)) /\
                     if_list_rep t vs' rest
    | Dies f => sr_read_from_server fuel sr sha1 now = Crash f
    end.
Proof.
  intros Hfd Hif Hrt Hmax (Hlen & Hb & Hok) Hp Hf HI HI0. unfold sr_read_from_server.
  set (ty := match e with Banner _ => VNSBANNER | Hardware _ => VNSHWINFO | _ => VNSPACKET end).
  destruct (expect_command pending signals I fuel sr sha1 0 ty (payload e) more now)
    as (w & Hw & Hs & HIw & Hr); [by rewrite Hfd|by rewrite Hfd|done|done|by left|by destruct e|done|done|done|].
  exists w. do 3 (split; [done|]). rewrite Hr. unfold command_in_memory. rewrite app_assoc.
  set (hdr := be_bytes 4 (8 + zlen (payload e)) ++ le_bytes 4 ty).
  assert (length hdr = 8%nat) as Hh by (unfold hdr; by rewrite length_app, length_be_bytes, length_le_bytes).
  assert (forall nm frame, payload e = strncpy nm 16 ++ frame -> 8 + zlen (payload e) = 24 + zlen frame) as Hpl.
  { intros nm frame ->. rewrite length_app, length_strncpy. lia. }
  assert (hdr = be_bytes 4 (8 + zlen (payload e)) ++ le_bytes 4 ty) as Hhdr by done. clearbody hdr.
  destruct Hif as (avs & Hif & Havs & Hwf).
  assert (drop sizeof_c_base (hdr ++ payload e) = payload e) as Hdrop by (by apply drop_app_length').
  destruct e as [text|es|nm dh sh fx op sha sip tha tip more'|nm dh sh more']; cbn [payload react] in *.
  - change ty with VNSBANNER. rewrite dispatch_banner, Hdrop. destruct (decide (0 ∈ text)) as [Hin|Hout].
    + rewrite str_of_terminated by done. run_step. exists (if_list_of sr). split; [done|]. by exists avs.
    + by rewrite str_of_unterminated.
  - rewrite dispatch_hwinfo, Hhdr, <- app_assoc. pose proof (length_hw_entries es Hok) as Hle.
    replace (8 + zlen (concat (hw_entry <$> es))) with (8 + 36 * zlen es) by lia.
    pose proof (hwinfo_ok (set_server w sr) vs rest (le_bytes 4 ty) es) as Hhw. cbv zeta in Hhw.
    specialize (Hhw ltac:(by exists avs) Hok ltac:(by rewrite length_le_bytes) ltac:(lia)).
    destruct (foldl hw_effect (Some vs) es) as [vs'|]; [|by rewrite Hhw].
    destruct (first_fault vs') as [f|]; [by rewrite Hhw|].
    destruct Hhw as (t & Hrun & avs' & Hif' & <- & Hwf'). rewrite Hrun. run_step.
    destruct (consistent_ok t avs' rest _ routes rrest Hif' Hrt Hmax) as (n & Hv & Hn).
    change (if_list_of (set_if_list t (set_server w sr))) with t.
    change (routing_table_of (set_if_list t (set_server w sr))) with (routing_table_of sr). rewrite Hv. run_step.
    destruct (consistent avs'.*2 routes); exists t.
    + rewrite decide_False by naive_solver. split; [done|]. by exists avs'.
    + rewrite decide_True by naive_solver. split; [done|]. by exists avs'.
  - destruct Hok as (Hnm & Hnl & L1 & L2 & L4 & L5 & L6 & L7 & L8 & L9 & HFo).
    subst vs. rewrite Hhdr, (Hpl nm _ eq_refl), <- (iface_named_ok nm avs), <- app_assoc.
    pose proof (dispatch_arp fuel (set_server w sr) sha1 avs rest (le_bytes 4 VNSPACKET) nm dh sh fx op sha sip tha tip more' now
      Hif eq_refl Hnm Hnl L1 L2 L4 L5 L6 L7 L8 L9 HFo) as Hd. cbv zeta in Hd. unfold packet_command in Hd.
    change ty with VNSPACKET. rewrite Hd.
    2:{ rewrite length_app in Hlen. lia. }
    destruct (named nm avs) as [v|]; [|done]. destruct (decide (op = [0; 1])); [|done].
    destruct (i_ip v) as [i|]; [|done]. run_step. destruct (decide (le_val tip <> i)); [|done].
    exists (if_list_of sr). split; [done|]. by exists avs.
  - destruct Hok as (Hnm & Hnl & L1 & L2). rewrite Hhdr, (Hpl nm _ eq_refl), <- app_assoc.
    apply (dispatch_ip fuel (set_server w sr) sha1 avs rest (le_bytes 4 VNSPACKET) nm dh sh more' now Hif eq_refl Hnm Hnl L1 L2).
    rewrite !length_app in Hlen. lia.
Qed.

(** The loop. *)
Lemma main_loop_ok (I : W -> Prop) turns fuel sr sha1 clock vs rest routes rrest es tail :
  sockfd sr = fd -> if_list_rep (if_list_of sr) vs rest -> rt_rep (routing_table_of sr) routes rrest ->
  zlen routes < 2 ^ 31 -> Forall event_ok es -> pending (server sr) = concat (encode <$> es) ++ tail ->
  (length es < turns)%nat -> 10000 + Z.of_nat (signals (server sr)) <= Z.of_nat fuel ->
  (forall n w, I w -> I (os_read fd n w).2) -> I (server sr) ->
  match play routes vs es with
  | (Goes vs', _) =>
      (forall text more, tail = vns_command VNSCLOSE text ++ more -> zlen text <= 9992 -> Forall is_byte text ->
         (0 ∈ text -> exists t w, main_loop turns fuel sr sha1 clock = Ok (set_server w (set_if_list t sr)) /\
            if_list_rep t vs' rest /\ pending w = more /\ I w) /\
         (0 ∉ text -> main_loop turns fuel sr sha1 clock = Crash OutOfRange)) /\
      (zlen tail < 4 -> main_loop turns fuel sr sha1 clock = Crash Fuel)
  | (Stops vs', es') =>
      exists t w, main_loop turns fuel sr sha1 clock = Ok (set_server w (set_if_list t sr)) /\
        if_list_rep t vs' rest /\ pending w = concat (encode <$> es') ++ tail /\ I w
  | (Dies f, es') =>
      exists k e t w, runs_to fuel sha1 clock turns sr (S k) (set_server w (set_if_list t sr)) /\
        I w /\ pending w = encode e ++ concat (encode <$> es') ++ tail /\
        sr_read_from_server fuel (set_server w (set_if_list t sr)) sha1 (clock k) = Crash f
  end.
Proof.
  intros Hfd Hif Hrt Hmax Hes Hp Ht Hf HI. revert turns sr vs Hfd Hif Hrt Hp Ht Hf.
  induction Hes as [|e es He Hes IH]; intros turns sr vs Hfd Hif Hrt Hp Ht Hf HI0;
    (destruct turns as [|turns]; [cbn in Ht; lia|]); cbn [play].
  - cbn [main_loop]. cbn [fmap list_fmap concat app] in Hp. split.
    + intros text more -> Hl Hb. pose proof (length_be_bytes 4 (8 + zlen text)) as L1.
      pose proof (length_le_bytes 4 VNSCLOSE) as L2. unfold sr_read_from_server.
      destruct (expect_command pending signals I fuel sr sha1 0 VNSCLOSE text more (clock turns))
        as (w & Hw & _ & HIw & Hr); [by rewrite Hfd|by rewrite Hfd|done|done|by left|done|done|done|done|].
      rewrite Hr, dispatch_close. unfold command_in_memory. rewrite app_assoc, drop_app_length'
        by (rewrite length_app, L1, L2; done). split.
      * intros Hin. rewrite str_of_terminated by done. run_step. by exists (if_list_of sr), w.
      * intros Hout. by rewrite str_of_unterminated.
    + intros Hs. unfold sr_read_from_server, sr_read_from_server_expect. rewrite Hfd.
      rewrite (read_all_short pending signals fd 4 Hst Hend); [done|]. rewrite Hp. done.
  - rewrite fmap_cons in Hp. cbn [concat] in Hp. rewrite <- app_assoc in Hp.
    destruct (react_ok I fuel sr sha1 vs rest routes rrest e _ (clock turns) Hfd Hif Hrt Hmax He Hp Hf HI HI0)
      as (w & Hw & Hs & HIw & Hr).
    destruct (react routes vs e) as [vs'|vs'|f].
    + destruct Hr as (t & Hrun & Ht').
      assert (10000 + Z.of_nat (signals w) <= Z.of_nat fuel) as Hf' by lia.
      specialize (IH turns (set_server w (set_if_list t sr)) vs' Hfd Ht' Hrt Hw ltac:(cbn in Ht; lia) Hf' HIw).
      assert (main_loop (S turns) fuel sr sha1 clock = main_loop turns fuel (set_server w (set_if_list t sr)) sha1 clock)
        as Hm by (cbn [main_loop]; rewrite Hrun; run_step; by rewrite decide_True).
      destruct (play routes vs' es) as [[v|v|f] es']; [by rewrite Hm|by rewrite Hm|].
      destruct IH as (k & e' & t' & w' & Hk & IH). exists k, e', t', w'. split; [by eapply runs_turn|exact IH].
    + destruct Hr as (t & Hrun & Ht'). cbn [main_loop]. rewrite Hrun. run_step. rewrite decide_False by done. by exists t, w.
    + exists turns, e, (if_list_of sr), (server sr).
      assert (set_server (server sr) (set_if_list (if_list_of sr) sr) = sr) as -> by (by destruct sr).
      split_and!; [apply runs_here|done..].
Qed.

(** C17: a whole conversation.  On any sequence of banners, hardware commands and
    ARP and IP frames, the main loop does what [play] says, one command after
    another: it ends at a hardware command that leaves a route without its
    interface; it dies at an IP frame, at an ARP frame that is not a request
    for somebody else, at a text that has no end and at a list of interfaces
    that cannot be printed, having read nothing behind that command; and
    otherwise goes on until the server closes the session with a command,
    when it ends with the interfaces announced so far, if the reason given is
    a string with an end; when the server closes the stream without one, it
    never ends. *)
Theorem main_loop_correct turns fuel sr sha1 clock vs rest routes rrest es tail :
  sockfd sr = fd -> if_list_rep (if_list_of sr) vs rest -> rt_rep (routing_table_of sr) routes rrest ->
  zlen routes < 2 ^ 31 -> Forall event_ok es -> pending (server sr) = concat (encode <$> es) ++ tail ->
  (length es < turns)%nat -> 10000 + Z.of_nat (signals (server sr)) <= Z.of_nat fuel ->
  match play routes vs es with
  | (Goes vs', _) =>
      (forall text more, tail = vns_command VNSCLOSE text ++ more -> zlen text <= 9992 -> Forall is_byte text ->
         (0 ∈ text -> exists sr', main_loop turns fuel sr sha1 clock = Ok sr' /\
            if_list_rep (if_list_of sr') vs' rest /\ pending (server sr') = more) /\
         (0 ∉ text -> main_loop turns fuel sr sha1 clock = Crash OutOfRange)) /\
      (zlen tail < 4 -> main_loop turns fuel sr sha1 clock = Crash Fuel)
  | (Stops vs', es') =>
      exists sr', main_loop turns fuel sr sha1 clock = Ok sr' /\ if_list_rep (if_list_of sr') vs' rest /\
        pending (server sr') = concat (encode <$> es') ++ tail
  | (Dies f, es') =>
      main_loop turns fuel sr sha1 clock = Crash f /\
      exists k e sr', runs_to fuel sha1 clock turns sr (S k) sr' /\
        pending (server sr') = encode e ++ concat (encode <$> es') ++ tail /\
        sr_read_from_server fuel sr' sha1 (clock k) = Crash f
  end.
Proof.
  intros Hfd Hif Hrt Hmax Hes Hp Ht Hf.
  pose proof (main_loop_ok (fun _ => True) turns fuel sr sha1 clock vs rest routes rrest es tail) as Hl.
  specialize (Hl Hfd Hif Hrt Hmax Hes Hp Ht Hf ltac:(done) Logic.I).
  destruct (play routes vs es) as [[v|v|f] es'].
  - destruct Hl as [Hc Hs]. split; [|done]. intros text more Htl Hl Hb.
    destruct (Hc text more Htl Hl Hb) as [Hin Hout]. split; [|done]. intros Hi.
    destruct (Hin Hi) as (t & w & -> & ? & ? & _). by eexists.
  - destruct Hl as (t & w & -> & ? & ? & _). by eexists.
  - destruct Hl as (k & e & t & w & Hm & _ & Hpw & Hr). split.
    + rewrite (runs_to_run _ _ _ _ _ _ _ Hm). cbn [main_loop]. by rewrite Hr.
    + by eexists k, e, _.
Qed.
End loop.

(** ** Start-up *)

(** The routes of a routing-table file whose rows all parse. *)
Definition routes_of (inet_aton : list Z -> option Z) (rows : list row) : list route := (parse_rows inet_aton rows).1.

Section startup.
Context {W : Type} `{SrOS W} (inet_aton : list Z -> option Z).
Context (fd : Z) (pending : W -> list Z) (signals : W -> nat) (sent : W -> list (list Z)).
Context (Hss : session_server fd pending signals sent) (Hend : stream_ends pending fd).
Abbreviation sr_instance := (sr_instance W).
Implicit Types sr : sr_instance.

(** The program gets to its main loop, in the state [sr0]. *)
Definition started (fuel : nat) (opts : options) (raw : sr_instance) (sha1 : SHA1Context) (now : Z) (sr0 : sr_instance) : Prop :=
  exists s1 s2 text r s3 s4, configure inet_aton opts (sr_init_instance raw) = Ok (Some s1) /\ start_log opts s1 = Some s2 /\
    str_of (user s2) = Ok text /\
    sr_connect_to_server fuel s2 sha1 (u16 (o_port opts)) now (o_server opts) = Ok (r, s3) /\ r <> -1 /\
    sr_load_rt_wrap inet_aton s3 (o_rtable opts) = Ok (Some s4) /\ sr0 = sr_init s4.

Lemma started_main turns fuel opts raw sha1 clock sr0 : o_template opts = None ->
  started fuel opts raw sha1 (clock turns) sr0 ->
  main inet_aton turns fuel opts raw sha1 clock = (sr ← main_loop turns fuel sr0 sha1 clock; Ok (0, Some (end_log sr))).
Proof.
  intros Ho (s1 & s2 & text & r & s3 & s4 & H1 & H2 & H3 & H4 & Hr & H5 & ->). unfold main. rewrite H1. run_step.
  rewrite H2, H3. run_step. rewrite H4. run_step. rewrite decide_False by done.
  rewrite bool_decide_false by (rewrite Ho; intros [[? [=]] _]). rewrite H5. by run_step.
Qed.

Lemma row_names rows : Forall row_ok rows -> Forall (fun v => zlen (r_if v) < 32) (routes_of inet_aton rows).
Proof.
  intros Hr. unfold routes_of. induction Hr as [|r rows (_ & _ & _ & (_ & Hl & _)) _ IH]; [by apply Forall_nil_2|].
  cbn [parse_rows]. unfold row_route. destruct (inet_aton (w_dest r)); [|by apply Forall_nil_2]. cbn.
  destruct (inet_aton (w_gw r)); [|by apply Forall_nil_2]. cbn.
  destruct (inet_aton (w_mask r)); [|by apply Forall_nil_2]. cbn.
  destruct (parse_rows inet_aton rows). by apply Forall_cons.
Qed.

Lemma load_rt_wrap_ok sr vs rest nm rows : rt_rep (routing_table_of sr) vs rest ->
  routes_wf (routing_table_of sr) -> Forall (fun v => zlen (r_if v) < 32) vs ->
  os_file nm (server sr) = Some (concat (print_row <$> rows)) -> Forall row_ok rows ->
  (parse_rows inet_aton rows).2 = 0 ->
  exists t rest', sr_load_rt_wrap inet_aton sr nm = Ok (Some (set_routing_table t sr)) /\
    rt_rep t (match routes_of inet_aton rows with [] => vs | news => news end) rest' /\ routes_wf t.
Proof.
  intros Hrt Hwf Hvs Hfile Hok Hz. unfold sr_load_rt_wrap. rewrite Hfile.
  destruct (load_lines_ok inet_aton rows (length (concat (print_row <$> rows))) (replicate 4 None) false _ vs rest Hok
    eq_refl Hrt ltac:(lia)) as (t & rest' & Hload & Hrep).
  assert (rt_rep t (match routes_of inet_aton rows with [] => vs | news => news end) rest') as Hrep'
    by (unfold routes_of; by destruct (parse_rows inet_aton rows).1).
  pose proof (load_lines_wf _ _ _ _ _ _ _ _ Hload Hwf) as Hwf'. unfold sr_load_rt. rewrite Hload.
  run_step. rewrite Hz. rewrite decide_False by naive_solver.
  destruct (print_routing_table_ok t _ _ Hrep' Hwf') as [out ->].
  { pose proof (row_names rows Hok) as Hn. by destruct (routes_of inet_aton rows). }
  run_step. by exists t, rest'.
Qed.

(** A name of less than [n] bytes copied into an array. *)
Lemma strncpy_short s n : is_str s -> (length s < Z.to_nat n)%nat ->
  strncpy s n = s ++ 0 :: replicate (Z.to_nat n - length s - 1) 0.
Proof.
  intros Hs Hl. unfold strncpy. rewrite (c_str_id s) by done. rewrite take_app_ge by lia. f_equal.
  rewrite take_replicate. replace ((Z.to_nat n - length s) `min` Z.to_nat n)%nat with (S (Z.to_nat n - length s - 1)) by lia. done.
Qed.

(** A copied name copied again. *)
Lemma strncpy_idem s n : strncpy (strncpy s n) n = strncpy s n.
Proof.
  transitivity (take (Z.to_nat n) (c_str (strncpy s n) ++ replicate (Z.to_nat n) 0)); [done|].
  assert (strncpy s n = strncpy (c_str s) n) as Hc
    by (unfold strncpy; by rewrite (c_str_id (c_str s)) by apply c_str_is_str).
  rewrite Hc, c_str_strncpy by apply c_str_is_str. unfold strncpy. rewrite (c_str_id (c_str s)) by apply c_str_is_str.
  rewrite !take_app, !take_take, !length_take, !take_replicate. f_equal; [f_equal; lia|f_equal; lia].
Qed.

(** What the options make of the instance. *)
Definition configured (opts : options) (u : list Z) (t : rtable) (raw : sr_instance) : sr_instance :=
  set_user (strncpy u 32) (set_host (strncpy (o_host opts) 32) (set_topo_id (u16 (o_topo opts))
    (set_routing_table t (set_template (<[0%nat := 0]> (template raw)) (sr_init_instance raw))))).

Lemma configure_ok opts raw u rows : o_template opts = None -> o_user opts = Some u ->
  heap_wf (rts (routing_table_of raw)) -> os_file (o_rtable opts) (server raw) = Some (concat (print_row <$> rows)) ->
  routes_wf (routing_table_of raw) -> Forall row_ok rows -> (parse_rows inet_aton rows).2 = 0 ->
  exists t rest, configure inet_aton opts (sr_init_instance raw) = Ok (Some (configured opts u t raw)) /\
    rt_rep t (routes_of inet_aton rows) rest /\ routes_wf t.
Proof.
  intros Ht Hu Hwf Hfile Hrw Hok Hz. unfold configure. rewrite Ht.
  destruct (load_rt_wrap_ok (set_template (<[0%nat:=0]> (template (sr_init_instance raw))) (sr_init_instance raw))
    [] (cells (rts (routing_table_of raw))) (o_rtable opts) rows) as (t & rest & -> & Hrep & Hw);
    [|done|by apply Forall_nil_2|done..|].
  { exists []. split; [done|]. split; [done|]. by apply owning_empty. }
  run_step. rewrite Hu. exists t, rest. split; [done|]. split; [|done]. by destruct (routes_of inet_aton rows).
Qed.

(** C16: the router's whole life, started with a user name and a readable
    routing table and no template, against a server that accepts the user, with
    a packet log or without ([-l]; the log is closed at the end), in a
    conversation of banners, hardware commands and ARP and IP frames.  The
    only messages it sends are the answer to the authentication and the
    opening of the session: it exits with status 0 having sent these when the
    server closes the session or announces interfaces that do not fit the
    routing table; and where [play] says that it dies, at the first frame that
    is not an ARP request for somebody else or at a text or interface list
    that cannot be printed, it has sent these when it comes to read that
    command. *)
Theorem main_correct turns fuel opts raw sha1 clock u rows log wl addr w0 w1 r salt ok msg file line rest es text more :
  o_template opts = None -> o_user opts = Some u -> is_str u -> (length u < 32)%nat ->
  template raw <> [] -> heap_wf (rts (routing_table_of raw)) -> heap_wf (ifs (if_list_of raw)) ->
  routes_wf (routing_table_of raw) -> ifaces_wf (if_list_of raw) ->
  Forall row_ok rows -> (parse_rows inet_aton rows).2 = 0 -> zlen (routes_of inet_aton rows) < 2 ^ 31 ->
  os_file (o_rtable opts) (server raw) = Some (concat (print_row <$> rows)) ->
  open_log (o_logfile opts) (server raw) = (Some log, wl) ->
  os_resolve (o_server opts) wl = Some addr -> os_socket wl = (fd, w0) -> 0 <= fd ->
  os_connect fd addr (u16 (o_port opts)) w0 = (r, w1) -> 0 <= r ->
  os_file (o_rtable opts) w1 = Some (concat (print_row <$> rows)) ->
  length (Message_Block sha1) = 64%nat -> Forall is_byte (Message_Block sha1) ->
  zlen salt <= 9992 -> zlen msg < 9992 -> Forall is_byte salt -> Forall is_byte (ok :: msg) -> ok <> 0 ->
  os_file (bytes_of "auth_key") w1 = Some file -> file <> [] -> fgets 64 file = (line, rest) ->
  Forall is_byte line -> 63 <= zlen line ->
  Forall event_ok es -> zlen text <= 9992 -> Forall is_byte text -> 0 ∈ text ->
  pending w1 = vns_command VNS_AUTH_REQUEST salt ++ vns_command VNS_AUTH_STATUS (ok :: msg) ++
               concat (encode <$> es) ++ vns_command VNSCLOSE text ++ more ->
  (length es < turns)%nat -> 10000 + Z.of_nat (signals w1) <= Z.of_nat fuel ->
  let sends := [auth_reply salt line u;
                be_bytes 4 108 ++ be_bytes 4 1 ++ be_bytes 2 (u16 (o_topo opts)) ++ [0; 0] ++
                strncpy (o_host opts) 32 ++ strncpy u 32 ++ replicate 32 0] in
  match play (routes_of inet_aton rows) [] es with
  | (Goes vs, _) =>
      exists sr w, main inet_aton turns fuel opts raw sha1 clock = Ok (0, Some sr) /\
        if_list_rep (if_list_of sr) vs (cells (ifs (if_list_of raw))) /\
        server sr = sr_destroy_instance log w /\ pending w = more /\ sent w = sent w1 ++ sends
  | (Stops vs, es') =>
      exists sr w, main inet_aton turns fuel opts raw sha1 clock = Ok (0, Some sr) /\
        if_list_rep (if_list_of sr) vs (cells (ifs (if_list_of raw))) /\
        server sr = sr_destroy_instance log w /\
        pending w = concat (encode <$> es') ++ vns_command VNSCLOSE text ++ more /\
        sent w = sent w1 ++ sends
  | (Dies f, es') =>
      main inet_aton turns fuel opts raw sha1 clock = Crash f /\
      exists sr0 k e sr, started fuel opts raw sha1 (clock turns) sr0 /\
        runs_to fuel sha1 clock turns sr0 (S k) sr /\
        sr_read_from_server fuel sr sha1 (clock k) = Crash f /\
        pending (server sr) = encode e ++ concat (encode <$> es') ++ vns_command VNSCLOSE text ++ more /\
        sent (server sr) = sent w1 ++ sends
  end.
Proof.
  intros Ho Hou Hu Hul Htmpl Hwf Hwf' Hrw Hiw Hrows Hz Hmax Hf0 Hlog Hres Hsock Hfd Hcon Hr Hf1 Hl Hb Hsl Hml Hsb Hmb Hok
    Hkey Hne Hfg Hline H63 Hes Htx Htb Hin Hp Hturns Hfuel sends.
  destruct (configure_ok opts raw u rows Ho Hou Hwf Hf0 Hrw Hrows Hz) as (t & trest & Hconf & Hrt & Hrw').
  destruct (template raw) as [|t0 traw] eqn:Ht; [done|].
  set (sr0 := set_logfile log (set_server wl (configured opts u t raw))).
  assert (start_log opts (configured opts u t raw) = Some sr0) as Hstart.
  { unfold start_log. change (server (configured opts u t raw)) with (server raw). by rewrite Hlog. }
  destruct (connect_ok fd pending signals sent Hss fuel sr0 sha1 (u16 (o_port opts)) (clock turns)
    (o_server opts) addr w0 w1 r salt ok msg (concat (encode <$> es) ++ vns_command VNSCLOSE text ++ more)
    u (replicate (32 - length u - 1) 0) [] traw file line rest) as (_ & _ & Hopen & _); try done.
  { cbn. apply strncpy_short; [done|]. cbn. lia. }
  { cbn. by rewrite Ht. }
  { by apply Forall_nil. }
  destruct (Hopen Hok eq_refl) as (w & Hrun & Hpw & Hsw & Hsig & Hfw).
  change (host sr0) with (strncpy (o_host opts) 32) in Hsw.
  change (user sr0) with (strncpy u 32) in Hsw.
  change (topo_id sr0) with (u16 (o_topo opts)) in Hsw.
  rewrite !strncpy_idem in Hsw. fold sends in Hsw.
  set (sr1 := set_server w (set_sockfd fd sr0)) in Hrun.
  destruct (load_rt_wrap_ok sr1 (routes_of inet_aton rows) trest (o_rtable opts) rows Hrt) as (t' & trest' & Hload & Hrt' & _);
    [done|by apply row_names|by rewrite Hfw|done|done|].
  assert (started fuel opts raw sha1 (clock turns) (sr_init (set_routing_table t' sr1))) as Hsd.
  { exists (configured opts u t raw), sr0, u, 0, sr1, (set_routing_table t' sr1). split_and!; try done.
    assert (user sr0 = u ++ 0 :: replicate (32 - length u - 1) 0) as -> by (apply strncpy_short; [done|cbn; lia]).
    by apply str_of_ok. }
  rewrite (started_main turns _ _ _ _ _ _ Ho Hsd).
  assert (rt_rep t' (routes_of inet_aton rows) trest') as Hrt2 by (by destruct (routes_of inet_aton rows)).
  pose proof (main_loop_ok fd pending signals (ss_reads _ _ _ _ Hss) Hend (fun w' => sent w' = sent w) turns fuel
    (sr_init (set_routing_table t' sr1)) sha1 clock [] (cells (ifs (if_list_of raw)))
    (routes_of inet_aton rows) trest' es
    (vns_command VNSCLOSE text ++ more) eq_refl) as Hloop.
  specialize (Hloop ltac:(exists []; split; [|done]; exists []; split; [done|]; split; [done|]; by apply owning_empty)
    Hrt2 Hmax Hes Hpw Hturns ltac:(cbn; lia)
    ltac:(intros n w' Hw'; exact (eq_trans (ss_read_sent _ _ _ _ Hss n w') Hw')) eq_refl).
  destruct (play (routes_of inet_aton rows) [] es) as [[vs|vs|f] es'].
  - destruct Hloop as [Hc _]. destruct (proj1 (Hc text more eq_refl Htx Htb) Hin) as (t2 & w2 & -> & Hrep & Hp2 & Hs2).
    eexists _, w2. split; [done|]. split; [done|]. split; [done|]. split; [done|]. by rewrite Hs2, Hsw.
  - destruct Hloop as (t2 & w2 & -> & Hrep & Hp2 & Hs2).
    eexists _, w2. split; [done|]. split; [done|]. split; [done|]. split; [done|]. by rewrite Hs2, Hsw.
  - destruct Hloop as (k & e & t2 & w2 & Hk & Hs2 & Hp2 & Hr2). split.
    + rewrite (runs_to_run _ _ _ _ _ _ _ Hk). cbn [main_loop]. by rewrite Hr2.
    + eexists _, k, e, _. split; [exact Hsd|]. split; [exact Hk|]. split; [exact Hr2|]. split; [exact Hp2|].
      cbn [server set_server]. by rewrite Hs2, Hsw.
Qed.
End startup.

(** ** A conversation *)

#[global] Instance toy_sros : SrOS toy := {| sr_vns := toy_os; os_pw_name _ := None |}.

(** The two interfaces the routes of [sample_rows] need, a greeting, and an ARP
    request for a third machine. *)
Definition sample_events : list event :=
  [Banner (bytes_of "hello" ++ [0]);
   Hardware [(HWINTERFACE, strncpy (bytes_of "eth0") 32); (HWETHIP, [10; 0; 0; 1] ++ replicate 28 0);
             (HWETHER, sample_mac ++ replicate 26 0); (HWINTERFACE, strncpy (bytes_of "eth1") 32);
             (HWETHER, [2; 0; 0; 0; 0; 5] ++ replicate 26 0); (HWETHIP, [10; 0; 1; 1] ++ replicate 28 0)];
   ArpFrame (bytes_of "eth0") (replicate 6 255) sample_mac [0; 1; 8; 0; 6; 4] [0; 1] sample_mac [10; 0; 0; 9]
     (replicate 6 0) [10; 0; 0; 7] []].

Definition sample_vs : list iface :=
  [Iface (bytes_of "eth0") (Some sample_mac) (Some 0x0100000a);
   Iface (bytes_of "eth1") (Some [2; 0; 0; 0; 0; 5]) (Some 0x0101000a)].

Definition goodbye : list Z := bytes_of "bye" ++ [0].
Lemma goodbye_ends : 0 ∈ goodbye.
Proof. apply (bool_decide_unpack _). vm_compute. exact I. Qed.

Definition byte_list (l : list Z) : bool := bool_decide (Forall is_byte l).

Lemma sample_events_ok : Forall event_ok sample_events.
Proof.
  repeat apply Forall_cons_2; [..|by apply Forall_nil_2]; (split; [vm_compute; discriminate|split;
    [match goal with |- Forall is_byte ?l => apply (bool_decide_unpack (Forall is_byte l)); vm_compute; exact I end|]]).
  - exact I.
  - cbn [payload]. repeat apply Forall_cons_2; [..|by apply Forall_nil_2];
      (split; [cbn; unfold HWINTERFACE, HWETHIP, HWETHER; lia|reflexivity]).
  - split; [exact eth0_is_str|]. split_and!; try reflexivity; [cbn; lia|].
    apply (bool_decide_unpack (Forall is_byte [0; 1])). vm_compute. exact I.
Qed.

Definition sample_stream : list Z := concat (encode <$> sample_events) ++ vns_command VNSCLOSE goodbye ++ [7].

Lemma main_loop_correct_witness :
  let sr := Instance 3 [0] [0] [0] 0 (Interfaces NULL empty_heap) sample_rt empty_cache None (Toy sample_stream [] []) in
  exists sr', main_loop 9 (Z.to_nat 10000) sr sample_sha1 (fun _ => 0) = Ok sr' /\
    if_list_rep (if_list_of sr') sample_vs ∅ /\ incoming (server sr') = [7].
Proof.
  intros sr.
  pose proof (main_loop_correct 3 incoming (fun _ => 0%nat) (toy_stream_reads 3) (toy_stream_ends 3) 9
    (Z.to_nat 10000) sr sample_sha1 (fun _ => 0) [] ∅ sample_routes ∅ sample_events
    (vns_command VNSCLOSE goodbye ++ [7]) eq_refl) as Hm.
  specialize (Hm ltac:(exists []; split; [|done]; exists []; split; [done|]; split;
      [done|]; apply owning_empty, heap_wf_empty) sample_rt_rep ltac:(reflexivity) sample_events_ok
    ltac:(reflexivity) ltac:(cbn; lia) ltac:(rewrite Z2Nat.id by lia; reflexivity)).
  assert (play sample_routes [] sample_events = (Goes sample_vs, [])) as Hp by (vm_compute; reflexivity).
  rewrite Hp in Hm. destruct Hm as [Hc _].
  apply (Hc goodbye [7] eq_refl); [vm_compute; discriminate| |exact goodbye_ends].
  apply (bool_decide_unpack (Forall is_byte goodbye)). vm_compute. exact I.
Defined.

Definition sample_options : options :=
  Options (bytes_of "vrhost") (Some (bytes_of "user")) (bytes_of "localhost") (bytes_of "rtable") None 3250 0 (Some (bytes_of "log")).

Lemma main_correct_witness :
  let files := [(bytes_of "rtable", concat (print_row <$> sample_rows)); (bytes_of "auth_key", replicate 64 65)] in
  let raw := Instance 0 (replicate 32 9) (replicate 32 9) (replicate 30 9) 0 (Interfaces NULL empty_heap)
    (Rtable NULL empty_heap) empty_cache (Some 9)
    (Toy (vns_command VNS_AUTH_REQUEST [1; 2; 3] ++ vns_command VNS_AUTH_STATUS [1] ++ sample_stream) [] files) in
  exists sr, main sample_aton 9 (Z.to_nat 10000) sample_options raw sample_sha1 (fun _ => 0) = Ok (0, Some sr) /\
    if_list_rep (if_list_of sr) sample_vs ∅ /\ incoming (server sr) = [7] /\
    map (@length Z) (outgoing (server sr)) = [36%nat; 108%nat].
Proof.
  intros files raw.
  assert (Hb : forall l, bool_decide (Forall is_byte l) = true -> Forall is_byte l)
    by (intros l Hl; by apply bool_decide_eq_true in Hl).
  pose proof (main_correct sample_aton 3 incoming (fun _ => 0%nat) outgoing (toy_session 3) (toy_stream_ends 3) 9
    (Z.to_nat 10000) sample_options raw sample_sha1 (fun _ => 0) (bytes_of "user") sample_rows (Some 4)
    (server raw) [127; 0; 0; 1] (server raw) (server raw) 0 [1; 2; 3] 1 [] (replicate 64 65) (replicate 64 65) [] sample_events goodbye [7]
    eq_refl eq_refl ltac:(apply (bool_decide_unpack (is_str (bytes_of "user"))); vm_compute; exact I)
    ltac:(cbn; lia) ltac:(discriminate) heap_wf_empty heap_wf_empty (map_Forall_empty _) (map_Forall_empty _)) as Hm.
  specialize (Hm ltac:(repeat (apply Forall_cons_2; [split_and!; apply sample_word_ok; vm_compute; reflexivity|]);
      apply Forall_nil_2) ltac:(vm_compute; reflexivity) ltac:(vm_compute; reflexivity) eq_refl eq_refl eq_refl eq_refl
    ltac:(lia) eq_refl ltac:(lia) ltac:(vm_compute; reflexivity) eq_refl ltac:(apply Hb; vm_compute; reflexivity)
    ltac:(cbn; lia) ltac:(cbn; lia) ltac:(apply Hb; vm_compute; reflexivity) ltac:(apply Hb; vm_compute; reflexivity)
    ltac:(discriminate) ltac:(vm_compute; reflexivity) ltac:(discriminate) ltac:(vm_compute; reflexivity)
    ltac:(apply Hb; vm_compute; reflexivity) ltac:(vm_compute; discriminate) sample_events_ok
    ltac:(vm_compute; discriminate) ltac:(apply Hb; vm_compute; reflexivity) goodbye_ends eq_refl ltac:(cbn; lia)
    ltac:(rewrite Z2Nat.id by lia; reflexivity)).
  cbv zeta in Hm.
  assert (play (routes_of sample_aton sample_rows) [] sample_events = (Goes sample_vs, [])) as Hp
    by (vm_compute; reflexivity).
  rewrite Hp in Hm. destruct Hm as (sr & w & Hrun & Hif & Hs & Hinc & Hout).
  exists sr. split; [exact Hrun|]. split; [exact Hif|]. rewrite Hs. split; [exact Hinc|].
  change (outgoing (sr_destroy_instance (Some 4) w)) with (outgoing w). rewrite Hout. vm_compute. reflexivity.
Defined.
