(* ===== verification/FileTransfer.v ===== *)
(** * The file transfer programs

    Models [Assignment3/src/server.c] and [Assignment3/src/client.c], the
    applications that run over mysockets.  The programs call the mysocket layer
    through the class [AppOS], whose instance for the layer of this repository
    is in [AppLibrary.v], and files, the terminal and the resolver through the
    class [FileOS].  Proved, from laws of the two ([app_world]): the lines they
    exchange are read as they were written, what the server queues for any
    sequence of requests, and what the client makes of an answer. *)

From S2P Require Import Prelude CString.

(** The operating system: files, standard input and the resolver.  [None] and
    negative counts are errors; a read of no bytes is the end. *)
Class FileOS (W : Type) := {
  os_gethostname : W -> option (list Z);   (* the string left in the array *)
  os_access : list Z -> W -> bool;   (* access(path, R_OK) *)
  os_open : list Z -> W -> Z * W;   (* open for reading *)
  os_size : Z -> W -> Z;   (* lseek to the end, and back to the start *)
  os_fread : Z -> Z -> W -> option (list Z) * W;   (* read *)
  os_fclose : Z -> W -> W;
  os_fopen : list Z -> W -> bool * W;   (* fopen for writing *)
  os_fput : list Z -> W -> W;   (* fwrite to that file, whatever becomes of it *)
  os_gets : Z -> W -> option (list Z) * W;   (* fgets from stdin *)
  inet_addr : list Z -> option Z;
  os_gethostbyname : list Z -> W -> option Z   (* a 4-byte address of family AF_INET *)
}.

(** The calls of the mysocket layer, which may fail where the layer's code
    does.  The buffer of [my_read] is as long as the length asked for. *)
Class AppOS (W : Type) := {
  app_files :: FileOS W;
  my_socket : W -> run (Z * W);
  my_bind : Z -> Z -> W -> run (Z * W);   (* the port in network order *)
  my_listen : Z -> Z -> W -> run (Z * W);
  my_accept : Z -> W -> run (Z * Z * W);   (* the descriptor, and the family of the peer's address *)
  my_connect : Z -> Z * Z -> W -> run (Z * W);   (* the address and the port, in network order *)
  my_getsockname : Z -> W -> run (option Z * W);   (* the port, in network order *)
  my_read : Z -> Z -> W -> run (option (list Z) * W);
  my_write : Z -> list Z -> W -> run (Z * W);
  my_close : Z -> W -> run (Z * W)
}.

Definition AF_INET : Z := 2.
Definition crlf : list Z := [13; 10].

Section code.
Context {W : Type} `{AppOS W}.

(** Both programs have the same function; [cap] is the size of the buffer, and
    [line] what has been stored in it.  [None] is -1. *)
Fixpoint get_nvt_line (fuel : nat) (sd cap last_char : Z) (line : list Z) (w : W) : run (option (list Z) * W) :=
  match fuel with
  | O => Crash Fuel
  | S fuel =>
      r ← my_read sd 1 w;
      match r with
      | (None, w) => Ok (None, w)
      | (Some [], w) => if decide (zlen line < cap) then Ok (Some line, w) else Crash OutOfRange
      | (Some (this_char :: _), w) =>
          if decide (last_char = 13 /\ this_char = 10) then Ok (Some (removelast line), w)
          else if decide (zlen line < cap) then get_nvt_line fuel sd cap this_char (line ++ [this_char]) w
          else Crash OutOfRange
      end
  end.

(** ** The server *)

(** [sprintf(resp, ...)] into [char resp[5000]]. *)
Definition put_resp (text : list Z) : run (list Z) :=
  if decide (zlen text < 5000) then Ok text else Crash OutOfRange.

(** The loop of [read] and [mywrite]. *)
Fixpoint send_file (fuel : nat) (sd fd : Z) (w : W) : run (Z * W) :=
  match fuel with
  | O => Crash Fuel
  | S fuel =>
      match os_fread fd 5000 w with
      | (Some [], w) => Ok (0, os_fclose fd w)
      | (None, w) => Ok (-1, os_fclose fd w)
      | (Some resp, w) =>
          '(r, w) ← my_write sd resp w;
          if decide (r < 0) then Ok (-1, os_fclose fd w) else send_file fuel sd fd w
      end
  end.

(** [line] is the string in the buffer; -1 is the descriptor of no file. *)
Definition process_line (fuel : nat) (sd : Z) (line : list Z) (w : W) : run (Z * W) :=
  '(resp, fd, w) ←
    (if bool_decide (line = []) || negb (os_access line w) then
       resp ← put_resp (line ++ bytes_of ",-1,File does not exist or access denied" ++ crlf); Ok (resp, -1, w)
     else
       let '(fd, w) := os_open line w in
       if decide (fd < 0) then
         resp ← put_resp (line ++ bytes_of ",-1,File could not be opened" ++ crlf); Ok (resp, fd, w)
       else
         resp ← put_resp (line ++ bytes_of "," ++ print_dec (u64 (os_size fd w)) ++ bytes_of ",Ok" ++ crlf);
         Ok (resp, fd, w));
  '(r, w) ← my_write sd resp w;
  if decide (r < 0) then Ok (-1, if decide (fd <> -1) then os_fclose fd w else w) else
  if decide (fd = -1) then Ok (0, w) else send_file fuel sd fd w.

Fixpoint do_connection (turns fuel : nat) (sd : Z) (w : W) : run W :=
  match turns with
  | O => Crash Fuel
  | S turns =>
      '(rc, w) ← get_nvt_line fuel sd 256 0 [] w;
      match rc with
      | None => '(_, w) ← my_close sd w; Ok w
      | Some line =>
          let line := c_str line in
          if decide (line = []) then '(_, w) ← my_close sd w; Ok w else
          '(r, w) ← process_line fuel sd line w;
          if decide (r < 0) then '(_, w) ← my_close sd w; Ok w else do_connection turns fuel sd w
      end
  end.

(** The name, which goes into an array of 256 bytes. *)
Definition local_name (sd : Z) (w : W) : run (list Z * W) :=
  '(sin, w) ← my_getsockname sd w;
  sin_port ← need Abort sin;
  myhostname ← need Abort (os_gethostname w);
  let name := myhostname ++ bytes_of ":" ++ print_dec (ntohs (u16 sin_port)) in
  if decide (zlen name < 256) then Ok (name, w) else Crash OutOfRange.

(** [main], with the port [atoi] read; the exit status.  The name is only
    printed. *)
Definition server_main (turns fuel : nat) (port : Z) (w : W) : run (Z * W) :=
  '(bindsd, w) ← my_socket w;
  if decide (bindsd < 0) then Ok (1, w) else
  '(r, w) ← my_bind bindsd (htons (u16 port)) w;
  if decide (r < 0) then Ok (1, w) else
  '(r, w) ← my_listen bindsd 5 w;
  if decide (r < 0) then Ok (1, w) else
  '(_, w) ← local_name bindsd w;
  '(sd, sin_family, w) ← my_accept bindsd w;
  if decide (sd < 0) then Ok (1, w) else
  c_assert (bool_decide (sin_family = AF_INET));;
  w ← do_connection turns fuel sd w;
  '(_, w) ← my_close bindsd w;
  Ok (0, w).

(** ** The client *)

Definition RCVD_FILENAME : list Z := bytes_of "rcvd".

(** [strrchr(line, ',')], and the string cut there: what precedes the comma and
    what follows it. *)
Fixpoint cut_last (c : Z) (s : list Z) : option (list Z * list Z) :=
  match s with
  | [] => None
  | b :: s =>
      match cut_last c s with
      | Some (pre, post) => Some (b :: pre, post)
      | None => if decide (b = c) then Some ([], s) else None
      end
  end.

(** Without the trailing spaces. *)
Definition rstrip (s : list Z) : list Z := reverse (drop (span isspace (reverse s)) (reverse s)).

(** [sscanf(lenstr, "%d", &length)]: a number that does not fit is undefined;
    without a number [length] keeps its value. *)
Definition read_length (lenstr : list Z) (length : option Z) : run Z :=
  match scan_int lenstr with
  | Some n => if decide (- 2 ^ 31 <= n < 2 ^ 31) then Ok n else Crash IntOverflow
  | None => need Uninit length
  end.

(** [while (length)]: [line] has 1000 bytes; what is left of the length. *)
Fixpoint receive_file (fuel : nat) (quiet : bool) (sd length : Z) (w : W) : run (Z * W) :=
  if decide (length = 0) then Ok (0, w) else
  match fuel with
  | O => Crash Fuel
  | S fuel =>
      let to_read := Z.min length 1000 in
      r ← my_read sd (u64 to_read) w;
      match r with
      | (None, w) => Ok (length, w)
      | (Some [], w) => Ok (length, w)
      | (Some got, w) =>
          if decide (zlen got > 1000) then Crash OutOfRange else
          let to_read := Z.min (zlen got) to_read in
          w ← (if quiet then Ok w else
               if decide (to_read < 0) then Crash OutOfRange else Ok (os_fput (take (Z.to_nat to_read) got) w));
          length ← i32 (length - to_read);
          receive_file fuel quiet sd length w
      end
  end.

(** How the loop ends: by [break], or by [exit(-1)]. *)
Inductive client_end : Set := Broke | Exited.

(** [filename] is the option's argument, and [length] the variable's value. *)
Fixpoint loop_until_end (turns fuel : nat) (quiet : bool) (filename : option (list Z)) (sd : Z)
    (length : option Z) (w : W) : run (client_end * W) :=
  match turns with
  | O => Crash Fuel
  | S turns =>
      let '(request, w) := match filename with
                           | None => match os_gets 999 w with
                                     | (None, w) => (None, w)
                                     | (Some line, w) => (Some (rstrip (c_str line)), w)
                                     end
                           | Some name => (Some name, w)
                           end in
      match request with
      | None => Ok (Broke, w)
      | Some name =>
          if bool_decide (filename = None) && bool_decide (zlen name <= 1)
          then loop_until_end turns fuel quiet filename sd length w else
          (* name, CR, LF and NUL in char line[1000] *)
          if decide (zlen name + 3 > 1000) then Crash OutOfRange else
          '(r, w) ← my_write sd (name ++ crlf) w;
          if decide (r < 0) then Ok (Broke, w) else
          '(rc, w) ← get_nvt_line fuel sd 1000 0 [] w;
          match rc with
          | None => Ok (Broke, w)
          | Some line =>
              match cut_last 44 (c_str line) with
              | None => Ok (Broke, w)
              | Some (line, resp) =>
                  match cut_last 44 line with
                  | None => Ok (Broke, w)
                  | Some (line, lenstr) =>
                      n ← read_length lenstr length;
                      if decide (n = -1) then
                        match filename with
                        | None => loop_until_end turns fuel quiet filename sd (Some n) w
                        | Some _ => Ok (Broke, w)
                        end
                      else
                        let '(ok, w) := os_fopen RCVD_FILENAME w in
                        if negb ok then Ok (Broke, w) else
                        '(rest, w) ← receive_file fuel quiet sd n w;
                        if decide (rest <> 0) then '(_, w) ← my_close sd w; Ok (Exited, w) else
                        match filename with
                        | Some _ => Ok (Broke, w)
                        | None => loop_until_end turns fuel quiet filename sd (Some rest) w
                        end
                  end
              end
          end
      end
  end.

(** The address and the port in network order; [None] is -1.  A port that does
    not fit [unsigned] is undefined. *)
Definition parse_address (address : list Z) (w : W) : run (option (Z * Z)) :=
  '(port, host) ← match index address 58 with
                  | None => Ok (Some 0, address)
                  | Some i =>
                      match scan_int (drop (S i) address) with
                      | None => Ok (None, address)
                      | Some p => if decide (- 2 ^ 32 < p < 2 ^ 32) then Ok (Some (htons (u16 p)), take i address)
                                  else Crash IntOverflow
                      end
                  end;
  match port with
  | None => Ok None
  | Some port =>
      match inet_addr host with
      | Some a => Ok (Some (a, port))
      | None => Ok ((fun a => (a, port)) <$> os_gethostbyname host w)
      end
  end.

(** [main], with the options read; the exit status. *)
Definition client_main (turns fuel : nat) (quiet : bool) (filename : option (list Z)) (pline : list Z) (w : W)
    : run (Z * W) :=
  sin ← parse_address pline w;
  match sin with
  | None => Ok (1, w)
  | Some (a, port) =>
      if decide (port = 0) then Ok (1, w) else
      '(sd, w) ← my_socket w;
      if decide (sd < 0) then Ok (1, w) else
      '(sd, w) ← my_connect sd (a, port) w;
      if decide (sd < 0) then Ok (1, w) else
      '(e, w) ← loop_until_end turns fuel quiet filename sd None w;
      match e with
      | Exited => Ok (255, w)
      | Broke => '(_, w) ← my_close sd w; Ok (0, w)
      end
  end.
End code.

(** ** What the mysocket layer and the file system promise *)

(** The readable files, the file open for reading with what is left of it, and
    the received file. *)
Record files : Type := Files {
  content : gmap (list Z) (list Z);
  open_file : option (Z * list Z);
  stored : option (list Z)
}.

Definition set_open o d := Files (content d) o (stored d).
Definition set_stored s d := Files (content d) (open_file d) s.

(** What a program sees of its connection: the bytes the peer has still to
    deliver, whether the end of the stream follows them, and the bytes sent. *)
Record view : Type := View {
  pending : list Z;
  ended : bool;
  sent : list Z;
  disk : files
}.

Definition set_pending p v := View p (ended v) (sent v) (disk v).
Definition set_sent s v := View (pending v) (ended v) s (disk v).
Definition set_disk d v := View (pending v) (ended v) (sent v) d.

(** Working files: [has w d] tells that the world [w] has the files [d]. *)
Record file_world {W : Type} `{FileOS W} (has : W -> files -> Prop) : Prop := {
  fw_access nm w d : has w d -> os_access nm w = bool_decide (is_Some (content d !! nm));
  fw_open nm c w d : has w d -> content d !! nm = Some c -> exists fd w', os_open nm w = (fd, w') /\ 0 <= fd /\
    os_size fd w' = zlen c /\ has w' (set_open (Some (fd, c)) d);
  fw_fread fd c n w d : has w d -> open_file d = Some (fd, c) -> 0 < n ->
    (c = [] /\ exists w', os_fread fd n w = (Some [], w') /\ has w' d) \/
    (exists k w', (0 < k)%nat /\ Z.of_nat k <= n /\ c <> [] /\ os_fread fd n w = (Some (take k c), w') /\
       has w' (set_open (Some (fd, drop k c)) d));
  fw_fclose fd w d : has w d -> has (os_fclose fd w) (set_open None d);
  fw_fopen w d : has w d -> exists w', os_fopen RCVD_FILENAME w = (true, w') /\ has w' (set_stored (Some []) d);
  fw_fput b w d : has w d -> has (os_fput b w) (set_stored ((fun s => s ++ b) <$> stored d) d)
}.

(** A connected descriptor: [rep w v] tells that the world [w] looks like [v].
    With nothing to deliver a read waits, unless the stream has ended.  The
    files do not see the connection. *)
Record app_world {W : Type} `{AppOS W} (sd : Z) (rep : W -> view -> Prop) : Prop := {
  aw_read n w v : rep w v -> 0 < n -> pending v <> [] ->
    exists k w', (0 < k)%nat /\ Z.of_nat k <= n /\ my_read sd n w = Ok (Some (take k (pending v)), w') /\
      rep w' (set_pending (drop k (pending v)) v);
  aw_end n w v : rep w v -> 0 < n -> pending v = [] -> ended v = true ->
    exists w', my_read sd n w = Ok (Some [], w') /\ rep w' v;
  aw_wait n w v : rep w v -> 0 < n -> pending v = [] -> ended v = false -> my_read sd n w = Crash Blocks;
  aw_write b w v : rep w v -> exists w', my_write sd b w = Ok (zlen b, w') /\ rep w' (set_sent (sent v ++ b) v);
  aw_files p e o : file_world (fun w d => rep w (View p e o d))
}.

(** A descriptor that can be closed. *)
Definition closes {W : Type} `{AppOS W} (sd : Z) (rep : W -> view -> Prop) : Prop :=
  forall w v, rep w v -> exists r w', my_close sd w = Ok (r, w') /\ rep w' v.

Section theorems.
Context {W : Type} `{AppOS W} (sd : Z) (rep : W -> view -> Prop) (Haw : app_world sd rep).

(** The files of what a program sees. *)
Lemma disk_world v : file_world (fun w d => rep w (set_disk d v)).
Proof. apply (aw_files _ _ Haw). Qed.

Lemma rep_disk w v : rep w v -> rep w (set_disk (disk v) v).
Proof. by destruct v. Qed.

(** ** Lines *)

Definition no_lf (s : list Z) : Prop := Forall (fun c => c <> 10) s.

(** One byte. *)
Lemma read_one w v b s : rep w v -> pending v = b :: s ->
  exists w', my_read sd 1 w = Ok (Some [b], w') /\ rep w' (set_pending s v).
Proof.
  intros Hw Hp. destruct (aw_read _ _ Haw 1 w v Hw) as (k & w' & Hk & Hk1 & Hr & Hl); [done|congruence|].
  assert (k = 1%nat) as -> by lia. rewrite Hp in Hr, Hl. by exists w'.
Qed.

Lemma nvt_chars s cap : forall fuel last line w v rest, rep w v -> pending v = s ++ rest -> no_lf s ->
  zlen line + zlen s <= cap ->
  exists w' last', get_nvt_line (length s + fuel) sd cap last line w
      = get_nvt_line fuel sd cap last' (line ++ s) w' /\
    rep w' (set_pending rest v) /\ last' = default last (list.last s).
Proof.
  induction s as [|c s IH]; intros fuel last line w v rest Hw Hp Hs Hcap.
  { exists w, last. rewrite app_nil_r. split; [done|]. split; [|done]. cbn in Hp. rewrite <- Hp. by destruct v. }
  apply Forall_cons in Hs as [Hc Hs]. cbn [length app] in *.
  destruct (read_one w v c (s ++ rest) Hw Hp) as (w1 & Hr & Hl1).
  destruct (IH fuel c (line ++ [c]) w1 _ rest Hl1 eq_refl Hs) as (w2 & last' & Hrun & Hl2 & Hlast).
  { rewrite length_app. cbn [length]. lia. }
  exists w2, last'. cbn [Nat.add get_nvt_line]. rewrite Hr. run_step. rewrite decide_False by naive_solver.
  rewrite decide_True by lia. rewrite Hrun, <- app_assoc. split; [done|]. split; [done|].
  rewrite Hlast, last_cons. by destruct (list.last s).
Qed.

(** A line as it was sent. *)
Lemma nvt_line s cap fuel last w v rest : rep w v -> pending v = s ++ crlf ++ rest -> no_lf s -> zlen s < cap ->
  (length s + 2 <= fuel)%nat ->
  exists w', get_nvt_line fuel sd cap last [] w = Ok (Some s, w') /\ rep w' (set_pending rest v).
Proof.
  intros Hw Hp Hs Hcap Hf.
  replace fuel with (length (s ++ [13%Z]) + (fuel - length s - 1))%nat by (rewrite length_app; cbn; lia).
  destruct (nvt_chars (s ++ [13]) cap (fuel - length s - 1) last [] w v (10 :: rest)) as (w1 & last' & Hr & Hl & Hlast).
  - done.
  - rewrite Hp. unfold crlf. by rewrite <- app_assoc.
  - apply Forall_app_2; [done|]. by apply Forall_singleton.
  - rewrite length_app. cbn [length]. lia.
  - rewrite Hr. destruct (fuel - length s - 1)%nat as [|f] eqn:Hfe; [lia|]. cbn [get_nvt_line app].
    destruct (read_one w1 _ 10 rest Hl eq_refl) as (w2 & Hr2 & Hl2).
    rewrite Hr2. run_step. rewrite Hlast, last_snoc. rewrite decide_True by done. exists w2.
    by rewrite removelast_last.
Qed.

(** The end of the stream ends the line. *)
Lemma nvt_eof s cap fuel last w v : rep w v -> pending v = s -> ended v = true -> no_lf s -> zlen s < cap ->
  (length s + 1 <= fuel)%nat ->
  exists w', get_nvt_line fuel sd cap last [] w = Ok (Some s, w') /\ rep w' (set_pending [] v).
Proof.
  intros Hw Hp He Hs Hcap Hf. replace fuel with (length s + (fuel - length s))%nat by lia.
  destruct (nvt_chars s cap (fuel - length s) last [] w v []) as (w1 & last' & Hr & Hl & _);
    [done|by rewrite app_nil_r|done|cbn; lia|].
  rewrite Hr. destruct (fuel - length s)%nat as [|f] eqn:Hfe; [lia|]. cbn [get_nvt_line app].
  destruct (aw_end _ _ Haw 1 w1 _ Hl) as (w2 & Hr2 & Hl2); [done|done|done|].
  rewrite Hr2. run_step. rewrite decide_True by lia. by exists w2.
Qed.

(** Part of a line, and the stream goes on. *)
Lemma nvt_wait s cap fuel last w v : rep w v -> pending v = s -> ended v = false -> no_lf s -> zlen s <= cap ->
  (length s < fuel)%nat -> get_nvt_line fuel sd cap last [] w = Crash Blocks.
Proof.
  intros Hw Hp He Hs Hcap Hf. replace fuel with (length s + (fuel - length s))%nat by lia.
  destruct (nvt_chars s cap (fuel - length s) last [] w v []) as (w1 & last' & Hr & Hl & _);
    [done|by rewrite app_nil_r|done|cbn; lia|].
  rewrite Hr. destruct (fuel - length s)%nat as [|f] eqn:Hfe; [lia|]. cbn [get_nvt_line app].
  by rewrite (aw_wait _ _ Haw 1 w1 _ Hl).
Qed.

(** [get_nvt_line] on a buffer of [cap] bytes.  A line without line feeds
    that fits, with its terminating NUL, comes back as it was sent and the next
    line is left in the stream; at the end of the stream what has been read is
    the line; a longer line is written past the end of the buffer. *)
Theorem nvt_line_correct s cap fuel w v rest : rep w v -> no_lf s -> (length s + 2 <= fuel)%nat -> 0 < cap ->
  (pending v = s ++ crlf ++ rest -> zlen s < cap ->
     exists w', get_nvt_line fuel sd cap 0 [] w = Ok (Some s, w') /\ rep w' (set_pending rest v)) /\
  (pending v = s -> ended v = true -> zlen s < cap ->
     exists w', get_nvt_line fuel sd cap 0 [] w = Ok (Some s, w') /\ rep w' (set_pending [] v)) /\
  (pending v = s ++ rest -> cap < zlen s -> get_nvt_line fuel sd cap 0 [] w = Crash OutOfRange).
Proof.
  intros Hw Hs Hf Hcap0. split_and!.
  - intros Hp Hcap. by apply nvt_line.
  - intros Hp He Hcap. apply (nvt_eof s); [done|done|done|done|done|lia].
  - intros Hp Hcap.
    assert (length (take (Z.to_nat cap) s) = Z.to_nat cap) as Hl by (rewrite length_take; lia).
    destruct (drop (Z.to_nat cap) s) as [|c s'] eqn:Hd.
    { assert (length (drop (Z.to_nat cap) s) = 0%nat) as Hz by (by rewrite Hd). rewrite length_drop in Hz. lia. }
    replace fuel with (length (take (Z.to_nat cap) s) + (fuel - Z.to_nat cap))%nat by lia.
    destruct (nvt_chars (take (Z.to_nat cap) s) cap (fuel - Z.to_nat cap) 0 [] w v (c :: s' ++ rest))
      as (w1 & last' & Hr & Hl1 & _).
    + done.
    + rewrite Hp. rewrite <- (take_drop (Z.to_nat cap) s) at 1. by rewrite Hd, <- app_assoc.
    + by apply Forall_take.
    + cbn [length]. lia.
    + rewrite Hr. destruct (fuel - Z.to_nat cap)%nat as [|f] eqn:Hfe; [lia|]. cbn [get_nvt_line app].
      destruct (read_one w1 _ c (s' ++ rest) Hl1 eq_refl) as (w2 & Hr2 & _).
      rewrite Hr2. run_step. rewrite decide_False, decide_False; [done|lia|].
      assert (c ∈ s) as Hin by (rewrite <- (take_drop (Z.to_nat cap) s), Hd, elem_of_app; right; by left).
      unfold no_lf in Hs. rewrite Forall_forall in Hs. specialize (Hs c Hin). naive_solver.
Qed.

(** ** The server *)

(** What it answers to the name of a file. *)
Definition response (fs : gmap (list Z) (list Z)) (nm : list Z) : list Z :=
  match fs !! nm with
  | None => nm ++ bytes_of ",-1,File does not exist or access denied" ++ crlf
  | Some c => nm ++ bytes_of "," ++ print_dec (zlen c) ++ bytes_of ",Ok" ++ crlf ++ c
  end.

Definition name_ok (nm : list Z) : Prop := nm <> [] /\ is_str nm /\ no_lf nm /\ zlen nm < 256.

Lemma length_print_digits fuel n : (length (print_digits fuel n) <= fuel)%nat.
Proof.
  revert n. induction fuel as [|fuel IH]; intros n; [done|]. cbn [print_digits]. rewrite length_app. cbn [length].
  specialize (IH (n / 10)). case_decide; cbn [length]; lia.
Qed.

Lemma length_print_dec n k : 0 <= n < 2 ^ k -> zlen (print_dec n) <= k + 1.
Proof.
  intros Hn. unfold print_dec. pose proof (length_print_digits (S (Z.to_nat (Z.log2 n))) n) as Hl.
  assert (Z.log2 n <= k); [|pose proof (Z.log2_nonneg n); lia].
  destruct (decide (n = 0)) as [->|]; [|assert (Z.log2 n < k) by (apply Z.log2_lt_pow2; lia); lia].
  cbn. destruct (decide (k < 0)); [rewrite Z.pow_neg_r in Hn; lia|lia].
Qed.

(** The contents of the open file are sent. *)
Lemma send_file_ok fd c : forall fuel w v, rep w v -> open_file (disk v) = Some (fd, c) -> (length c < fuel)%nat ->
  exists w', send_file fuel sd fd w = Ok (0, w') /\
    rep w' (set_disk (set_open None (disk v)) (set_sent (sent v ++ c) v)).
Proof.
  induction c as [c IH] using (induction_ltof1 _ (@length Z)); unfold ltof in IH. intros fuel w v Hw Ho Hf.
  destruct fuel as [|fuel]; [lia|]. cbn [send_file]. pose proof (rep_disk _ _ Hw) as Hd.
  destruct (fw_fread _ (disk_world v) fd c 5000 w _ Hd Ho) as [(-> & w1 & Hr & Hl1)|(k & w1 & Hk & Hk5 & Hne & Hr & Hl1)]; [done|..].
  - rewrite Hr. exists (os_fclose fd w1). split; [done|]. rewrite app_nil_r.
    exact (fw_fclose _ (disk_world v) fd w1 _ Hl1).
  - rewrite Hr. destruct (take k c) as [|b bs] eqn:Hkc; [destruct c, k; cbn in *; (done || lia)|]. rewrite <- Hkc.
    destruct (aw_write _ _ Haw (take k c) w1 _ Hl1) as (w2 & -> & Hl2). run_step. rewrite decide_False by lia.
    assert (length (drop k c) < length c)%nat as Hdl by (rewrite length_drop; destruct c; [done|cbn; lia]).
    destruct (IH (drop k c) Hdl fuel w2 _ Hl2 eq_refl) as (w3 & Hs & Hl3); [lia|].
    exists w3. split; [done|]. cbn [set_disk set_sent sent] in Hl3. rewrite <- app_assoc, take_drop in Hl3. exact Hl3.
Qed.

(** One request. *)
Lemma process_line_ok fuel nm w v : rep w v -> nm <> [] -> zlen nm < 256 ->
  (forall c, content (disk v) !! nm = Some c -> zlen c < 2 ^ 64 /\ (length c < fuel)%nat) ->
  open_file (disk v) = None ->
  exists w', process_line fuel sd nm w = Ok (0, w') /\ rep w' (set_sent (sent v ++ response (content (disk v)) nm) v).
Proof.
  intros Hw Hne Hlen Hc Ho. unfold process_line, response. pose proof (rep_disk _ _ Hw) as Hd.
  rewrite (fw_access _ (disk_world v) nm w _ Hd), bool_decide_false by done.
  destruct (content (disk v) !! nm) as [c|] eqn:Hf.
  - destruct (Hc c eq_refl) as [Hc64 Hfuel]. rewrite bool_decide_true by (by eexists). cbn [orb negb].
    destruct (fw_open _ (disk_world v) nm c w _ Hd Hf) as (fd & w1 & Hop & Hfd & Hsz & Hl1). rewrite Hop, decide_False by lia.
    unfold put_resp. unfold u64. rewrite Hsz, Z.mod_small by lia.
    pose proof (length_print_dec (zlen c) 64 ltac:(lia)) as Hpl.
    rewrite decide_True by (rewrite !length_app; change (length (bytes_of ",")) with 1%nat;
      change (length (bytes_of ",Ok")) with 3%nat; change (length crlf) with 2%nat; lia).
    run_step. set (hdr := nm ++ _).
    destruct (aw_write _ _ Haw hdr w1 _ Hl1) as (w2 & -> & Hl2). run_step. rewrite decide_False by lia. rewrite decide_False by lia.
    destruct (send_file_ok fd c fuel w2 _ Hl2 eq_refl Hfuel) as (w3 & Hs & Hl3).
    exists w3. split; [done|]. cbn [set_disk set_sent set_open sent disk content stored pending ended] in Hl3.
    unfold set_sent. unfold set_disk, set_open in Hl3. cbn in Hl3. rewrite <- Ho in Hl3 at 1.
    unfold hdr in Hl3. rewrite <- !app_assoc in Hl3. destruct v as [? ? ? []]. exact Hl3.
  - rewrite bool_decide_false by (intros [? [=]]). cbn [orb negb]. unfold put_resp.
    rewrite decide_True by (rewrite !length_app; cbn; lia). run_step.
    destruct (aw_write _ _ Haw (nm ++ bytes_of ",-1,File does not exist or access denied" ++ crlf) w _ Hw) as (w1 & -> & Hl1).
    run_step. rewrite decide_False by lia. by exists w1.
Qed.

(** The server reads the lines [nms], one after the other, and deals with each. *)
Inductive served (fuel : nat) : W -> list (list Z) -> W -> Prop :=
| served_nil w : served fuel w [] w
| served_cons w nm w1 w2 nms w' : nm <> [] -> is_str nm -> get_nvt_line fuel sd 256 0 [] w = Ok (Some nm, w1) ->
    process_line fuel sd nm w1 = Ok (0, w2) -> served fuel w2 nms w' -> served fuel w (nm :: nms) w'.

(** After them its loop goes on as it does. *)
Lemma served_run fuel w nms w' turns : served fuel w nms w' ->
  do_connection (length nms + turns) fuel sd w = do_connection turns fuel sd w'.
Proof.
  induction 1 as [|w nm w1 w2 nms w' Hne Hstr Hl Hp _ IH]; [done|].
  cbn [length Nat.add do_connection]. rewrite Hl. run_step. rewrite c_str_id, decide_False by done.
  rewrite Hp. run_step. by rewrite decide_False by lia.
Qed.

Lemma requests_ok nms fuel w v tail : rep w v -> open_file (disk v) = None -> Forall name_ok nms ->
  pending v = concat ((fun nm => nm ++ crlf) <$> nms) ++ tail ->
  (forall nm c, content (disk v) !! nm = Some c -> zlen c < 2 ^ 64 /\ (length c < fuel)%nat) ->
  (258 <= fuel)%nat ->
  exists w', served fuel w nms w' /\
    rep w' (set_pending tail (set_sent (sent v ++ concat (response (content (disk v)) <$> nms)) v)).
Proof.
  intros Hw Ho Hnms. revert w v Hw Ho. induction Hnms as [|nm nms Hnm Hnms IH]; intros w v Hw Ho Hp Hc Hf.
  - exists w. split; [apply served_nil|]. cbn [fmap list_fmap concat app] in *. rewrite app_nil_r, <- Hp. by destruct v.
  - rewrite fmap_cons in Hp |- *. cbn [concat] in *. rewrite <- !app_assoc in Hp.
    destruct Hnm as (Hne & Hstr & Hlf & Hlen).
    destruct (nvt_line nm 256 fuel 0 w v _ Hw Hp Hlf Hlen) as (w1 & Hline & Hl1); [lia|].
    destruct (process_line_ok fuel nm w1 _ Hl1) as (w2 & Hproc & Hl2); [done|done|intros c; apply Hc|done|].
    destruct (IH w2 _ Hl2 Ho eq_refl Hc Hf) as (w3 & Hrun & Hl3).
    exists w3. split; [by eapply served_cons|].
    cbn [set_pending set_sent sent disk] in Hl3. by rewrite <- app_assoc in Hl3.
Qed.

(** A whole connection. *)
Lemma server_ok nms turns fuel w v tail : closes sd rep -> rep w v -> open_file (disk v) = None ->
  Forall name_ok nms -> (tail = [] /\ ended v = true) \/ (exists more, tail = crlf ++ more) ->
  pending v = concat ((fun nm => nm ++ crlf) <$> nms) ++ tail ->
  (forall nm c, content (disk v) !! nm = Some c -> zlen c < 2 ^ 64 /\ (length c < fuel)%nat) ->
  (length nms < turns)%nat -> (258 <= fuel)%nat ->
  exists w', do_connection turns fuel sd w = Ok w' /\
    rep w' (set_pending (drop 2 tail) (set_sent (sent v ++ concat (response (content (disk v)) <$> nms)) v)).
Proof.
  intros Hcl Hw Ho Hnms Htail Hp Hc Ht Hf. replace turns with (length nms + S (turns - length nms - 1))%nat by lia.
  destruct (requests_ok nms fuel w v tail Hw Ho Hnms Hp Hc Hf) as (w1 & Hserved & Hl1).
  rewrite (served_run _ _ _ _ _ Hserved). cbn [do_connection].
  assert (exists w2, get_nvt_line fuel sd 256 0 [] w1 = Ok (Some [], w2) /\
    rep w2 (set_pending (drop 2 tail) (set_sent (sent v ++ concat (response (content (disk v)) <$> nms)) v)))
    as (w2 & -> & Hl2).
  { destruct Htail as [[-> He] |[more ->]].
    - by apply (nvt_eof [] 256 fuel 0 w1 _ Hl1); [done|done|apply Forall_nil|cbn; lia|cbn; lia].
    - by apply (nvt_line [] 256 fuel 0 w1 _ more Hl1); [done|apply Forall_nil|cbn; lia|cbn; lia]. }
  run_step. destruct (Hcl w2 _ Hl2) as (r & w3 & Hclose & Hl3). cbn. rewrite Hclose. by exists w3.
Qed.

(** A connection to the server.  To any sequence of requested names, in
    lines and without an empty one, it answers exactly, in order, an error line
    for a file it cannot read and otherwise the length of the file in a line
    and its contents, however reads of the stream and of the files are split;
    it closes the connection at the end of the stream or at an empty line, and
    ends if that call returns. *)
Theorem server_correct nms turns fuel w v tail : closes sd rep -> rep w v -> open_file (disk v) = None ->
  Forall name_ok nms -> (tail = [] /\ ended v = true) \/ (exists more, tail = crlf ++ more) ->
  pending v = concat ((fun nm => nm ++ crlf) <$> nms) ++ tail ->
  (forall nm c, content (disk v) !! nm = Some c -> zlen c < 2 ^ 64 /\ (length c < fuel)%nat) ->
  (length nms < turns)%nat -> (258 <= fuel)%nat ->
  exists w', do_connection turns fuel sd w = Ok w' /\
    rep w' (set_pending (drop 2 tail) (set_sent (sent v ++ concat (response (content (disk v)) <$> nms)) v)).
Proof. apply server_ok. Qed.

(** ** The client *)

Lemma cut_last_none c b : c ∉ b -> cut_last c b = None.
Proof.
  induction b as [|x b IH]; intros Hb; [done|]. rewrite not_elem_of_cons in Hb. cbn [cut_last].
  rewrite IH by naive_solver. by rewrite decide_False by naive_solver.
Qed.

Lemma cut_last_app c a b : c ∉ b -> cut_last c (a ++ c :: b) = Some (a, b).
Proof.
  intros Hb. induction a as [|x a IH]; cbn [app cut_last]; [|by rewrite IH].
  rewrite cut_last_none by done. by rewrite decide_True.
Qed.

(** What the loop of [myread] makes of [n] announced bytes, of which [c]
    arrive; when fewer do, the stream has ended. *)
Lemma receive_file_ok quiet c : forall fuel n w v more s0, rep w v -> pending v = c ++ more -> stored (disk v) = Some s0 ->
  zlen c <= n < 2 ^ 31 -> (zlen c < n -> more = [] /\ ended v = true) -> (length c < fuel)%nat ->
  exists w', receive_file fuel quiet sd n w = Ok (n - zlen c, w') /\
    rep w' (set_disk (set_stored (Some (s0 ++ if quiet then [] else c)) (disk v)) (set_pending more v)).
Proof.
  induction c as [c IH] using (induction_ltof1 _ (@length Z)); unfold ltof in IH. intros fuel n w v more s0 Hw Hp Hs Hn Hm Hf.
  assert ((s0 ++ if quiet then [] else []) = s0) as Hs0 by (destruct quiet; apply app_nil_r).
  assert (forall p, c = [] -> set_disk (set_stored (Some (s0 ++ if quiet then [] else c)) (disk v)) (set_pending p v) = set_pending p v) as Hnil.
  { intros p ->. rewrite Hs0, <- Hs. by destruct v as [? ? ? []]. }
  destruct fuel as [|fuel]; [lia|]. cbn [receive_file].
  destruct (decide (n = 0)) as [->|Hn0].
  { destruct c; [|cbn in Hn; lia]. exists w. split; [done|]. rewrite Hnil by done. cbn in Hp. rewrite <- Hp. by destruct v. }
  assert (u64 (Z.min n 1000) = Z.min n 1000) as -> by (unfold u64; rewrite Z.mod_small; lia).
  destruct (decide (c = [])) as [Hc|Hc].
  { destruct Hm as [-> He]; [subst c; cbn in *; lia|]. subst c.
    destruct (aw_end _ _ Haw (Z.min n 1000) w v Hw) as (w1 & -> & Hl1); [lia|done|done|].
    exists w1. split; [run_step; f_equal; f_equal; cbn; lia|]. rewrite Hnil by done. cbn in Hp. rewrite <- Hp. by destruct v. }
  (* some bytes, all of them announced *)
  destruct (aw_read _ _ Haw (Z.min n 1000) w v Hw) as (k & w1 & Hk & Hkn & Hr & Hl1); [lia|rewrite Hp; by destruct c|].
  rewrite Hr, Hp. run_step. set (k' := (k `min` length c)%nat).
  assert (take k (c ++ more) = take k' c) as Htk.
  { unfold k'. destruct (decide (k <= length c)%nat); [rewrite take_app_le by lia; f_equal; lia|].
    rewrite Nat.min_r, (take_ge c) by lia. destruct Hm as [-> _]; [lia|]. rewrite app_nil_r. by rewrite take_ge by lia. }
  assert (drop k (c ++ more) = drop k' c ++ more) as Hdr.
  { unfold k'. destruct (decide (k <= length c)%nat); [rewrite drop_app_le by lia; f_equal; f_equal; lia|].
    rewrite Nat.min_r, (drop_ge c) by lia. destruct Hm as [-> _]; [lia|]. rewrite !app_nil_r. by rewrite drop_ge by lia. }
  rewrite Htk. rewrite Hp, Hdr in Hl1.
  assert (0 < k' <= length c)%nat as Hk' by (unfold k'; destruct c; [done|cbn [length]; lia]).
  assert (length (take k' c) = k') as Hlk by (rewrite length_take; lia).
  destruct (take k' c) as [|b bs] eqn:Hb; [cbn in Hlk; lia|]. rewrite <- Hb in *.
  rewrite decide_False by lia. replace (Z.min (zlen (take k' c)) (Z.min n 1000)) with (Z.of_nat k') by lia.
  unfold i32. assert (length (drop k' c) < length c)%nat as Hlt by (rewrite length_drop; lia).
  assert (zlen (drop k' c) = zlen c - Z.of_nat k') as Hld by (rewrite length_drop; lia).
  set (w2 := if quiet then w1 else os_fput (take k' c) w1).
  set (v2 := set_disk (set_stored (Some (s0 ++ if quiet then [] else take k' c)) (disk v)) (set_pending (drop k' c ++ more) v)).
  assert (rep w2 v2) as Hl2.
  { unfold w2, v2. destruct quiet; [rewrite app_nil_r, <- Hs; destruct v as [? ? ? []]; exact Hl1|].
    pose proof (fw_fput _ (disk_world (set_pending (drop k' c ++ more) v)) (take k' c) w1 _ (rep_disk _ _ Hl1)) as Hput.
    cbn [disk set_pending] in Hput. rewrite Hs in Hput. exact Hput. }
  destruct (IH (drop k' c) Hlt fuel (n - Z.of_nat k') w2 v2 more (s0 ++ if quiet then [] else take k' c))
    as (w3 & Hrun & Hl3); [done|done|done|lia|intros; apply Hm; lia|lia|].
  exists w3. split.
  - destruct quiet; run_step.
    + rewrite decide_True by lia. run_step. unfold w2 in Hrun. rewrite Hrun. f_equal. f_equal. lia.
    + rewrite (decide_False (P := Z.of_nat k' < 0)) by lia. run_step. rewrite decide_True by lia. run_step. rewrite Nat2Z.id.
      rewrite take_ge by lia. unfold w2 in Hrun. rewrite Hrun. f_equal. f_equal. lia.
  - unfold v2 in Hl3. cbn [disk set_disk set_pending pending ended sent] in Hl3.
    destruct quiet; [rewrite !app_nil_r in Hl3; rewrite app_nil_r|rewrite <- app_assoc, take_drop in Hl3]; exact Hl3.
Qed.

(** What the client makes of an answer that announces [n] bytes. *)
Lemma client_answer_ok turns fuel quiet nm n c more w v : (zlen c < n -> closes sd rep) -> rep w v ->
  is_str nm -> no_lf nm -> zlen nm < 256 ->
  zlen c <= n < 2 ^ 31 -> (zlen c < n -> more = [] /\ ended v = true) -> (length c < fuel)%nat -> (302 <= fuel)%nat ->
  pending v = nm ++ bytes_of "," ++ print_dec n ++ bytes_of ",Ok" ++ crlf ++ c ++ more ->
  exists w', loop_until_end (S turns) fuel quiet (Some nm) sd None w
      = Ok (if decide (zlen c = n) then Broke else Exited, w') /\
    rep w' (set_disk (set_stored (Some (if quiet then [] else c)) (disk v)) (set_pending more (set_sent (sent v ++ nm ++ crlf) v))).
Proof.
  intros Hclose Hw Hstr Hlf Hlen Hn Hm Hf Hf2 Hp. cbn [loop_until_end].
  assert (Forall (fun b => is_digit b = true) (print_dec n)) as Hdig by (apply print_dec_ok; lia).
  assert (Forall (fun b => 48 <= b <= 57) (print_dec n)) as Hd.
  { eapply Forall_impl; [exact Hdig|]. intros b Hb. unfold is_digit in Hb. by apply bool_decide_eq_true in Hb. }
  pose proof (length_print_dec n 31 ltac:(lia)) as Hpl.
  set (line := nm ++ 44 :: print_dec n ++ [44; 79; 107]).
  assert (zlen line < 292) as Hll by (unfold line; rewrite length_app; cbn [length]; rewrite length_app; cbn [length]; lia).
  assert (is_str line /\ no_lf line) as [Hls Hlline].
  { split; (apply Forall_app_2; [done|]; apply Forall_cons_2; [done|]; apply Forall_app_2;
      [eapply Forall_impl; [exact Hd|]; cbn; intros; lia|repeat (apply Forall_cons_2; [done|]); apply Forall_nil_2]). }
  rewrite decide_False by lia.
  destruct (aw_write _ _ Haw (nm ++ crlf) w v Hw) as (w1 & -> & Hl1). run_step. rewrite decide_False by lia.
  destruct (nvt_line line 1000 fuel 0 w1 _ (c ++ more) Hl1) as (w2 & -> & Hl2); [|done|lia|lia|].
  { cbn [pending set_sent]. rewrite Hp. unfold line. rewrite <- app_assoc.
    change (bytes_of ",") with [44]. change (bytes_of ",Ok") with [44; 79; 107]. cbn [app]. by rewrite <- app_assoc. }
  run_step. rewrite (c_str_id line) by done. unfold line.
  assert (44 ∉ print_dec n) as Hcomma by (intros Hin; rewrite Forall_forall in Hd; specialize (Hd _ Hin); lia).
  rewrite (app_comm_cons (print_dec n) [44; 79; 107] 44), app_assoc.
  rewrite (cut_last_app 44 (nm ++ 44 :: print_dec n) [79; 107]) by (by vm_compute; intros Hin; set_solver).
  rewrite (cut_last_app 44 nm (print_dec n)) by done. unfold read_length.
  rewrite <- (app_nil_r (print_dec n)), scan_print_dec by (done || lia). rewrite decide_True by lia. run_step.
  rewrite decide_False by lia.
  destruct (fw_fopen _ (disk_world _) w2 _ (rep_disk _ _ Hl2)) as (w3 & Hop & Hl3). rewrite Hop. cbn [negb].
  destruct (receive_file_ok quiet c fuel n w3 _ more [] Hl3 eq_refl eq_refl Hn Hm Hf) as (w4 & -> & Hl4).
  run_step. destruct (decide (zlen c = n)) as [He|He].
  - rewrite decide_False by lia. by exists w4.
  - rewrite decide_True by lia. destruct (Hclose ltac:(lia) w4 _ Hl4) as (r & w5 & -> & Hl5). by exists w5.
Qed.

(** And of an error line. *)
Lemma client_error_ok turns fuel quiet nm more w v : rep w v -> is_str nm -> no_lf nm -> zlen nm < 256 -> (302 <= fuel)%nat ->
  pending v = nm ++ bytes_of ",-1,File does not exist or access denied" ++ crlf ++ more ->
  exists w', loop_until_end (S turns) fuel quiet (Some nm) sd None w = Ok (Broke, w') /\
    rep w' (set_pending more (set_sent (sent v ++ nm ++ crlf) v)).
Proof.
  intros Hw Hstr Hlf Hlen Hf Hp. cbn [loop_until_end].
  set (msg := bytes_of "File does not exist or access denied").
  set (line := nm ++ 44 :: [45; 49] ++ 44 :: msg).
  assert (is_str line /\ no_lf line) as [Hls Hlline].
  { split; (apply Forall_app_2; [done|]).
    - apply (bool_decide_unpack (is_str (44 :: [45; 49] ++ 44 :: msg))). vm_compute. exact I.
    - apply (bool_decide_unpack (Forall (fun c => c <> 10) (44 :: [45; 49] ++ 44 :: msg))). vm_compute. exact I. }
  assert (zlen line < 300) as Hll by (unfold line; rewrite length_app; change (length (44 :: [45; 49] ++ 44 :: msg)) with 40%nat; lia).
  rewrite decide_False by lia.
  destruct (aw_write _ _ Haw (nm ++ crlf) w v Hw) as (w1 & -> & Hl1). run_step. rewrite decide_False by lia.
  destruct (nvt_line line 1000 fuel 0 w1 _ more Hl1) as (w2 & -> & Hl2); [|done|lia|lia|].
  { cbn [pending set_sent]. rewrite Hp. unfold line. by rewrite <- app_assoc. }
  run_step. rewrite (c_str_id line) by done. unfold line.
  change (44 :: [45; 49] ++ 44 :: msg) with ((44 :: [45; 49]) ++ 44 :: msg). rewrite app_assoc.
  rewrite (cut_last_app 44 (nm ++ 44 :: [45; 49]) msg).
  2:{ apply (bool_decide_unpack (44 ∉ msg)). vm_compute. exact I. }
  rewrite (cut_last_app 44 nm [45; 49]) by set_solver.
  by exists w2.
Qed.

(** The client asked for one file sends its name in a line.  When the
    answer announces [n] bytes it stores exactly the bytes that arrive (none in
    quiet mode), whatever pieces they come in; it leaves what follows in the
    stream, and exits with -1 when the stream ends before all have arrived,
    once the descriptor is closed.  On an error line it stores nothing. *)
Theorem client_correct turns fuel quiet nm w v : rep w v -> is_str nm -> no_lf nm -> zlen nm < 256 -> (302 <= fuel)%nat ->
  (forall n c more, (zlen c < n -> closes sd rep) ->
     zlen c <= n < 2 ^ 31 -> (zlen c < n -> more = [] /\ ended v = true) -> (length c < fuel)%nat ->
     pending v = nm ++ bytes_of "," ++ print_dec n ++ bytes_of ",Ok" ++ crlf ++ c ++ more ->
     exists w', loop_until_end (S turns) fuel quiet (Some nm) sd None w
         = Ok (if decide (zlen c = n) then Broke else Exited, w') /\
       rep w' (set_disk (set_stored (Some (if quiet then [] else c)) (disk v))
                 (set_pending more (set_sent (sent v ++ nm ++ crlf) v)))) /\
  (forall more, pending v = nm ++ bytes_of ",-1,File does not exist or access denied" ++ crlf ++ more ->
     exists w', loop_until_end (S turns) fuel quiet (Some nm) sd None w = Ok (Broke, w') /\
       rep w' (set_pending more (set_sent (sent v ++ nm ++ crlf) v))).
Proof.
  intros Hw Hs Hl Hlen Hf. split.
  - intros n c more Hclose Hn Hm Hc Hp. by apply client_answer_ok.
  - intros more Hp. by apply client_error_ok.
Qed.
End theorems.

(** ** The main functions *)

(** The exit statuses of the two programs when a call fails, and the assertion
    on the family of an accepted address. *)
Theorem main_statuses {W : Type} `{AppOS W} turns fuel :
  (forall port w bindsd w1, my_socket w = Ok (bindsd, w1) ->
     (bindsd < 0 -> server_main turns fuel port w = Ok (1, w1)) /\
     (0 <= bindsd -> forall r2 w2, my_bind bindsd (htons (u16 port)) w1 = Ok (r2, w2) ->
        (r2 < 0 -> server_main turns fuel port w = Ok (1, w2)) /\
        (0 <= r2 -> forall r3 w3, my_listen bindsd 5 w2 = Ok (r3, w3) ->
           (r3 < 0 -> server_main turns fuel port w = Ok (1, w3)) /\
           (0 <= r3 -> forall name w4 sd family w5, local_name bindsd w3 = Ok (name, w4) ->
              my_accept bindsd w4 = Ok (sd, family, w5) ->
              (sd < 0 -> server_main turns fuel port w = Ok (1, w5)) /\
              (0 <= sd -> family <> AF_INET -> server_main turns fuel port w = Crash Abort))))) /\
  (forall quiet filename pline w,
     (parse_address pline w = Ok None -> client_main turns fuel quiet filename pline w = Ok (1, w)) /\
     (forall a, parse_address pline w = Ok (Some (a, 0)) -> client_main turns fuel quiet filename pline w = Ok (1, w)) /\
     (forall a port sd w1, parse_address pline w = Ok (Some (a, port)) -> port <> 0 -> my_socket w = Ok (sd, w1) ->
        (sd < 0 -> client_main turns fuel quiet filename pline w = Ok (1, w1)) /\
        (forall r w2, 0 <= sd -> my_connect sd (a, port) w1 = Ok (r, w2) -> r < 0 ->
           client_main turns fuel quiet filename pline w = Ok (1, w2)))).
Proof.
  split.
  - intros port w bindsd w1 H1. unfold server_main. rewrite H1. run_step.
    split; [intros; by rewrite decide_True|]. intros Hb r2 w2 H2. rewrite decide_False by lia. rewrite H2. run_step.
    split; [intros; by rewrite decide_True|]. intros Hr2 r3 w3 H3. rewrite decide_False by lia. rewrite H3. run_step.
    split; [intros; by rewrite decide_True|]. intros Hr3 name w4 sd family w5 H4 H5. rewrite decide_False by lia.
    rewrite H4. run_step. rewrite H5. run_step.
    split; [intros; by rewrite decide_True|]. intros Hsd Hf. rewrite decide_False by lia. by rewrite bool_decide_false.
  - intros quiet filename pline w. unfold client_main. split_and!; [by intros ->|by intros a ->|].
    intros a port sd w1 -> Hp H1. run_step. rewrite decide_False by done. rewrite H1. run_step.
    split; [intros; by rewrite decide_True|]. intros r w2 Hsd H2 Hr. rewrite decide_False by lia. rewrite H2. run_step.
    by rewrite decide_True.
Qed.

(** ** Addresses *)

(** [parse_address] of a host and a printed port gives the address of the
    host and the port in network order, reduced to 16 bits; without a colon
    the port is 0; with a colon and no number it fails. *)
Theorem parse_address_correct {W} `{AppOS W} h (w : W) : 58 ∉ h ->
  (forall p, 0 <= p < 2 ^ 32 -> parse_address (h ++ 58 :: print_dec p) w
     = Ok ((fun a => (a, htons (p mod 2 ^ 16))) <$> match inet_addr h with Some a => Some a | None => os_gethostbyname h w end)) /\
  (parse_address h w = Ok ((fun a => (a, 0)) <$> match inet_addr h with Some a => Some a | None => os_gethostbyname h w end)) /\
  parse_address (h ++ [58]) w = Ok None.
Proof.
  intros Hh.
  assert (forall s, index (h ++ 58 :: s) 58 = Some (length h) /\ drop (S (length h)) (h ++ 58 :: s) = s) as Hi.
  { intros s. split.
    - induction h as [|b h IH]; [done|]. rewrite not_elem_of_cons in Hh. cbn [app index length].
      rewrite decide_False by naive_solver. by rewrite IH by naive_solver.
    - rewrite cons_middle, app_assoc. apply drop_app_length'. rewrite length_app. cbn [length]. lia. }
  assert (index h 58 = None) as Hno.
  { clear Hi. induction h as [|b h IH]; [done|]. rewrite not_elem_of_cons in Hh. cbn [index].
    rewrite decide_False by naive_solver. by rewrite IH by naive_solver. }
  unfold parse_address. split_and!.
  - intros p Hp. destruct (Hi (print_dec p)) as [-> ->]. rewrite <- (app_nil_r (print_dec p)), scan_print_dec by (done || lia).
    rewrite decide_True by lia. run_step. rewrite take_app_length. unfold u16. by destruct (inet_addr h).
  - rewrite Hno. run_step. by destruct (inet_addr h).
  - destruct (Hi []) as [-> ->]. done.
Qed.

(** ** A world of one byte per read *)

#[global] Instance files_os : FileOS view := {|
  os_gethostname _ := Some (bytes_of "host");
  os_access nm v := bool_decide (is_Some (content (disk v) !! nm));
  os_open nm v :=
    match content (disk v) !! nm with Some c => (3, set_disk (set_open (Some (3, c)) (disk v)) v) | None => (-1, v) end;
  os_size _ v := match open_file (disk v) with Some (_, c) => zlen c | None => 0 end;
  os_fread _ _ v :=
    match open_file (disk v) with
    | Some (fd, c) => (Some (take 1 c), set_disk (set_open (Some (fd, drop 1 c)) (disk v)) v)
    | None => (None, v)
    end;
  os_fclose _ v := set_disk (set_open None (disk v)) v;
  os_fopen _ v := (true, set_disk (set_stored (Some []) (disk v)) v);
  os_fput b v := set_disk (set_stored ((fun s => s ++ b) <$> stored (disk v)) (disk v)) v;
  os_gets _ v := (None, v);
  inet_addr h := if decide (h = bytes_of "127.0.0.1") then Some 0x0100007f else None;
  os_gethostbyname _ _ := None
|}.

#[global] Instance view_os : AppOS view := {|
  my_socket v := Ok (0, v);
  my_bind _ _ v := Ok (0, v);
  my_listen _ _ v := Ok (0, v);
  my_accept _ v := Ok (1, AF_INET, v);
  my_connect _ _ v := Ok (0, v);
  my_getsockname _ v := Ok (Some 0x901f, v);
  my_read _ n v :=
    match pending v with
    | [] => if ended v then Ok (Some [], v) else Crash Blocks
    | b :: p => Ok (Some [b], set_pending p v)
    end;
  my_write _ b v := Ok (zlen b, set_sent (sent v ++ b) v);
  my_close _ v := Ok (0, v)
|}.

(** The files of a view are working files, whatever is connected. *)
Lemma view_files p e o : file_world (fun (w : view) d => w = View p e o d).
Proof.
  constructor.
  - by intros nm w d ->.
  - intros nm c w d -> Hf. exists 3, (View p e o (set_open (Some (3, c)) d)). cbn. by rewrite Hf.
  - intros fd c n w d -> Ho Hn. cbn. rewrite Ho. destruct c as [|b c]; [left|right].
    + split; [done|]. eexists. split; [done|]. destruct d. cbn in *. by subst.
    + exists 1%nat. eexists. split; [lia|]. split; [lia|]. done.
  - by intros fd w d ->.
  - intros w d ->. by eexists.
  - by intros b w d ->.
Qed.

Lemma view_world sd : app_world sd (eq (A := view)).
Proof.
  constructor.
  - intros n w v -> Hn Hp. cbn. destruct (pending v) as [|b p]; [done|]. exists 1%nat. eexists.
    split; [lia|]. split; [lia|]. done.
  - intros n w v -> Hn Hp He. cbn. rewrite Hp, He. by eexists.
  - intros n w v -> Hn Hp He. cbn. by rewrite Hp, He.
  - intros b w v ->. by eexists.
  - apply view_files.
Qed.

Lemma view_closes sd : closes sd (eq (A := view)).
Proof. intros w v ->. by eexists _, v. Qed.

Definition sample_files : gmap (list Z) (list Z) := {[ bytes_of "a.txt" := [1; 13; 10; 0; 255] ]}.
Definition sample_disk : files := Files sample_files None None.
Definition sample_view (p : list Z) : view := View p true [] sample_disk.

Lemma name_a_ok : name_ok (bytes_of "a.txt").
Proof.
  split; [discriminate|]. split; [|split; [|reflexivity]].
  - apply (bool_decide_unpack (is_str (bytes_of "a.txt"))). vm_compute. exact I.
  - apply (bool_decide_unpack (Forall (fun c => c <> 10) (bytes_of "a.txt"))). vm_compute. exact I.
Qed.

Lemma sample_files_ok fuel nm c : sample_files !! nm = Some c -> zlen c < 2 ^ 31 /\ (length c < 302 + fuel)%nat.
Proof. intros Hf. unfold sample_files in Hf. apply lookup_singleton_Some in Hf as [_ <-]. cbn. split; lia. Qed.

Lemma server_correct_witness :
  exists w', do_connection 3 302 0 (sample_view (bytes_of "a.txt" ++ crlf ++ bytes_of "b" ++ crlf)) = Ok w' /\
    sent w' = bytes_of "a.txt,5,Ok" ++ crlf ++ [1; 13; 10; 0; 255] ++
              bytes_of "b,-1,File does not exist or access denied" ++ crlf.
Proof.
  destruct (server_correct 0 eq (view_world 0) [bytes_of "a.txt"; bytes_of "b"] 3 302
    (sample_view (bytes_of "a.txt" ++ crlf ++ bytes_of "b" ++ crlf)) _ [] (view_closes 0) eq_refl eq_refl) as (w' & Hrun & Hl).
  - apply Forall_cons_2; [exact name_a_ok|]. apply Forall_cons_2; [|apply Forall_nil_2].
    split; [discriminate|]. split; [apply Forall_cons_2; [discriminate|apply Forall_nil_2]|].
    split; [apply Forall_cons_2; [discriminate|apply Forall_nil_2]|reflexivity].
  - left. done.
  - reflexivity.
  - intros nm c Hf. destruct (sample_files_ok 0 nm c Hf). split; lia.
  - cbn. lia.
  - lia.
  - exists w'. split; [exact Hrun|]. rewrite Hl. vm_compute. reflexivity.
Defined.

(** Ten bytes are announced and two arrive. *)
Lemma client_correct_witness :
  exists w', loop_until_end 1 302 false (Some (bytes_of "a.txt")) 0 None
      (sample_view (bytes_of "a.txt,10,Ok" ++ crlf ++ [7; 8])) = Ok (Exited, w') /\ stored (disk w') = Some [7; 8].
Proof.
  destruct (client_correct 0 eq (view_world 0) 0 302 false (bytes_of "a.txt")
    (sample_view (bytes_of "a.txt,10,Ok" ++ crlf ++ [7; 8])) _ eq_refl) as [Hok _];
    [apply name_a_ok|apply name_a_ok|reflexivity|lia|].
  destruct (Hok 10 [7; 8] [] (fun _ => view_closes 0)) as (w' & Hrun & Hl); [cbn; lia|done|cbn; lia|reflexivity|].
  exists w'. split; [exact Hrun|]. rewrite Hl. reflexivity.
Defined.

Lemma nvt_line_correct_witness :
  (exists w', get_nvt_line 9 0 256 0 [] (sample_view (bytes_of "get it" ++ crlf ++ [9])) = Ok (Some (bytes_of "get it"), w') /\
     pending w' = [9]) /\
  get_nvt_line 9 0 4 0 [] (sample_view (bytes_of "get it" ++ crlf)) = Crash OutOfRange.
Proof.
  assert (no_lf (bytes_of "get it")) as Hlf
    by (apply (bool_decide_unpack (Forall (fun c => c <> 10) (bytes_of "get it"))); vm_compute; exact I).
  split.
  - destruct (nvt_line_correct 0 eq (view_world 0) (bytes_of "get it") 256 9
      (sample_view (bytes_of "get it" ++ crlf ++ [9])) _ [9] eq_refl Hlf ltac:(cbn; lia) ltac:(lia)) as (Hok & _).
    destruct (Hok eq_refl ltac:(reflexivity)) as (w' & Hrun & Hl). exists w'. split; [exact Hrun|].
    rewrite Hl. reflexivity.
  - apply (nvt_line_correct 0 eq (view_world 0) (bytes_of "get it") 4 9
      (sample_view (bytes_of "get it" ++ crlf)) _ crlf eq_refl Hlf ltac:(cbn; lia) ltac:(lia)); reflexivity.
Defined.

Lemma parse_address_correct_witness :
  parse_address (bytes_of "127.0.0.1" ++ 58 :: print_dec 8080) (sample_view []) = Ok (Some (0x0100007f, 0x901f)).
Proof.
  destruct (parse_address_correct (bytes_of "127.0.0.1") (sample_view [])) as [Hp _].
  - apply (bool_decide_unpack (58 ∉ bytes_of "127.0.0.1")). vm_compute. exact I.
  - rewrite (Hp 8080 ltac:(lia)). vm_compute. reflexivity.
Defined.
