(* ===== verification/AppLibrary.v ===== *)
(** * The file transfer programs over the mysocket layer

    Connects [FileTransfer.v] with [MysockApi.v]: the instance of [AppOS] whose
    calls are the mysocket layer of this repository, on its state, and the laws
    of the class for a descriptor to which the transport layer hands the
    stream in messages of one or two bytes.  Proved: with such messages the
    programs exchange files over the layer's queues; a longer message makes the
    first read of a line copy between overlapping bytes; and a server with no
    request left waits in [myread]. *)

From S2P Require Import Prelude Heap CString HashTable PacketQueue MysockTypes TcpSum TcpIo Mysock Demux StcpApi MysockApi FileTransfer.

Section library.
Context {T W : Type} `{KT : KeyedTable T Z positive} `{OS W} `{FileOS W}.
Implicit Types s : state T W.

(** Files and the resolver are the operating system's. *)
#[export] Instance lib_files : FileOS (state T W) := {|
  os_gethostname s := os_gethostname (world s);
  os_access nm s := os_access nm (world s);
  os_open nm s := let '(fd, w) := os_open nm (world s) in (fd, set_world w s);
  os_size fd s := os_size fd (world s);
  os_fread fd n s := let '(r, w) := os_fread fd n (world s) in (r, set_world w s);
  os_fclose fd s := set_world (os_fclose fd (world s)) s;
  os_fopen nm s := let '(ok, w) := os_fopen nm (world s) in (ok, set_world w s);
  os_fput b s := set_world (os_fput b (world s)) s;
  os_gets n s := let '(r, w) := os_gets n (world s) in (r, set_world w s);
  inet_addr := inet_addr (W := W);
  os_gethostbyname h s := os_gethostbyname h (world s)
|}.

Definition INADDR_ANY : Z := 0.

(** [myconnect] in the schedule where the new transport thread runs until it
    has unblocked the application and waits for its first event. *)
Definition connect_now (sd : Z) (sin : sockaddr_in) : MysockTypes.M T W Z :=
  rc ← myconnect sd sin 16;
  if decide (rc < 0) then mret rc else
  stcp_unblock_application sd;;
  myconnect_finish sd.

(** The bytes of a call of [myread] with a buffer of [n] bytes. *)
Definition read_bytes (sd n : Z) : MysockTypes.M T W (option (list Z)) :=
  '(len, b) ← myread sd (replicate (Z.to_nat n) 0) n;
  mret (if decide (len < 0) then None else Some (take (Z.to_nat len) b)).

#[export] Instance library : AppOS (state T W) := {|
  app_files := lib_files;
  my_socket := mysocket;
  my_bind sd port := mybind sd (Sockaddr AF_INET port INADDR_ANY);
  my_listen := mylisten;
  my_accept sd s :=
    '((r, addr), s) ← myaccept sd s; Ok (r, match addr with Some (a, _) => sa_family a | None => 0 end, s);
  my_connect sd '(a, port) := connect_now sd (Sockaddr AF_INET port a);
  my_getsockname sd s := '(sin, s) ← mygetsockname sd s; Ok (Some (sin_port sin), s);
  my_read := read_bytes;
  my_write sd b := mywrite sd b (zlen b);
  my_close := myclose 2
|}.

(** ** Two queues in one heap *)

Lemma owning_split {A} (h : heap A) l1 l2 rest : owning h (l1 ++ l2) rest ->
  owning h l1 (list_to_map l2 ∪ rest) /\
  forall h' l1', owning h' l1' (list_to_map l2 ∪ rest) -> owning h' (l1' ++ l2) rest.
Proof.
  intros (Hwf & Hnd & Hdisj & Hc). rewrite fmap_app in Hnd. apply NoDup_app in Hnd as (Hn1 & Hni & Hn2).
  rewrite list_to_map_app in Hdisj, Hc. apply map_disjoint_union_l in Hdisj as [Hd1 Hd2].
  assert ((list_to_map l1 : gmap positive A) ##ₘ list_to_map l2) as H12.
  { apply map_disjoint_dom, elem_of_disjoint. intros a. rewrite !dom_list_to_map_L, !elem_of_list_to_set. apply Hni. }
  split.
  - split_and!; [done|done|by apply map_disjoint_union_r|]. by rewrite Hc, (assoc_L (∪)).
  - intros h' l1' (Hwf' & Hnd' & Hdisj' & Hc'). apply map_disjoint_union_r in Hdisj' as [Hd1' Hd2'].
    split_and!; [done| | |].
    + rewrite fmap_app. apply NoDup_app. split; [done|]. split; [|done]. intros a Ha Hb.
      apply map_disjoint_dom in Hd1'. rewrite !dom_list_to_map_L in Hd1'. set_solver.
    + rewrite list_to_map_app. by apply map_disjoint_union_l.
    + by rewrite list_to_map_app, Hc', (assoc_L (∪)).
Qed.

Definition two_queues (h : nodes) (q1 : packet_queue_t) (m1 : list (list Z)) (q2 : packet_queue_t) (m2 : list (list Z)) : Prop :=
  exists l1 l2 rest, is_queue q1 l1 /\ is_queue q2 l2 /\ owning h (l1 ++ l2) rest /\
    m1 = message ∘ snd <$> l1 /\ m2 = message ∘ snd <$> l2.

Lemma two_queues_swap h q1 m1 q2 m2 : two_queues h q1 m1 q2 m2 -> two_queues h q2 m2 q1 m1.
Proof.
  intros (l1 & l2 & rest & H1 & H2 & Ho & E1 & E2). exists l2, l1, rest. split_and!; try done.
  eapply owning_perm; [apply Permutation_app_comm|done].
Qed.

(** Each of them can be used as if it were alone. *)
Lemma two_queues_first h q1 m1 q2 m2 : two_queues h q1 m1 q2 m2 ->
  exists rest, queue_rep h q1 m1 rest /\
    forall h' q1' m1', queue_rep h' q1' m1' rest -> two_queues h' q1' m1' q2 m2.
Proof.
  intros (l1 & l2 & rest & H1 & H2 & Ho & -> & ->). destruct (owning_split _ _ _ _ Ho) as [Ho1 Hback].
  exists (list_to_map l2 ∪ rest). split; [by exists l1|].
  intros h' q1' m1' (l1' & H1' & Ho' & ->). exists l1', l2, rest. split_and!; try done. by apply Hback.
Qed.

(** ** One read *)

Lemma set_eof_same c : eof c = false -> set_eof false c = c.
Proof. by destruct c; cbn; intros ->. Qed.

(** A removal takes as many bytes as it says. *)
Lemma spec_dequeue_length msgs n len bytes msgs' : 0 <= n -> spec_dequeue msgs n true = Got len bytes msgs' -> len = zlen bytes.
Proof.
  intros Hn. destruct msgs as [|m msgs]; [done|]. cbn [spec_dequeue]. rewrite andb_true_r.
  case_bool_decide; [case_decide; [|done]|]; intros [= <- <- <-]; rewrite length_take; lia.
Qed.

Lemma read_bytes_step s sd a c msgs rest n : app_socket s sd a c -> eof c = false -> 0 <= n ->
  queue_rep (queue_nodes s) (app_send_queue c) msgs rest ->
  match spec_dequeue msgs n true with
  | Waits => read_bytes sd n s = Crash Blocks
  | Undefined => read_bytes sd n s = Crash Overlap
  | Got len bytes msgs' => exists h q,
      let c' := set_eof (bool_decide (bytes = [])) (set_app_send_queue q c) in
      let s' := set_queue_nodes h (set_contexts (heap_put a c' (contexts s)) s) in
      read_bytes sd n s = Ok (Some bytes, s') /\ queue_rep h q msgs' rest
  end.
Proof.
  intros Ha He Hn Hq. pose proof Ha as (Hd & Hl & Hcr). pose proof Hd as (_ & _ & Hc & _).
  pose proof (m_dequeue_ok s a c app_send_queue set_app_send_queue msgs rest (replicate (Z.to_nat n) 0) n true Hc Hq) as Hdq.
  rewrite length_replicate in Hdq. specialize (Hdq ltac:(lia)). set (buf := replicate (Z.to_nat n) 0) in *.
  assert (myread sd buf n s = ('(len, buf) ← m_dequeue (Some a) app_send_queue set_app_send_queue buf n true;
    (if decide (len = 0) then update_ctx (Some a) (set_eof true) else mret tt);; mret (len, buf)) s) as Hrd.
  { unfold myread. erewrite m_bind_ok by (eapply get_context_ok; exact Hd). rewrite decide_False by done.
    m_step. rewrite Hl, Hcr. m_step. by rewrite He. }
  assert (forall f, m_dequeue (Some a) app_send_queue set_app_send_queue buf n true s = Crash f -> read_bytes sd n s = Crash f) as Hcrash.
  { intros f Hf. unfold read_bytes. fold buf. unfold mbind at 1, M_bind at 1. rewrite Hrd. unfold mbind at 1, M_bind at 1.
    by rewrite Hf. }
  destruct (spec_dequeue msgs n true) as [| |len bytes msgs'] eqn:Hsp; [by apply Hcrash|by apply Hcrash|].
  pose proof (spec_dequeue_length _ _ _ _ _ Hn Hsp) as ->. destruct Hdq as (h & q & Hdq & Hq'). exists h, q.
  cbv zeta. split; [|done]. unfold read_bytes. fold buf.
  set (s1 := set_queue_nodes h (set_contexts (heap_put a (set_app_send_queue q c) (contexts s)) s)) in *.
  set (s2 := set_queue_nodes h (set_contexts (heap_put a (set_eof _ _) (contexts s)) s)).
  assert (app_socket s1 sd a (set_app_send_queue q c)) as Ha1 by (by eapply app_socket_update).
  assert (myread sd buf n s = Ok ((zlen bytes, bytes ++ drop (length bytes) buf), s2)) as Hr.
  { rewrite Hrd. m_use Hdq. case_decide as Hz.
    - assert (bytes = []) as Hb by (destruct bytes; [done|cbn in Hz; lia]).
      erewrite m_bind_ok by (apply update_ctx_ok; apply Ha1). unfold s2, s1. cbn [contexts set_queue_nodes set_contexts].
      rewrite heap_put_put. by rewrite bool_decide_true.
    - rewrite m_bind_ok with (a := tt) (s' := s1) by done. unfold s2.
      rewrite bool_decide_false by (intros ->; by apply Hz). rewrite set_eof_same by done. reflexivity. }
  m_use Hr. rewrite decide_False by lia. cbn [mret M_ret]. rewrite Nat2Z.id.
  by rewrite take_app_length' by lia.
Qed.

Lemma read_bytes_eof s sd a c n : app_socket s sd a c -> eof c = true -> read_bytes sd n s = Ok (Some [], s).
Proof.
  intros (Hd & Hl & Hcr) He. unfold read_bytes.
  assert (myread sd (replicate (Z.to_nat n) 0) n s = Ok ((0, replicate (Z.to_nat n) 0), s)) as Hr.
  { unfold myread. erewrite m_bind_ok by (eapply get_context_ok; exact Hd). rewrite decide_False by done.
    pose proof Hd as (_ & _ & Hc & _). m_step. rewrite Hl, Hcr. m_step. by rewrite He. }
  m_use Hr. by rewrite take_0.
Qed.

(** ** A descriptor with a stream of short messages *)
Context (has : W -> files -> Prop) (Hfiles : file_world has).

(** What the transport layer has passed up and the application has not read:
    messages of one or two bytes and, when it has told the end of the stream,
    the empty message; once that is read the flag is set and nothing more is
    looked at. *)
Definition upward (c : mysock_context_t) (up : list (list Z)) (v : view) : Prop :=
  (eof c = false /\ exists msgs, Forall (fun m => 1 <= zlen m <= 2) msgs /\
     up = msgs ++ (if ended v then [[]] else []) /\ pending v = concat msgs) \/
  (eof c = true /\ ended v = true /\ pending v = []).

(** The state looks like [v] to the program that uses the descriptor. *)
Definition lib_rep (sd : Z) s (v : view) : Prop :=
  exists a c up down, app_socket s sd a c /\
    two_queues (queue_nodes s) (app_send_queue c) up (app_recv_queue c) down /\
    upward c up v /\ sent v = concat down /\ has (world s) (disk v).

Lemma lib_rep_world sd s v w d : lib_rep sd s v -> has w d -> lib_rep sd (set_world w s) (set_disk d v).
Proof.
  intros (a & c & up & down & Ha & Hq & Hu & Hs & _) Hw. exists a, c, up, down.
  destruct Ha as ((Hsd & Hg & Hc & Hm) & Hl & Hcr). by split_and!.
Qed.

(** Reading the first of the short messages. *)
Lemma spec_dequeue_short m msgs more n : 0 < n -> Forall (fun m => 1 <= zlen m <= 2) (m :: msgs) ->
  exists k msgs', (0 < k)%nat /\ Z.of_nat k <= n /\
    spec_dequeue ((m :: msgs) ++ more) n true = Got (Z.of_nat k) (take k (concat (m :: msgs))) (msgs' ++ more) /\
    Forall (fun m => 1 <= zlen m <= 2) msgs' /\ concat msgs' = drop k (concat (m :: msgs)).
Proof.
  intros Hn Hms. apply Forall_cons in Hms as [Hm Hms]. cbn [app spec_dequeue concat]. rewrite andb_true_r.
  case_bool_decide as Hlt.
  - rewrite decide_True by lia. exists (Z.to_nat n), (drop (Z.to_nat n) m :: msgs).
    split; [lia|]. split; [lia|]. rewrite Z2Nat.id by lia. rewrite take_app_le, drop_app_le by lia.
    split; [done|]. split; [|done]. apply Forall_cons. split; [rewrite length_drop; lia|done].
  - exists (length m), msgs. split; [lia|]. split; [lia|]. rewrite take_app_length, drop_app_length.
    by rewrite take_ge by lia.
Qed.

Lemma lib_read sd s v n : lib_rep sd s v -> 0 < n -> pending v <> [] ->
  exists k s', (0 < k)%nat /\ Z.of_nat k <= n /\ read_bytes sd n s = Ok (Some (take k (pending v)), s') /\
    lib_rep sd s' (set_pending (drop k (pending v)) v).
Proof.
  intros (a & c & up & down & Ha & Hq & [(He & msgs & Hms & -> & Hp)|(_ & _ & Hp)] & Hs & Hw) Hn Hne; [|done].
  destruct msgs as [|m msgs]; [done|].
  destruct (spec_dequeue_short m msgs (if ended v then [[]] else []) n Hn Hms) as (k & msgs' & Hk & Hkn & Hsp & Hms' & Hd).
  destruct (two_queues_first _ _ _ _ _ Hq) as (rest & Hq1 & Hback).
  pose proof (read_bytes_step s sd a c _ rest n Ha He ltac:(lia) Hq1) as Hr. rewrite Hsp in Hr.
  destruct Hr as (h & q & Hr & Hq'). rewrite <- Hp in Hr.
  rewrite bool_decide_false in Hr by (destruct (pending v), k; (done || lia)).
  rewrite set_eof_same in Hr by done.
  exists k. eexists. split; [done|]. split; [done|]. split; [exact Hr|].
  exists a, (set_app_send_queue q c), (msgs' ++ if ended v then [[]] else []), down. split_and!.
  - by eapply app_socket_update.
  - by apply Hback.
  - left. split; [done|]. exists msgs'. split; [done|]. split; [done|]. cbn [pending set_pending]. by rewrite Hd, Hp.
  - done.
  - done.
Qed.

Lemma lib_end sd s v n : lib_rep sd s v -> 0 < n -> pending v = [] -> ended v = true ->
  exists s', read_bytes sd n s = Ok (Some [], s') /\ lib_rep sd s' v.
Proof.
  intros Hrep Hn Hp Hend. pose proof Hrep as (a & c & up & down & Ha & Hq & Hu & Hs & Hw).
  destruct Hu as [(He & msgs & Hms & -> & Hpm)|(He & _ & _)].
  2:{ exists s. split; [by eapply read_bytes_eof|done]. }
  assert (msgs = []) as -> by (destruct Hms as [|m msgs Hm]; [done|]; rewrite Hp in Hpm; destruct m; [cbn in Hm; lia|done]).
  rewrite Hend in Hq. destruct (two_queues_first _ _ _ _ _ Hq) as (rest & Hq1 & Hback).
  pose proof (read_bytes_step s sd a c _ rest n Ha He ltac:(lia) Hq1) as Hr.
  cbn [spec_dequeue app] in Hr. rewrite bool_decide_false in Hr by (cbn; lia). cbn [andb] in Hr.
  destruct Hr as (h & q & Hr & Hq'). rewrite take_nil in Hr. rewrite bool_decide_true in Hr by done.
  eexists. split; [exact Hr|]. exists a, (set_eof true (set_app_send_queue q c)), [], down. split_and!.
  - by eapply app_socket_update.
  - by apply Hback.
  - by right.
  - done.
  - done.
Qed.

Lemma lib_wait sd s v n : lib_rep sd s v -> 0 < n -> pending v = [] -> ended v = false -> read_bytes sd n s = Crash Blocks.
Proof.
  intros (a & c & up & down & Ha & Hq & [(He & msgs & Hms & -> & Hp)|(_ & Hend & _)] & Hs & Hw) Hn Hnil Hend'; [|congruence].
  assert (msgs = []) as -> by (destruct Hms as [|m msgs Hm]; [done|]; rewrite Hnil in Hp; destruct m; [cbn in Hm; lia|done]).
  rewrite Hend' in Hq. destruct (two_queues_first _ _ _ _ _ Hq) as (rest & Hq1 & _).
  exact (read_bytes_step s sd a c _ rest n Ha He ltac:(lia) Hq1).
Qed.

Lemma lib_write sd s v b : lib_rep sd s v ->
  exists s', mywrite sd b (zlen b) s = Ok (zlen b, s') /\ lib_rep sd s' (set_sent (sent v ++ b) v).
Proof.
  intros (a & c & up & down & Ha & Hq & Hu & Hs & Hw). pose proof Ha as (Hd & Hl & Hcr). pose proof Hd as (_ & _ & Hc & _).
  destruct (two_queues_first _ _ _ _ _ (two_queues_swap _ _ _ _ _ Hq)) as (rest & Hq1 & Hback).
  destruct (m_enqueue_ok s a c app_recv_queue set_app_recv_queue down rest b (zlen b) Hc Hq1 ltac:(lia)) as (h & q & Heq & Hq').
  rewrite Nat2Z.id, firstn_all in Hq'. eexists. split.
  - unfold mywrite. erewrite m_bind_ok by (eapply get_context_ok; exact Hd). unfold MYSOCK_CHECK.
    rewrite bool_decide_true by done. m_step. rewrite Hl, Hcr. cbn [negb]. m_step. by m_use Heq.
  - exists a, (set_app_recv_queue q c), up, (down ++ [b]). split_and!.
    + by eapply app_socket_update.
    + by apply two_queues_swap, Hback.
    + exact Hu.
    + cbn [sent set_sent]. rewrite Hs, concat_app. cbn [concat]. by rewrite app_nil_r.
    + done.
Qed.

(** The files do not see the descriptor, nor the descriptor the files. *)
Lemma lib_files_world sd p e o : file_world (fun s d => lib_rep sd s (View p e o d)).
Proof.
  assert (forall s d, lib_rep sd s (View p e o d) -> has (world s) d) as Hhas by (by intros s d (? & ? & ? & ? & _ & _ & _ & _ & Hw)).
  assert (forall s d w d', lib_rep sd s (View p e o d) -> has w d' -> lib_rep sd (set_world w s) (View p e o d')) as Hset
    by (intros s d w d' Hs Hw; exact (lib_rep_world sd s _ w d' Hs Hw)).
  constructor.
  - intros nm s d Hs. exact (fw_access _ Hfiles nm (world s) d (Hhas s d Hs)).
  - intros nm c s d Hs Hc. destruct (fw_open _ Hfiles nm c (world s) d (Hhas s d Hs) Hc) as (fd & w & Ho & Hfd & Hsz & Hw).
    exists fd, (set_world w s). cbn. rewrite Ho. split_and!; [done|done|exact Hsz|by eapply Hset].
  - intros fd c n s d Hs Ho Hn. destruct (fw_fread _ Hfiles fd c n (world s) d (Hhas s d Hs) Ho Hn)
      as [(-> & w & Hr & Hw)|(k & w & Hk & Hkn & Hne & Hr & Hw)]; [left|right].
    + split; [done|]. exists (set_world w s). cbn. rewrite Hr. split; [done|by eapply Hset].
    + exists k, (set_world w s). cbn. rewrite Hr. split_and!; [done|done|done|done|by eapply Hset].
  - intros fd s d Hs. eapply Hset; [done|]. apply (fw_fclose _ Hfiles). by apply Hhas.
  - intros s d Hs. destruct (fw_fopen _ Hfiles (world s) d (Hhas s d Hs)) as (w & Ho & Hw).
    exists (set_world w s). cbn [os_fopen lib_files]. rewrite Ho. split; [done|by eapply Hset].
  - intros b s d Hs. eapply Hset; [done|]. apply (fw_fput _ Hfiles). by apply Hhas.
Qed.

(** The layer keeps the laws the programs rely on. *)
Lemma library_world sd : app_world sd (lib_rep sd).
Proof.
  constructor.
  - intros n s v Hs Hn Hp. by apply lib_read.
  - intros n s v Hs Hn Hp He. by apply lib_end.
  - intros n s v Hs Hn Hp He. by eapply lib_wait.
  - intros b s v Hs. by apply lib_write.
  - apply lib_files_world.
Qed.

(** ** The programs over the layer *)

(** A longer message: the first byte is taken from it and the rest is moved
    over itself. *)
Lemma long_message_overlaps s sd a c m msgs rest fuel cap last line : app_socket s sd a c -> eof c = false ->
  queue_rep (queue_nodes s) (app_send_queue c) (m :: msgs) rest -> 2 < zlen m ->
  get_nvt_line (S fuel) sd cap last line s = Crash Overlap.
Proof.
  intros Ha He Hq Hm. pose proof (read_bytes_step s sd a c _ rest 1 Ha He ltac:(lia) Hq) as Hr.
  cbn [spec_dequeue] in Hr. rewrite bool_decide_true in Hr by lia. cbn [andb] in Hr. rewrite decide_False in Hr by lia.
  cbn [get_nvt_line my_read library]. by rewrite Hr.
Qed.

(** C18: a file transferred over the mysocket layer of this repository, for a
    transport layer that passes the stream up in messages of one or two
    bytes.  A server whose descriptor holds the lines of a sequence of requests
    queues for its transport layer, in order, exactly what it answers to each,
    and then waits in [myread] for the next line.  A client whose descriptor
    holds the answer to its request queues the request, stores the file with
    the contents it has at the server, whatever they are, and leaves its loop;
    if the server has no such file it stores nothing.  But when the transport
    layer passes up more than two bytes in one message, the one-byte [myread]
    with which both programs start a line copies between overlapping bytes. *)
Theorem transfer_over_library fuel :
  (forall sd s v nms, lib_rep sd s v -> open_file (disk v) = None -> Forall name_ok nms ->
     pending v = concat ((fun nm => nm ++ crlf) <$> nms) -> ended v = false ->
     (forall nm c, content (disk v) !! nm = Some c -> zlen c < 2 ^ 64 /\ (length c < fuel)%nat) -> (258 <= fuel)%nat ->
     exists s', served sd fuel s nms s' /\
       lib_rep sd s' (set_pending [] (set_sent (sent v ++ concat (response (content (disk v)) <$> nms)) v)) /\
       get_nvt_line fuel sd 256 0 [] s' = Crash Blocks /\
       forall turns, do_connection (length nms + S turns) fuel sd s = Crash Blocks) /\
  (forall sd s v fs nm turns, lib_rep sd s v -> is_str nm -> no_lf nm -> zlen nm < 256 ->
     pending v = response fs nm -> (forall c, fs !! nm = Some c -> zlen c < 2 ^ 31 /\ (length c < fuel)%nat) -> (302 <= fuel)%nat ->
     exists s', loop_until_end (S turns) fuel false (Some nm) sd None s = Ok (Broke, s') /\
       lib_rep sd s' (set_pending [] (set_sent (sent v ++ nm ++ crlf)
         (set_disk (set_stored (match fs !! nm with Some c => Some c | None => stored (disk v) end) (disk v)) v)))) /\
  (forall sd s a c m msgs rest, app_socket s sd a c -> eof c = false ->
     queue_rep (queue_nodes s) (app_send_queue c) (m :: msgs) rest -> 2 < zlen m -> (0 < fuel)%nat ->
     forall turns, do_connection (S turns) fuel sd s = Crash Overlap).
Proof.
  split_and!.
  - intros sd s v nms Hs Ho Hn Hp He Hf Hfuel.
    destruct (requests_ok sd (lib_rep sd) (library_world sd) nms fuel s v [] Hs Ho Hn) as (s' & Hserved & Hs');
      [by rewrite app_nil_r|done|done|].
    assert (get_nvt_line fuel sd 256 0 [] s' = Crash Blocks) as Hwait
      by (apply (nvt_wait sd _ (library_world sd) [] 256 fuel 0 s' _ Hs'); [done|done|by apply Forall_nil|cbn; lia|cbn; lia]).
    exists s'. split; [done|]. split; [done|]. split; [done|]. intros turns.
    rewrite (served_run _ _ _ _ _ _ Hserved). cbn [do_connection]. by rewrite Hwait.
  - intros sd s v fs nm turns Hs Hstr Hlf Hlen Hp Hc Hfuel. unfold response in Hp.
    destruct (fs !! nm) as [c|] eqn:Hfile.
    + destruct (Hc c eq_refl) as [Hc31 Hcf].
      destruct (client_answer_ok sd _ (library_world sd) turns fuel false nm (zlen c) c [] s v) as (s' & Hrun & Hs');
        [lia|done|done|done|done|lia|lia|done|done|by rewrite app_nil_r|].
      rewrite decide_True in Hrun by done. exists s'. split; [done|exact Hs'].
    + destruct (client_error_ok sd _ (library_world sd) turns fuel false nm [] s v) as (s' & Hrun & Hs');
        [done|done|done|done|done|by rewrite app_nil_r|].
      exists s'. split; [done|]. destruct v as [? ? ? []]. exact Hs'.
  - intros sd s a c m msgs rest Ha He Hq Hm Hf turns. destruct fuel as [|f]; [lia|]. cbn [do_connection].
    by rewrite (long_message_overlaps s sd a c m msgs rest f).
Qed.
End library.

(** ** A descriptor of the sample state, with files *)

#[export] Instance both_os : OS (pipes * view) := {|
  os_socket w := let '(r, p) := os_socket w.1 in (r, (p, w.2));
  os_pipe w := let '(r, p) := os_pipe w.1 in (r, (p, w.2));
  os_close fd w := (os_close fd w.1, w.2);
  os_bind fd a w := let '(r, p) := os_bind fd a w.1 in (r, (p, w.2));
  os_listen fd n w := let '(r, p) := os_listen fd n w.1 in (r, (p, w.2));
  os_connect fd a w := let '(r, p) := os_connect fd a w.1 in (r, (p, w.2));
  os_accept fd w := let '(r, p) := os_accept fd w.1 in (r, (p, w.2));
  os_getsockname fd w := os_getsockname fd w.1;
  os_read fd n w := let '(r, p) := os_read fd n w.1 in (r, (p, w.2));
  os_write fd b w := let '(r, p) := os_write fd b w.1 in (r, (p, w.2));
  os_resolver := os_resolver (W := pipes)
|}.

#[export] Instance both_files : FileOS (pipes * view) := {|
  os_gethostname w := os_gethostname w.2;
  os_access nm w := os_access nm w.2;
  os_open nm w := let '(r, v) := os_open nm w.2 in (r, (w.1, v));
  os_size fd w := os_size fd w.2;
  os_fread fd n w := let '(r, v) := os_fread fd n w.2 in (r, (w.1, v));
  os_fclose fd w := (w.1, os_fclose fd w.2);
  os_fopen nm w := let '(r, v) := os_fopen nm w.2 in (r, (w.1, v));
  os_fput b w := (w.1, os_fput b w.2);
  os_gets n w := let '(r, v) := os_gets n w.2 in (r, (w.1, v));
  inet_addr := inet_addr (W := view);
  os_gethostbyname h w := os_gethostbyname h w.2
|}.

Definition both_has (w : pipes * view) (d : files) : Prop := w.2 = View [] false [] d.

Lemma both_world : file_world both_has.
Proof.
  pose proof (view_files [] false []) as F. constructor.
  - intros nm [p v] d Hv. exact (fw_access _ F nm v d Hv).
  - intros nm c [p v] d Hv Hc. destruct (fw_open _ F nm c v d Hv Hc) as (fd & v' & Ho & Hfd & Hsz & Hv').
    exists fd, (p, v'). cbn in Ho |- *. rewrite Ho. done.
  - intros fd c n [p v] d Hv Ho Hn. destruct (fw_fread _ F fd c n v d Hv Ho Hn) as [(-> & v' & Hr & Hv')|(k & v' & Hk & Hkn & Hne & Hr & Hv')];
      [left|right].
    + split; [done|]. exists (p, v'). cbn in Hr |- *. rewrite Hr. done.
    + exists k, (p, v'). cbn in Hr |- *. rewrite Hr. done.
  - intros fd [p v] d Hv. exact (fw_fclose _ F fd v d Hv).
  - intros [p v] d Hv. destruct (fw_fopen _ F v d Hv) as (v' & Ho & Hv'). exists (p, v').
    cbn [os_fopen both_files fst snd]. rewrite Ho. done.
  - intros b [p v] d Hv. exact (fw_fput _ F b v d Hv).
Qed.

#[local] Instance sample_table : KeyedTable (table Z positive) Z positive :=
  int_table positive 64 ltac:(lia).

(** Descriptor 0 with the stream [msgs], still open. *)
Definition state_with (h : nodes) (q : packet_queue_t) (d : files) : state (table Z positive) (pipes * view) :=
  let c := set_app_send_queue q (sample_context false) in
  State (Heap {[1%positive := c]} 2) (Some 1%positive :: replicate 63 NULL) h
    empty_heap empty_heap empty_heap empty_heap table_new 0 (∅, View [] false [] d).

Lemma two_queues_enqueue h q1 m1 q2 m2 b : two_queues h q1 m1 q2 m2 ->
  exists h' q1', two_queues h' q1' (m1 ++ [b]) q2 m2.
Proof.
  intros Hq. destruct (two_queues_first _ _ _ _ _ Hq) as (rest & Hq1 & Hback).
  destruct (enqueue_ok _ _ _ _ b (zlen b) Hq1 ltac:(lia)) as (h' & q1' & _ & Hq1').
  rewrite Nat2Z.id, firstn_all in Hq1'. exists h', q1'. by apply Hback.
Qed.

Lemma two_queues_of msgs : exists h q, two_queues h q msgs empty_queue [].
Proof.
  induction msgs as [|m msgs (h & q & Hq)] using rev_ind.
  - exists empty_heap, empty_queue. exists [], [], ∅. split_and!; try done.
    apply (owning_empty empty_heap heap_wf_empty).
  - by apply (two_queues_enqueue h q msgs _ _ m).
Qed.

Lemma state_with_rep msgs d : Forall (fun m => 1 <= zlen m <= 2) msgs ->
  exists h q, lib_rep both_has 0 (state_with h q d) (View (concat msgs) false [] d).
Proof.
  intros Hm. destruct (two_queues_of msgs) as (h & q & Hq). exists h, q.
  exists 1%positive, (set_app_send_queue q (sample_context false)), msgs, []. split_and!.
  - split; [by split_and!|done].
  - exact Hq.
  - left. split; [done|]. exists msgs. split; [done|]. by rewrite app_nil_r.
  - done.
  - done.
Qed.

Definition singles (s : list Z) : list (list Z) := (fun b => [b]) <$> s.
Lemma singles_ok s : Forall (fun m => 1 <= zlen m <= 2) (singles s) /\ concat (singles s) = s.
Proof.
  split; [apply Forall_fmap, Forall_true; intros b; cbn; lia|].
  induction s as [|b s IH]; [done|]. cbn. by f_equal.
Qed.

(** A request for a file of five bytes, and the answer, byte by byte. *)
Lemma transfer_over_library_witness :
  (exists s s' : state (table Z positive) (pipes * view), served 0 302 s [bytes_of "a.txt"] s' /\ do_connection 2 302 0 s = Crash Blocks /\
     lib_rep both_has 0 s (View (bytes_of "a.txt" ++ crlf) false [] sample_disk) /\
     lib_rep both_has 0 s' (View [] false (bytes_of "a.txt,5,Ok" ++ crlf ++ [1; 13; 10; 0; 255]) sample_disk)) /\
  (exists s s' : state (table Z positive) (pipes * view), loop_until_end 1 302 false (Some (bytes_of "a.txt")) 0 None s = Ok (Broke, s') /\
     lib_rep both_has 0 s (View (response sample_files (bytes_of "a.txt")) false [] (Files ∅ None None)) /\
     lib_rep both_has 0 s' (View [] false (bytes_of "a.txt" ++ crlf) (Files ∅ None (Some [1; 13; 10; 0; 255])))).
Proof.
  destruct (transfer_over_library both_has both_world 302) as (Hserver & Hclient & _). split.
  - set (p := bytes_of "a.txt" ++ crlf). destruct (singles_ok p) as [Hf Hcat].
    destruct (state_with_rep (singles p) sample_disk Hf) as (h & q & Hs). rewrite Hcat in Hs.
    destruct (Hserver 0 _ _ [bytes_of "a.txt"] Hs eq_refl) as (s' & Hserved & Hs' & _ & Hw).
    + apply Forall_singleton. exact name_a_ok.
    + reflexivity.
    + reflexivity.
    + intros nm c Hc. destruct (sample_files_ok 0 nm c Hc). split; lia.
    + lia.
    + exists (state_with h q sample_disk), s'. split; [exact Hserved|]. split; [exact (Hw 0%nat)|]. split; [exact Hs|exact Hs'].
  - set (p := response sample_files (bytes_of "a.txt")). destruct (singles_ok p) as [Hf Hcat].
    destruct (state_with_rep (singles p) (Files ∅ None None) Hf) as (h & q & Hs). rewrite Hcat in Hs.
    destruct name_a_ok as (_ & Hstr & Hlf & Hlen).
    destruct (Hclient 0 _ _ sample_files (bytes_of "a.txt") 0%nat Hs Hstr Hlf Hlen eq_refl) as (s' & Hrun & Hs').
    + intros c Hc. exact (sample_files_ok 0 _ c Hc).
    + lia.
    + exists (state_with h q (Files ∅ None None)), s'. split; [exact Hrun|]. split; [exact Hs|exact Hs'].
Defined.
