(* ===== verification/CommandLine.v ===== *)
(** * Command lines

    [getopt] as POSIX documents it, and the option loops at the start of
    [main] in [Assignment2/src/router/sr_main.c], [Assignment3/src/client.c]
    and [Assignment3/src/server.c].  Proved: options are read as they were
    written, separately from their arguments or together with them; each
    setting has the last value given or its default. *)

From S2P Require Import Prelude CString Sha1 SrInstance SrMain FileTransfer.

(** ** [getopt] *)

(** What it returns: an option, with [optarg] when it takes an argument, or
    ['?']. *)
Inductive opt : Type :=
| Flag (c : Z)
| With (c : Z) (optarg : list Z)
| Question.

(** Whether the option takes an argument; [None] when there is no such
    option. *)
Definition takes (optstring : list Z) (c : Z) : option bool :=
  if decide (c = 58) then None else
  (fun x => bool_decide (optstring !! S x.1 = Some 58)) <$> list_find (fun d => d = c) optstring.

(** The options in one argument, and the one that takes the next argument. *)
Fixpoint cluster (optstring cs : list Z) : list opt * option Z :=
  match cs with
  | [] => ([], None)
  | c :: cs =>
      match takes optstring c with
      | Some true => match cs with [] => ([], Some c) | _ => ([With c cs], None) end
      | Some false => let '(os, o) := cluster optstring cs in (Flag c :: os, o)
      | None => let '(os, o) := cluster optstring cs in (Question :: os, o)
      end
  end.

(** The letters of an argument that starts with a dash; a dash alone is not an
    option. *)
Definition letters (a : list Z) : option (list Z) :=
  match a with
  | b :: (_ :: _) as cs => if decide (b = 45) then Some cs else None
  | _ => None
  end.

(** What the calls of [getopt] return until [EOF], and the operands that are
    left from [optind] on.  GNU's version moves operands behind the options
    ([permute]); others stop at the first. *)
Fixpoint getopt (permute : bool) (optstring : list Z) (args : list (list Z)) : list opt * list (list Z) :=
  match args with
  | [] => ([], [])
  | a :: args =>
      if decide (a = [45; 45]) then ([], args) else
      match letters a with
      | Some cs =>
          let '(os, o) := cluster optstring cs in
          match o with
          | None => let '(os', ops) := getopt permute optstring args in (os ++ os', ops)
          | Some c =>
              match args with
              | [] => (os ++ [Question], [])
              | optarg :: args =>
                  let '(os', ops) := getopt permute optstring args in (os ++ With c optarg :: os', ops)
              end
          end
      | None =>
          if permute then let '(os, ops) := getopt permute optstring args in (os, a :: ops)
          else ([], a :: args)
      end
  end.

(** ** The router *)

Definition DEFAULT_PORT : Z := 8888.
Definition DEFAULT_TOPO : Z := 0.
Definition DEFAULT_HOST : list Z := bytes_of "vrhost".
Definition DEFAULT_SERVER : list Z := bytes_of "localhost".
Definition DEFAULT_RTABLE : list Z := bytes_of "rtable".
Definition router_optstring : list Z := bytes_of "hs:v:p:u:t:r:l:T:".

Definition default_command : options :=
  Options DEFAULT_HOST None DEFAULT_SERVER DEFAULT_RTABLE None DEFAULT_PORT DEFAULT_TOPO None.

(** The [switch]; [None] is [exit(0)] after [usage]. *)
Definition router_option (o : opt) (m : options) : option options :=
  let '(Options host user server rtable template port topo logfile) := m in
  match o with
  | Flag c =>
      if decide (c = 104) then None else Some m
  | With c optarg =>
      Some (if decide (c = 112) then Options host user server rtable template (u32 (atoi optarg)) topo logfile
      else if decide (c = 116) then Options host user server rtable template port (u32 (atoi optarg)) logfile
      else if decide (c = 118) then Options optarg user server rtable template port topo logfile
      else if decide (c = 117) then Options host (Some optarg) server rtable template port topo logfile
      else if decide (c = 115) then Options host user optarg rtable template port topo logfile
      else if decide (c = 108) then Options host user server rtable template port topo (Some optarg)
      else if decide (c = 114) then Options host user server optarg template port topo logfile
      else if decide (c = 84) then Options host user server rtable (Some optarg) port topo logfile
      else m)
  | Question => Some m
  end.

Fixpoint router_options (os : list opt) (m : options) : option options :=
  match os with
  | [] => Some m
  | o :: os => m ← router_option o m; router_options os m
  end.

(** Operands are ignored. *)
Definition router_command (permute : bool) (args : list (list Z)) : option options :=
  router_options (getopt permute router_optstring args).1 default_command.

(** The whole program: the exit status, and the router it ends with. *)
Definition router_program {V : Type} `{SrOS V} (inet_aton : list Z -> option Z) (permute : bool) (turns fuel : nat)
    (args : list (list Z)) (raw : sr_instance V) (sha1 : SHA1Context) (clock : nat -> Z)
    : run (Z * option (sr_instance V)) :=
  match router_command permute args with
  | None => Ok (0, None)
  | Some opts => main inet_aton turns fuel opts raw sha1 clock
  end.

(** ** The file-transfer programs *)

Definition client_optstring : list Z := bytes_of "f:q".

(** [filename], [quiet_opt] and [errflg]. *)
Definition client_option (o : opt) (m : option (list Z) * Z * Z) : option (list Z) * Z * Z :=
  let '(filename, quiet_opt, errflg) := m in
  match o with
  | With c optarg => if decide (c = 102) then (Some optarg, quiet_opt, errflg) else m
  | Flag c => if decide (c = 113) then (filename, quiet_opt + 1, errflg) else m
  | Question => (filename, quiet_opt, errflg + 1)
  end.

Section programs.
Context {W : Type} `{AppOS W}.

(** [main] of the client, from its arguments on; the exit status. *)
Definition client_program (permute : bool) (turns fuel : nat) (args : list (list Z)) (w : W) : run (Z * W) :=
  let '(os, ops) := getopt permute client_optstring args in
  let '(filename, quiet_opt, errflg) := foldl (fun m o => client_option o m) (None, 0, 0) os in
  match ops with
  | [pline] => if decide (errflg <> 0) then Ok (1, w)
               else client_main turns fuel (bool_decide (quiet_opt <> 0)) filename pline w
  | _ => Ok (1, w)
  end.

(** [main] of the server, from its arguments on. *)
Definition server_program (turns fuel : nat) (args : list (list Z)) (w : W) : run (Z * W) :=
  match args with
  | [port] => server_main turns fuel (atoi port) w
  | _ => Ok (0, w)
  end.
End programs.

(** ** Reading what was written *)

(** An option as it is written: in one argument with its own argument
    ([true]), or in two. *)
Definition spelled (x : bool * opt) : list (list Z) :=
  match x with
  | (_, Flag c) => [[45; c]]
  | (true, With c optarg) => [45 :: c :: optarg]
  | (false, With c optarg) => [[45; c]; optarg]
  | (_, Question) => []
  end.

Definition spelled_ok (optstring : list Z) (x : bool * opt) : Prop :=
  match x.2 with
  | Flag c => takes optstring c = Some false /\ c <> 45
  | With c optarg => takes optstring c = Some true /\ c <> 45 /\ (x.1 = true -> optarg <> [])
  | Question => False
  end.

(** An argument that is not taken for an option. *)
Definition operand (a : list Z) : Prop := letters a = None.

Lemma letters_dash c cs : letters (45 :: c :: cs) = Some (c :: cs).
Proof. done. Qed.

Lemma getopt_spelled permute optstring xs rest : Forall (spelled_ok optstring) xs ->
  getopt permute optstring (concat (spelled <$> xs) ++ rest)
  = (xs.*2 ++ (getopt permute optstring rest).1, (getopt permute optstring rest).2).
Proof.
  induction 1 as [|[b o] xs Ho _ IH]; [cbn [fmap list_fmap concat app]; by destruct (getopt permute optstring rest)|].
  rewrite !fmap_cons. cbn [concat]. rewrite <- app_assoc.
  unfold spelled_ok in Ho. cbn [fst snd] in Ho |- *. destruct o as [c|c a|]; [| |done].
  - destruct Ho as [Ht Hc]. replace (spelled (b, Flag c)) with [[45; c]] by (by destruct b). cbn [app getopt].
    rewrite decide_False by congruence. rewrite letters_dash. cbn [cluster]. rewrite Ht. cbn. by rewrite IH.
  - destruct Ho as (Ht & Hc & Ha). destruct b.
    + cbn [spelled app getopt]. rewrite decide_False by congruence. rewrite letters_dash. cbn [cluster]. rewrite Ht.
      destruct a as [|a0 a]; [by destruct Ha|]. cbn. by rewrite IH.
    + cbn [spelled app getopt]. rewrite decide_False by congruence. rewrite letters_dash. cbn [cluster]. rewrite Ht. cbn. by rewrite IH.
Qed.

Lemma getopt_operands permute optstring ops : Forall operand ops -> getopt permute optstring ops = ([], ops).
Proof.
  induction 1 as [|a ops Ha _ IH]; [done|]. cbn [getopt]. rewrite decide_False by (intros ->; discriminate Ha).
  rewrite Ha, IH. by destruct permute.
Qed.

(** The arguments of the option [c], and whether a flag was given. *)
Definition given (c : Z) (os : list opt) : option (list Z) :=
  last (omap (fun o => match o with With d optarg => if decide (d = c) then Some optarg else None | _ => None end) os).
Definition flagged (c : Z) (os : list opt) : bool :=
  existsb (fun o => match o with Flag d => bool_decide (d = c) | _ => false end) os.

Lemma given_cons c o os : given c (o :: os) =
  match given c os with
  | Some a => Some a
  | None => match o with With d optarg => if decide (d = c) then Some optarg else None | _ => None end
  end.
Proof.
  unfold given. cbn [omap list_omap]. destruct o as [d|d a|]; cbn;
    [by destruct (last _)| |by destruct (last _)].
  destruct (decide (d = c)); [|by destruct (last _)]. rewrite last_cons. by destruct (last _).
Qed.

Lemma given_skip c o os : match o with With d _ => d <> c | _ => True end -> given c (o :: os) = given c os.
Proof.
  intros Ho. rewrite given_cons. destruct o as [d|d a|]; try (by destruct (given c os)).
  rewrite decide_False by done. by destruct (given c os).
Qed.
Lemma given_set c a os : given c (With c a :: os) = Some (default a (given c os)).
Proof. rewrite given_cons, decide_True by done. by destruct (given c os). Qed.

(** Drop the settings of other options. *)
Ltac skip_given :=
  repeat match goal with
    | |- context [given ?k (With ?d _ :: _)] => first [rewrite (given_set k) | rewrite (given_skip k) by (cbn; lia)]
    | |- context [given ?k (_ :: _)] => rewrite (given_skip k) by done
    end.

(** What the router makes of its options, from the settings [m]. *)
Definition settings (os : list opt) (m : options) : options :=
  let '(Options host user server rtable template port topo logfile) := m in
  let set {A} (f : list Z -> A) (c : Z) (old : A) := match given c os with Some a => f a | None => old end in
  Options (set id 118 host) (set Some 117 user) (set id 115 server) (set id 114 rtable)
    (set Some 84 template) (set (fun a => u32 (atoi a)) 112 port) (set (fun a => u32 (atoi a)) 116 topo)
    (set Some 108 logfile).

Lemma router_options_ok os : forall m,
  router_options os m = if flagged 104 os then None else Some (settings os m).
Proof.
  induction os as [|o os IH]; intros m; [by destruct m|].
  cbn [router_options]. destruct m as [host user server rtable template port topo logfile].
  cbn [flagged existsb]. fold (flagged 104 os).
  destruct o as [c|c a|]; cbn [router_option].
  - case_decide as Hc; [by rewrite bool_decide_true|]. rewrite bool_decide_false by done. cbn [mbind option_bind orb].
    rewrite IH. unfold settings. by skip_given.
  - cbn [mbind option_bind orb]. rewrite IH. destruct (flagged 104 os); [done|]. f_equal.
    unfold settings. repeat case_decide; subst; skip_given; try done;
      match goal with |- context [default a ?g] => by destruct g end.
  - cbn [mbind option_bind orb]. rewrite IH. unfold settings. by skip_given.
Qed.

Lemma client_options_ok os : forall f q, 0 <= q -> Question ∉ os -> exists q',
  foldl (fun m o => client_option o m) (f, q, 0) os
  = (match given 102 os with Some a => Some a | None => f end, q', 0) /\ q <= q' /\
  bool_decide (q' <> 0) = bool_decide (q <> 0) || flagged 113 os.
Proof.
  induction os as [|o os IH]; intros f q Hq Hno.
  { exists q. split; [done|]. split; [lia|]. by rewrite orb_false_r. }
  rewrite not_elem_of_cons in Hno. destruct Hno as [Ho Hno]. cbn [foldl flagged existsb]. fold (flagged 113 os).
  rewrite given_cons. destruct o as [c|c a|]; [| |done]; cbn [client_option].
  - case_decide as Hc.
    + destruct (IH f (q + 1) ltac:(lia) Hno) as (q' & Hr & Hle & Hb). exists q'. split; [by destruct (given 102 os)|].
      split; [lia|]. rewrite (bool_decide_true (c = 113)) by done. rewrite orb_true_l, orb_true_r.
      apply bool_decide_true. lia.
    + destruct (IH f q Hq Hno) as (q' & Hr & Hle & Hb). exists q'. split; [by destruct (given 102 os)|].
      split; [lia|]. by rewrite (bool_decide_false (c = 113)).
  - case_decide as Hc.
    + destruct (IH (Some a) q Hq Hno) as (q' & Hr & Hle & Hb). exists q'. by split; [destruct (given 102 os)|].
    + destruct (IH f q Hq Hno) as (q' & Hr & Hle & Hb). exists q'. by split; [destruct (given 102 os)|].
Qed.

Lemma spelled_no_question optstring xs : Forall (spelled_ok optstring) xs -> Question ∉ xs.*2.
Proof.
  intros Hxs Hin. apply list_elem_of_fmap in Hin as ([b o] & Ho & Hin). cbn in Ho. subst o.
  rewrite Forall_forall in Hxs. by specialize (Hxs _ Hin).
Qed.

(** C39: command lines are read as they are written.  Options of the router,
    each with its argument in the same word or the next, in any order and
    followed by any operands, set every variable to the last value given for
    it and leave the others at their defaults, and the router starts with
    these settings; [-h] anywhere among them ends the program with status 0.  A port written in decimal is that port.  The file-transfer
    client needs exactly one operand, the address, and the server exactly one
    argument, the port. *)
Theorem command_lines_read {W : Type} `{AppOS W} permute xs ys ops turns fuel (w : W) :
  Forall (spelled_ok router_optstring) xs -> Forall (spelled_ok client_optstring) ys -> Forall operand ops ->
  router_command permute (concat (spelled <$> xs) ++ ops)
  = (if flagged 104 xs.*2 then None else Some (settings xs.*2 default_command)) /\
  (forall (V : Type) (HV : SrOS V) inet_aton (raw : sr_instance V) sha1 clock,
     router_program inet_aton permute turns fuel (concat (spelled <$> xs) ++ ops) raw sha1 clock
     = if flagged 104 xs.*2 then Ok (0, None)
       else main inet_aton turns fuel (settings xs.*2 default_command) raw sha1 clock) /\
  (forall port, given 112 xs.*2 = Some (print_dec port) -> 0 <= port < 2 ^ 31 ->
     o_port (settings xs.*2 default_command) = port) /\
  client_program permute turns fuel (concat (spelled <$> ys) ++ ops) w
  = match ops with
    | [pline] => client_main turns fuel (flagged 113 ys.*2) (given 102 ys.*2) pline w
    | _ => Ok (1, w)
    end /\
  (forall port, 0 <= port < 2 ^ 31 ->
     server_program turns fuel [print_dec port] w = server_main turns fuel port w).
Proof.
  intros Hxs Hys Hops.
  assert (forall port, 0 <= port < 2 ^ 31 -> atoi (print_dec port) = port) as Hport.
  { intros port Hp. unfold atoi, strtol. rewrite <- (app_nil_r (print_dec port)), scan_print_dec by (lia || done).
    change (default 0 (Some port)) with port. rewrite to_int_small; lia. }
  assert (router_command permute (concat (spelled <$> xs) ++ ops)
    = if flagged 104 xs.*2 then None else Some (settings xs.*2 default_command)) as Hcmd.
  { unfold router_command. rewrite getopt_spelled, getopt_operands by done. cbn [fst]. rewrite app_nil_r.
    apply router_options_ok. }
  split; [exact Hcmd|]. split; [|split; [|split]].
  - intros V HV inet_aton raw sha1 clock. unfold router_program. rewrite Hcmd. by destruct (flagged 104 xs.*2).
  - intros port Hg Hp. unfold settings, default_command. cbn [o_port]. rewrite Hg, Hport by done.
    apply u32_small. lia.
  - unfold client_program. rewrite getopt_spelled, getopt_operands by done. cbn [fst snd]. rewrite app_nil_r.
    destruct (client_options_ok ys.*2 None 0 ltac:(lia) (spelled_no_question _ _ Hys)) as (q & -> & _ & Hb).
    rewrite Hb. cbn [orb]. destruct ops as [|p [|? ?]]; [done| |done].
    rewrite decide_False by lia. by destruct (given 102 ys.*2).
  - intros port Hp. unfold server_program. by rewrite Hport.
Qed.

(** The router with a server, a port given twice and a user; the client with a
    file name. *)
Lemma command_lines_read_witness :
  router_command true (map bytes_of ["-s"; "vns.edu"; "-p80"; "-u"; "me"; "-p"; "8080"; "here"])
  = Some (Options (bytes_of "vrhost") (Some (bytes_of "me")) (bytes_of "vns.edu") (bytes_of "rtable") None 8080 0 None) /\
  client_program true 1 302 (map bytes_of ["-f"; "a.txt"; "-q"; "here"]) (sample_view [])
  = client_main 1 302 true (Some (bytes_of "a.txt")) (bytes_of "here") (sample_view []).
Proof.
  destruct (command_lines_read true
    [(false, With 115 (bytes_of "vns.edu")); (true, With 112 (bytes_of "80")); (false, With 117 (bytes_of "me"));
     (false, With 112 (bytes_of "8080"))]
    [(false, With 102 (bytes_of "a.txt")); (true, Flag 113)] [bytes_of "here"] 1 302 (sample_view []))
    as (Hr & _ & _ & Hc & _).
  - repeat (apply Forall_cons_2; [split_and!; by vm_compute|]). apply Forall_nil_2.
  - repeat (apply Forall_cons_2; [split_and!; by vm_compute|]). apply Forall_nil_2.
  - by apply Forall_singleton.
  - split; [exact Hr|exact Hc].
Defined.
