(* ===== verification/Talk.v ===== *)
(** * The message client and server of Assignment 0

    Models [Assignment0/client.c] and [Assignment0/server.c]: a client that
    sends its standard input over a TCP connection and a server that copies
    every connection it accepts to its standard output, one after the other.
    Proved: which address each program uses, that a message arrives as it was
    typed when the client's [send]s take all they are given, and what is lost,
    unnoticed, when they do not. *)

From S2P Require Import Prelude CString.

(** The calls; an address is what [getaddrinfo] returns, and [None] its
    failure.  [tk_send]: its result, [None] when the signal it raises on a
    broken connection ends the program; the programs do not handle [SIGPIPE].
    [tk_recv]: the bytes received, [None] for -1. *)
Class TalkOS (W : Type) := {
  tk_getaddrinfo : list Z -> list Z -> W -> option (list (list Z));
  tk_socket : list Z -> W -> Z * W;
  tk_connect : Z -> list Z -> W -> Z * W;
  tk_setsockopt : Z -> W -> Z * W;   (* SO_REUSEADDR *)
  tk_bind : Z -> list Z -> W -> Z * W;
  tk_listen : Z -> Z -> W -> Z * W;
  tk_accept : Z -> W -> Z * W;
  tk_send : Z -> list Z -> W -> option Z * W;
  tk_recv : Z -> Z -> W -> option (list Z) * W;
  tk_close : Z -> W -> W;
  tk_fread : Z -> W -> list Z * W;   (* standard input *)
  tk_fwrite : list Z -> W -> W   (* standard output *)
}.

Definition SEND_BUFFER_SIZE : Z := 2048.
Definition RECV_BUFFER_SIZE : Z := 2048.
Definition QUEUE_LENGTH : Z := 10.

(** How a program ends, or that it is still in its loop. *)
Inductive ending : Type := Returned (code : Z) | Exited (code : Z) | Killed | Serving.

Section code.
Context {W : Type} `{TalkOS W}.

(** ** The client *)

(** The loop over the addresses: the last value of [sockfd].  The test after
    [break] is never reached. *)
Fixpoint connect_loop (p : list (list Z)) (sockfd : option Z) (w : W) : option Z * W :=
  match p with
  | [] => (sockfd, w)
  | addr :: p =>
      let '(fd, w) := tk_socket addr w in
      if decide (fd = -1) then connect_loop p (Some fd) w else
      let '(r, w) := tk_connect fd addr w in
      if decide (r = -1) then connect_loop p (Some fd) (tk_close fd w) else (Some fd, w)
  end.

(** [while ((x = fread(...)) > 0) send(...)]: a failed [send] is reported.  The
    flag tells whether the loop ended. *)
Fixpoint send_loop (fuel : nat) (sockfd : Z) (w : W) : run (bool * W) :=
  match tk_fread SEND_BUFFER_SIZE w with
  | ([], w) => Ok (true, w)
  | (buff, w) =>
      match fuel with
      | O => Crash Fuel
      | S fuel =>
          match tk_send sockfd buff w with
          | (None, w) => Ok (false, w)
          | (Some _, w) => send_loop fuel sockfd w
          end
      end
  end.

Definition client (fuel : nat) (server_ip server_port : list Z) (w : W) : run (ending * W) :=
  match tk_getaddrinfo server_ip server_port w with
  | None => Ok (Returned 1, w)
  | Some servinfo =>
      let '(sockfd, w) := connect_loop servinfo None w in
      fd ← need Uninit sockfd;
      '(ok, w) ← send_loop fuel fd w;
      Ok (if ok : bool then (Returned 0, tk_close fd w) else (Killed, w))
  end.

(** [args] are the arguments of the command. *)
Definition client_main (fuel : nat) (args : list (list Z)) (w : W) : run (ending * W) :=
  match args with
  | [server_ip; server_port] => client fuel server_ip server_port w
  | _ => Ok (Exited 1, w)
  end.

(** ** The server *)

(** The loop that finds an address to listen at: [None] when [setsockopt]
    fails, which ends the program. *)
Fixpoint bind_loop (p : list (list Z)) (sockfd : option Z) (w : W) : option (option Z) * W :=
  match p with
  | [] => (Some sockfd, w)
  | addr :: p =>
      let '(fd, w) := tk_socket addr w in
      if decide (fd = -1) then bind_loop p (Some fd) w else
      let '(r, w) := tk_setsockopt fd w in
      if decide (r = -1) then (None, w) else
      let '(r, w) := tk_bind fd addr w in
      if decide (r = -1) then bind_loop p (Some fd) (tk_close fd w) else (Some (Some fd), w)
  end.

(** [while ((abc = recv(...)) > 0) fwrite(...)] *)
Fixpoint copy_loop (fuel : nat) (new_fd : Z) (w : W) : run W :=
  match fuel with
  | O => Crash Fuel
  | S fuel =>
      match tk_recv new_fd RECV_BUFFER_SIZE w with
      | (None, w) => Ok w
      | (Some [], w) => Ok w
      | (Some buff, w) => copy_loop fuel new_fd (tk_fwrite buff w)
      end
  end.

(** The state after some turns of the [accept] loop, which never ends. *)
Fixpoint accept_loop (turns fuel : nat) (sockfd : Z) (w : W) : run W :=
  match turns with
  | O => Ok w
  | S turns =>
      let '(new_fd, w) := tk_accept sockfd w in
      if decide (new_fd = -1) then accept_loop turns fuel sockfd w else
      w ← copy_loop fuel new_fd w;
      accept_loop turns fuel sockfd (tk_close new_fd w)
  end.

Definition server (turns fuel : nat) (server_port : list Z) (w : W) : run (ending * W) :=
  match tk_getaddrinfo (bytes_of "127.0.0.1") server_port w with
  | None => Ok (Returned 1, w)
  | Some servinfo =>
      match bind_loop servinfo None w with
      | (None, w) => Ok (Exited 1, w)
      | (Some sockfd, w) =>
          fd ← need Uninit sockfd;
          let '(r, w) := tk_listen fd QUEUE_LENGTH w in
          if decide (r = -1) then Ok (Exited 1, w) else
          w ← accept_loop turns fuel fd w;
          Ok (Serving, w)
      end
  end.

Definition server_main (turns fuel : nat) (args : list (list Z)) (w : W) : run (ending * W) :=
  match args with [server_port] => server turns fuel server_port w | _ => Ok (Exited 1, w) end.
End code.

(** ** Choosing an address *)

(** Addresses at which no connection can be made: each has no socket, or a
    socket that cannot connect and is closed.  [fd] is the last value of
    [sockfd]. *)
Inductive refused {W} `{TalkOS W} : list (list Z) -> option Z -> W -> option Z -> W -> Prop :=
| refused_nil fd w : refused [] fd w fd w
| refused_no_socket addr p fd w w1 fd' w' :
    tk_socket addr w = (-1, w1) -> refused p (Some (-1)) w1 fd' w' -> refused (addr :: p) fd w fd' w'
| refused_connect addr p fd w n w1 w2 fd' w' :
    tk_socket addr w = (n, w1) -> n <> -1 -> tk_connect n addr w1 = (-1, w2) ->
    refused p (Some n) (tk_close n w2) fd' w' -> refused (addr :: p) fd w fd' w'.

(** The client uses the first address that can be connected to and looks at no
    other; if there is none it goes on with the descriptor of the last attempt,
    which it has closed, or with -1. *)
Definition connects_to {W} `{TalkOS W} (servinfo : list (list Z)) (w : W) (fd : Z) (w' : W) : Prop :=
  (exists before addr after last w1 w2 r, servinfo = before ++ addr :: after /\ refused before None w last w1 /\
     tk_socket addr w1 = (fd, w2) /\ fd <> -1 /\ tk_connect fd addr w2 = (r, w') /\ r <> -1) \/
  refused servinfo None w (Some fd) w'.

Lemma connect_loop_refused {W} `{TalkOS W} before fd w fd' w' rest : refused before fd w fd' w' ->
  connect_loop (before ++ rest) fd w = connect_loop rest fd' w'.
Proof.
  induction 1 as [|addr p fd w w1 fd' w' Hs _ IH|addr p fd w n w1 w2 fd' w' Hs Hn Hc _ IH]; [done|..];
    cbn [app connect_loop]; rewrite Hs.
  - by rewrite decide_True.
  - by rewrite decide_False, Hc, decide_True.
Qed.

Lemma connect_loop_ok {W} `{TalkOS W} servinfo w fd w' : connects_to servinfo w fd w' ->
  connect_loop servinfo None w = (Some fd, w').
Proof.
  intros [(before & addr & after & last & w1 & w2 & r & -> & Hr & Hs & Hfd & Hc & Hne)|Hr].
  - rewrite (connect_loop_refused _ _ _ _ _ _ Hr). cbn [connect_loop]. by rewrite Hs, decide_False, Hc, decide_False.
  - rewrite <- (app_nil_r servinfo). by rewrite (connect_loop_refused _ _ _ _ _ _ Hr).
Qed.

(** Addresses that cannot be bound to. *)
Inductive unbound {W} `{TalkOS W} : list (list Z) -> option Z -> W -> option Z -> W -> Prop :=
| unbound_nil fd w : unbound [] fd w fd w
| unbound_no_socket addr p fd w w1 fd' w' :
    tk_socket addr w = (-1, w1) -> unbound p (Some (-1)) w1 fd' w' -> unbound (addr :: p) fd w fd' w'
| unbound_bind addr p fd w n w1 r w2 w3 fd' w' :
    tk_socket addr w = (n, w1) -> n <> -1 -> tk_setsockopt n w1 = (r, w2) -> r <> -1 -> tk_bind n addr w2 = (-1, w3) ->
    unbound p (Some n) (tk_close n w3) fd' w' -> unbound (addr :: p) fd w fd' w'.

(** The server listens at the first address it can bind to. *)
Definition binds_to {W} `{TalkOS W} (infos : list (list Z)) (w : W) (fd : Z) (w' : W) : Prop :=
  exists before addr after last w1 w2 r w3 b, infos = before ++ addr :: after /\ unbound before None w last w1 /\
    tk_socket addr w1 = (fd, w2) /\ fd <> -1 /\ tk_setsockopt fd w2 = (r, w3) /\ r <> -1 /\
    tk_bind fd addr w3 = (b, w') /\ b <> -1.

Lemma bind_loop_unbound {W} `{TalkOS W} before fd w fd' w' rest : unbound before fd w fd' w' ->
  bind_loop (before ++ rest) fd w = bind_loop rest fd' w'.
Proof.
  induction 1 as [|addr p fd w w1 fd' w' Hs _ IH|addr p fd w n w1 r w2 w3 fd' w' Hs Hn Ho Hr Hb _ IH]; [done|..];
    cbn [app bind_loop]; rewrite Hs.
  - by rewrite decide_True.
  - by rewrite decide_False, Ho, decide_False, Hb, decide_True.
Qed.

Lemma bind_loop_ok {W} `{TalkOS W} infos w fd w' : binds_to infos w fd w' ->
  bind_loop infos None w = (Some (Some fd), w').
Proof.
  intros (before & addr & after & last & w1 & w2 & r & w3 & b & -> & Hu & Hs & Hfd & Ho & Hr & Hb & Hne).
  rewrite (bind_loop_unbound _ _ _ _ _ _ Hu). cbn [bind_loop].
  by rewrite Hs, decide_False, Ho, decide_False, Hb, decide_False.
Qed.

(** ** The client's side *)

(** Of the pieces the input is read in, prefixes are sent; [Q piece k] is what
    is known of the length [k] of the prefix of a piece.  The flag tells
    whether the loop came to its end; if not, the program was killed by the
    [send] of a further piece. *)
Inductive sent_of (Q : list Z -> nat -> Prop) : bool -> list Z -> list Z -> Prop :=
| sent_all : sent_of Q true [] []
| sent_killed input : input <> [] -> sent_of Q false input []
| sent_piece ok input k s :
    input <> [] -> Q (take (Z.to_nat SEND_BUFFER_SIZE) input) k ->
    sent_of Q ok (drop (Z.to_nat SEND_BUFFER_SIZE) input) s ->
    sent_of Q ok input (take k (take (Z.to_nat SEND_BUFFER_SIZE) input) ++ s).

Lemma sent_of_whole (Q : list Z -> nat -> Prop) ok input s : (forall piece k, Q piece k -> k = length piece) ->
  sent_of Q ok input s -> exists rest, input = s ++ rest /\ (ok = true <-> rest = []).
Proof.
  intros HQ. induction 1 as [|input Hne|ok input k s Hne Hk _ (rest & Hi & Hok)].
  - by exists [].
  - by exists input.
  - exists rest. split; [|done]. apply HQ in Hk as ->. rewrite firstn_all, <- app_assoc, <- Hi. by rewrite take_drop.
Qed.

Lemma sent_of_none (Q : list Z -> nat -> Prop) ok input s : (forall piece k, Q piece k -> k = 0%nat) ->
  sent_of Q ok input s -> s = [].
Proof. intros HQ. by induction 1 as [|input Hne|ok input k s _ ->%HQ _ ->]. Qed.

(** Standard input is a file or a pipe that is read to its end; [send] takes a
    prefix of what it is given, or fails, or ends the program. *)
Record talk_client {W} `{TalkOS W} (fd : Z) (input sent : W -> list Z) (Q : list Z -> nat -> Prop) : Prop := {
  tc_fread n w : 0 < n -> exists w', tk_fread n w = (take (Z.to_nat n) (input w), w') /\
    input w' = drop (Z.to_nat n) (input w) /\ sent w' = sent w;
  tc_send b w : b <> [] ->
    (exists k r w', tk_send fd b w = (Some r, w') /\ Q b k /\ sent w' = sent w ++ take k b /\ input w' = input w) \/
    (exists w', tk_send fd b w = (None, w') /\ sent w' = sent w)
}.

Lemma send_loop_ok {W} `{TalkOS W} fd input sent Q : talk_client fd input sent Q -> forall fuel w,
  (length (input w) <= fuel)%nat ->
  exists ok w' s, send_loop fuel fd w = Ok (ok, w') /\ sent w' = sent w ++ s /\ sent_of Q ok (input w) s.
Proof.
  intros [Hread Hsend] fuel. induction fuel as [|fuel IH]; intros w Hf; cbn [send_loop];
    destruct (Hread SEND_BUFFER_SIZE w eq_refl) as (w1 & -> & Hi1 & Hs1).
  - destruct (input w) as [|b l] eqn:Hin; [|cbn in Hf; lia]. rewrite take_nil.
    exists true, w1, []. split; [done|]. rewrite app_nil_r. split; [done|constructor].
  - destruct (take (Z.to_nat SEND_BUFFER_SIZE) (input w)) as [|b l] eqn:Hin.
    + assert (input w = []) as Hnil by (destruct (input w); [done|by vm_compute in Hin]).
      exists true, w1, []. rewrite Hnil. split; [done|]. rewrite app_nil_r. split; [done|constructor].
    + assert (input w <> []) as Hne by (intros Hnil; by rewrite Hnil, take_nil in Hin).
      destruct (Hsend (b :: l) w1 ltac:(done)) as [(k & r & w2 & -> & HQ & Hs2 & Hi2)|(w2 & -> & Hs2)].
      2:{ exists false, w2, []. split; [done|]. rewrite app_nil_r, Hs2, Hs1. split; [done|by apply sent_killed]. }
      destruct (IH w2) as (ok & w' & s & Hrun & Hs & Hof).
      { rewrite Hi2, Hi1, length_drop. unfold SEND_BUFFER_SIZE. destruct (input w); [done|cbn in *; lia]. }
      exists ok, w', (take k (b :: l) ++ s). split; [done|]. split; [by rewrite Hs, Hs2, Hs1, <- app_assoc|].
      rewrite <- Hin. apply sent_piece; [done|by rewrite Hin|]. by rewrite <- Hi1, <- Hi2.
Qed.

(** ** The server's side *)

(** The pieces in which the bytes of a connection are received, to its end or
    to an error; each is written before the next call. *)
Inductive delivers {W} `{TalkOS W} (fd : Z) : W -> list (list Z) -> W -> Prop :=
| delivers_end w r w' : tk_recv fd RECV_BUFFER_SIZE w = (r, w') -> r = None \/ r = Some [] -> delivers fd w [] w'
| delivers_more w c w1 cs w' :
    tk_recv fd RECV_BUFFER_SIZE w = (Some c, w1) -> c <> [] -> delivers fd (tk_fwrite c w1) cs w' ->
    delivers fd w (c :: cs) w'.

(** Successive turns of the [accept] loop, with the pieces of each connection;
    a turn whose [accept] fails has none. *)
Inductive sessions {W} `{TalkOS W} (sockfd : Z) : W -> list (list (list Z)) -> W -> Prop :=
| sessions_end w : sessions sockfd w [] w
| sessions_fail w w1 css w' :
    tk_accept sockfd w = (-1, w1) -> sessions sockfd w1 css w' -> sessions sockfd w ([] :: css) w'
| sessions_conn w fd w1 cs w2 css w' :
    tk_accept sockfd w = (fd, w1) -> fd <> -1 -> delivers fd w1 cs w2 -> sessions sockfd (tk_close fd w2) css w' ->
    sessions sockfd w (cs :: css) w'.

(** Only [fwrite] changes what has been printed. *)
Record prints {W} `{TalkOS W} (stdout : W -> list Z) : Prop := {
  pr_fwrite c w : stdout (tk_fwrite c w) = stdout w ++ c;
  pr_recv fd n w : stdout (tk_recv fd n w).2 = stdout w;
  pr_accept fd w : stdout (tk_accept fd w).2 = stdout w;
  pr_close fd w : stdout (tk_close fd w) = stdout w
}.

Lemma copy_loop_ok {W} `{TalkOS W} stdout fd w cs w' : prints stdout -> delivers fd w cs w' -> forall fuel,
  (length cs < fuel)%nat -> copy_loop fuel fd w = Ok w' /\ stdout w' = stdout w ++ concat cs.
Proof.
  intros Hp. induction 1 as [w r w' Hr Hend|w c w1 cs w' Hr Hc _ IH]; intros fuel Hf;
    (destruct fuel as [|fuel]; [cbn in Hf; lia|]); cbn [copy_loop]; rewrite Hr;
    pose proof (pr_recv _ Hp fd RECV_BUFFER_SIZE w) as Hs; rewrite Hr in Hs; cbn [snd] in Hs.
  - rewrite app_nil_r. by destruct Hend as [-> | ->].
  - destruct c as [|b c]; [done|]. destruct (IH fuel) as [Hrun Hout]; [cbn in Hf; lia|]. split; [done|].
    by rewrite Hout, (pr_fwrite _ Hp), Hs, <- app_assoc.
Qed.

Lemma accept_loop_ok {W} `{TalkOS W} stdout sockfd w css w' : prints stdout -> sessions sockfd w css w' -> forall fuel,
  (length (concat css) < fuel)%nat ->
  accept_loop (length css) fuel sockfd w = Ok w' /\ stdout w' = stdout w ++ concat (concat css).
Proof.
  intros Hp. induction 1 as [w|w w1 css w' Ha _ IH|w fd w1 cs w2 css w' Ha Hfd Hd _ IH]; intros fuel Hf;
    cbn [length accept_loop]; [by rewrite app_nil_r|..]; cbn [concat] in *; rewrite ?length_app in Hf; rewrite Ha;
    pose proof (pr_accept _ Hp sockfd w) as Hs; rewrite Ha in Hs; cbn [snd] in Hs.
  - rewrite decide_True by done. cbn [app]. destruct (IH fuel) as [Hrun Hout]; [cbn in Hf; lia|].
    split; [done|]. by rewrite Hout, Hs.
  - rewrite decide_False by done. destruct (copy_loop_ok stdout fd w1 cs w2 Hp Hd fuel) as [-> Hc]; [lia|]. run_step.
    destruct (IH fuel) as [Hrun Hout]; [lia|]. split; [done|].
    by rewrite Hout, (pr_close _ Hp), Hc, Hs, concat_app, <- app_assoc.
Qed.

(** ** A message *)

(** C26: the message client and server of Assignment 0.  A client whose
    [getaddrinfo] fails returns 1.  Otherwise it uses the first address it can
    connect to, reads its input to the end and sends, of every piece of 2048
    bytes, what [send] takes of it; it then returns 0 whatever [send] returned,
    unless a [send] on a broken connection has killed it.  When [send] always
    takes everything the bytes sent are the whole input or, for a client that
    was killed, a proper prefix of it; when [send] always fails nothing is sent
    and 0 is returned all the same.  A server whose [getaddrinfo] fails
    returns 1; otherwise it binds the first address it can, exits with 1 when
    it cannot listen there, and otherwise prints every connection it accepts,
    in order and however it is cut into pieces, and goes on after an [accept]
    that fails.  So a message sent whole is printed as it is between those
    before and after it. *)
Theorem talk_correct {Wc Ws : Type} `{TalkOS Wc} `{TalkOS Ws} fuel ip port :
  (forall wc : Wc, tk_getaddrinfo ip port wc = None -> client fuel ip port wc = Ok (Returned 1, wc)) /\
  (forall (wc : Wc) fd wc1 servinfo input sent Q,
     tk_getaddrinfo ip port wc = Some servinfo -> connects_to servinfo wc fd wc1 ->
     talk_client fd input sent Q -> (length (input wc1) <= fuel)%nat ->
     exists ok wc2 s,
       client fuel ip port wc = Ok (if ok : bool then (Returned 0, tk_close fd wc2) else (Killed, wc2)) /\
       sent wc2 = sent wc1 ++ s /\ sent_of Q ok (input wc1) s /\
       ((forall piece k, Q piece k -> k = 0%nat) -> s = []) /\
       ((forall piece k, Q piece k -> k = length piece) ->
          exists rest, input wc1 = s ++ rest /\ (ok = true <-> rest = []))) /\
  (forall sfuel turns sport (ws : Ws), tk_getaddrinfo (bytes_of "127.0.0.1") sport ws = None ->
     server turns sfuel sport ws = Ok (Returned 1, ws)) /\
  (forall sport (ws : Ws) infos sfd ws1 r ws2,
     tk_getaddrinfo (bytes_of "127.0.0.1") sport ws = Some infos -> binds_to infos ws sfd ws1 ->
     tk_listen sfd QUEUE_LENGTH ws1 = (r, ws2) ->
     (r = -1 -> forall turns sfuel, server turns sfuel sport ws = Ok (Exited 1, ws2)) /\
     (r <> -1 -> forall before pieces after ws3 stdout sfuel, prints stdout ->
        sessions sfd ws2 (before ++ pieces :: after) ws3 ->
        (length (concat (before ++ pieces :: after)) < sfuel)%nat ->
        server (length (before ++ pieces :: after)) sfuel sport ws = Ok (Serving, ws3) /\
        stdout ws3 = stdout ws2 ++ concat (concat before) ++ concat pieces ++ concat (concat after))).
Proof.
  split_and!.
  - intros wc Hga. unfold client. by rewrite Hga.
  - intros wc fd wc1 servinfo input sent Q Hga Hcon Hc Hf. apply connect_loop_ok in Hcon.
    destruct (send_loop_ok fd input sent Q Hc fuel wc1 Hf) as (ok & wc2 & s & Hrun & Hs & Hof).
    exists ok, wc2, s. split; [unfold client; rewrite Hga, Hcon; run_step; by rewrite Hrun|]. split; [done|]. split; [done|].
    split; [intros HQ; by eapply sent_of_none|intros HQ; by eapply sent_of_whole].
  - intros sfuel turns sport ws Hga. unfold server. by rewrite Hga.
  - intros sport ws infos sfd ws1 r ws2 Hg Hb Hl. apply bind_loop_ok in Hb. unfold server. rewrite Hg, Hb. run_step.
    rewrite Hl. split; [intros -> turns sfuel; by rewrite decide_True|].
    intros Hr before pieces after ws3 stdout sfuel Hp Hss Hsf. rewrite decide_False by done.
    destruct (accept_loop_ok stdout sfd ws2 _ ws3 Hp Hss sfuel Hsf) as [-> Hout]. split; [done|].
    rewrite Hout, concat_app, concat_app. cbn [concat]. by rewrite concat_app.
Qed.

(** ** A message in memory *)

Record toy_net : Type := ToyNet {
  typed : list Z;   (* standard input *)
  wire : list Z;   (* what the client sent *)
  waiting : list (list (list Z));   (* the connections to accept, in pieces *)
  current : list (list Z);   (* the pieces of the connection accepted *)
  printed : list Z   (* standard output *)
}.

#[global] Instance toy_talk_os : TalkOS toy_net := {|
  tk_getaddrinfo _ _ _ := Some [[127; 0; 0; 1]];
  tk_socket _ w := (3, w);
  tk_connect _ _ w := (0, w);
  tk_setsockopt _ w := (0, w);
  tk_bind _ _ w := (0, w);
  tk_listen _ _ w := (0, w);
  tk_accept _ w :=
    match waiting w with
    | [] => (-1, w)
    | c :: cs => (4, ToyNet (typed w) (wire w) cs c (printed w))
    end;
  tk_send _ b w := (Some (zlen b), ToyNet (typed w) (wire w ++ b) (waiting w) (current w) (printed w));
  tk_recv _ _ w :=
    match current w with
    | [] => (Some [], w)
    | p :: ps => (Some p, ToyNet (typed w) (wire w) (waiting w) ps (printed w))
    end;
  tk_close _ w := w;
  tk_fread n w := (take (Z.to_nat n) (typed w), ToyNet (drop (Z.to_nat n) (typed w)) (wire w) (waiting w) (current w) (printed w));
  tk_fwrite b w := ToyNet (typed w) (wire w) (waiting w) (current w) (printed w ++ b)
|}.

Lemma toy_client fd : talk_client fd typed wire (fun b k => k = length b).
Proof.
  split.
  - intros n w _. eexists. by split.
  - intros b w _. left. exists (length b), (zlen b). eexists. split; [reflexivity|]. split; [done|]. cbn.
    by rewrite firstn_all.
Qed.

Lemma toy_prints : prints printed.
Proof. split; try done; intros; cbn; [by destruct (current w)|by destruct (waiting w)]. Qed.

Lemma talk_correct_witness :
  (exists e w, client 2 (bytes_of "localhost") (bytes_of "80") (ToyNet (bytes_of "hi") [] [] [] []) = Ok (e, w)) /\
  exists w, server 2 4 (bytes_of "80") (ToyNet [] [] [[bytes_of "oh "]; [bytes_of "h"; bytes_of "i"]] [] []) = Ok (Serving, w) /\
    printed w = bytes_of "oh hi".
Proof.
  destruct (talk_correct (Wc := toy_net) (Ws := toy_net) 2 (bytes_of "localhost") (bytes_of "80")) as (_ & Hclient & _ & Hserver).
  split.
  - destruct (Hclient (ToyNet (bytes_of "hi") [] [] [] []) 3 (ToyNet (bytes_of "hi") [] [] [] []) [[127; 0; 0; 1]] typed wire
      (fun b k => k = length b) eq_refl) as (ok & w & s & Hrun & _); [|apply toy_client|cbn; lia|].
    + left. exists [], [127; 0; 0; 1], [], None. do 2 eexists. exists 0. split; [reflexivity|]. split; [apply refused_nil|].
      split; [reflexivity|]. split; [lia|]. split; [reflexivity|lia].
    + destruct ok; eexists _, _; exact Hrun.
  - set (ws := ToyNet [] [] [[bytes_of "oh "]; [bytes_of "h"; bytes_of "i"]] [] []).
    destruct (Hserver (bytes_of "80") ws [[127; 0; 0; 1]] 3 ws 0 ws eq_refl) as [_ Hs]; [|reflexivity|].
    { exists [], [127; 0; 0; 1], [], None. do 2 eexists. exists 0. eexists. exists 0. split; [reflexivity|].
      split; [apply unbound_nil|]. split; [reflexivity|]. split; [lia|]. split; [reflexivity|]. split; [lia|].
      split; [reflexivity|lia]. }
    destruct (Hs ltac:(lia) [[bytes_of "oh "]] [bytes_of "h"; bytes_of "i"] []
      (ToyNet [] [] [] [] (bytes_of "oh hi")) printed 4%nat) as [Hserve Hout]; [apply toy_prints| |cbn; lia|].
    + eapply (sessions_conn _ _ 4); [reflexivity|lia| |].
      { eapply delivers_more; [reflexivity|discriminate|]. eapply delivers_end; [reflexivity|by right]. }
      eapply (sessions_conn _ _ 4); [reflexivity|lia| |].
      { eapply delivers_more; [reflexivity|discriminate|]. eapply delivers_more; [reflexivity|discriminate|].
        eapply delivers_end; [reflexivity|by right]. }
      apply sessions_end.
    + eexists. split; [exact Hserve|exact Hout].
Defined.
